(** * wslsync: the synchronisation engine, its configuration check and its
      path utilities, embedded in Rocq

    The development follows the Python sources:
    - [src/wslsync/config.py]  ([WSLSyncConfig], [validate_config]),
    - [src/wslsync/sync.py]    ([WSLSyncEngine] and its methods),
    - [src/wslsync/utils.py]   ([is_path_safe], [format_file_size]).

    The engine works on a file system through [pathlib], [shutil] and [os].
    That environment is modelled first: a directory tree, POSIX path
    resolution over it (with [..] followed to the parent directory), and the
    library calls the engine makes.  The model has no symbolic links and no
    special files; access rights are reduced to a set of directories whose
    listing is refused whatever their mode (as an access policy of the
    system does), and to the record of the modes that [os.chmod] sets. *)

From Stdlib Require Import List String Ascii Bool Arith ZArith Lia.
From Stdlib Require DecimalString Decimal DecimalN.
Import ListNotations.
Local Open Scope string_scope.
Local Open Scope list_scope.

Set Implicit Arguments.

(* ===================================================================== *)
(** * Exceptions and the state-and-exception monad *)
(* ===================================================================== *)

(** The Python exception classes that the sources raise or let through.
    All but [ValueError] and [OverflowError] are subclasses of [OSError];
    [OSError msg] itself stands for a plain [OSError] (or a subclass the
    sources never distinguish, such as [shutil.Error]). *)
Inductive exn : Type :=
| ValueError (msg : string)
| FileNotFoundError (msg : string)
| PermissionError (msg : string)
| NotADirectoryError (msg : string)
| IsADirectoryError (msg : string)
| FileExistsError (msg : string)
| OSError (msg : string)
| OverflowError (msg : string).

(** [except PermissionError] *)
Definition is_PermissionError (e : exn) : bool :=
  match e with PermissionError _ => true | _ => false end.

(** [except OSError] *)
Definition is_OSError (e : exn) : bool :=
  match e with
  | ValueError _ | OverflowError _ => false
  | _ => true
  end.

Inductive result (A : Type) : Type :=
| Ok (a : A)
| Raise (e : exn).
Arguments Ok {A} a.
Arguments Raise {A} e.

Module PathModel.

(* ===================================================================== *)
(** * Paths ([pathlib.PurePosixPath]) *)
(* ===================================================================== *)

(** A path is its anchor (absolute or not) and its components.  [pathlib]
    drops empty components and [.] when it parses a string, and keeps
    [..]. *)
Record Path : Type := mkPath { absolute : bool; parts : list string }.

Definition slash : ascii := "/"%char.

(** Split at every ["/"]: [split_slash "a//b" = ["a"; ""; "b"]]. *)
Fixpoint split_slash (s : string) : list string :=
  match s with
  | EmptyString => [EmptyString]
  | String c r =>
      if Ascii.eqb c slash then EmptyString :: split_slash r
      else match split_slash r with
           | [] => [String c EmptyString]
           | w :: ws => String c w :: ws
           end
  end.

Definition keep_part (s : string) : bool :=
  negb (String.eqb s "" || String.eqb s ".").

Definition starts_with_slash (s : string) : bool :=
  match s with
  | String c _ => Ascii.eqb c slash
  | EmptyString => false
  end.

(** [Path(s)] *)
Definition Path_of_string (s : string) : Path :=
  mkPath (starts_with_slash s) (filter keep_part (split_slash s)).

(** [p / q] for a path [q]: an absolute right operand replaces the left one. *)
Definition joinpath (p q : Path) : Path :=
  if absolute q then q else mkPath (absolute p) (parts p ++ parts q).

(** [p / s] for a string [s] *)
Definition join (p : Path) (s : string) : Path := joinpath p (Path_of_string s).

(** [str(p)] *)
Definition str (p : Path) : string :=
  match absolute p, parts p with
  | true, ps => "/" ++ String.concat "/" ps
  | false, [] => "."
  | false, ps => String.concat "/" ps
  end.

(** [p.parent]: the root and the empty relative path are their own parent. *)
Definition parent (p : Path) : Path :=
  mkPath (absolute p) (removelast (parts p)).

(** [p.name] *)
Definition name (p : Path) : string := last (parts p) "".

Definition parts_eqb (a b : list string) : bool :=
  if list_eq_dec String.string_dec a b then true else false.

(** [p == q] *)
Definition Path_eqb (p q : Path) : bool :=
  Bool.eqb (absolute p) (absolute q) && parts_eqb (parts p) (parts q).

(** [a] is a prefix of [b], component by component. *)
Fixpoint is_prefix (a b : list string) : bool :=
  match a, b with
  | [], _ => true
  | x :: a', y :: b' => String.eqb x y && is_prefix a' b'
  | _ :: _, [] => false
  end.

(** [p.relative_to(base)]: the components of [p] after those of [base];
    [None] stands for the [ValueError] pathlib raises. *)
Definition relative_to (p base : Path) : option Path :=
  if Bool.eqb (absolute p) (absolute base) && is_prefix (parts base) (parts p)
  then Some (mkPath false (skipn (List.length (parts base)) (parts p)))
  else None.

(** [p.parents]: every proper ancestor, nearest first. *)
Fixpoint proper_prefixes (ps : list string) : list (list string) :=
  match ps with
  | [] => []
  | x :: r => [] :: map (cons x) (proper_prefixes r)
  end.

Definition parents (p : Path) : list Path :=
  rev (map (mkPath (absolute p)) (proper_prefixes (parts p))).

(** The path that continues [p] with the components [rel]. *)
Definition below (p : Path) (rel : list string) : Path :=
  mkPath (absolute p) (parts p ++ rel).

(** [p] lies strictly below [base]: [base] followed by at least one more
    component. *)
Definition strictly_under (base p : Path) : Prop :=
  absolute p = absolute base /\
  exists rel, rel <> [] /\ parts p = parts base ++ rel.

End PathModel.
Export PathModel.

Module FS.

(* ===================================================================== *)
(** * The file system *)
(* ===================================================================== *)

(** A regular file with its content, or a directory with its entries in
    listing order. *)
#[warnings="-register-all"]
Inductive node : Type :=
| File (data : string)
| Dir (kids : list (string * node)).

Fixpoint find_kid (x : string) (ks : list (string * node)) : option node :=
  match ks with
  | [] => None
  | (y, n) :: r => if String.eqb x y then Some n else find_kid x r
  end.

(** Write entry [x]: in place when the name is there, at the end otherwise. *)
Fixpoint put_kid (x : string) (v : node) (ks : list (string * node))
  : list (string * node) :=
  match ks with
  | [] => [(x, v)]
  | (y, n) :: r =>
      if String.eqb x y then (x, v) :: r else (y, n) :: put_kid x v r
  end.

Definition del_kid (x : string) (ks : list (string * node))
  : list (string * node) :=
  filter (fun k => negb (String.eqb x (fst k))) ks.

Definition upd_kid (x : string) (v : option node) (ks : list (string * node))
  : list (string * node) :=
  match v with
  | Some m => put_kid x m ks
  | None => del_kid x ks
  end.

(** The node at a canonical location (a list of names from the root). *)
Fixpoint lookup (n : node) (p : list string) : option node :=
  match p with
  | [] => Some n
  | x :: r =>
      match n with
      | Dir ks =>
          match find_kid x ks with
          | Some c => lookup c r
          | None => None
          end
      | File _ => None
      end
  end.

(** Replace ([Some]) or remove ([None]) the node at a canonical location
    whose parent is a directory; anything else is left as it is.  The root
    itself is never replaced. *)
Fixpoint set_at (p : list string) (v : option node) (n : node) {struct p}
  : node :=
  match p, n with
  | x :: r, Dir ks =>
      match r with
      | [] => Dir (upd_kid x v ks)
      | _ :: _ =>
          match find_kid x ks with
          | Some c => Dir (put_kid x (set_at r v c) ks)
          | None => n
          end
      end
  | _, _ => n
  end.

Inductive kind : Type := KNone | KFile | KDir.

Definition kind_of (o : option node) : kind :=
  match o with
  | None => KNone
  | Some (File _) => KFile
  | Some (Dir _) => KDir
  end.

Definition kind_eqb (a b : kind) : bool :=
  match a, b with
  | KNone, KNone | KFile, KFile | KDir, KDir => true
  | _, _ => false
  end.

(** Outcome of following a path from a starting directory. *)
Inductive walked : Type :=
| At (q : list string)   (* every component but the last was a directory *)
| NoEntry                (* ENOENT: a component on the way is missing *)
| NotDir.                (* ENOTDIR: a component on the way is a file *)

(** POSIX path resolution: each component is looked up in the directory
    reached so far; [..] goes to the parent (the root is its own parent). *)
Fixpoint walk (t : node) (acc : list string) (cs : list string) : walked :=
  match cs with
  | [] => At acc
  | c :: r =>
      match lookup t acc with
      | Some (Dir _) =>
          if String.eqb c ".." then walk t (removelast acc) r
          else walk t (acc ++ [c]) r
      | Some (File _) => NotDir
      | None => NoEntry
      end
  end.

(** The world the engine runs in: the tree, the working directory of the
    process (a canonical location), the directories whose listing the
    operating system refuses, and the modes set by [os.chmod], each with
    the location it was set on, oldest first.  Setting a mode does not lift
    a refusal. *)
Record world : Type := mkWorld {
  root : node;
  cwd : list string;
  denied : list (list string);
  chmods : list (list string * N)
}.

Definition with_root (w : world) (t : node) : world :=
  mkWorld t (cwd w) (denied w) (chmods w).

(** The world after the modes [cs] have been set: the tree is the same. *)
Definition logged (w : world) (cs : list (list string * N)) : world :=
  mkWorld (root w) (cwd w) (denied w) (chmods w ++ cs).

Definition locate (w : world) (p : Path) : walked :=
  walk (root w) (if absolute p then [] else cwd w) (parts p).

(** [os.stat(p)], as far as the engine looks at it. *)
Definition stat (w : world) (p : Path) : option node :=
  match locate w p with
  | At q => lookup (root w) q
  | _ => None
  end.

(** [p.exists()], [p.is_file()], [p.is_dir()] *)
Definition exists_ (w : world) (p : Path) : bool :=
  negb (kind_eqb (kind_of (stat w p)) KNone).
Definition is_file (w : world) (p : Path) : bool :=
  kind_eqb (kind_of (stat w p)) KFile.
Definition is_dir (w : world) (p : Path) : bool :=
  kind_eqb (kind_of (stat w p)) KDir.

(** The kind of what is at a location. *)
Definition kind_at (w : world) (a : list string) : kind :=
  kind_of (lookup (root w) a).

Definition is_denied (w : world) (q : list string) : bool :=
  existsb (parts_eqb q) (denied w).

(** Every location below a directory node, relative to it, in the order
    in which CPython's [rglob] walks: the entries of a directory, then the
    same for each of its subdirectories in turn.  A directory comes before
    anything inside it. *)
Fixpoint rglob_node (n : node) : list (list string) :=
  match n with
  | File _ => []
  | Dir ks =>
      map (fun k => [fst k]) ks ++
      (fix below (l : list (string * node)) : list (list string) :=
         match l with
         | [] => []
         | (x, c) :: r => map (cons x) (rglob_node c) ++ below r
         end) ks
  end.

(** Every path that [p.rglob("*")] yields below the directory node at the
    location [q], relative to it, when the listing of the directories [D]
    is refused: [pathlib] passes over the [PermissionError] of a directory
    that it cannot list, so that such a directory is yielded as an entry of
    its parent and nothing inside it is. *)
Fixpoint rglob_from (D : list (list string)) (q : list string) (n : node)
  : list (list string) :=
  match n with
  | File _ => []
  | Dir ks =>
      if existsb (parts_eqb q) D then []
      else
        map (fun k => [fst k]) ks ++
        (fix below (l : list (string * node)) : list (list string) :=
           match l with
           | [] => []
           | (x, c) :: r => map (cons x) (rglob_from D (q ++ [x]) c) ++ below r
           end) ks
  end.

(** No directory on the way from [q] down to [rel], [q] included and the
    end of [rel] excluded, is among [D]. *)
Definition way_open (D : list (list string)) (q rel : list string) : bool :=
  forallb (fun s => negb (existsb (parts_eqb (q ++ s)) D)) (proper_prefixes rel).

(** Lookup from a node that may be missing. *)
Definition lookup_o (o : option node) (p : list string) : option node :=
  match o with
  | Some n => lookup n p
  | None => None
  end.

Fixpoint distinct (l : list string) : bool :=
  match l with
  | [] => true
  | x :: r => negb (existsb (String.eqb x) r) && distinct r
  end.

Definition not_dotdot (x : string) : bool := negb (String.eqb x "..").

(** A tree a file system can hold: in every directory the names are
    distinct and none is [..]. *)
Fixpoint wfb (n : node) : bool :=
  match n with
  | File _ => true
  | Dir ks =>
      distinct (map fst ks) && forallb not_dotdot (map fst ks) &&
      (fix all (l : list (string * node)) : bool :=
         match l with
         | [] => true
         | (_, c) :: r => wfb c && all r
         end) ks
  end.

(** A path without [..]: it is followed downwards only. *)
Definition plain (p : Path) : bool := forallb not_dotdot (parts p).

(** Where a plain path leads when every directory on the way is there. *)
Definition loc (w : world) (p : Path) : list string :=
  (if absolute p then [] else cwd w) ++ parts p.

(** Every directory of [t] is a directory of [t']. *)
Definition dir_mono (t t' : node) : Prop :=
  forall a, kind_of (lookup t a) = KDir -> kind_of (lookup t' a) = KDir.

(** From [w] to [w']: the working directory is the same and every
    directory is still a directory. *)
Definition grows (w w' : world) : Prop :=
  cwd w' = cwd w /\ dir_mono (root w) (root w').

(** Every regular file of [t] is in [t'], with its content. *)
Definition files_kept (t t' : node) : Prop :=
  forall a d, lookup t a = Some (File d) -> lookup t' a = Some (File d).

(** From [w] to [w'] nothing that was there is lost or altered: the working
    directory is the same, directories are still directories and regular
    files keep their content. *)
Definition preserved (w w' : world) : Prop :=
  cwd w' = cwd w /\ dir_mono (root w) (root w') /\
  files_kept (root w) (root w').

(** The root of the tree is a directory, as in any file system. *)
Definition rooted (w : world) : Prop := kind_at w [] = KDir.

(** From [w] to [w'] nothing has changed but at the location [q] and below
    it: the working directory is the same; what lies neither below [q] nor
    on the way to it is the same node; a location on the way to [q] holds
    the same kind of node. *)
Definition untouched_outside (q : list string) (w w' : world) : Prop :=
  cwd w' = cwd w /\
  forall a, is_prefix q a = false ->
    kind_of (lookup (root w') a) = kind_of (lookup (root w) a) /\
    (is_prefix a q = false -> lookup (root w') a = lookup (root w) a).

(** From [w] to [w'] nothing has been made or altered: the working
    directory is the same, a regular file of [w'] is one of [w] with the
    same content, and a directory of [w'] is one of [w]. *)
Definition only_removes (w w' : world) : Prop :=
  cwd w' = cwd w /\
  forall a n, lookup (root w') a = Some n ->
    match n with
    | File d => lookup (root w) a = Some (File d)
    | Dir _ => kind_of (lookup (root w) a) = KDir
    end.

End FS.
Export FS.

Module OSModel.

(* ===================================================================== *)
(** * Computations on the world *)
(* ===================================================================== *)

(** A computation returns a value or raises, and leaves a world behind in
    both cases: what was written before an exception stays written. *)
Definition M (A : Type) : Type := world -> result A * world.

Definition ret {A} (a : A) : M A := fun w => (Ok a, w).
Definition raise {A} (e : exn) : M A := fun w => (Raise e, w).
Definition bind {A B} (m : M A) (k : A -> M B) : M B :=
  fun w =>
    match m w with
    | (Ok a, w') => k a w'
    | (Raise e, w') => (Raise e, w')
    end.
Definition gets {A} (f : world -> A) : M A := fun w => (Ok (f w), w).
Definition put_root (t : node) : M unit := fun w => (Ok tt, with_root w t).

Notation "x <- m ;; k" := (bind m (fun x => k))
  (at level 61, m at next level, right associativity).
Notation "m ;;; k" := (bind m (fun _ => k))
  (at level 61, right associativity).

(** [for x in l: s = body(x, s)] *)
Fixpoint fold_m {A S} (body : A -> S -> M S) (l : list A) (s : S) : M S :=
  match l with
  | [] => ret s
  | x :: r => s' <- body x s ;; fold_m body r s'
  end.

(** [for x in l: body(x)] *)
Definition for_each {A} (body : A -> M unit) (l : list A) : M unit :=
  fold_m (fun x _ => body x) l tt.

(** [try: m  except PermissionError: raise PermissionError(mp) from e
            except OSError: raise OSError(mo) from e] *)
Definition rewrap {A} (m : M A) (mp mo : string) : M A :=
  fun w =>
    match m w with
    | (Raise e, w') =>
        if is_PermissionError e then (Raise (PermissionError mp), w')
        else if is_OSError e then (Raise (OSError mo), w')
        else (Raise e, w')
    | r => r
    end.

(** [try: m  except (PermissionError, OSError): pass] *)
Definition swallow_os (m : M unit) : M unit :=
  fun w =>
    match m w with
    | (Raise e, w') => if is_OSError e then (Ok tt, w') else (Raise e, w')
    | r => r
    end.

(** A computation that at most sets modes: the tree, the working directory
    and the refused directories are as before. *)
Definition quiet {A} (m : M A) : Prop :=
  forall w r w', m w = (r, w') -> exists cs, w' = logged w cs.

(* ===================================================================== *)
(** * The library calls *)
(* ===================================================================== *)

(** The exception of a path that cannot be followed. *)
Definition walk_error {A} (p : Path) (nd : bool) : M A :=
  if nd then raise (NotADirectoryError (str p))
  else raise (FileNotFoundError (str p)).

(** A new entry can be made at [q]: [q] is not the root and its parent is
    a directory.  (A followed path always ends this way, unless it has no
    component and starts from a working directory that is gone.) *)
Definition can_create (w : world) (q : list string) : bool :=
  match q with
  | [] => false
  | _ :: _ => kind_eqb (kind_at w (removelast q)) KDir
  end.

(** [os.mkdir(p)] *)
Definition os_mkdir (p : Path) : M unit :=
  fun w =>
    match locate w p with
    | At q =>
        match lookup (root w) q with
        | Some _ => (Raise (FileExistsError (str p)), w)
        | None =>
            if can_create w q
            then (Ok tt, with_root w (set_at q (Some (Dir [])) (root w)))
            else walk_error p false w
        end
    | NoEntry => walk_error p false w
    | NotDir => walk_error p true w
    end.

(** [Path(abs, rev rparts).mkdir(parents=True, exist_ok=True)]: try the
    directory itself; when a parent is missing make the parents first and
    try once more; an existing directory is not an error. *)
Fixpoint mkdir_parents (abs : bool) (rparts : list string) : M unit :=
  let p := mkPath abs (rev rparts) in
  let tolerant : M unit :=
    fun w =>
      match os_mkdir p w with
      | (Raise (FileNotFoundError m), w') => (Raise (FileNotFoundError m), w')
      | (Raise e, w') =>
          if is_OSError e && is_dir w' p then (Ok tt, w') else (Raise e, w')
      | r => r
      end in
  fun w =>
    match os_mkdir p w with
    | (Raise (FileNotFoundError m), w') =>
        match rparts with
        | [] => (Raise (FileNotFoundError m), w')
        | _ :: up => (mkdir_parents abs up ;;; tolerant) w'
        end
    | (Raise e, w') =>
        if is_OSError e && is_dir w' p then (Ok tt, w') else (Raise e, w')
    | r => r
    end.

Definition Path_mkdir_parents (p : Path) : M unit :=
  mkdir_parents (absolute p) (rev (parts p)).

(** [os.makedirs(p)] with [exist_ok=False]: the parents as above, then the
    directory itself, which must be new. *)
Definition os_makedirs (p : Path) : M unit :=
  match rev (parts p) with
  | [] => os_mkdir p
  | _ :: up => mkdir_parents (absolute p) up ;;; os_mkdir p
  end.

(** [os.chmod(p, mode)]: the mode is set on what the path leads to. *)
Definition os_chmod (p : Path) (mode : N) : M unit :=
  fun w =>
    match locate w p with
    | NoEntry => walk_error p false w
    | NotDir => walk_error p true w
    | At q =>
        match lookup (root w) q with
        | None => (Raise (FileNotFoundError (str p)), w)
        | Some _ => (Ok tt, logged w [(q, mode)])
        end
    end.

(** Two paths name the same existing node ([os.path.samefile], [False] when
    either is missing). *)
Definition samefile (w : world) (a b : Path) : bool :=
  match locate w a, locate w b with
  | At qa, At qb =>
      parts_eqb qa qb && negb (kind_eqb (kind_of (lookup (root w) qa)) KNone)
  | _, _ => false
  end.

(** [shutil.copy2(src, dst)]: a directory as destination receives the file
    under the source's own name. *)
Definition shutil_copy2 (src dst : Path) : M unit :=
  fun w =>
    let dst' := if is_dir w dst then join dst (name src) else dst in
    if samefile w src dst' then
      (Raise (OSError (str src ++ " and " ++ str dst' ++ " are the same file")), w)
    else
      match stat w src with
      | None => (Raise (FileNotFoundError (str src)), w)
      | Some (Dir _) => (Raise (IsADirectoryError (str src)), w)
      | Some (File data) =>
          match locate w dst' with
          | NoEntry => walk_error dst' false w
          | NotDir => walk_error dst' true w
          | At q =>
              match lookup (root w) q with
              | Some (Dir _) => (Raise (IsADirectoryError (str dst')), w)
              | Some (File _) =>
                  (Ok tt, with_root w (set_at q (Some (File data)) (root w)))
              | None =>
                  if can_create w q
                  then (Ok tt, with_root w (set_at q (Some (File data)) (root w)))
                  else walk_error dst' false w
              end
          end
      end.

(** [shutil.rmtree(p)] *)
Definition shutil_rmtree (p : Path) : M unit :=
  fun w =>
    match locate w p with
    | NoEntry => walk_error p false w
    | NotDir => walk_error p true w
    | At q =>
        match lookup (root w) q with
        | None => (Raise (FileNotFoundError (str p)), w)
        | Some (File _) => (Raise (NotADirectoryError (str p)), w)
        | Some (Dir _) =>
            match q with
            | [] => (Raise (OSError (str p)), w)
            | _ :: _ => (Ok tt, with_root w (set_at q None (root w)))
            end
        end
    end.

(** [shutil.copytree(src, dst)]: [dst] must be new; its missing parents are
    made; then the content of [src], as listed when the call starts, is
    copied below [dst].  When [dst] lies inside [src] below an entry that
    [src] already had, the real call copies its own output until the
    operating system or the interpreter refuses: an exception. *)
Definition shutil_copytree (src dst : Path) : M unit :=
  fun w =>
    match stat w src, locate w src with
    | Some (Dir ks), At qs =>
        match os_makedirs dst w with
        | (Raise e, w') => (Raise e, w')
        | (Ok _, w') =>
            match locate w' dst with
            | At qd =>
                let inside :=
                  is_prefix qs qd &&
                  match skipn (List.length qs) qd with
                  | x :: _ :: _ =>
                      negb (kind_eqb (kind_of (find_kid x ks)) KNone)
                  | _ => false
                  end in
                if inside then (Raise (OSError (str dst)), w')
                else (Ok tt, with_root w' (set_at qd (Some (Dir ks)) (root w')))
            | NoEntry => walk_error dst false w'
            | NotDir => walk_error dst true w'
            end
        end
    | Some (File _), _ => (Raise (NotADirectoryError (str src)), w)
    | _, _ => (Raise (FileNotFoundError (str src)), w)
    end.

(** [list(p.rglob("*"))]: nothing when [p] is not a directory, and nothing
    from inside a directory whose listing is refused. *)
Definition Path_rglob (w : world) (p : Path) : list Path :=
  match locate w p with
  | At q =>
      match lookup (root w) q with
      | Some (Dir ks) =>
          map (fun rel => mkPath (absolute p) (parts p ++ rel))
              (rglob_from (denied w) q (Dir ks))
      | _ => []
      end
  | _ => []
  end.

(** The regular files below [p]: what [get_destination_files] collects. *)
Definition files_below (w : world) (p : Path) : list Path :=
  filter (is_file w) (Path_rglob w p).

(** [p.unlink()] *)
Definition Path_unlink (p : Path) : M unit :=
  fun w =>
    match locate w p with
    | NoEntry => walk_error p false w
    | NotDir => walk_error p true w
    | At q =>
        match lookup (root w) q with
        | None => (Raise (FileNotFoundError (str p)), w)
        | Some (Dir _) => (Raise (IsADirectoryError (str p)), w)
        | Some (File _) => (Ok tt, with_root w (set_at q None (root w)))
        end
    end.

(** [p.rmdir()] *)
Definition Path_rmdir (p : Path) : M unit :=
  fun w =>
    match locate w p with
    | NoEntry => walk_error p false w
    | NotDir => walk_error p true w
    | At q =>
        match lookup (root w) q, q with
        | None, _ => (Raise (FileNotFoundError (str p)), w)
        | Some (File _), _ => (Raise (NotADirectoryError (str p)), w)
        | Some (Dir (_ :: _)), _ => (Raise (OSError (str p)), w)
        | Some (Dir []), [] => (Raise (OSError (str p)), w)
        | Some (Dir []), _ :: _ =>
            (Ok tt, with_root w (set_at q None (root w)))
        end
    end.

(** [list(p.iterdir())]: the names in the directory. *)
Definition Path_iterdir (p : Path) : M (list Path) :=
  fun w =>
    match locate w p with
    | NoEntry => walk_error p false w
    | NotDir => walk_error p true w
    | At q =>
        match lookup (root w) q with
        | None => (Raise (FileNotFoundError (str p)), w)
        | Some (File _) => (Raise (NotADirectoryError (str p)), w)
        | Some (Dir ks) =>
            if is_denied w q then (Raise (PermissionError (str p)), w)
            else (Ok (map (fun k => mkPath (absolute p) (parts p ++ [fst k])) ks), w)
        end
    end.

End OSModel.
Export OSModel.

Module Engine.

(* ===================================================================== *)
(** * config.py: the configuration record *)
(* ===================================================================== *)

(** [@dataclass class WSLSyncConfig] *)
Record WSLSyncConfig : Type := mkConfig {
  windows_base : option Path;
  wsl2_base : option Path;
  files : list string
}.

(* ===================================================================== *)
(** * sync.py: [class WSLSyncEngine] *)
(* ===================================================================== *)

Record WSLSyncEngine : Type := mkEngine { config : WSLSyncConfig }.

(** [WSLSyncEngine.__init__]; the argument is [None] or a configuration. *)
Definition WSLSyncEngine_init (c : option WSLSyncConfig) : result WSLSyncEngine :=
  match c with
  | None => Raise (ValueError "Config cannot be None")
  | Some cfg => Ok (mkEngine cfg)
  end.

(** [p in l], for [l] a set or a sequence of paths. *)
Definition Path_in (p : Path) (l : list Path) : bool := existsb (Path_eqb p) l.

(** [for item in found: if item.is_file(): acc.append(item)], the loop
    that [copy_files], [get_source_files] and [get_destination_files] run
    over the result of [rglob]. *)
Definition collect_files (found : list Path) (acc : list Path) : M (list Path) :=
  fold_m
    (fun (item : Path) (acc : list Path) =>
       f <- gets (fun w => is_file w item) ;;
       ret (if f then acc ++ [item] else acc))
    found acc.

Section Methods.

Variable self : WSLSyncEngine.

(** [WSLSyncEngine.create_directory_structure] *)
Definition create_directory_structure (file_path : Path) : M unit :=
  rewrap
    (Path_mkdir_parents (parent file_path) ;;;
     match wsl2_base (config self) with
     | Some base =>
         for_each
           (fun par : Path =>
              ex <- gets (fun w => exists_ w par) ;;
              if ex && negb (Path_eqb par base) && Path_in base (parents par)
              then swallow_os (os_chmod par 493)
              else ret tt)
           (parents file_path)
     | None => ret tt
     end)
    ("Permission denied creating directory: " ++ str (parent file_path))
    ("Failed to create directory: " ++ str (parent file_path)).

(** One turn of the loop of [copy_files]. *)
Definition copy_entry (wb db : Path) (file_rel_path : string)
  (copied_files : list Path) : M (list Path) :=
  let source_path := join wb file_rel_path in
  let dest_path := join db file_rel_path in
  ex <- gets (fun w => exists_ w source_path) ;;
  if negb ex then
    raise (FileNotFoundError ("Source path not found: " ++ str source_path))
  else
    isf <- gets (fun w => is_file w source_path) ;;
    if isf then
      create_directory_structure dest_path ;;;
      rewrap
        (shutil_copy2 source_path dest_path ;;;
         ret (copied_files ++ [dest_path]))
        ("Permission denied copying " ++ str source_path ++ " to " ++ str dest_path)
        ("Failed to copy " ++ str source_path ++ " to " ++ str dest_path)
    else
      isd <- gets (fun w => is_dir w source_path) ;;
      if isd then
        rewrap
          (dex <- gets (fun w => exists_ w dest_path) ;;
           (if dex then shutil_rmtree dest_path else ret tt) ;;;
           shutil_copytree source_path dest_path ;;;
           os_chmod dest_path 493 ;;;
           found <- gets (fun w => Path_rglob w dest_path) ;;
           for_each
             (fun copied_dir : Path =>
                d <- gets (fun w => is_dir w copied_dir) ;;
                if d then os_chmod copied_dir 493 else ret tt)
             found ;;;
           found' <- gets (fun w => Path_rglob w dest_path) ;;
           collect_files found' copied_files)
          ("Permission denied copying directory " ++ str source_path
             ++ " to " ++ str dest_path)
          ("Failed to copy directory " ++ str source_path
             ++ " to " ++ str dest_path)
      else ret copied_files.

(** [WSLSyncEngine.copy_files] *)
Definition copy_files : M (list Path) :=
  match windows_base (config self), wsl2_base (config self) with
  | Some wb, Some db => fold_m (copy_entry wb db) (files (config self)) []
  | _, _ => raise (ValueError "Source and destination paths must be configured")
  end.

(** [WSLSyncEngine.get_source_files] *)
Definition get_source_files : M (list Path) :=
  match windows_base (config self) with
  | None => raise (ValueError "Windows base path not configured")
  | Some wb =>
      ex <- gets (fun w => exists_ w wb) ;;
      if negb ex then
        raise (FileNotFoundError ("Source directory not found: " ++ str wb))
      else
        fold_m
          (fun (file_rel_path : string) (source_files : list Path) =>
             let source_path := join wb file_rel_path in
             sex <- gets (fun w => exists_ w source_path) ;;
             if sex then
               isf <- gets (fun w => is_file w source_path) ;;
               if isf then ret (source_files ++ [source_path])
               else
                 isd <- gets (fun w => is_dir w source_path) ;;
                 if isd then
                   found <- gets (fun w => Path_rglob w source_path) ;;
                   collect_files found source_files
                 else ret source_files
             else ret source_files)
          (files (config self)) []
  end.

(** [WSLSyncEngine.get_destination_files] *)
Definition get_destination_files : M (list Path) :=
  match wsl2_base (config self) with
  | None => raise (ValueError "WSL2 base path not configured")
  | Some db =>
      ex <- gets (fun w => exists_ w db) ;;
      if negb ex then
        raise (FileNotFoundError ("Destination directory not found: " ++ str db))
      else
        found <- gets (fun w => Path_rglob w db) ;;
        collect_files found []
  end.

(** [str(rel_path) == config_path or
     str(rel_path).startswith(config_path + "/")] *)
Definition matches_entry (rel_path : Path) (config_path : string) : bool :=
  String.eqb (str rel_path) config_path
  || String.prefix (config_path ++ "/") (str rel_path).

(** The decision of [cleanup_destination] for one destination file: in the
    keep set, or below a configured entry. *)
Definition should_keep (db : Path) (keep_files : list Path) (file_path : Path)
  : bool :=
  Path_in file_path keep_files
  || match relative_to file_path db with
     | Some rel_path => existsb (matches_entry rel_path) (files (config self))
     | None => false
     end.

(** One turn of the deletion loop of [cleanup_destination]. *)
Definition delete_unless_kept (db : Path) (keep_files : list Path)
  (file_path : Path) (deleted_files : list Path) : M (list Path) :=
  if Path_in file_path keep_files then ret deleted_files
  else
    match relative_to file_path db with
    | None =>
        raise (ValueError (str file_path ++ " is not in the subpath of "
                             ++ str db))
    | Some rel_path =>
        if existsb (matches_entry rel_path) (files (config self))
        then ret deleted_files
        else
          rewrap
            (Path_unlink file_path ;;;
             ret (deleted_files ++ [file_path]))
            ("Permission denied deleting " ++ str file_path)
            ("Failed to delete " ++ str file_path)
    end.

(** One turn of the loop of [cleanup_destination] over the directories:
    [if item.is_dir() and not any(item.iterdir()): try item.rmdir() ...]. *)
Definition remove_if_empty (item : Path) : M unit :=
  d <- gets (fun w => is_dir w item) ;;
  if d then
    inside <- Path_iterdir item ;;
    match inside with
    | [] => swallow_os (Path_rmdir item)
    | _ :: _ => ret tt
    end
  else ret tt.

(** [WSLSyncEngine.cleanup_destination] *)
Definition cleanup_destination (keep_files : list Path) : M (list Path) :=
  match wsl2_base (config self) with
  | None => raise (ValueError "Destination path must be configured")
  | Some db =>
      all_dest_files <- get_destination_files ;;
      deleted_files <-
        fold_m (delete_unless_kept db keep_files) all_dest_files [] ;;
      items <- gets (fun w => Path_rglob w db) ;;
      for_each remove_if_empty items ;;;
      ret deleted_files
  end.

(** [WSLSyncEngine.validate_paths] *)
Definition validate_paths : M bool :=
  match windows_base (config self) with
  | None => raise (ValueError "Windows base path not configured")
  | Some wb =>
      match wsl2_base (config self) with
      | None => raise (ValueError "WSL2 base path not configured")
      | Some db =>
          sex <- gets (fun w => exists_ w wb) ;;
          if negb sex then
            raise (FileNotFoundError ("Source directory not found: " ++ str wb))
          else
            dex <- gets (fun w => exists_ w db) ;;
            if negb dex then
              raise (FileNotFoundError
                       ("Destination directory not found: " ++ str db))
            else
              (fun w =>
                 match Path_iterdir wb w with
                 | (Raise (PermissionError _), w') =>
                     (Raise (PermissionError
                               ("Cannot access source directory: " ++ str wb)), w')
                 | (Raise e, w') => (Raise e, w')
                 | (Ok _, w') =>
                     match Path_iterdir db w' with
                     | (Raise (PermissionError _), w'') =>
                         (Raise (PermissionError
                                   ("Cannot access destination directory: "
                                      ++ str db)), w'')
                     | (Raise e, w'') => (Raise e, w'')
                     | (Ok _, w'') => (Ok true, w'')
                     end
                 end)
      end
  end.

(** [WSLSyncEngine.sync] *)
Definition sync : M unit :=
  validate_paths ;;;
  copied_files <- copy_files ;;
  let keep_files := copied_files in
  cleanup_destination keep_files ;;;
  ret tt.

End Methods.

(** The listing step of [validate_paths]: a [PermissionError] is raised
    again with the message for that root, any other exception passes. *)
Definition relabel (msg : string) (e : exn) : exn :=
  if is_PermissionError e then PermissionError msg else e.

(** What listing a directory gives: its entries, or the exception. *)
Definition listing (w : world) (p : Path) : result (list Path) :=
  fst (Path_iterdir p w).

(** The modes that the loop of [create_directory_structure] sets over the
    ancestors [l] of a path: 0o755 on each one that exists, is not the
    destination root and has it among its own ancestors. *)
Definition parent_modes (base : Path) (w : world) (l : list Path)
  : list (list string * N) :=
  flat_map
    (fun par : Path =>
       if exists_ w par && negb (Path_eqb par base) && Path_in base (parents par)
       then match locate w par with
            | At q => [(q, 493%N)]
            | _ => []
            end
       else [])
    l.

Definition structure_modes (self : WSLSyncEngine) (file_path : Path) (w : world)
  : list (list string * N) :=
  match wsl2_base (config self) with
  | Some base => parent_modes base w (parents file_path)
  | None => []
  end.

End Engine.
Export Engine.

Module Config.

(* ===================================================================== *)
(** * config.py: [validate_config] *)
(* ===================================================================== *)

(** [c.isspace()] for an ASCII character: tab, line feed, vertical tab,
    form feed, carriage return, the four separators 28..31 and the space. *)
Definition isspace (c : ascii) : bool :=
  let n := nat_of_ascii c in
  (((9 <=? n) && (n <=? 13)) || ((28 <=? n) && (n <=? 32)))%nat.

Fixpoint lstrip (s : string) : string :=
  match s with
  | EmptyString => EmptyString
  | String c r => if isspace c then lstrip r else s
  end.

Fixpoint string_rev (s : string) : string :=
  match s with
  | EmptyString => EmptyString
  | String c r => string_rev r ++ String c EmptyString
  end.

(** [s.strip()] *)
Definition strip (s : string) : string :=
  string_rev (lstrip (string_rev (lstrip s))).

(** [set(l)], as far as its size goes: [l] without its repetitions. *)
Definition set_of (l : list string) : list string := nodup String.string_dec l.

(** [validate_config] *)
Definition validate_config (config : WSLSyncConfig) : result bool :=
  match windows_base config with
  | None => Raise (ValueError "windows_base is required")
  | Some wb =>
      match wsl2_base config with
      | None => Raise (ValueError "wsl2_base is required")
      | Some db =>
          match files config with
          | [] => Raise (ValueError "files list cannot be empty")
          | _ :: _ =>
              if String.eqb (strip (str wb)) "" || String.eqb (str wb) "." then
                Raise (ValueError
                         "Invalid path format: windows_base path cannot be empty")
              else if String.eqb (strip (str db)) "" || String.eqb (str db) "." then
                Raise (ValueError
                         "Invalid path format: wsl2_base path cannot be empty")
              else if negb (Nat.eqb (List.length (files config))
                                      (List.length (set_of (files config)))) then
                Raise (ValueError "Duplicate files found in configuration")
              else Ok true
          end
      end
  end.

(** The six ways a configuration can be invalid. *)
Inductive violation : Type :=
| WindowsBaseUnset | Wsl2BaseUnset | FilesEmpty
| WindowsBaseEmpty | Wsl2BaseEmpty | DuplicateFiles.

(** The string form of a root is empty: nothing but blanks, or ["."], which
    is how [pathlib] prints the empty path. *)
Definition empty_form (p : Path) : Prop :=
  strip (str p) = "" \/ str p = ".".

Definition violates (v : violation) (c : WSLSyncConfig) : Prop :=
  match v with
  | WindowsBaseUnset => windows_base c = None
  | Wsl2BaseUnset => wsl2_base c = None
  | FilesEmpty => files c = []
  | WindowsBaseEmpty => exists p, windows_base c = Some p /\ empty_form p
  | Wsl2BaseEmpty => exists p, wsl2_base c = Some p /\ empty_form p
  | DuplicateFiles => ~ NoDup (files c)
  end.

(** The word by which a message names the field or the condition. *)
Definition keyword (v : violation) : string :=
  match v with
  | WindowsBaseUnset | WindowsBaseEmpty => "windows_base"
  | Wsl2BaseUnset | Wsl2BaseEmpty => "wsl2_base"
  | FilesEmpty => "files"
  | DuplicateFiles => "Duplicate"
  end.

(** [needle in hay] *)
Fixpoint contains (needle hay : string) : bool :=
  String.prefix needle hay
  || match hay with
     | EmptyString => false
     | String _ r => contains needle r
     end.

End Config.
Export Config.

Module Utils.

Local Open Scope Z_scope.

(* ===================================================================== *)
(** * utils.py: [is_path_safe] *)
(* ===================================================================== *)

(** The components of [p.resolve()] without symbolic links: [.] is dropped
    and [..] removes the component before it (nothing at the root). *)
Fixpoint normalize (acc cs : list string) : list string :=
  match cs with
  | [] => acc
  | c :: r =>
      if String.eqb c ".." then normalize (removelast acc) r
      else if String.eqb c "." || String.eqb c "" then normalize acc r
      else normalize (acc ++ [c]) r
  end.

(** [p.resolve()]: absolute, from the working directory for a relative [p]. *)
Definition resolve (w : world) (p : Path) : Path :=
  mkPath true (normalize (if absolute p then [] else cwd w) (parts p)).

(** [is_path_safe(path, base_path)]; the [ValueError] of [relative_to] is
    the [None] that turns into [False]. *)
Definition is_path_safe (w : world) (path base_path : Path) : bool :=
  if negb (absolute path) then
    let full_path := resolve w (joinpath base_path path) in
    let resolved_base := resolve w base_path in
    match relative_to full_path resolved_base with
    | Some _ => true
    | None => false
    end
  else
    let resolved_path := resolve w path in
    let resolved_base := resolve w base_path in
    match relative_to resolved_path resolved_base with
    | Some _ => true
    | None => false
    end.

(** The bases that contain what [../../etc/passwd] resolves to against
    them: the root, [/etc], and any directory ending in [etc/passwd]. *)
Definition holds_etc_passwd (b : list string) : Prop :=
  (b = [] \/ b = ["etc"] \/ exists b', b = b' ++ ["etc"; "passwd"])%list.

(* ===================================================================== *)
(** * utils.py: [format_file_size] *)
(* ===================================================================== *)

(** A binary floating-point value [mant / 2^shift].  Every value the
    function computes has this form: [float(n)] is an integer, and dividing
    a double that is at least 1024 by 1024 is exact. *)
Record float : Type := mkFloat { mant : Z; shift : Z }.

(** [float(n)] for [n > 0]: [n] rounded to 53 significant bits, ties to
    even; an [OverflowError] when the result does not fit a double. *)
Definition float_of_int (n : Z) : result float :=
  let bits := Z.log2 n + 1 in
  if bits <=? 53 then Ok (mkFloat n 0)
  else
    let s := bits - 53 in
    let q := Z.shiftr n s in
    let r := Z.land n (Z.ones s) in
    let half := Z.shiftl 1 (s - 1) in
    let q' := if (half <? r) || ((r =? half) && Z.odd q) then q + 1 else q in
    let v := Z.shiftl q' s in
    if 2 ^ 1024 <=? v
    then Raise (OverflowError "int too large to convert to float")
    else Ok (mkFloat v 0).

(** [size >= 1024] *)
Definition ge_1024 (f : float) : bool := 1024 * 2 ^ shift f <=? mant f.

(** [size / 1024] *)
Definition div_1024 (f : float) : float := mkFloat (mant f) (shift f + 10).

Definition units : list string := ["B"; "KB"; "MB"; "GB"; "TB"].

(** [while size >= 1024 and unit_index < len(units) - 1]; the index grows at
    every turn, so [len(units)] turns are enough. *)
Fixpoint scale (fuel : nat) (size : float) (unit_index : nat) : float * nat :=
  match fuel with
  | O => (size, unit_index)
  | S fuel' =>
      if ge_1024 size && (unit_index <? List.length units - 1)%nat
      then scale fuel' (div_1024 size) (unit_index + 1)
      else (size, unit_index)
  end.

(** [str(n)] for an integer *)
Definition str_int (n : Z) : string :=
  DecimalString.NilZero.string_of_int (Z.to_int n).

(** [int(size)] for a non-negative value *)
Definition int_of_float (f : float) : Z := mant f / 2 ^ shift f.

(** [f"{size:.1f}"] for a non-negative value: the nearest multiple of a
    tenth, ties to even, printed with one digit after the point. *)
Definition format_1f (f : float) : string :=
  let d := 2 ^ shift f in
  let x := 10 * mant f in
  let k := x / d in
  let r := x mod d in
  let k' := if (d <? 2 * r) || ((2 * r =? d) && Z.odd k) then k + 1 else k in
  str_int (k' / 10) ++ "." ++ str_int (k' mod 10).

(** [format_file_size] *)
Definition format_file_size (size_bytes : Z) : result string :=
  if size_bytes <? 0 then Ok "0 B"
  else if size_bytes =? 0 then Ok "0 B"
  else
    match float_of_int size_bytes with
    | Raise e => Raise e
    | Ok size0 =>
        let '(size, unit_index) := scale (List.length units) size0 0 in
        if (unit_index =? 0)%nat
        then Ok (str_int (int_of_float size) ++ " " ++ nth unit_index units "")%string
        else Ok (format_1f size ++ " " ++ nth unit_index units "")%string
    end.

(** Every character is a decimal digit. *)
Fixpoint all_digits (s : string) : bool :=
  match s with
  | EmptyString => true
  | String c r =>
      let n := nat_of_ascii c in
      (48 <=? n)%nat && (n <=? 57)%nat && all_digits r
  end.

End Utils.
Export Utils.

Module Scenarios.

(* ===================================================================== *)
(** * Concrete file systems and configurations *)
(* ===================================================================== *)

Definition P (s : string) : Path := Path_of_string s.

(** The scenario of the specification: [/src/a.txt], [/src/sub/{b,c}.txt]
    and a stale [/dst/stale.txt]. *)
Definition world_spec : world :=
  mkWorld
    (Dir [("src", Dir [("a.txt", File "A");
                       ("sub", Dir [("b.txt", File "B"); ("c.txt", File "C")])]);
          ("dst", Dir [("stale.txt", File "old")])])
    [] [] [].

Definition engine_spec : WSLSyncEngine :=
  mkEngine (mkConfig (Some (P "/src")) (Some (P "/dst")) ["a.txt"; "sub"]).

(** A file entry whose place in the destination is taken by a directory
    left over from an earlier state. *)
Definition world_dir_in_the_way : world :=
  mkWorld
    (Dir [("src", Dir [("a.txt", File "A")]);
          ("dst", Dir [("a.txt", Dir [("x", File "stale")])])])
    [] [] [].

Definition engine_one_file : WSLSyncEngine :=
  mkEngine (mkConfig (Some (P "/src")) (Some (P "/dst")) ["a.txt"]).

(** A stale file two directories deep in the destination. *)
Definition world_nested_stale : world :=
  mkWorld
    (Dir [("src", Dir [("a.txt", File "A")]);
          ("dst", Dir [("old", Dir [("deep", Dir [("legacy.txt", File "L")])])])])
    [] [] [].

(** The source root is a regular file. *)
Definition world_root_is_file : world :=
  mkWorld (Dir [("src.txt", File "A"); ("dst", Dir [])]) [] [] [].

Definition engine_root_is_file : WSLSyncEngine :=
  mkEngine (mkConfig (Some (P "/src.txt")) (Some (P "/dst")) [""]).

(** An entry that climbs out of the source root, and out of the
    destination root with it. *)
Definition world_dotdot : world :=
  mkWorld
    (Dir [("a", Dir [("src", Dir []); ("secret.txt", File "S")]);
          ("b", Dir [("dst", Dir [])])])
    [] [] [].

Definition engine_dotdot : WSLSyncEngine :=
  mkEngine (mkConfig (Some (P "/a/src")) (Some (P "/b/dst")) ["../secret.txt"]).

(** The second entry is missing from the source. *)
Definition world_missing : world :=
  mkWorld
    (Dir [("src", Dir [("a.txt", File "A"); ("c.txt", File "C")]);
          ("dst", Dir [("stale.txt", File "old")])])
    [] [] [].

Definition engine_missing : WSLSyncEngine :=
  mkEngine (mkConfig (Some (P "/src")) (Some (P "/dst"))
                     ["a.txt"; "b.txt"; "c.txt"]).

(** The destination cannot be listed. *)
Definition world_denied : world :=
  mkWorld (Dir [("src", Dir []); ("dst", Dir [])]) [] [["dst"]] [].

(** A destination with a directory that cannot be listed. *)
Definition world_secret : world :=
  mkWorld
    (Dir [("src", Dir []);
          ("dst", Dir [("visible.txt", File "v");
                       ("secret", Dir [("f.txt", File "f")])])])
    [] [["dst"; "secret"]] [].

(** The fixture of the repository's cleanup test: two files to keep and
    two left over. *)
Definition world_cleanup : world :=
  mkWorld
    (Dir [("source", Dir [("file1.txt", File "content1")]);
          ("dest", Dir [("old_file.txt", File "old content");
                        ("temp.log", File "temp data");
                        ("file1.txt", File "keep this");
                        ("subdir", Dir [("file2.txt", File "keep this")]);
                        ("gone", Dir [("x.txt", File "x")])])])
    [] [] [].

Definition engine_cleanup : WSLSyncEngine :=
  mkEngine (mkConfig (Some (P "/source")) (Some (P "/dest"))
                     ["file1.txt"; "subdir/file2.txt"; "file3.txt"]).

Definition keep_cleanup : list Path :=
  [P "/dest/file1.txt"; P "/dest/subdir/file2.txt"].

End Scenarios.
Export Scenarios.

Module FileUtils.

(* ===================================================================== *)
(** * utils.py: the file helpers *)
(* ===================================================================== *)

(** [shutil.copy(src, dst)]: as [shutil.copy2] but for the times of the
    file, which the tree does not record. *)
Definition shutil_copy (src dst : Path) : M unit := shutil_copy2 src dst.

(** [safe_copy_file] *)
Definition safe_copy_file (source destination : Path)
  (preserve_timestamps : bool) : M bool :=
  ex <- gets (fun w => exists_ w source) ;;
  if negb ex then
    raise (FileNotFoundError ("Source file not found: " ++ str source))
  else
    Path_mkdir_parents (parent destination) ;;;
    rewrap
      ((if preserve_timestamps then shutil_copy2 source destination
        else shutil_copy source destination) ;;;
       ret true)
      ("Permission denied copying " ++ str source ++ " to " ++ str destination)
      ("Failed to copy " ++ str source ++ " to " ++ str destination).

(** [safe_remove_file] *)
Definition safe_remove_file (file_path : Path) : M bool :=
  ex <- gets (fun w => exists_ w file_path) ;;
  if negb ex then ret false
  else
    d <- gets (fun w => is_dir w file_path) ;;
    if d then
      raise (OSError ("Cannot remove directory with safe_remove_file: "
                        ++ str file_path))
    else
      rewrap
        (Path_unlink file_path ;;; ret true)
        ("Permission denied removing " ++ str file_path)
        ("Failed to remove " ++ str file_path).

(** [p.stat().st_size]: the number of bytes of a regular file.  What the
    operating system reports for a directory is not in the tree; the one
    caller, [get_file_size], has raised before it could ask for it. *)
Definition Path_stat_size (p : Path) : M Z :=
  fun w =>
    match locate w p with
    | NoEntry => walk_error p false w
    | NotDir => walk_error p true w
    | At q =>
        match lookup (root w) q with
        | None => (Raise (FileNotFoundError (str p)), w)
        | Some (File data) => (Ok (Z.of_nat (String.length data)), w)
        | Some (Dir _) => (Ok 0%Z, w)
        end
    end.

(** [get_file_size] *)
Definition get_file_size (file_path : Path) : M Z :=
  ex <- gets (fun w => exists_ w file_path) ;;
  if negb ex then
    raise (FileNotFoundError ("File not found: " ++ str file_path))
  else
    d <- gets (fun w => is_dir w file_path) ;;
    if d then
      raise (OSError ("Cannot get size of directory: " ++ str file_path))
    else
      fun w =>
        match Path_stat_size file_path w with
        | (Raise e, w') =>
            if is_OSError e
            then (Raise (OSError ("Failed to get size of " ++ str file_path)), w')
            else (Raise e, w')
        | r => r
        end.

(** [get_relative_path]; it touches no file. *)
Definition get_relative_path (file_path base_path : Path) : result Path :=
  match relative_to file_path base_path with
  | Some rel => Ok rel
  | None =>
      Raise (ValueError ("Path " ++ str file_path ++ " is not under base path "
                           ++ str base_path))
  end.

(** [ensure_directory_exists] *)
Definition ensure_directory_exists (directory : Path) : M unit :=
  ex <- gets (fun w => exists_ w directory) ;;
  d <- gets (fun w => is_dir w directory) ;;
  if ex && negb d then
    raise (OSError ("Path exists but is not a directory: " ++ str directory))
  else
    rewrap
      (Path_mkdir_parents directory)
      ("Permission denied creating directory: " ++ str directory)
      ("Failed to create directory: " ++ str directory).

(** [str(len(l))] *)
Definition str_len {A} (l : list A) : string :=
  str_int (Z.of_nat (List.length l)).

(** The lines [f"\n  - {file_path.name}"] of [get_sync_summary]. *)
Fixpoint name_lines (l : list Path) : string :=
  match l with
  | [] => ""
  | p :: r => (String "010" ("  - " ++ name p) ++ name_lines r)%string
  end.

(** [get_sync_summary] *)
Definition get_sync_summary (copied_files deleted_files : list Path) : string :=
  let summary :=
    ("Sync completed: " ++ str_len copied_files ++ " files copied, "
       ++ str_len deleted_files ++ " files deleted")%string in
  let summary :=
    match copied_files with
    | [] => summary
    | _ :: _ =>
        (summary ++ String "010" "Copied files:" ++ name_lines copied_files)%string
    end in
  match deleted_files with
  | [] => summary
  | _ :: _ =>
      (summary ++ String "010" "Deleted files:" ++ name_lines deleted_files)%string
  end.

End FileUtils.
Export FileUtils.

Module ConfigParser.

(* ===================================================================== *)
(** * config.py: [parse_config] *)
(* ===================================================================== *)

Definition LF : ascii := "010"%char.
Definition DQUOTE : ascii := "034"%char.
Definition CR : ascii := "013"%char.

(** The translation of line ends that a file opened in text mode applies
    to what it reads: ["\r\n"] and a lone ["\r"] become ["\n"]. *)
Fixpoint universal_newlines (s : string) : string :=
  match s with
  | EmptyString => EmptyString
  | String c r =>
      if Ascii.eqb c CR then
        match r with
        | String c2 r2 =>
            if Ascii.eqb c2 LF then String LF (universal_newlines r2)
            else String LF (universal_newlines r)
        | EmptyString => String LF EmptyString
        end
      else String c (universal_newlines r)
  end.

(** [s.split(c)] for a one-character separator. *)
Fixpoint split_char (c : ascii) (s : string) : list string :=
  match s with
  | EmptyString => [EmptyString]
  | String a r =>
      if Ascii.eqb a c then EmptyString :: split_char c r
      else match split_char c r with
           | [] => [String a EmptyString]
           | x :: xs => String a x :: xs
           end
  end.

(** The literal [k] at the start of [s]: what follows it. *)
Fixpoint drop_prefix (k s : string) : option string :=
  match k with
  | EmptyString => Some s
  | String a k' =>
      match s with
      | String b s' => if Ascii.eqb a b then drop_prefix k' s' else None
      | EmptyString => None
      end
  end.

(** The blanks that [\s*] takes at the start of [s]; [lstrip s] is what
    they leave. *)
Fixpoint spaces (s : string) : string :=
  match s with
  | String c r => if isspace c then String c (spaces r) else EmptyString
  | EmptyString => EmptyString
  end.

(** The characters of [s] before the first [c]. *)
Fixpoint take_until (c : ascii) (s : string) : string :=
  match s with
  | EmptyString => EmptyString
  | String a r => if Ascii.eqb a c then EmptyString else String a (take_until c r)
  end.

Fixpoint has_char (c : ascii) (s : string) : bool :=
  match s with
  | EmptyString => false
  | String a r => Ascii.eqb a c || has_char c r
  end.

(** The last character of [s] that is not [c]. *)
Fixpoint last_other_than (c : ascii) (s : string) : option ascii :=
  match s with
  | EmptyString => None
  | String a r =>
      match last_other_than c r with
      | Some b => Some b
      | None => if Ascii.eqb a c then None else Some a
      end
  end.

(** [key\s*=] at the start of [s]: what follows the [=].  A shorter run of
    blanks never helps, the character after it being a blank. *)
Definition after_key (key s : string) : option string :=
  match drop_prefix key s with
  | Some s1 =>
      match lstrip s1 with
      | String c s3 => if Ascii.eqb c "="%char then Some s3 else None
      | EmptyString => None
      end
  | None => None
  end.

(** [key\s*=\s*(.+)] at the start of [s]: the group.  [\s*] takes every
    blank, line ends too, and [(.+)] the rest of the line it stops in;
    when the blanks run to the end of the text, [\s*] gives back up to the
    last blank that is not a line end, which is then the whole group. *)
Definition match_assignment (key s : string) : option string :=
  match after_key key s with
  | Some s3 =>
      match lstrip s3 with
      | EmptyString =>
          match last_other_than LF (spaces s3) with
          | Some c => Some (String c EmptyString)
          | None => None
          end
      | r => Some (take_until LF r)
      end
  | None => None
  end.

(** [files\s*=\s*\[(.*?)\]] with [re.DOTALL] at the start of [s]: the
    group, which ends before the first closing bracket. *)
Definition match_files (s : string) : option string :=
  match after_key "files" s with
  | Some s3 =>
      match lstrip s3 with
      | String c s4 =>
          if Ascii.eqb c "["%char && has_char "]"%char s4
          then Some (take_until "]"%char s4)
          else None
      | EmptyString => None
      end
  | None => None
  end.

(** [re.search]: the match at the leftmost position that has one. *)
Fixpoint re_search {A : Type} (m : string -> option A) (s : string) : option A :=
  match m s with
  | Some g => Some g
  | None =>
      match s with
      | EmptyString => None
      | String _ r => re_search m r
      end
  end.

(** [re.findall] for the pattern of [parse_config], a double quote, any
    characters but double quotes as the group, a double quote: [cur] is
    the entry being read, if a quote is open; a quote left open at the end
    gives nothing. *)
Fixpoint quoted (s : string) (cur : option string) : list string :=
  match s with
  | EmptyString => []
  | String c r =>
      match cur with
      | None =>
          if Ascii.eqb c DQUOTE then quoted r (Some EmptyString)
          else quoted r None
      | Some e =>
          if Ascii.eqb c DQUOTE then e :: quoted r None
          else quoted r (Some (e ++ String c EmptyString)%string)
      end
  end.

Definition findall_quoted (s : string) : list string := quoted s None.

(** The loop of [parse_config] over the lines: comments cut, blanks
    stripped, empty lines left out. *)
Definition clean_lines (content : string) : list string :=
  filter (fun line => negb (String.eqb line ""))
         (map (fun line => strip (hd EmptyString (split_char "#"%char line)))
              (split_char LF content)).

(** [parse_config] from the text of the file on (lines 39 to 77). *)
Definition parse_content (text : string) : result WSLSyncConfig :=
  let content := strip text in
  if String.eqb content "" then Raise (ValueError "Config file is empty")
  else
    let content_clean := String.concat (String LF EmptyString) (clean_lines content) in
    match re_search (match_assignment "windows_base") content_clean with
    | None => Raise (ValueError "Missing required field: windows_base")
    | Some windows_group =>
        match re_search (match_assignment "wsl2_base") content_clean with
        | None => Raise (ValueError "Missing required field: wsl2_base")
        | Some wsl2_group =>
            match re_search match_files content_clean with
            | None => Raise (ValueError "Missing required field: files")
            | Some files_group =>
                let files_str := strip files_group in
                Ok (mkConfig
                      (Some (Path_of_string (strip windows_group)))
                      (Some (Path_of_string (strip wsl2_group)))
                      (if String.eqb files_str "" then []
                       else findall_quoted files_str))
            end
        end
    end.

Section Reading.

(** The codec with which [read_text] decodes the bytes of the file (the
    encoding of the locale): the text, or the [UnicodeDecodeError]. *)
Variable decode : string -> result string.

(** [p.read_text()] *)
Definition Path_read_text (p : Path) : M string :=
  fun w =>
    match locate w p with
    | NoEntry => walk_error p false w
    | NotDir => walk_error p true w
    | At q =>
        match lookup (root w) q with
        | None => (Raise (FileNotFoundError (str p)), w)
        | Some (Dir _) => (Raise (IsADirectoryError (str p)), w)
        | Some (File data) =>
            match decode data with
            | Ok text => (Ok (universal_newlines text), w)
            | Raise e => (Raise e, w)
            end
        end
    end.

(** [parse_config] *)
Definition parse_config (config_path : Path) : M WSLSyncConfig :=
  ex <- gets (fun w => exists_ w config_path) ;;
  if negb ex then
    raise (FileNotFoundError ("Config file not found: " ++ str config_path))
  else
    text <- Path_read_text config_path ;;
    match parse_content text with
    | Ok config => ret config
    | Raise e => raise e
    end.

End Reading.

(** The codec of an ASCII locale: a byte above 127 is an error
    ([UnicodeDecodeError], which is a [ValueError]). *)
Definition is_ascii (s : string) : bool :=
  negb (existsb (fun c => (127 <? nat_of_ascii c)%nat) (list_ascii_of_string s)).

Definition ascii_codec (data : string) : result string :=
  if is_ascii data then Ok data
  else Raise (ValueError "'ascii' codec can't decode byte").

(** [s] has none of the characters [cs]. *)
Definition free_of (cs : list ascii) (s : string) : bool :=
  forallb (fun c => negb (has_char c s)) cs.

(** A configuration written out in the layout of the documentation, the
    list on one line. *)
Definition quote (e : string) : string :=
  String DQUOTE (e ++ String DQUOTE EmptyString).

Definition render (wb db : string) (entries : list string) : string :=
  ("windows_base = " ++ wb ++ String LF
     ("wsl2_base = " ++ db ++ String LF
        ("files = [" ++ String.concat ", " (map quote entries) ++ "]")))%string.

(** A file system with such a file in it. *)
Definition world_config : world :=
  mkWorld
    (Dir [("home",
           Dir [(".wslsync",
                 File (render "/mnt/c/source" "/home/user/dest"
                              ["docs/a.txt"; "notes"]))])])
    [] [] [].

End ConfigParser.
Export ConfigParser.

Module Cli.

(* ===================================================================== *)
(** * __main__.py: [run_sync] and [validate_config_command] *)
(* ===================================================================== *)

(** What the commands write.  [Info] and [Error] are records of the logger
    that [setup_logging] returns, whose handler lets both levels through
    for either log level that [run_sync] asks for; [Out] is a line printed
    to the standard output; [Err p e] is the line [print(f"{p}{e}",
    file=sys.stderr)] and [ErrorWith p e] the record
    [logger.error(f"{p}{e}")], for an exception [e]. *)
Inductive event : Type :=
| Info (msg : string)
| ErrorWith (prefix : string) (e : exn)
| Out (msg : string)
| Err (prefix : string) (e : exn).

(** The loop of the dry run over the files of the destination: the lines
    written, and the exception that ended it, if one did. *)
Fixpoint would_delete (config : WSLSyncConfig) (dest_files : list Path)
  : list event * option exn :=
  match dest_files with
  | [] => ([], None)
  | file_path :: rest =>
      let rel_path :=
        match wsl2_base config with
        | Some base =>
            match relative_to file_path base with
            | Some rel => Ok rel
            | None =>
                Raise (ValueError (str file_path ++ " is not in the subpath of "
                                     ++ str base))
            end
        | None => Ok file_path
        end in
      match rel_path with
      | Raise e => ([], Some e)
      | Ok rel =>
          let should_keep := existsb (matches_entry rel) (files config) in
          let line :=
            if should_keep then []
            else [Info ("  Would delete: " ++ str file_path)] in
          let (lines, stop) := would_delete config rest in
          (line ++ lines, stop)
      end
  end.

(** The check mark of the message as the source has it: the three bytes of
    a check mark in UTF-8 read as three characters in another encoding,
    which are seven bytes in UTF-8. *)
Definition check_mark : string :=
  String "195" (String "162" (String "197" (String "147"
    (String "226" (String "128" (String "156" EmptyString)))))).

(** [str(p)] for a root that may be [None]. *)
Definition str_opt (p : option Path) : string :=
  match p with
  | Some q => str q
  | None => "None"
  end.

(** The line that [validate_config_command] prints first, and the lines of
    its report on a valid configuration. *)
Definition first_line (config_path : Path) : string :=
  ("Validating configuration file: " ++ str config_path)%string.

Definition report (config : WSLSyncConfig) : list string :=
  [(check_mark ++ " Configuration file is valid")%string;
   ("  Windows base: " ++ str_opt (windows_base config))%string;
   ("  WSL2 base: " ++ str_opt (wsl2_base config))%string;
   ("  Files to sync: " ++ str_len (files config))%string]
    ++ map (fun file_path => ("    - " ++ file_path)%string) (files config).

Section Commands.

(** The codec of [read_text]. *)
Variable decode : string -> result string.

(** The codec with which [print] encodes a line for the standard output
    (the encoding of the locale): the bytes, or the [UnicodeEncodeError],
    which is a [ValueError].  The standard error output replaces what it
    cannot encode and never raises. *)
Variable encode : string -> result string.

(** [print(msg)] for each line in turn, after the lines [out]: a line that
    cannot be encoded is not written, and its exception ends the
    printing. *)
Fixpoint print_lines (out : list event) (msgs : list string)
  : list event * option exn :=
  match msgs with
  | [] => (out, None)
  | msg :: rest =>
      match encode msg with
      | Ok _ => print_lines (out ++ [Out msg]) rest
      | Raise e => (out, Some e)
      end
  end.

(** [run_sync]: the exit code and what was written.  No module logs below
    the level INFO, so [verbose] changes nothing in it. *)
Definition run_sync (config_path : Path) (dry_run verbose : bool)
  : world -> (Z * list event) * world :=
  fun w =>
    let log0 := [Info ("Loading configuration from: " ++ str config_path)] in
    match parse_config decode config_path w with
    | (Raise e, w1) => ((1%Z, log0 ++ [Err "Error: " e]), w1)
    | (Ok config, w1) =>
        match validate_config config with
        | Raise e => ((1%Z, log0 ++ [Err "Error: " e]), w1)
        | Ok _ =>
            match WSLSyncEngine_init (Some config) with
            | Raise e => ((1%Z, log0 ++ [Err "Error: " e]), w1)
            | Ok engine =>
                if dry_run then
                  let log1 :=
                    log0 ++ [Info "DRY RUN MODE - No changes will be made"] in
                  let failed e :=
                    log1 ++ [ErrorWith "Error during dry run analysis: " e] in
                  match get_source_files engine w1 with
                  | (Raise e, w2) => ((1%Z, failed e), w2)
                  | (Ok source_files, w2) =>
                      match get_destination_files engine w2 with
                      | (Raise e, w3) => ((1%Z, failed e), w3)
                      | (Ok dest_files, w3) =>
                          let log2 :=
                            log1
                              ++ [Info ("Would copy " ++ str_len source_files
                                          ++ " files")]
                              ++ map (fun f => Info ("  Would copy: " ++ str f))
                                     source_files
                              ++ [Info "Would clean up files not in sync list"] in
                          match would_delete config dest_files with
                          | (lines, None) => ((0%Z, log2 ++ lines), w3)
                          | (lines, Some e) =>
                              ((1%Z,
                                log2 ++ lines
                                  ++ [ErrorWith "Error during dry run analysis: " e]),
                               w3)
                          end
                      end
                  end
                else
                  let log1 := log0 ++ [Info "Starting synchronization"] in
                  match sync engine w1 with
                  | (Raise e, w2) => ((1%Z, log1 ++ [Err "Error: " e]), w2)
                  | (Ok _, w2) =>
                      ((0%Z,
                        log1 ++ [Info "Synchronization completed successfully"]),
                       w2)
                  end
            end
        end
    end.

(** [validate_config_command]; a [ValueError] is reported as a
    configuration error, any other exception as an error. *)
Definition validate_config_command (config_path : Path)
  : world -> (Z * list event) * world :=
  fun w =>
    let failed out e :=
      match e with
      | ValueError _ => out ++ [Err "Configuration error: " e]
      | _ => out ++ [Err "Error: " e]
      end in
    match print_lines [] [first_line config_path] with
    | (out0, Some e) => ((1%Z, failed out0 e), w)
    | (out0, None) =>
        match parse_config decode config_path w with
        | (Raise e, w1) => ((1%Z, failed out0 e), w1)
        | (Ok config, w1) =>
            match validate_config config with
            | Raise e => ((1%Z, failed out0 e), w1)
            | Ok _ =>
                match print_lines out0 (report config) with
                | (out, Some e) => ((1%Z, failed out e), w1)
                | (out, None) => ((0%Z, out), w1)
                end
            end
        end
    end.

End Commands.

(** The codec of an ASCII locale on the way out: a character above 127 is
    an error ([UnicodeEncodeError], which is a [ValueError]). *)
Definition ascii_encoder (text : string) : result string :=
  if is_ascii text then Ok text
  else Raise (ValueError "'ascii' codec can't encode character").

(** A file system with a configuration file, a source and a destination. *)
Definition world_cli : world :=
  mkWorld
    (Dir [("cfg", File (render "/src" "/dst" ["a.txt"; "sub"]));
          ("src", Dir [("a.txt", File "A");
                       ("sub", Dir [("b.txt", File "B")])]);
          ("dst", Dir [("a.txt", File "old"); ("stale.txt", File "S")])])
    [] [] [].

End Cli.
Export Cli.

(* ===================================================================== *)
(** * Properties *)
(* ===================================================================== *)

Unset Implicit Arguments.

Module EngineInit.

(** C10. Constructing the engine from a missing configuration raises
    [ValueError("Config cannot be None")] and yields no engine; from any
    configuration it succeeds and the engine holds that configuration
    unchanged. *)
Theorem init_none_or_stores :
  WSLSyncEngine_init None = Raise (ValueError "Config cannot be None") /\
  (forall cfg : WSLSyncConfig,
      exists e, WSLSyncEngine_init (Some cfg) = Ok e /\ config e = cfg) /\
  (forall c e, WSLSyncEngine_init c = Ok e -> c = Some (config e)).
Proof.
  split; [reflexivity|]. split.
  - intros cfg. exists (mkEngine cfg). split; reflexivity.
  - intros [cfg|] e H; simpl in H.
    + inversion H; subst. reflexivity.
    + discriminate H.
Qed.

End EngineInit.

Module ConfigProps.

Lemma nodup_length_le (l : list string) :
  (List.length (set_of l) <= List.length l)%nat.
Proof.
  unfold set_of. induction l as [|a l IH]; simpl; [lia|].
  destruct (in_dec String.string_dec a l); simpl; lia.
Qed.

(** [len(l) == len(set(l))] says that [l] has no repetition. *)
Lemma same_length_iff_NoDup (l : list string) :
  Nat.eqb (List.length l) (List.length (set_of l)) = true <-> NoDup l.
Proof.
  rewrite Nat.eqb_eq. split.
  - induction l as [|a l IH]; intros H; [constructor|].
    unfold set_of in *. simpl in H.
    destruct (in_dec String.string_dec a l) as [Hin|Hnin].
    + pose proof (nodup_length_le l) as Hle. unfold set_of in Hle. lia.
    + simpl in H. constructor; [assumption|]. apply IH. lia.
  - intros H. unfold set_of. now rewrite (nodup_fixed_point String.string_dec H).
Qed.

Lemma empty_form_test (p : Path) :
  String.eqb (strip (str p)) "" || String.eqb (str p) "." = true
  <-> empty_form p.
Proof.
  unfold empty_form. rewrite orb_true_iff, !String.eqb_eq. reflexivity.
Qed.

Ltac five := split; [split|split; [|split]].

Ltac no_violation v :=
  let H := fresh in
  intros H; specialize (H v); simpl in H; exfalso; apply H.

(** C6. [validate_config] returns [True] exactly on the configurations with
    both roots set, neither root of empty string form, at least one entry
    and no repeated entry; on every other configuration it raises a
    [ValueError] whose message contains the name of a field or condition
    that is violated; a repeated entry, when nothing else is wrong, gives
    the message about duplicates. *)
Theorem validate_config_rejects_exactly (c : WSLSyncConfig) :
  (validate_config c = Ok true <-> forall v, ~ violates v c) /\
  (forall r, validate_config c = Ok r -> r = true) /\
  (forall e, validate_config c = Raise e ->
     exists v msg, e = ValueError msg /\ violates v c /\
                   contains (keyword v) msg = true) /\
  ((forall v, violates v c <-> v = DuplicateFiles) ->
     validate_config c = Raise (ValueError "Duplicate files found in configuration")).
Proof.
  destruct c as [wb db fs]. unfold validate_config. simpl.
  destruct wb as [wb|].
  2:{ five.
      - discriminate.
      - no_violation WindowsBaseUnset. reflexivity.
      - discriminate.
      - intros e H. inversion H; subst. exists WindowsBaseUnset. eexists.
        repeat split.
      - intros H. discriminate (proj1 (H WindowsBaseUnset) eq_refl). }
  destruct db as [db|].
  2:{ five.
      - discriminate.
      - no_violation Wsl2BaseUnset. reflexivity.
      - discriminate.
      - intros e H. inversion H; subst. exists Wsl2BaseUnset. eexists.
        repeat split.
      - intros H. discriminate (proj1 (H Wsl2BaseUnset) eq_refl). }
  destruct fs as [|f fs].
  { five.
    - discriminate.
    - no_violation FilesEmpty. reflexivity.
    - discriminate.
    - intros e H. inversion H; subst. exists FilesEmpty. eexists.
      repeat split.
    - intros H. discriminate (proj1 (H FilesEmpty) eq_refl). }
  destruct (String.eqb (strip (str wb)) "" || String.eqb (str wb) ".") eqn:Ew.
  { apply empty_form_test in Ew. five.
    - discriminate.
    - no_violation WindowsBaseEmpty. exists wb. now split.
    - discriminate.
    - intros e H. inversion H; subst. exists WindowsBaseEmpty. eexists.
      split; [reflexivity|]. split; [exists wb; now split|reflexivity].
    - intros H. assert (violates WindowsBaseEmpty (mkConfig (Some wb) (Some db) (f :: fs)))
        as V by (exists wb; now split).
      apply H in V. discriminate V. }
  destruct (String.eqb (strip (str db)) "" || String.eqb (str db) ".") eqn:Ed.
  { apply empty_form_test in Ed. five.
    - discriminate.
    - no_violation Wsl2BaseEmpty. exists db. now split.
    - discriminate.
    - intros e H. inversion H; subst. exists Wsl2BaseEmpty. eexists.
      split; [reflexivity|]. split; [exists db; now split|reflexivity].
    - intros H. assert (violates Wsl2BaseEmpty (mkConfig (Some wb) (Some db) (f :: fs)))
        as V by (exists db; now split).
      apply H in V. discriminate V. }
  destruct (Nat.eqb (List.length (f :: fs)) (List.length (set_of (f :: fs))))
    eqn:En; simpl.
  - apply same_length_iff_NoDup in En. five.
    + intros _ v. destruct v; simpl.
      * discriminate.
      * discriminate.
      * discriminate.
      * intros (p & Hp & He). inversion Hp; subst p.
        apply empty_form_test in He. congruence.
      * intros (p & Hp & He). inversion Hp; subst p.
        apply empty_form_test in He. congruence.
      * intros H. apply H, En.
    + reflexivity.
    + intros r H. now inversion H.
    + discriminate.
    + intros H. destruct (proj2 (H DuplicateFiles) eq_refl). exact En.
  - assert (~ NoDup (f :: fs)) as Hd.
    { intros Hn. apply same_length_iff_NoDup in Hn. congruence. }
    five.
    + discriminate.
    + no_violation DuplicateFiles. exact Hd.
    + discriminate.
    + intros e H. inversion H; subst. exists DuplicateFiles. eexists.
      split; [reflexivity|]. split; [exact Hd|reflexivity].
    + reflexivity.
Qed.

End ConfigProps.

Module FormatProps.

Local Open Scope Z_scope.

Lemma all_digits_uint (d : Decimal.uint) :
  all_digits (DecimalString.NilEmpty.string_of_uint d) = true.
Proof. induction d; simpl; auto. Qed.

Lemma all_digits_str_int (n : Z) : 0 <= n -> all_digits (str_int n) = true.
Proof.
  intros Hn. unfold str_int. destruct n as [|p|p]; [reflexivity| |lia].
  simpl. unfold DecimalString.NilZero.string_of_uint.
  pose proof (all_digits_uint (Pos.to_uint p)) as H.
  destruct (Pos.to_uint p); [reflexivity|exact H..].
Qed.

(** A positive size below 1024 is its own double, and the loop does not
    turn. *)
Lemma format_below_1024 (n : Z) :
  0 < n < 1024 -> format_file_size n = Ok (str_int n ++ " B")%string.
Proof.
  intros [Hpos Hlt]. unfold format_file_size.
  destruct (n <? 0) eqn:E1; [apply Z.ltb_lt in E1; lia|].
  destruct (n =? 0) eqn:E2; [apply Z.eqb_eq in E2; lia|].
  unfold float_of_int.
  assert (Z.log2 n < 10) as Hlog by (apply Z.log2_lt_pow2; [lia|simpl; lia]).
  destruct (Z.log2 n + 1 <=? 53) eqn:E3; [|apply Z.leb_gt in E3; lia].
  simpl scale. unfold ge_1024. simpl mant. simpl shift.
  destruct (1024 * 2 ^ 0 <=? n) eqn:E4; [apply Z.leb_le in E4; simpl in E4; lia|].
  simpl. unfold int_of_float. simpl. now rewrite Z.div_1_r.
Qed.

(** C8. The three sizes of the specification, every size below 1024 (the
    integer itself, in digits only, then [" B"]) and every negative size. *)
Theorem format_file_size_bytes_range :
  format_file_size 1536 = Ok "1.5 KB"%string /\
  format_file_size 0 = Ok "0 B"%string /\
  format_file_size (-5) = Ok "0 B"%string /\
  (forall n, 0 <= n < 1024 ->
     format_file_size n = Ok (str_int n ++ " B")%string /\
     all_digits (str_int n) = true) /\
  (forall n, n < 0 -> format_file_size n = Ok "0 B"%string).
Proof.
  split; [reflexivity|]. split; [reflexivity|]. split; [reflexivity|]. split.
  - intros n [H0 H1]. split; [|apply all_digits_str_int; exact H0].
    destruct (Z.eq_dec n 0) as [->|Hn]; [reflexivity|].
    apply format_below_1024. lia.
  - intros n Hn. unfold format_file_size.
    destruct (n <? 0) eqn:E; [reflexivity|]. apply Z.ltb_ge in E. lia.
Qed.

Lemma format_file_size_512 :
  format_file_size 512 = Ok "512 B"%string /\
  format_file_size (-100) = Ok "0 B"%string.
Proof.
  destruct format_file_size_bytes_range as (_ & _ & _ & Hsmall & Hneg).
  split.
  - exact (proj1 (Hsmall 512 ltac:(lia))).
  - exact (Hneg (-100) ltac:(lia)).
Defined.

End FormatProps.

Module PrefixProps.

Lemma is_prefix_refl (a : list string) : is_prefix a a = true.
Proof. induction a; simpl; [reflexivity|now rewrite String.eqb_refl]. Qed.

Lemma is_prefix_iff (a b : list string) :
  is_prefix a b = true <-> exists s, b = a ++ s.
Proof.
  revert b. induction a as [|x a IH]; intros b; simpl.
  - split; [intros _; now exists b|reflexivity].
  - destruct b as [|y b].
    + split; [discriminate|intros [s H]; discriminate].
    + rewrite andb_true_iff, String.eqb_eq, IH. split.
      * intros [-> [s ->]]. now exists s.
      * intros [s H]. inversion H; subst. split; [reflexivity|now exists s].
Qed.

End PrefixProps.

Module PathSafety.

Lemma is_prefix_app (a u v : list string) :
  is_prefix (a ++ u) (a ++ v) = is_prefix u v.
Proof.
  induction a as [|x a IH]; simpl; [reflexivity|].
  now rewrite String.eqb_refl, IH.
Qed.

Lemma normalize_app (acc a b : list string) :
  normalize acc (a ++ b) = normalize (normalize acc a) b.
Proof.
  revert acc. induction a as [|c a IH]; intros acc; simpl; [reflexivity|].
  destruct (String.eqb c ".."); [apply IH|].
  destruct (String.eqb c "." || String.eqb c ""); apply IH.
Qed.

(** What [is_path_safe] computes: the components of the resolved base start
    those of the resolved path, a relative path being joined to the base
    before it is resolved. *)
Lemma is_path_safe_prefix (w : world) (path base : Path) :
  is_path_safe w path base
  = is_prefix (parts (resolve w base))
      (parts (resolve w (if absolute path then path else joinpath base path))).
Proof.
  unfold is_path_safe, relative_to. simpl.
  destruct (absolute path) eqn:E; simpl; rewrite ?E;
    destruct (is_prefix _ _); reflexivity.
Qed.

Lemma resolve_join_relative (w : world) (base : Path) (rel : list string) :
  parts (resolve w (joinpath base (mkPath false rel)))
  = normalize (parts (resolve w base)) rel.
Proof. unfold resolve, joinpath. simpl. apply normalize_app. Qed.

Lemma climb_twice_prefix (b : list string) :
  is_prefix b (removelast (removelast b) ++ ["etc"; "passwd"]) = true
  <-> holds_etc_passwd b.
Proof.
  unfold holds_etc_passwd.
  destruct (rev b) as [|y [|x t]] eqn:E; apply (f_equal (@rev string)) in E;
    rewrite rev_involutive in E; simpl in E; subst b.
  - simpl. intuition.
  - simpl. rewrite andb_true_r, String.eqb_eq. split.
    + intros ->. right; left; reflexivity.
    + intros [H|[H|[b' H]]]; try discriminate.
      * now inversion H.
      * destruct b' as [|? [|? ?]]; discriminate.
  - rewrite <- app_assoc. simpl.
    replace (rev t ++ [x; y]) with ((rev t ++ [x]) ++ [y])
      by now rewrite <- app_assoc.
    rewrite removelast_last, removelast_last.
    rewrite <- app_assoc. simpl. rewrite is_prefix_app. simpl.
    rewrite !andb_true_iff, !String.eqb_eq. split.
    + intros [-> [-> _]]. right; right. now exists (rev t).
    + intros [H|[H|[b' H]]].
      * destruct (rev t); discriminate.
      * destruct (rev t) as [|? [|? ?]]; discriminate.
      * assert (rev (rev t ++ [x; y]) = rev (b' ++ ["etc"; "passwd"])) as R
          by now rewrite H.
        rewrite !rev_app_distr in R. simpl in R. inversion R. auto.
Qed.

(** C7, as it holds. [is_path_safe] is true exactly when the resolved path
    lies within the resolved base; it is true for [src/file.txt] against
    every base and for [base/src/file.txt] against an absolute [base]; for
    [../../etc/passwd] it is false exactly when the resolved base is none of
    [/], [/etc] and a directory ending in [etc/passwd]. *)
Theorem is_path_safe_containment (w : world) (base : Path) :
  (forall path,
     is_path_safe w path base = true <->
     exists rel,
       parts (resolve w (if absolute path then path else joinpath base path))
       = parts (resolve w base) ++ rel) /\
  is_path_safe w (P "src/file.txt") base = true /\
  (absolute base = true ->
   is_path_safe w (joinpath base (P "src/file.txt")) base = true) /\
  (is_path_safe w (P "../../etc/passwd") base = false <->
   ~ holds_etc_passwd (parts (resolve w base))).
Proof.
  split; [|split; [|split]].
  - intros path. rewrite is_path_safe_prefix. apply PrefixProps.is_prefix_iff.
  - rewrite is_path_safe_prefix. apply PrefixProps.is_prefix_iff.
    exists ["src"; "file.txt"].
    change (P "src/file.txt") with (mkPath false ["src"; "file.txt"]).
    cbv [absolute]. rewrite resolve_join_relative. simpl.
    now rewrite <- app_assoc.
  - intros Habs. rewrite is_path_safe_prefix. apply PrefixProps.is_prefix_iff.
    exists ["src"; "file.txt"].
    change (P "src/file.txt") with (mkPath false ["src"; "file.txt"]).
    unfold joinpath, resolve. simpl. rewrite Habs. simpl.
    rewrite normalize_app. simpl. now rewrite <- app_assoc.
  - rewrite is_path_safe_prefix.
    change (P "../../etc/passwd") with (mkPath false [".."; ".."; "etc"; "passwd"]).
    cbv [absolute]. rewrite resolve_join_relative.
    set (b := parts (resolve w base)).
    change (normalize b [".."; ".."; "etc"; "passwd"])
      with ((removelast (removelast b) ++ ["etc"]) ++ ["passwd"]).
    rewrite <- app_assoc. simpl app. rewrite <- climb_twice_prefix.
    destruct (is_prefix b _); split; congruence.
Qed.

(** The claim as the specification words it fails at the base [/etc]. *)
Lemma etc_passwd_inside_etc :
  is_path_safe world_spec (P "../../etc/passwd") (P "/etc") = true.
Proof. reflexivity. Qed.

Lemma is_path_safe_project :
  is_path_safe world_spec (P "/home/user/project/src/file.txt")
    (P "/home/user/project") = true /\
  is_path_safe world_spec (P "../../etc/passwd") (P "/home/user/project") = false.
Proof.
  destruct (is_path_safe_containment world_spec (P "/home/user/project"))
    as (_ & _ & Habs & Hesc).
  split.
  - exact (Habs eq_refl).
  - apply Hesc. intros HH.
    change (parts (resolve world_spec (P "/home/user/project")))
      with ["home"; "user"; "project"] in HH.
    destruct HH as [H|[H|[b' H]]]; try discriminate.
    destruct b' as [|? [|? ?]]; simpl in H; try discriminate H.
    apply (f_equal (@List.length string)) in H. simpl in H.
    rewrite length_app in H. simpl in H. lia.
Defined.

End PathSafety.

Module ValidateProps.

Lemma iterdir_keeps_world (p : Path) (w : world) : snd (Path_iterdir p w) = w.
Proof.
  unfold Path_iterdir, walk_error, raise.
  destruct (locate w p); try reflexivity.
  destruct (lookup (root w) q) as [[d|ks]|]; try reflexivity.
  destruct (is_denied w q); reflexivity.
Qed.

Lemma iterdir_split (p : Path) (w : world) :
  Path_iterdir p w = (listing w p, w).
Proof.
  unfold listing. rewrite <- (iterdir_keeps_world p w) at 3.
  now destruct (Path_iterdir p w).
Qed.

Lemma validate_paths_run (self : WSLSyncEngine) (w : world) :
  validate_paths self w =
  (match windows_base (config self), wsl2_base (config self) with
   | None, _ => Raise (ValueError "Windows base path not configured")
   | Some _, None => Raise (ValueError "WSL2 base path not configured")
   | Some wb, Some db =>
       if negb (exists_ w wb) then
         Raise (FileNotFoundError ("Source directory not found: " ++ str wb))
       else if negb (exists_ w db) then
         Raise (FileNotFoundError ("Destination directory not found: " ++ str db))
       else
         match listing w wb with
         | Raise e => Raise (relabel ("Cannot access source directory: " ++ str wb) e)
         | Ok _ =>
             match listing w db with
             | Raise e =>
                 Raise (relabel ("Cannot access destination directory: " ++ str db) e)
             | Ok _ => Ok true
             end
         end
   end, w).
Proof.
  unfold validate_paths.
  destruct (windows_base (config self)) as [wb|]; [|reflexivity].
  destruct (wsl2_base (config self)) as [db|]; [|reflexivity].
  unfold bind, gets, raise.
  destruct (exists_ w wb); simpl; [|reflexivity].
  destruct (exists_ w db); simpl; [|reflexivity].
  rewrite (iterdir_split wb w).
  destruct (listing w wb) as [l|e].
  - rewrite (iterdir_split db w).
    destruct (listing w db) as [l'|e']; [reflexivity|].
    destruct e'; reflexivity.
  - destruct e; reflexivity.
Qed.

Lemma validate_paths_keeps_world (self : WSLSyncEngine) (w : world) :
  snd (validate_paths self w) = w.
Proof. now rewrite validate_paths_run. Qed.

Section Outcome.

Variable self : WSLSyncEngine.
Variable w : world.

Let outcome : result bool := fst (validate_paths self w).

(** C5, as it holds. [validate_paths] never changes the file system.  It
    returns [True] exactly when both roots are set, exist and can be listed.
    An unset root gives a [ValueError]; with both set, a missing root gives
    a [FileNotFoundError]; with both present, the first root whose listing
    fails decides: a refused listing gives a [PermissionError], any other
    failure (the root is not a directory) is raised as it is. *)
Theorem validate_paths_outcome :
  snd (validate_paths self w) = w /\
  (outcome = Ok true <->
   exists wb db,
     windows_base (config self) = Some wb /\ wsl2_base (config self) = Some db /\
     exists_ w wb = true /\ exists_ w db = true /\
     (exists l, listing w wb = Ok l) /\ (exists l, listing w db = Ok l)) /\
  (windows_base (config self) = None \/ wsl2_base (config self) = None ->
   exists m, outcome = Raise (ValueError m)) /\
  (forall wb db,
     windows_base (config self) = Some wb -> wsl2_base (config self) = Some db ->
     exists_ w wb = false \/ exists_ w db = false ->
     exists m, outcome = Raise (FileNotFoundError m)) /\
  (forall wb db e,
     windows_base (config self) = Some wb -> wsl2_base (config self) = Some db ->
     exists_ w wb = true -> exists_ w db = true ->
     listing w wb = Raise e \/
     ((exists l, listing w wb = Ok l) /\ listing w db = Raise e) ->
     if is_PermissionError e
     then exists m, outcome = Raise (PermissionError m)
     else outcome = Raise e).
Proof.
  unfold outcome. rewrite validate_paths_run. simpl.
  split; [reflexivity|]. split; [|split; [|split]].
  - split.
    + destruct (windows_base (config self)) as [wb|]; [|discriminate].
      destruct (wsl2_base (config self)) as [db|]; [|discriminate].
      destruct (exists_ w wb) eqn:Es; simpl; [|discriminate].
      destruct (exists_ w db) eqn:Ed; simpl; [|discriminate].
      destruct (listing w wb) as [l|e] eqn:Ls; [|discriminate].
      destruct (listing w db) as [l'|e'] eqn:Ld; [|discriminate].
      intros _. exists wb, db. repeat split; eauto.
    + intros (wb & db & -> & -> & -> & -> & [l ->] & [l' ->]). reflexivity.
  - intros [->| H].
    + eexists; reflexivity.
    + rewrite H. destruct (windows_base (config self)); eexists; reflexivity.
  - intros wb db -> -> [->| H]; simpl.
    + eexists; reflexivity.
    + rewrite H. destruct (exists_ w wb); eexists; reflexivity.
  - intros wb db e -> -> -> -> [->|[[l ->] ->]]; simpl;
      unfold relabel; destruct (is_PermissionError e); eauto.
Qed.

End Outcome.

(** The claim as the specification words it fails when a root is a regular
    file: it exists and cannot be listed, and the exception is not a
    [PermissionError]. *)
Lemma file_root_is_not_a_permission_error :
  exists_ world_root_is_file (P "/src.txt") = true /\
  exists_ world_root_is_file (P "/dst") = true /\
  listing world_root_is_file (P "/src.txt") = Raise (NotADirectoryError "/src.txt") /\
  validate_paths engine_root_is_file world_root_is_file
  = (Raise (NotADirectoryError "/src.txt"), world_root_is_file) /\
  ~ (exists m, fst (validate_paths engine_root_is_file world_root_is_file)
               = Raise (PermissionError m)).
Proof.
  repeat split; try reflexivity.
  intros [m H]. discriminate H.
Qed.

Lemma validate_paths_denied_destination :
  exists m, fst (validate_paths engine_one_file world_denied)
            = Raise (PermissionError m).
Proof.
  destruct (validate_paths_outcome engine_one_file world_denied)
    as (_ & _ & _ & _ & H).
  exact (H (P "/src") (P "/dst") (PermissionError "/dst")
           eq_refl eq_refl eq_refl eq_refl
           (or_intror (conj (ex_intro _ [] eq_refl) eq_refl))).
Defined.

End ValidateProps.

Module MonadProps.

Lemma fold_m_app {A S} (body : A -> S -> M S) (a b : list A) (s : S) (w : world) :
  fold_m body (a ++ b) s w =
  match fold_m body a s w with
  | (Ok s', w') => fold_m body b s' w'
  | (Raise e, w') => (Raise e, w')
  end.
Proof.
  revert s w. induction a as [|x a IH]; intros s w; simpl; [reflexivity|].
  unfold bind. destruct (body x s w) as [[s'|e] w']; [apply IH|reflexivity].
Qed.

Lemma fold_m_cons {A S} (body : A -> S -> M S) (x : A) (r : list A) (s : S)
  (w : world) :
  fold_m body (x :: r) s w =
  match body x s w with
  | (Ok s', w') => fold_m body r s' w'
  | (Raise e, w') => (Raise e, w')
  end.
Proof. reflexivity. Qed.

End MonadProps.
Export MonadProps.

Module FailFast.

Section MissingEntry.

Variable self : WSLSyncEngine.
Variables wb db : Path.
Hypothesis Hwb : windows_base (config self) = Some wb.
Hypothesis Hdb : wsl2_base (config self) = Some db.

Lemma copy_entry_missing (e : string) (done : list Path) (w : world) :
  exists_ w (join wb e) = false ->
  copy_entry self wb db e done w
  = (Raise (FileNotFoundError ("Source path not found: " ++ str (join wb e))), w).
Proof.
  intros H. unfold copy_entry, bind, gets, raise. now rewrite H.
Qed.

(** C4. When the entries before [e] have been copied, leaving the world
    [w1], and the source path of [e] does not exist there, [copy_files]
    raises the not-found error for [e] and leaves [w1]: what was copied
    stays, and whatever follows [e] in the configuration plays no part.
    [sync] then raises the same error in the same world: the cleanup has
    not run. *)
Theorem copy_files_stops_at_missing_entry
  (pre post : list string) (e : string) (w w1 : world) (done : list Path) :
  files (config self) = pre ++ e :: post ->
  fold_m (copy_entry self wb db) pre [] w = (Ok done, w1) ->
  exists_ w1 (join wb e) = false ->
  let err := FileNotFoundError ("Source path not found: " ++ str (join wb e)) in
  copy_files self w = (Raise err, w1) /\
  (fst (validate_paths self w) = Ok true -> sync self w = (Raise err, w1)).
Proof.
  intros Hfiles Hpre Hmiss err.
  assert (copy_files self w = (Raise err, w1)) as Hcopy.
  { unfold copy_files. rewrite Hwb, Hdb, Hfiles, fold_m_app, Hpre.
    rewrite fold_m_cons, copy_entry_missing by exact Hmiss. reflexivity. }
  split; [exact Hcopy|].
  intros Hval. unfold sync, bind.
  pose proof (ValidateProps.validate_paths_keeps_world self w) as Hw.
  destruct (validate_paths self w) as [r w']. simpl in Hval, Hw. subst r w'.
  rewrite Hcopy. reflexivity.
Qed.

End MissingEntry.

Lemma sync_missing_second_entry :
  copy_files engine_missing world_missing
  = (Raise (FileNotFoundError "Source path not found: /src/b.txt"),
     mkWorld
       (Dir [("src", Dir [("a.txt", File "A"); ("c.txt", File "C")]);
             ("dst", Dir [("stale.txt", File "old"); ("a.txt", File "A")])])
       [] [] []) /\
  sync engine_missing world_missing
  = (Raise (FileNotFoundError "Source path not found: /src/b.txt"),
     mkWorld
       (Dir [("src", Dir [("a.txt", File "A"); ("c.txt", File "C")]);
             ("dst", Dir [("stale.txt", File "old"); ("a.txt", File "A")])])
       [] [] []).
Proof.
  pose proof (@copy_files_stops_at_missing_entry engine_missing
                (P "/src") (P "/dst") eq_refl eq_refl
                ["a.txt"] ["c.txt"] "b.txt" world_missing
                (mkWorld
                   (Dir [("src", Dir [("a.txt", File "A"); ("c.txt", File "C")]);
                         ("dst", Dir [("stale.txt", File "old"); ("a.txt", File "A")])])
                   [] [] [])
                [P "/dst/a.txt"] eq_refl eq_refl eq_refl) as [H1 H2].
  split; [exact H1|exact (H2 eq_refl)].
Defined.

End FailFast.

Module Defects.

(** The scenario of the specification runs as it describes: the destination
    ends with [a.txt], [sub/b.txt] and [sub/c.txt], and [stale.txt] is gone. *)
Lemma sync_spec_scenario :
  fst (sync engine_spec world_spec) = Ok tt /\
  fst (get_destination_files engine_spec (snd (sync engine_spec world_spec)))
  = Ok [P "/dst/a.txt"; P "/dst/sub/b.txt"; P "/dst/sub/c.txt"].
Proof. split; reflexivity. Qed.

(** C1 at a failing input. The entry [a.txt] is a file in the source, and the
    destination has a directory of that name with a stale file [x] in it.
    [sync] succeeds; [shutil.copy2] has put the file inside the directory,
    and the cleanup keeps both files because they lie below the entry: the
    destination holds [a.txt/x] and [a.txt/a.txt], the expansion of the
    entries is [a.txt] alone. *)
Theorem sync_file_entry_onto_directory :
  let after := snd (sync engine_one_file world_dir_in_the_way) in
  fst (sync engine_one_file world_dir_in_the_way) = Ok tt /\
  is_file world_dir_in_the_way (P "/src/a.txt") = true /\
  is_dir world_dir_in_the_way (P "/dst/a.txt") = true /\
  fst (get_source_files engine_one_file after) = Ok [P "/src/a.txt"] /\
  fst (get_destination_files engine_one_file after)
  = Ok [P "/dst/a.txt/x"; P "/dst/a.txt/a.txt"] /\
  is_file after (P "/dst/a.txt") = false.
Proof. repeat split; reflexivity. Qed.

(** C2 at a failing input. The destination holds [old/deep/legacy.txt], which
    no entry covers.  The cleanup deletes the file; the pass over the
    directories, listed before anything is removed and parents first, finds
    [old] non-empty, then removes [deep]: [old] is left behind, empty, by
    [cleanup_destination] and by [sync]. *)
Theorem cleanup_leaves_emptied_parent :
  let cleaned := cleanup_destination engine_one_file [] world_nested_stale in
  let synced := sync engine_one_file world_nested_stale in
  fst cleaned = Ok [P "/dst/old/deep/legacy.txt"] /\
  is_dir (snd cleaned) (P "/dst/old") = true /\
  listing (snd cleaned) (P "/dst/old") = Ok [] /\
  fst synced = Ok tt /\
  is_dir (snd synced) (P "/dst/old") = true /\
  listing (snd synced) (P "/dst/old") = Ok [].
Proof. repeat split; reflexivity. Qed.

End Defects.

Module TreeProps.

Export PrefixProps.

(* ===================================================================== *)
(** * Entries of one directory *)
(* ===================================================================== *)

Lemma find_put_same (x : string) (v : node) ks :
  find_kid x (put_kid x v ks) = Some v.
Proof.
  induction ks as [|[y n] ks IH]; simpl.
  - now rewrite String.eqb_refl.
  - destruct (String.eqb x y) eqn:E; simpl.
    + now rewrite String.eqb_refl.
    + now rewrite E.
Qed.

Lemma find_put_other (x y : string) (v : node) ks :
  x <> y -> find_kid y (put_kid x v ks) = find_kid y ks.
Proof.
  intros Hxy. induction ks as [|[z n] ks IH]; simpl.
  - destruct (String.eqb_spec y x); [congruence|reflexivity].
  - destruct (String.eqb_spec x z) as [->|Hxz]; simpl.
    + destruct (String.eqb_spec y z); [congruence|reflexivity].
    + destruct (String.eqb_spec y z); [reflexivity|exact IH].
Qed.

Lemma find_del_same (x : string) ks : find_kid x (del_kid x ks) = None.
Proof.
  unfold del_kid. induction ks as [|[y n] ks IH]; simpl; [reflexivity|].
  destruct (String.eqb x y) eqn:E; simpl; [exact IH|now rewrite E].
Qed.

Lemma find_del_other (x y : string) ks :
  x <> y -> find_kid y (del_kid x ks) = find_kid y ks.
Proof.
  intros Hxy. unfold del_kid. induction ks as [|[z n] ks IH]; simpl; [reflexivity|].
  destruct (String.eqb_spec x z) as [->|Hxz]; simpl.
  - destruct (String.eqb_spec y z); [congruence|exact IH].
  - destruct (String.eqb_spec y z); [reflexivity|exact IH].
Qed.

Lemma find_upd_same (x : string) (v : option node) ks :
  find_kid x (upd_kid x v ks) = v.
Proof. destruct v; simpl; [apply find_put_same|apply find_del_same]. Qed.

Lemma find_upd_other (x y : string) (v : option node) ks :
  x <> y -> find_kid y (upd_kid x v ks) = find_kid y ks.
Proof.
  intros H. destruct v; simpl; [now apply find_put_other|now apply find_del_other].
Qed.

Lemma find_kid_In (x : string) (c : node) ks :
  find_kid x ks = Some c -> In (x, c) ks.
Proof.
  induction ks as [|[y n] ks IH]; simpl; [discriminate|].
  destruct (String.eqb_spec x y) as [->|H].
  - intros [= ->]. now left.
  - intros H'. right. now apply IH.
Qed.

Lemma In_find_kid (x : string) (c : node) ks :
  NoDup (map fst ks) -> In (x, c) ks -> find_kid x ks = Some c.
Proof.
  induction ks as [|[y n] ks IH]; simpl; [contradiction|].
  intros Hnd [H|H]; inversion Hnd as [|? ? Hnin Hnd']; subst.
  - inversion H; subst. now rewrite String.eqb_refl.
  - destruct (String.eqb_spec x y) as [->|Hxy].
    + exfalso. apply Hnin. apply (in_map fst) in H. exact H.
    + now apply IH.
Qed.

(* ===================================================================== *)
(** * Lookup, and lookup after a write *)
(* ===================================================================== *)

Lemma lookup_app (n : node) (p s : list string) :
  lookup n (p ++ s) = lookup_o (lookup n p) s.
Proof.
  revert n. induction p as [|x p IH]; intros n; simpl; [reflexivity|].
  destruct n as [d|ks]; [reflexivity|].
  destruct (find_kid x ks); [apply IH|reflexivity].
Qed.

(** Where the write does not reach: a location that is neither at or below
    [p] nor above it. *)
Lemma set_at_apart (p : list string) (v : option node) :
  forall (n : node) (p' : list string),
    is_prefix p p' = false -> is_prefix p' p = false ->
    lookup (set_at p v n) p' = lookup n p'.
Proof.
  induction p as [|x r IH]; intros n p' H1 H2; [discriminate H1|].
  destruct n as [d|ks]; [reflexivity|].
  destruct p' as [|y r']; [discriminate H2|].
  simpl in H1, H2.
  destruct (String.eqb_spec x y) as [->|Hxy].
  - rewrite String.eqb_refl in H2. simpl in H1, H2.
    destruct r as [|z r0]; [discriminate H1|].
    change (set_at (y :: z :: r0) v (Dir ks))
      with (match find_kid y ks with
            | Some c => Dir (put_kid y (set_at (z :: r0) v c) ks)
            | None => Dir ks
            end).
    destruct (find_kid y ks) as [c|] eqn:Ec; [|reflexivity].
    simpl. rewrite find_put_same, Ec. now apply IH.
  - destruct r as [|z r0].
    + simpl. now rewrite find_upd_other.
    + change (set_at (x :: z :: r0) v (Dir ks))
        with (match find_kid x ks with
              | Some c => Dir (put_kid x (set_at (z :: r0) v c) ks)
              | None => Dir ks
              end).
      destruct (find_kid x ks) as [c|] eqn:Ec; [|reflexivity].
      simpl. now rewrite find_put_other.
Qed.

(** Above the write: a directory stays a directory, anything else is not
    touched. *)
Lemma set_at_above (p : list string) (v : option node) :
  forall (n : node) (p' : list string),
    is_prefix p' p = true -> p' <> p ->
    kind_of (lookup (set_at p v n) p') = kind_of (lookup n p').
Proof.
  induction p as [|x r IH]; intros n p' H1 H2.
  - destruct p'; [congruence|discriminate H1].
  - destruct n as [d|ks]; [reflexivity|].
    destruct p' as [|y r'].
    + simpl. destruct r; [reflexivity|]. destruct (find_kid x ks); reflexivity.
    + simpl in H1. apply andb_true_iff in H1 as [Hy H1].
      apply String.eqb_eq in Hy. subst y.
      destruct r as [|z r0].
      * destruct r'; [congruence|discriminate H1].
      * change (set_at (x :: z :: r0) v (Dir ks))
          with (match find_kid x ks with
                | Some c => Dir (put_kid x (set_at (z :: r0) v c) ks)
                | None => Dir ks
                end).
        destruct (find_kid x ks) as [c|] eqn:Ec; [|reflexivity].
        simpl. rewrite find_put_same, Ec. apply IH; [exact H1|congruence].
Qed.

(** At and below the write, when the parent of [p] is a directory. *)
Lemma set_at_under (p : list string) (v : option node) :
  forall (n : node) (s : list string),
    p <> [] -> kind_of (lookup n (removelast p)) = KDir ->
    lookup (set_at p v n) (p ++ s) = lookup_o v s.
Proof.
  induction p as [|x r IH]; intros n s Hp Hpar; [congruence|].
  destruct r as [|z r0].
  - simpl in Hpar. destruct n as [d|ks]; [discriminate Hpar|].
    simpl. rewrite find_upd_same. destruct v; reflexivity.
  - change (removelast (x :: z :: r0)) with (x :: removelast (z :: r0)) in Hpar.
    simpl in Hpar. destruct n as [d|ks]; [discriminate Hpar|].
    change (set_at (x :: z :: r0) v (Dir ks))
      with (match find_kid x ks with
            | Some c => Dir (put_kid x (set_at (z :: r0) v c) ks)
            | None => Dir ks
            end).
    destruct (find_kid x ks) as [c|] eqn:Ec; [|discriminate Hpar].
    simpl. rewrite find_put_same. apply IH; [discriminate|exact Hpar].
Qed.

End TreeProps.

Module WfProps.

Import TreeProps.

Lemma node_induction (Q : node -> Prop) :
  (forall d, Q (File d)) ->
  (forall ks, Forall (fun k => Q (snd k)) ks -> Q (Dir ks)) ->
  forall n, Q n.
Proof.
  intros HF HD. fix IH 1. intros [d|ks]; [apply HF|].
  apply HD. induction ks as [|[x c] ks IHks]; constructor.
  - apply IH.
  - exact IHks.
Qed.

Lemma distinct_NoDup (l : list string) : distinct l = true <-> NoDup l.
Proof.
  induction l as [|x l IH]; simpl.
  - split; [constructor|reflexivity].
  - rewrite andb_true_iff, negb_true_iff, IH. split.
    + intros [Hx Hl]. constructor; [|exact Hl].
      intros Hin. assert (existsb (String.eqb x) l = true) as E.
      { apply existsb_exists. exists x. split; [exact Hin|apply String.eqb_refl]. }
      congruence.
    + intros H. inversion H as [|? ? Hnin Hnd]; subst. split; [|exact Hnd].
      destruct (existsb (String.eqb x) l) eqn:E; [|reflexivity].
      apply existsb_exists in E as [y [Hy Exy]]. apply String.eqb_eq in Exy.
      subst y. contradiction.
Qed.

Lemma wfb_Dir (ks : list (string * node)) :
  wfb (Dir ks) = true <->
  NoDup (map fst ks) /\ forallb not_dotdot (map fst ks) = true /\
  Forall (fun k => wfb (snd k) = true) ks.
Proof.
  simpl. rewrite !andb_true_iff, distinct_NoDup.
  assert ((fix all (l : list (string * node)) : bool :=
             match l with
             | [] => true
             | (_, c) :: r => wfb c && all r
             end) ks = true
          <-> Forall (fun k => wfb (snd k) = true) ks) as ->.
  { induction ks as [|[x c] ks IH].
    - split; [constructor|reflexivity].
    - rewrite andb_true_iff, IH. split.
      + intros [H1 H2]. now constructor.
      + intros H. inversion H; subst. now split. }
  tauto.
Qed.

Lemma wfb_kid (ks : list (string * node)) (x : string) (c : node) :
  wfb (Dir ks) = true -> find_kid x ks = Some c ->
  wfb c = true /\ x <> "..".
Proof.
  intros Hwf Hf. apply wfb_Dir in Hwf as (_ & Hnames & Hall).
  apply find_kid_In in Hf. split.
  - rewrite Forall_forall in Hall. exact (Hall _ Hf).
  - rewrite forallb_forall in Hnames.
    specialize (Hnames x (in_map fst _ _ Hf)). unfold not_dotdot in Hnames.
    apply negb_true_iff in Hnames. now apply String.eqb_neq in Hnames.
Qed.

Lemma wfb_lookup (p : list string) :
  forall n c, wfb n = true -> lookup n p = Some c -> wfb c = true.
Proof.
  induction p as [|x p IH]; intros n c Hwf H; simpl in H.
  - now inversion H; subst.
  - destruct n as [d|ks]; [discriminate|].
    destruct (find_kid x ks) as [c1|] eqn:E; [|discriminate].
    apply (IH c1); [|exact H]. exact (proj1 (wfb_kid _ _ _ Hwf E)).
Qed.

(** The names on the way to an existing node are never [..]. *)
Lemma lookup_not_dotdot (p : list string) :
  forall n c, wfb n = true -> lookup n p = Some c ->
              forallb not_dotdot p = true.
Proof.
  induction p as [|x p IH]; intros n c Hwf H; simpl in *; [reflexivity|].
  destruct n as [d|ks]; [discriminate|].
  destruct (find_kid x ks) as [c1|] eqn:E; [|discriminate].
  destruct (wfb_kid _ _ _ Hwf E) as [Hc1 Hx].
  rewrite (IH c1 c Hc1 H), andb_true_r. unfold not_dotdot.
  apply negb_true_iff. now apply String.eqb_neq.
Qed.

(* ===================================================================== *)
(** * What [rglob] lists *)
(* ===================================================================== *)

Lemma rglob_Dir (ks : list (string * node)) :
  rglob_node (Dir ks) =
  map (fun k => [fst k]) ks ++
  flat_map (fun k => map (cons (fst k)) (rglob_node (snd k))) ks.
Proof.
  simpl. f_equal. induction ks as [|[x c] ks IH]; simpl; [reflexivity|].
  now rewrite IH.
Qed.

Lemma rglob_In_cases (ks : list (string * node)) (rel : list string) :
  In rel (rglob_node (Dir ks)) <->
  exists x c, In (x, c) ks /\
              (rel = [x] \/ exists r, rel = x :: r /\ In r (rglob_node c)).
Proof.
  rewrite rglob_Dir, in_app_iff, in_map_iff, in_flat_map. split.
  - intros [[[x c] [<- Hin]]|[[x c] [Hin Hr]]].
    + exists x, c. split; [exact Hin|now left].
    + simpl in Hr. apply in_map_iff in Hr as [r [<- Hr]].
      exists x, c. split; [exact Hin|]. right. now exists r.
  - intros (x & c & Hin & [->|[r [-> Hr]]]).
    + left. now exists (x, c).
    + right. exists (x, c). split; [exact Hin|]. simpl. now apply in_map.
Qed.

(** [rglob] yields exactly the locations below the directory at which
    something exists. *)
Lemma rglob_In (n : node) :
  wfb n = true ->
  forall rel, In rel (rglob_node n) <-> rel <> [] /\ lookup n rel <> None.
Proof.
  induction n as [d|ks IH] using node_induction; intros Hwf rel.
  - simpl. split; [contradiction|]. intros [Hne H].
    destruct rel; [congruence|]. now simpl in H.
  - rewrite rglob_In_cases. pose proof Hwf as Hwf'.
    apply wfb_Dir in Hwf' as (Hnd & _ & Hall).
    rewrite Forall_forall in IH, Hall. split.
    + intros (x & c & Hin & Hrel).
      pose proof (In_find_kid _ _ _ Hnd Hin) as Hf.
      destruct Hrel as [->|[r [-> Hr]]].
      * split; [discriminate|]. simpl. now rewrite Hf.
      * split; [discriminate|]. simpl. rewrite Hf.
        apply (IH (x, c) Hin (Hall _ Hin)) in Hr. exact (proj2 Hr).
    + intros [Hne H]. destruct rel as [|x r]; [congruence|].
      simpl in H. destruct (find_kid x ks) as [c|] eqn:Hf; [|congruence].
      pose proof (find_kid_In _ _ _ Hf) as Hin.
      exists x, c. split; [exact Hin|].
      destruct r as [|y r]; [now left|]. right. exists (y :: r).
      split; [reflexivity|].
      apply (IH (x, c) Hin (Hall _ Hin)). split; [discriminate|exact H].
Qed.

Lemma NoDup_map_inj {A B} (f : A -> B) (l : list A) :
  (forall x y, f x = f y -> x = y) -> NoDup l -> NoDup (map f l).
Proof.
  intros Hinj Hl. induction Hl as [|x l Hnin Hl IH]; simpl; constructor.
  - intros Hin. apply in_map_iff in Hin as [y [Hy Hin]].
    apply Hinj in Hy. subst y. contradiction.
  - exact IH.
Qed.

Lemma rglob_nonempty (n : node) (rel : list string) :
  In rel (rglob_node n) -> rel <> [].
Proof.
  destruct n as [d|ks]; [contradiction|].
  rewrite rglob_In_cases. intros (x & c & _ & [->|[r [-> _]]]); discriminate.
Qed.

Lemma below_starts_with_name (ks : list (string * node)) (rel : list string) :
  In rel (flat_map (fun k => map (cons (fst k)) (rglob_node (snd k))) ks) ->
  exists y r, rel = y :: r /\ r <> [] /\ In y (map fst ks).
Proof.
  rewrite in_flat_map. intros [[y c] [Hin Hr]]. simpl in Hr.
  apply in_map_iff in Hr as [r [<- Hr]]. exists y, r.
  split; [reflexivity|]. split; [exact (rglob_nonempty _ _ Hr)|].
  exact (in_map fst _ _ Hin).
Qed.

(** [rglob] yields no location twice. *)
Lemma rglob_NoDup (n : node) : wfb n = true -> NoDup (rglob_node n).
Proof.
  induction n as [d|ks IH] using node_induction; intros Hwf; [constructor|].
  rewrite rglob_Dir. apply wfb_Dir in Hwf as (Hnd & _ & Hall).
  apply NoDup_app.
  - rewrite <- (map_map fst (fun x => [x])).
    apply NoDup_map_inj; [|exact Hnd]. intros x y H. now inversion H.
  - assert (Forall (fun k => NoDup (rglob_node (snd k))) ks) as Hk.
    { rewrite Forall_forall in *. intros k Hin. apply IH; [exact Hin|].
      now apply Hall. }
    clear IH Hall. induction ks as [|[x c] ks IHks]; simpl; [constructor|].
    inversion Hnd as [|? ? Hnin Hnd']; subst.
    inversion Hk as [|? ? Hc Hk']; subst. simpl in Hc.
    apply NoDup_app.
    + apply NoDup_map_inj; [|exact Hc]. intros a b H. now inversion H.
    + now apply IHks.
    + intros rel H1 H2. apply in_map_iff in H1 as [r [<- _]].
      apply below_starts_with_name in H2 as (y & r' & E & _ & Hy).
      inversion E; subst. contradiction.
  - intros rel H1 H2. apply in_map_iff in H1 as [k [<- _]].
    apply below_starts_with_name in H2 as (y & r & E & Hr & _).
    inversion E; subst. congruence.
Qed.

(** With refused directories [rglob] yields, in the same order, the
    locations that have none of them on the way. *)
Lemma way_open_cons (D : list (list string)) (q : list string) (x : string)
  (r : list string) :
  way_open D q (x :: r)
  = negb (existsb (parts_eqb q) D) && way_open D (q ++ [x]) r.
Proof.
  unfold way_open. simpl. rewrite app_nil_r. f_equal.
  induction (proper_prefixes r) as [|s l IH]; simpl; [reflexivity|].
  now rewrite IH, <- app_assoc.
Qed.

Lemma filter_none {A} (f : A -> bool) (l : list A) :
  (forall x, In x l -> f x = false) -> filter f l = [].
Proof.
  induction l as [|x l IH]; intros H; simpl; [reflexivity|].
  rewrite (H x (or_introl eq_refl)). apply IH. intros y Hy. apply H. now right.
Qed.

Lemma filter_all {A} (f : A -> bool) (l : list A) :
  (forall x, In x l -> f x = true) -> filter f l = l.
Proof.
  induction l as [|x l IH]; intros H; simpl; [reflexivity|].
  rewrite (H x (or_introl eq_refl)). f_equal. apply IH. intros y Hy.
  apply H. now right.
Qed.

Lemma filter_flat_map {A B} (f : B -> bool) (g : A -> list B) (l : list A) :
  filter f (flat_map g l) = flat_map (fun a => filter f (g a)) l.
Proof.
  induction l as [|a l IH]; simpl; [reflexivity|].
  now rewrite filter_app, IH.
Qed.

Lemma filter_map_swap {A B} (f : B -> bool) (g : A -> B) (l : list A) :
  filter f (map g l) = map g (filter (fun a => f (g a)) l).
Proof.
  induction l as [|a l IH]; simpl; [reflexivity|].
  destruct (f (g a)); simpl; now rewrite IH.
Qed.

Lemma rglob_from_filter (D : list (list string)) (n : node) :
  forall q, rglob_from D q n = filter (way_open D q) (rglob_node n).
Proof.
  induction n as [d|ks IH] using node_induction; intros q; [reflexivity|].
  rewrite rglob_Dir. cbn [rglob_from].
  destruct (existsb (parts_eqb q) D) eqn:Eq.
  - symmetry. apply filter_none. intros rel Hin.
    destruct rel as [|x r].
    + apply in_app_iff in Hin as [Hin|Hin].
      * apply in_map_iff in Hin as [k [Hk _]]. discriminate Hk.
      * apply in_flat_map in Hin as [k [_ Hk]].
        apply in_map_iff in Hk as [r [Hr _]]. discriminate Hr.
    + now rewrite way_open_cons, Eq.
  - rewrite filter_app. f_equal.
    + symmetry. apply filter_all. intros rel Hin.
      apply in_map_iff in Hin as [k [<- _]].
      now rewrite way_open_cons, Eq.
    + rewrite filter_flat_map.
      induction ks as [|[x c] ks IHks]; simpl; [reflexivity|].
      inversion IH as [|? ? Hc Hks]; subst. simpl in Hc.
      rewrite (IHks Hks). f_equal. rewrite Hc, filter_map_swap.
      f_equal. apply filter_ext. intros r.
      now rewrite way_open_cons, Eq.
Qed.

Lemma rglob_from_open (q : list string) (n : node) :
  rglob_from [] q n = rglob_node n.
Proof.
  rewrite rglob_from_filter. apply filter_all. intros rel _.
  unfold way_open. apply forallb_forall. reflexivity.
Qed.

Lemma rglob_from_In (D : list (list string)) (q : list string) (n : node)
  (rel : list string) :
  In rel (rglob_from D q n) <-> In rel (rglob_node n) /\ way_open D q rel = true.
Proof. rewrite rglob_from_filter. apply filter_In. Qed.

Lemma rglob_from_NoDup (D : list (list string)) (q : list string) (n : node) :
  wfb n = true -> NoDup (rglob_from D q n).
Proof.
  intros H. rewrite rglob_from_filter. apply NoDup_filter.
  now apply rglob_NoDup.
Qed.

End WfProps.

Module WalkProps.

Import TreeProps WfProps.

Lemma lookup_prefix_dir (n : node) (p s : list string) (x : string) :
  lookup n (p ++ x :: s) <> None -> kind_of (lookup n p) = KDir.
Proof.
  rewrite lookup_app. destruct (lookup n p) as [[d|ks]|]; simpl; congruence.
Qed.

(** A plain path is followed to its own components, or not at all. *)
Lemma walk_plain_lookup (t : node) (cs : list string) :
  forallb not_dotdot cs = true ->
  forall acc,
    match walk t acc cs with
    | At r => r = acc ++ cs
    | _ => lookup t (acc ++ cs) = None
    end.
Proof.
  induction cs as [|c r IH]; intros Hp acc; simpl.
  - now rewrite app_nil_r.
  - simpl in Hp. apply andb_true_iff in Hp as [Hc Hr].
    unfold not_dotdot in Hc. apply negb_true_iff in Hc.
    destruct (lookup t acc) as [[d|ks]|] eqn:E.
    + rewrite lookup_app, E. reflexivity.
    + rewrite Hc. specialize (IH Hr (acc ++ [c])).
      now rewrite <- app_assoc in IH.
    + now rewrite lookup_app, E.
Qed.

Lemma stat_plain (w : world) (p : Path) :
  plain p = true -> stat w p = lookup (root w) (loc w p).
Proof.
  intros Hp. unfold stat, locate, loc.
  pose proof (walk_plain_lookup (root w) (parts p) Hp
                (if absolute p then [] else cwd w)) as H.
  destruct (walk _ _ _); [now subst|now rewrite H..].
Qed.

Lemma locate_plain (w : world) (p : Path) (c : node) :
  plain p = true -> lookup (root w) (loc w p) = Some c ->
  locate w p = At (loc w p).
Proof.
  intros Hp Hc. unfold locate, loc in *.
  pose proof (walk_plain_lookup (root w) (parts p) Hp
                (if absolute p then [] else cwd w)) as H.
  destruct (walk _ _ _); [now subst|congruence..].
Qed.

Lemma is_file_plain (w : world) (p : Path) :
  plain p = true ->
  is_file w p = kind_eqb (kind_of (lookup (root w) (loc w p))) KFile.
Proof. intros Hp. unfold is_file. now rewrite stat_plain. Qed.

Lemma plain_below (p : Path) (rel : list string) :
  plain p = true -> forallb not_dotdot rel = true -> plain (below p rel) = true.
Proof.
  intros Hp Hr. unfold plain, below in *. simpl. now rewrite forallb_app, Hp, Hr.
Qed.

Lemma relative_to_below (p : Path) (rel : list string) :
  relative_to (below p rel) p = Some (mkPath false rel).
Proof.
  unfold relative_to, below. simpl. rewrite Bool.eqb_reflx.
  assert (is_prefix (parts p) (parts p ++ rel) = true) as ->
    by (apply is_prefix_iff; now exists rel).
  simpl. f_equal. f_equal.
  induction (parts p) as [|x l IH]; simpl; [reflexivity|exact IH].
Qed.

Lemma below_inj (p : Path) (a b : list string) : below p a = below p b -> a = b.
Proof. unfold below. intros H. inversion H. now apply app_inv_head in H1. Qed.

Lemma walk_app (t : node) (a b : list string) :
  forall acc,
    walk t acc (a ++ b) =
    match walk t acc a with
    | At r => walk t r b
    | NoEntry => NoEntry
    | NotDir => NotDir
    end.
Proof.
  induction a as [|c a IH]; intros acc; simpl; [reflexivity|].
  destruct (lookup t acc) as [[d|ks]|]; try reflexivity.
  destruct (String.eqb c ".."); apply IH.
Qed.

(** Below a located path, along names that are not [..]. *)
Lemma stat_below (w : world) (p : Path) (q rel : list string) :
  locate w p = At q -> forallb not_dotdot rel = true ->
  stat w (below p rel) = lookup (root w) (q ++ rel).
Proof.
  intros Hq Hrel. unfold stat, locate, below in *. simpl. rewrite walk_app, Hq.
  pose proof (walk_plain_lookup (root w) rel Hrel q) as H.
  destruct (walk (root w) q rel); [now subst|now rewrite H..].
Qed.

Lemma locate_below (w : world) (p : Path) (q rel : list string) :
  locate w p = At q -> forallb not_dotdot rel = true ->
  lookup (root w) (q ++ rel) <> None ->
  locate w (below p rel) = At (q ++ rel).
Proof.
  intros Hq Hrel Hex. unfold locate, below in *. simpl. rewrite walk_app, Hq.
  pose proof (walk_plain_lookup (root w) rel Hrel q) as H.
  destruct (walk (root w) q rel); [now subst|contradiction..].
Qed.

Lemma is_file_below (w : world) (p : Path) (q rel : list string) :
  locate w p = At q -> forallb not_dotdot rel = true ->
  is_file w (below p rel) = kind_eqb (kind_at w (q ++ rel)) KFile.
Proof. intros Hq Hrel. unfold is_file, kind_at. now rewrite (stat_below w p q rel). Qed.

(** What [rglob] yields from a directory: the locations below it that have
    no refused directory on the way. *)
Lemma Path_rglob_at (w : world) (p : Path) (q : list string)
  (ks : list (string * node)) :
  locate w p = At q -> lookup (root w) q = Some (Dir ks) ->
  Path_rglob w p
  = map (below p) (filter (way_open (denied w) q) (rglob_node (Dir ks))).
Proof.
  intros Hq Hks. unfold Path_rglob. now rewrite Hq, Hks, rglob_from_filter.
Qed.

(** Whatever [rglob] yields is a location below the directory, with no
    refused directory on the way. *)
Lemma Path_rglob_In (w : world) (d p : Path) :
  In p (Path_rglob w d) ->
  exists q ks rel,
    locate w d = At q /\ lookup (root w) q = Some (Dir ks) /\
    In rel (rglob_node (Dir ks)) /\ way_open (denied w) q rel = true /\
    p = below d rel.
Proof.
  unfold Path_rglob. destruct (locate w d) as [q| |]; try contradiction.
  destruct (lookup (root w) q) as [[x|ks]|] eqn:E; try contradiction.
  intros H. apply in_map_iff in H as [rel [<- Hrel]].
  apply rglob_from_In in Hrel as [Hrel Hopen]. exists q, ks, rel.
  repeat split; assumption.
Qed.

Lemma way_open_nil (q rel : list string) : way_open [] q rel = true.
Proof. unfold way_open. apply forallb_forall. reflexivity. Qed.

Lemma Path_rglob_dir (w : world) (p : Path) (ks : list (string * node)) :
  stat w p = Some (Dir ks) -> denied w = [] ->
  Path_rglob w p = map (below p) (rglob_node (Dir ks)).
Proof.
  intros H Hd. unfold stat in H. destruct (locate w p) as [q| |] eqn:Hq;
    try discriminate H.
  rewrite (Path_rglob_at w p q ks Hq H), Hd. f_equal.
  apply filter_all. intros rel _. apply way_open_nil.
Qed.

(** The regular files of the listing are the regular files below the
    directory along names that are not [..] that have no refused directory
    on the way. *)
Lemma files_below_open (w : world) (p : Path) (q rel : list string) :
  wfb (root w) = true -> locate w p = At q ->
  rel <> [] -> forallb not_dotdot rel = true ->
  (In (below p rel) (files_below w p) <->
   is_file w (below p rel) = true /\ way_open (denied w) q rel = true).
Proof.
  intros Hwf Hq Hne Hrel. unfold files_below. rewrite filter_In.
  unfold is_file. rewrite (stat_below w p q rel Hq Hrel), lookup_app.
  destruct (lookup (root w) q) as [[d|ks]|] eqn:E.
  - unfold Path_rglob. rewrite Hq, E. simpl.
    destruct rel; [congruence|]. simpl. split; [tauto|]. intros [H _].
    discriminate H.
  - rewrite (Path_rglob_at w p q ks Hq E). split.
    + intros [Hin H]. split; [exact H|].
      apply in_map_iff in Hin as (r & Hr & Hin). apply below_inj in Hr.
      subst r. now apply filter_In in Hin as [_ Hin].
    + intros [H Hopen]. split; [|exact H]. apply in_map. apply filter_In.
      split; [|exact Hopen].
      apply (rglob_In (Dir ks) (wfb_lookup _ _ _ Hwf E)). split; [exact Hne|].
      simpl in H. destruct (lookup (Dir ks) rel); [discriminate|discriminate H].
  - simpl. split; [intros [_ H]; discriminate H|intros [H _]; discriminate H].
Qed.

(** With nothing refused, they are the regular files below the directory
    along names that are not [..]. *)
Lemma files_below_spec (w : world) (p : Path) (rel : list string) :
  wfb (root w) = true -> denied w = [] ->
  rel <> [] -> forallb not_dotdot rel = true ->
  (In (below p rel) (files_below w p) <-> is_file w (below p rel) = true).
Proof.
  intros Hwf Hd Hne Hrel.
  destruct (locate w p) as [q| |] eqn:Hq.
  - rewrite (files_below_open w p q rel Hwf Hq Hne Hrel), Hd, way_open_nil.
    tauto.
  - unfold files_below, Path_rglob, is_file. rewrite Hq. simpl.
    unfold stat, locate, below. simpl. unfold locate in Hq.
    rewrite walk_app, Hq. simpl. split; [contradiction|discriminate].
  - unfold files_below, Path_rglob, is_file. rewrite Hq. simpl.
    unfold stat, locate, below. simpl. unfold locate in Hq.
    rewrite walk_app, Hq. simpl. split; [contradiction|discriminate].
Qed.

Lemma Path_rglob_not_dir (w : world) (p : Path) :
  is_dir w p = false -> Path_rglob w p = [].
Proof.
  unfold is_dir, stat, Path_rglob. destruct (locate w p) as [q| |];
    [|reflexivity..].
  destruct (lookup (root w) q) as [[d|ks]|]; simpl; congruence.
Qed.

End WalkProps.

Module RemoveProps.

Import TreeProps WfProps WalkProps.

Lemma parts_eqb_eq (a b : list string) : parts_eqb a b = true <-> a = b.
Proof.
  unfold parts_eqb. destruct (list_eq_dec string_dec a b); split; congruence.
Qed.

Lemma lookup_parent_dir (n c : node) (p : list string) :
  p <> [] -> lookup n p = Some c -> kind_of (lookup n (removelast p)) = KDir.
Proof.
  intros Hp H. rewrite (app_removelast_last "" Hp) in H.
  apply (lookup_prefix_dir n (removelast p) [] (last p "")). congruence.
Qed.

(** Removing a node that has nothing below it changes the kind of its own
    location and of no other. *)
Lemma remove_leaf_kinds (n c : node) (p : list string) :
  p <> [] -> lookup n p = Some c ->
  (forall s, s <> [] -> lookup c s = None) ->
  forall a,
    kind_of (lookup (set_at p None n) a)
    = if parts_eqb a p then KNone else kind_of (lookup n a).
Proof.
  intros Hp Hc Hleaf a.
  pose proof (lookup_parent_dir n c p Hp Hc) as Hpar.
  destruct (is_prefix p a) eqn:E1.
  - apply is_prefix_iff in E1 as [s ->].
    rewrite (set_at_under p None n s Hp Hpar). simpl.
    destruct (parts_eqb (p ++ s) p) eqn:E; [reflexivity|].
    assert (s <> []) as Hs.
    { intros ->. rewrite app_nil_r in E.
      assert (parts_eqb p p = true) by now apply parts_eqb_eq. congruence. }
    now rewrite lookup_app, Hc; simpl; rewrite (Hleaf s Hs).
  - destruct (parts_eqb a p) eqn:E.
    { apply parts_eqb_eq in E. subst a. now rewrite is_prefix_refl in E1. }
    assert (a <> p) as Hne.
    { intros ->. assert (parts_eqb p p = true) by now apply parts_eqb_eq.
      congruence. }
    destruct (is_prefix a p) eqn:E2.
    + now apply set_at_above.
    + now rewrite set_at_apart.
Qed.

Lemma file_is_leaf (d : string) (s : list string) :
  s <> [] -> lookup (File d) s = None.
Proof. destruct s; [congruence|reflexivity]. Qed.

Lemma empty_dir_is_leaf (s : list string) : s <> [] -> lookup (Dir []) s = None.
Proof. destruct s; [congruence|reflexivity]. Qed.

Lemma kind_file (o : option node) :
  kind_of o = KFile -> exists d, o = Some (File d).
Proof. destruct o as [[d|ks]|]; simpl; try discriminate. intros _. now exists d. Qed.

Lemma kind_dir (o : option node) :
  kind_of o = KDir -> exists ks, o = Some (Dir ks).
Proof. destruct o as [[d|ks]|]; simpl; try discriminate. intros _. now exists ks. Qed.

(** The loop that collects the regular files of a listing. *)
Lemma collect_files_run (l acc : list Path) (w : world) :
  collect_files l acc w = (Ok (acc ++ filter (is_file w) l), w).
Proof.
  unfold collect_files. revert acc. induction l as [|x l IH]; intros acc; simpl.
  - unfold ret. now rewrite app_nil_r.
  - unfold bind at 1. unfold bind at 1. unfold gets, ret.
    destruct (is_file w x).
    + rewrite IH. simpl. now rewrite <- app_assoc.
    + apply IH.
Qed.

Lemma get_destination_files_run (self : WSLSyncEngine) (db : Path) (w : world) :
  wsl2_base (config self) = Some db -> exists_ w db = true ->
  get_destination_files self w = (Ok (files_below w db), w).
Proof.
  intros Hdb Hex. unfold get_destination_files. rewrite Hdb.
  unfold bind, gets. rewrite Hex. simpl. now rewrite collect_files_run.
Qed.

End RemoveProps.

Module GrowProps.

Import TreeProps WfProps WalkProps RemoveProps.

Lemma grows_refl (w : world) : grows w w.
Proof. split; [reflexivity|intros a H; exact H]. Qed.

Lemma grows_trans (a b c : world) : grows a b -> grows b c -> grows a c.
Proof.
  intros [H1 H2] [H3 H4]. split; [congruence|].
  intros x Hx. apply H4, H2, Hx.
Qed.

(** A write that puts a directory wherever it covers one. *)
Lemma set_at_dir_mono (t : node) (q : list string) (v : option node) :
  (forall s, kind_of (lookup t (q ++ s)) = KDir ->
             kind_of (lookup_o v s) = KDir) ->
  dir_mono t (set_at q v t).
Proof.
  intros Hv a Ha.
  destruct (is_prefix q a) eqn:E1.
  - apply is_prefix_iff in E1 as [s ->].
    destruct q as [|x q]; [exact Ha|].
    assert (exists c, lookup t (x :: q) = Some c) as [c Hc].
    { rewrite lookup_app in Ha. destruct (lookup t (x :: q)) as [c|]; [eauto|].
      discriminate Ha. }
    rewrite set_at_under;
      [now apply Hv|discriminate|exact (lookup_parent_dir t c (x :: q) ltac:(discriminate) Hc)].
  - destruct (is_prefix a q) eqn:E2.
    + rewrite set_at_above; [exact Ha|exact E2|].
      intros ->. now rewrite is_prefix_refl in E1.
    + now rewrite set_at_apart.
Qed.

(** Writing where there is no directory. *)
Lemma set_at_fresh_mono (t : node) (q : list string) (v : option node) :
  kind_of (lookup t q) <> KDir -> dir_mono t (set_at q v t).
Proof.
  intros Hq. apply set_at_dir_mono. intros s Hs. exfalso.
  destruct s as [|x s]; [rewrite app_nil_r in Hs; contradiction|].
  apply Hq, (lookup_prefix_dir t q s x).
  destruct (lookup t (q ++ x :: s)); [discriminate|discriminate Hs].
Qed.

Lemma walk_mono (t t' : node) (cs : list string) :
  dir_mono t t' ->
  forall acc r, walk t acc cs = At r -> walk t' acc cs = At r.
Proof.
  intros Hm. induction cs as [|c cs IH]; intros acc r H; simpl in *; [exact H|].
  destruct (lookup t acc) as [[d|ks]|] eqn:E; try discriminate H.
  assert (kind_of (lookup t' acc) = KDir) as Hk by (apply Hm; now rewrite E).
  apply kind_dir in Hk as [ks' ->].
  destruct (String.eqb c ".."); now apply IH.
Qed.

Lemma locate_grows (w w' : world) (p : Path) (q : list string) :
  grows w w' -> locate w p = At q -> locate w' p = At q.
Proof.
  intros [Hc Hm] H. unfold locate in *. rewrite Hc. now apply (walk_mono (root w)).
Qed.

Lemma is_dir_grows (w w' : world) (p : Path) :
  grows w w' -> is_dir w p = true -> is_dir w' p = true.
Proof.
  intros Hg H. unfold is_dir, stat in *.
  destruct (locate w p) as [q| |] eqn:E; try discriminate H.
  rewrite (locate_grows w w' p q Hg E).
  destruct Hg as [_ Hm]. specialize (Hm q).
  destruct (kind_of (lookup (root w) q)); try discriminate H.
  now rewrite (Hm eq_refl).
Qed.

Lemma below_nil (p : Path) : below p [] = p.
Proof. destruct p as [a ps]. unfold below. simpl. now rewrite app_nil_r. Qed.

(** Something exists below [p] only when [p] is a directory. *)
Lemma stat_below_dir (w : world) (p : Path) (cs : list string) :
  is_dir w (below p cs) = true -> is_dir w p = true.
Proof.
  destruct cs as [|c cs]; [now rewrite below_nil|].
  unfold is_dir, stat, locate, below. simpl. rewrite walk_app.
  destruct (walk (root w) _ (parts p)) as [r| |]; try discriminate.
  simpl. destruct (lookup (root w) r) as [[d|ks]|]; try discriminate.
  reflexivity.
Qed.

Lemma Path_rglob_below (w : world) (d p : Path) :
  In p (Path_rglob w d) -> exists rel, rel <> [] /\ p = below d rel.
Proof.
  intros H. apply Path_rglob_In in H as (q & ks & rel & _ & _ & Hrel & _ & ->).
  exists rel. split; [exact (rglob_nonempty _ _ Hrel)|reflexivity].
Qed.

(* ===================================================================== *)
(** * Inverting the monad *)
(* ===================================================================== *)

Lemma bind_ok {A B} (m : M A) (k : A -> M B) (w w' : world) (b : B) :
  bind m k w = (Ok b, w') ->
  exists a w1, m w = (Ok a, w1) /\ k a w1 = (Ok b, w').
Proof.
  unfold bind. destruct (m w) as [[a|e] w1]; [|discriminate].
  intros H. now exists a, w1.
Qed.

Lemma rewrap_ok {A} (m : M A) (mp mo : string) (w w' : world) (a : A) :
  rewrap m mp mo w = (Ok a, w') -> m w = (Ok a, w').
Proof.
  unfold rewrap. destruct (m w) as [[x|e] w1]; [trivial|].
  destruct (is_PermissionError e); [discriminate|].
  destruct (is_OSError e); discriminate.
Qed.

Lemma gets_ok {A} (f : world -> A) (w w' : world) (a : A) :
  gets f w = (Ok a, w') -> a = f w /\ w' = w.
Proof. unfold gets. intros H. inversion H. now split. Qed.

Lemma ret_ok {A} (x a : A) (w w' : world) :
  ret x w = (Ok a, w') -> a = x /\ w' = w.
Proof. unfold ret. intros H. inversion H. now split. Qed.

Lemma fold_m_same {A S} (body : A -> S -> M S) (l : list A) :
  (forall x s w r w', body x s w = (r, w') -> w' = w) ->
  forall s w r w', fold_m body l s w = (r, w') -> w' = w.
Proof.
  intros Hb. induction l as [|x l IH]; intros s w r w' H; simpl in H.
  - unfold ret in H. now inversion H.
  - unfold bind in H. destruct (body x s w) as [[s'|e] w1] eqn:E.
    + apply Hb in E. subst w1. now apply IH in H.
    + apply Hb in E. now inversion H; subst.
Qed.


(* ===================================================================== *)
(** * What the library calls do to the directories *)
(* ===================================================================== *)

Lemma os_mkdir_grows (p : Path) (w w' : world) (r : result unit) :
  os_mkdir p w = (r, w') ->
  grows w w' /\ (forall e, r = Raise e -> w' = w).
Proof.
  unfold os_mkdir, walk_error, raise. intros H.
  destruct (locate w p) as [q| |].
  - destruct (lookup (root w) q) as [c|] eqn:Eq.
    + inversion H; subst. split; [apply grows_refl|reflexivity].
    + destruct (can_create w q).
      * inversion H; subst. split; [|discriminate].
        split; [reflexivity|]. simpl. apply set_at_fresh_mono.
        rewrite Eq. discriminate.
      * inversion H; subst. split; [apply grows_refl|reflexivity].
  - inversion H; subst. split; [apply grows_refl|reflexivity].
  - inversion H; subst. split; [apply grows_refl|reflexivity].
Qed.

(** A directory just made is there, and empty. *)
Lemma os_mkdir_ok (p : Path) (w w' : world) :
  os_mkdir p w = (Ok tt, w') ->
  exists q, locate w' p = At q /\ lookup (root w') q = Some (Dir []).
Proof.
  intros H. pose proof (os_mkdir_grows p w w' (Ok tt) H) as [Hg _].
  unfold os_mkdir, walk_error, raise in H.
  destruct (locate w p) as [q| |] eqn:El;
    [|destruct false; discriminate H|discriminate H].
  destruct (lookup (root w) q) as [c|] eqn:Eq; [discriminate H|].
  destruct (can_create w q) eqn:Ec; [|discriminate H].
  inversion H; subst. exists q. split; [exact (locate_grows _ _ p q Hg El)|].
  simpl. unfold can_create in Ec. destruct q as [|x q]; [discriminate Ec|].
  rewrite <- (app_nil_r (x :: q)) at 2.
  rewrite set_at_under; [reflexivity|discriminate|].
  unfold kind_at in Ec. destruct (kind_of (lookup (root w) (removelast (x :: q))));
    now simpl in Ec.
Qed.

Lemma mkdir_parents_grows (abs : bool) (rparts : list string) :
  forall w w' r, mkdir_parents abs rparts w = (r, w') -> grows w w'.
Proof.
  induction rparts as [|c up IH]; intros w w' r H; simpl in H.
  - destruct (os_mkdir _ w) as [[u|e] w1] eqn:E.
    + inversion H; subst. exact (proj1 (os_mkdir_grows _ _ _ _ E)).
    + destruct (os_mkdir_grows _ _ _ _ E) as [Hg Hs].
      rewrite (Hs e eq_refl) in *.
      destruct e; try (destruct (_ && _)); inversion H; subst; apply grows_refl.
  - destruct (os_mkdir _ w) as [[u|e] w1] eqn:E.
    + inversion H; subst. exact (proj1 (os_mkdir_grows _ _ _ _ E)).
    + destruct (os_mkdir_grows _ _ _ _ E) as [Hg Hs].
      rewrite (Hs e eq_refl) in *. clear Hg Hs E w1.
      destruct e;
        try (destruct (_ && _); inversion H; subst; apply grows_refl).
      unfold bind in H.
      destruct (mkdir_parents abs up w) as [[u|e] w2] eqn:E2.
      * apply IH in E2.
        destruct (os_mkdir _ w2) as [[u'|e'] w3] eqn:E3.
        -- inversion H; subst.
           exact (grows_trans _ _ _ E2 (proj1 (os_mkdir_grows _ _ _ _ E3))).
        -- pose proof (proj1 (os_mkdir_grows _ _ _ _ E3)) as Hg3.
           destruct e'; try (destruct (_ && _)); inversion H; subst;
             exact (grows_trans _ _ _ E2 Hg3).
      * inversion H; subst. now apply IH in E2.
Qed.

Lemma os_makedirs_ok (p : Path) (w w' : world) :
  os_makedirs p w = (Ok tt, w') ->
  grows w w' /\
  exists q, locate w' p = At q /\ lookup (root w') q = Some (Dir []).
Proof.
  unfold os_makedirs. destruct (rev (parts p)) as [|c up]; intros H.
  - split; [exact (proj1 (os_mkdir_grows _ _ _ _ H))|exact (os_mkdir_ok _ _ _ H)].
  - apply bind_ok in H as (u & w1 & H1 & H2).
    apply mkdir_parents_grows in H1. split; [|exact (os_mkdir_ok _ _ _ H2)].
    exact (grows_trans _ _ _ H1 (proj1 (os_mkdir_grows _ _ _ _ H2))).
Qed.

Lemma logged_nil (w : world) : logged w [] = w.
Proof. destruct w. unfold logged. simpl. now rewrite app_nil_r. Qed.

Lemma logged_logged (w : world) (a b : list (list string * N)) :
  logged (logged w a) b = logged w (a ++ b).
Proof. unfold logged. simpl. now rewrite app_assoc. Qed.

Lemma quiet_same {A} (m : M A) :
  (forall w r w', m w = (r, w') -> w' = w) -> quiet m.
Proof.
  intros H w r w' E. exists []. rewrite logged_nil. exact (H w r w' E).
Qed.

Lemma quiet_bind {A B} (m : M A) (k : A -> M B) :
  quiet m -> (forall a, quiet (k a)) -> quiet (bind m k).
Proof.
  intros Hm Hk w r w' H. unfold bind in H.
  destruct (m w) as [[a|e] w1] eqn:E.
  - destruct (Hm w _ _ E) as [c1 ->]. destruct (Hk a _ _ _ H) as [c2 ->].
    exists (c1 ++ c2). apply logged_logged.
  - inversion H; subst. exact (Hm w _ _ E).
Qed.

Lemma quiet_swallow (m : M unit) : quiet m -> quiet (swallow_os m).
Proof.
  intros Hm w r w' H. unfold swallow_os in H.
  destruct (m w) as [[u|e] w1] eqn:E.
  - inversion H; subst. exact (Hm w _ _ E).
  - destruct (is_OSError e); inversion H; subst; exact (Hm w _ _ E).
Qed.

Lemma quiet_fold_m {A S} (body : A -> S -> M S) (l : list A) :
  (forall x s, quiet (body x s)) -> forall s, quiet (fold_m body l s).
Proof.
  intros Hb. induction l as [|x l IH]; intros s; simpl.
  - apply quiet_same. intros w r w' H. unfold ret in H. now inversion H.
  - apply quiet_bind; [apply Hb|exact IH].
Qed.

Lemma os_chmod_same (p : Path) (m : N) : quiet (os_chmod p m).
Proof.
  intros w r w'. unfold os_chmod, walk_error, raise.
  destruct (locate w p) as [q| |].
  - destruct (lookup (root w) q); intros H; inversion H.
    + now eexists.
    + exists []. now rewrite logged_nil.
  - intros H; inversion H. exists []. now rewrite logged_nil.
  - intros H; inversion H. exists []. now rewrite logged_nil.
Qed.

Lemma swallow_chmod_same (p : Path) (m : N) : quiet (swallow_os (os_chmod p m)).
Proof. apply quiet_swallow, os_chmod_same. Qed.

(** [os.chmod] on a path that exists. *)
Lemma os_chmod_run (p : Path) (m : N) (w : world) :
  exists_ w p = true ->
  exists q, locate w p = At q /\ os_chmod p m w = (Ok tt, logged w [(q, m)]).
Proof.
  unfold exists_, stat, os_chmod. destruct (locate w p) as [q| |];
    try discriminate.
  destruct (lookup (root w) q); [|discriminate]. intros _. now exists q.
Qed.

(** What a goal says of a world with more modes set is what it says of the
    world itself, when it only looks at the tree. *)
Ltac forget_modes w :=
  repeat match goal with
         | |- context [logged w ?c] =>
             pattern (logged w c);
             match goal with |- ?P _ => change (P w) end
         end.

(** [shutil.copy2] does not look at the modes set so far. *)
Lemma shutil_copy2_logged (src dst : Path) (w : world)
  (cs : list (list string * N)) :
  shutil_copy2 src dst (logged w cs)
  = (fst (shutil_copy2 src dst w), logged (snd (shutil_copy2 src dst w)) cs).
Proof.
  unfold shutil_copy2, walk_error, raise.
  change (is_dir (logged w cs) dst) with (is_dir w dst).
  set (dst' := if is_dir w dst then join dst (name src) else dst).
  change (samefile (logged w cs) src dst') with (samefile w src dst').
  destruct (samefile w src dst'); [reflexivity|].
  change (stat (logged w cs) src) with (stat w src).
  destruct (stat w src) as [[data|ks]|]; try reflexivity.
  change (locate (logged w cs) dst') with (locate w dst').
  destruct (locate w dst') as [q| |]; try reflexivity.
  change (root (logged w cs)) with (root w).
  destruct (lookup (root w) q) as [[d|ks]|]; try reflexivity.
  change (can_create (logged w cs) q) with (can_create w q).
  destruct (can_create w q); reflexivity.
Qed.

Lemma shutil_copy2_after_modes (src dst : Path) (w w' : world)
  (cs : list (list string * N)) (r : result unit) :
  shutil_copy2 src dst (logged w cs) = (r, w') ->
  exists w1, shutil_copy2 src dst w = (r, w1) /\ w' = logged w1 cs.
Proof.
  rewrite shutil_copy2_logged. destruct (shutil_copy2 src dst w) as [r1 w1].
  intros H. inversion H. now exists w1.
Qed.

Lemma quiet_ret {A} (a : A) : quiet (ret a).
Proof. apply quiet_same. intros w r w' H. unfold ret in H. now inversion H. Qed.

Lemma quiet_gets {A} (f : world -> A) : quiet (gets f).
Proof. apply quiet_same. intros w r w' H. unfold gets in H. now inversion H. Qed.

(** The permission pass of [create_directory_structure] only sets modes. *)
Lemma chmod_parents_quiet (base : Path) (l : list Path) :
  quiet
    (for_each
       (fun par : Path =>
          ex <- gets (fun w => exists_ w par) ;;
          if ex && negb (Path_eqb par base) && Path_in base (parents par)
          then swallow_os (os_chmod par 493)
          else ret tt)
       l).
Proof.
  unfold for_each. apply quiet_fold_m. intros par _.
  apply quiet_bind; [apply quiet_gets|]. intros ex.
  destruct (ex && negb (Path_eqb par base) && Path_in base (parents par)).
  - apply swallow_chmod_same.
  - apply quiet_ret.
Qed.

Lemma create_directory_structure_grows (self : WSLSyncEngine) (fp : Path)
  (w w' : world) :
  create_directory_structure self fp w = (Ok tt, w') -> grows w w'.
Proof.
  unfold create_directory_structure. intros H. apply rewrap_ok in H.
  apply bind_ok in H as (u & w1 & H1 & H2).
  unfold Path_mkdir_parents in H1. apply mkdir_parents_grows in H1.
  assert (exists cs, w' = logged w1 cs) as [cs ->]; [|exact H1].
  destruct (wsl2_base (config self)) as [base|].
  - exact (chmod_parents_quiet base _ _ _ _ H2).
  - exact (quiet_ret _ _ _ _ H2).
Qed.

Lemma shutil_copy2_grows (src dst : Path) (w w' : world) :
  shutil_copy2 src dst w = (Ok tt, w') -> grows w w'.
Proof.
  unfold shutil_copy2, walk_error, raise.
  destruct (samefile w src _); [discriminate|].
  destruct (stat w src) as [[data|ks]|]; try discriminate.
  destruct (locate w _) as [q| |]; try discriminate.
  destruct (lookup (root w) q) as [[d|ks]|] eqn:Eq; try discriminate.
  - intros H. inversion H; subst. split; [reflexivity|]. simpl.
    apply set_at_fresh_mono. rewrite Eq. discriminate.
  - destruct (can_create w q); [|discriminate].
    intros H. inversion H; subst. split; [reflexivity|]. simpl.
    apply set_at_fresh_mono. rewrite Eq. discriminate.
Qed.

(** Copying a file onto itself is refused. *)
Lemma shutil_copy2_same (p : Path) (w w' : world) :
  shutil_copy2 p p w <> (Ok tt, w').
Proof.
  unfold shutil_copy2, walk_error, raise, is_dir.
  destruct (stat w p) as [[data|ks]|] eqn:Es; simpl kind_eqb; cbv iota.
  - unfold samefile. unfold stat in Es.
    destruct (locate w p) as [q| |]; try discriminate Es.
    rewrite Es. simpl. assert (parts_eqb q q = true) as -> by now apply parts_eqb_eq.
    simpl. discriminate.
  - destruct (samefile w p _); discriminate.
  - destruct (samefile w p p); discriminate.
Qed.

(** After [rmtree] the path names nothing. *)
Lemma walk_after_loss (t t' : node) (cs : list string) :
  (forall a, kind_of (lookup t' a) = kind_of (lookup t a)
             \/ kind_of (lookup t' a) = KNone) ->
  forall acc r,
    walk t acc cs = At r ->
    walk t' acc cs = At r \/ walk t' acc cs = NoEntry.
Proof.
  intros Hk. induction cs as [|c cs IH]; intros acc r H; simpl in *; [now left|].
  destruct (lookup t acc) as [[d|ks]|] eqn:E; try discriminate H.
  destruct (Hk acc) as [Ha|Ha]; rewrite ?E in Ha; simpl in Ha.
  - apply kind_dir in Ha as [ks' ->]. destruct (String.eqb c ".."); now apply IH.
  - destruct (lookup t' acc) as [[d|ks']|]; try discriminate Ha. now right.
Qed.

Lemma shutil_rmtree_gone (p : Path) (w w' : world) :
  shutil_rmtree p w = (Ok tt, w') -> stat w' p = None.
Proof.
  unfold shutil_rmtree, walk_error, raise.
  destruct (locate w p) as [q| |] eqn:El; [|destruct false; discriminate|discriminate].
  destruct (lookup (root w) q) as [[d|ks]|] eqn:Eq; try discriminate.
  destruct q as [|x q]; [discriminate|].
  intros H. apply (f_equal snd) in H. cbn [snd] in H. subst w'.
  assert (forall s, lookup (set_at (x :: q) None (root w)) ((x :: q) ++ s) = None)
    as Hgone.
  { intros s. rewrite set_at_under; [reflexivity|discriminate|].
    exact (lookup_parent_dir _ _ (x :: q) ltac:(discriminate) Eq). }
  assert (forall a,
            kind_of (lookup (set_at (x :: q) None (root w)) a)
            = kind_of (lookup (root w) a)
            \/ kind_of (lookup (set_at (x :: q) None (root w)) a) = KNone) as Hk.
  { intros a. destruct (is_prefix (x :: q) a) eqn:E1.
    + apply is_prefix_iff in E1 as [s ->]. right. now rewrite Hgone.
    + left. destruct (is_prefix a (x :: q)) eqn:E2.
      * apply set_at_above; [exact E2|]. intros ->.
        now rewrite is_prefix_refl in E1.
      * now rewrite set_at_apart. }
  unfold stat, locate in *. cbn [root cwd with_root].
  destruct (walk_after_loss _ _ (parts p) Hk _ _ El) as [Hw|Hw]; rewrite Hw;
    [|reflexivity].
  specialize (Hgone []). now rewrite app_nil_r in Hgone.
Qed.

Lemma shutil_copytree_ok (src dst : Path) (w w' : world) :
  shutil_copytree src dst w = (Ok tt, w') ->
  is_dir w src = true /\ grows w w'.
Proof.
  unfold shutil_copytree, walk_error, raise, is_dir.
  destruct (stat w src) as [[d|ks]|]; try discriminate.
  destruct (locate w src) as [qs| |]; try discriminate.
  destruct (os_makedirs dst w) as [[u|e] w1] eqn:Em; [|discriminate].
  destruct u. apply os_makedirs_ok in Em as (Hg & q & Hl & Hq).
  rewrite Hl. destruct (_ && _); [discriminate|].
  intros H. inversion H; subst. split; [reflexivity|].
  apply (grows_trans _ w1); [exact Hg|]. split; [reflexivity|]. simpl.
  apply set_at_dir_mono. intros s Hs. rewrite lookup_app, Hq in Hs.
  destruct s as [|x s]; [reflexivity|discriminate Hs].
Qed.

End GrowProps.

Module CopyProps.

Import TreeProps WfProps WalkProps RemoveProps GrowProps.

Lemma join_relative (base : Path) (e : string) :
  absolute (Path_of_string e) = false ->
  join base e = below base (parts (Path_of_string e)).
Proof. unfold join, joinpath, below. now intros ->. Qed.

Lemma join_absolute (base : Path) (e : string) :
  absolute (Path_of_string e) = true -> join base e = Path_of_string e.
Proof. unfold join, joinpath. now intros ->. Qed.

Lemma strictly_under_below (base : Path) (rel : list string) :
  rel <> [] -> strictly_under base (below base rel).
Proof. intros H. split; [reflexivity|]. now exists rel. Qed.

Lemma strictly_under_below2 (base : Path) (cs rel : list string) :
  rel <> [] -> strictly_under base (below (below base cs) rel).
Proof.
  intros H. split; [reflexivity|]. exists (cs ++ rel). split.
  - intros E. apply app_eq_nil in E as [_ E]. contradiction.
  - unfold below. simpl. now rewrite app_assoc.
Qed.

Lemma file_not_dir (w : world) (p : Path) :
  is_file w p = true -> is_dir w p = true -> False.
Proof.
  unfold is_file, is_dir. destruct (kind_of (stat w p)); discriminate.
Qed.

Lemma chmod_dirs_same (found : list Path) :
  quiet
    (for_each
       (fun copied_dir : Path =>
          d <- gets (fun w => is_dir w copied_dir) ;;
          if d then os_chmod copied_dir 493 else ret tt)
       found).
Proof.
  unfold for_each. apply quiet_fold_m. intros x _.
  apply quiet_bind; [apply quiet_gets|]. intros d. destruct d.
  - apply os_chmod_same.
  - apply quiet_ret.
Qed.

Section Step.

Variable self : WSLSyncEngine.
Variables wb db : Path.

(** One entry, copied without error: the source root is still a directory,
    and what the entry adds to the list lies strictly below the destination
    root: the mapped path of a file entry, paths below the mapped path of a
    directory entry. *)
Lemma copy_entry_step (e : string) (acc l : list Path) (w w' : world) :
  is_dir w wb = true ->
  copy_entry self wb db e acc w = (Ok l, w') ->
  is_dir w' wb = true /\
  exists new,
    l = acc ++ new /\
    forall p, In p new ->
      strictly_under db p /\ (p = join db e \/ strictly_under (join db e) p).
Proof.
  intros Hroot H. unfold copy_entry in H.
  apply bind_ok in H as (ex & w1 & Hex & H).
  apply gets_ok in Hex as [-> ->].
  destruct (exists_ w (join wb e)) eqn:Eex; [|discriminate H]. cbn [negb] in H.
  apply bind_ok in H as (isf & w1 & Hisf & H).
  apply gets_ok in Hisf as [-> ->].
  destruct (is_file w (join wb e)) eqn:Efile.
  - (* a file *)
    apply bind_ok in H as (u & w2 & Hmk & H).
    destruct u. apply create_directory_structure_grows in Hmk.
    apply rewrap_ok in H. apply bind_ok in H as (u & w3 & Hcp & H).
    destruct u. apply ret_ok in H as [-> ->].
    pose proof (shutil_copy2_grows _ _ _ _ Hcp) as Hg.
    split; [exact (is_dir_grows _ _ wb (grows_trans _ _ _ Hmk Hg) Hroot)|].
    exists [join db e]. split; [reflexivity|].
    intros p [<-|[]]. split; [|now left].
    destruct (absolute (Path_of_string e)) eqn:Eabs.
    + exfalso. rewrite (join_absolute wb e Eabs), (join_absolute db e Eabs) in Hcp.
      exact (shutil_copy2_same _ _ _ Hcp).
    + rewrite (join_relative db e Eabs). apply strictly_under_below.
      intros Enil. rewrite (join_relative wb e Eabs), Enil, below_nil in Efile.
      exact (file_not_dir w wb Efile Hroot).
  - apply bind_ok in H as (isd & w1 & Hisd & H).
    apply gets_ok in Hisd as [-> ->].
    destruct (is_dir w (join wb e)) eqn:Edir.
    + (* a directory *)
      apply rewrap_ok in H.
      apply bind_ok in H as (dex & w1 & Hdex & H).
      apply gets_ok in Hdex as [-> ->].
      apply bind_ok in H as (u & w2 & Hrm & H). destruct u.
      apply bind_ok in H as (u & w3 & Hct & H). destruct u.
      apply shutil_copytree_ok in Hct as [Hsrc Hg].
      apply bind_ok in H as (u & w4 & Hch & H). destruct u.
      apply os_chmod_same in Hch as [cs1 ->].
      apply bind_ok in H as (found & w4 & Hf & H).
      apply gets_ok in Hf as [-> ->].
      apply bind_ok in H as (u & w4 & Hch & H). destruct u.
      apply chmod_dirs_same in Hch as [cs2 ->].
      apply bind_ok in H as (found & w4 & Hf & H).
      apply gets_ok in Hf as [-> ->].
      rewrite collect_files_run in H. inversion H; subst l w'. clear H.
      destruct (absolute (Path_of_string e)) eqn:Eabs.
      * exfalso. rewrite (join_absolute wb e Eabs) in *.
        rewrite (join_absolute db e Eabs) in *. rewrite Eex in Hrm.
        apply shutil_rmtree_gone in Hrm.
        unfold is_dir in Hsrc. now rewrite Hrm in Hsrc.
      * rewrite (join_relative wb e Eabs) in Hsrc.
        apply stat_below_dir in Hsrc.
        split; [exact (is_dir_grows _ _ wb Hg Hsrc)|].
        eexists. split; [reflexivity|].
        intros p Hp. apply filter_In in Hp as [Hp _].
        apply Path_rglob_below in Hp as (rel & Hrel & ->).
        split; [|right; now apply strictly_under_below].
        rewrite (join_relative db e Eabs). now apply strictly_under_below2.
    + apply ret_ok in H as [-> ->]. split; [exact Hroot|].
      exists []. split; [now rewrite app_nil_r|contradiction].
Qed.

Lemma copy_loop (es : list string) :
  forall (acc l : list Path) (w w' : world),
    is_dir w wb = true ->
    fold_m (copy_entry self wb db) es acc w = (Ok l, w') ->
    exists new,
      l = acc ++ new /\
      forall p, In p new ->
        strictly_under db p /\
        exists e, In e es /\ (p = join db e \/ strictly_under (join db e) p).
Proof.
  induction es as [|e es IH]; intros acc l w w' Hroot H.
  - apply ret_ok in H as [-> ->]. exists []. split; [now rewrite app_nil_r|contradiction].
  - rewrite fold_m_cons in H.
    destruct (copy_entry self wb db e acc w) as [[l1|x] w1] eqn:E; [|discriminate H].
    destruct (copy_entry_step e acc l1 w w1 Hroot E) as (Hroot1 & new1 & -> & Hnew1).
    destruct (IH _ _ _ _ Hroot1 H) as (new2 & -> & Hnew2).
    exists (new1 ++ new2). split; [now rewrite app_assoc|].
    intros p Hp. apply in_app_iff in Hp as [Hp|Hp].
    + destruct (Hnew1 p Hp) as [H1 H2]. split; [exact H1|].
      exists e. split; [now left|exact H2].
    + destruct (Hnew2 p Hp) as (H1 & e' & He' & H2). split; [exact H1|].
      exists e'. split; [now right|exact H2].
Qed.

End Step.

(** Inside [sync] the source root is a directory: [validate_paths] has
    listed it. *)
Lemma validate_paths_source_is_dir (self : WSLSyncEngine) (wb : Path) (w : world) :
  windows_base (config self) = Some wb ->
  fst (validate_paths self w) = Ok true -> is_dir w wb = true.
Proof.
  intros Hwb H. rewrite ValidateProps.validate_paths_run, Hwb in H. simpl in H.
  destruct (wsl2_base (config self)) as [db|]; [|discriminate H].
  destruct (negb (exists_ w wb)); [discriminate H|].
  destruct (negb (exists_ w db)); [discriminate H|].
  destruct (listing w wb) as [l|e] eqn:El; [|discriminate H].
  unfold listing, Path_iterdir, walk_error, raise, is_dir, stat in *.
  destruct (locate w wb) as [q| |]; try discriminate El.
  destruct (lookup (root w) q) as [[d|ks]|]; try discriminate El.
  reflexivity.
Qed.

End CopyProps.

Module CleanupProps.

Import TreeProps WfProps WalkProps RemoveProps GrowProps.

(** [unlink] of a regular file. *)
Lemma unlink_file_at (w : world) (p : Path) (q : list string) :
  locate w p = At q -> kind_at w q = KFile ->
  Path_unlink p w = (Ok tt, with_root w (set_at q None (root w))).
Proof.
  intros Hq Hk. apply kind_file in Hk as [d Hd].
  unfold Path_unlink. now rewrite Hq, Hd.
Qed.

Section Deletion.

Variable self : WSLSyncEngine.
Variable db : Path.
Variable keep_files : list Path.
Variable q : list string.

Let kept (f : Path) : bool := should_keep self db keep_files f.
Let doomed (rel : list string) : bool := negb (kept (below db rel)).

Lemma delete_unless_kept_kept (rel : list string) (acc : list Path) (w : world) :
  kept (below db rel) = true ->
  delete_unless_kept self db keep_files (below db rel) acc w = (Ok acc, w).
Proof.
  unfold kept, should_keep, delete_unless_kept. rewrite relative_to_below.
  destruct (Path_in (below db rel) keep_files); [reflexivity|]. simpl.
  now intros ->.
Qed.

Lemma delete_unless_kept_doomed (rel : list string) (acc : list Path) (w : world) :
  kept (below db rel) = false ->
  locate w db = At q ->
  forallb not_dotdot rel = true ->
  kind_at w (q ++ rel) = KFile ->
  delete_unless_kept self db keep_files (below db rel) acc w
  = (Ok (acc ++ [below db rel]),
     with_root w (set_at (q ++ rel) None (root w))).
Proof.
  unfold kept, should_keep, delete_unless_kept. rewrite relative_to_below.
  intros Hk Hq Hrel Hfile. apply orb_false_iff in Hk as [-> ->].
  unfold rewrap, bind.
  rewrite (unlink_file_at w (below db rel) (q ++ rel)); [reflexivity| |exact Hfile].
  apply locate_below; [exact Hq|exact Hrel|].
  unfold kind_at in Hfile. destruct (lookup (root w) (q ++ rel)); [discriminate|discriminate Hfile].
Qed.

(** The deletion loop over files of the destination, each listed once:
    every file that is not kept is removed, in order, and nothing else
    changes kind. *)
Lemma delete_loop (rels : list (list string)) :
  NoDup rels ->
  forall (acc : list Path) (w : world),
    locate w db = At q ->
    (forall rel, In rel rels ->
       rel <> [] /\ forallb not_dotdot rel = true /\
       kind_at w (q ++ rel) = KFile) ->
    exists w',
      fold_m (delete_unless_kept self db keep_files) (map (below db) rels) acc w
      = (Ok (acc ++ map (below db) (filter doomed rels)), w') /\
      cwd w' = cwd w /\ denied w' = denied w /\ locate w' db = At q /\
      forall a,
        kind_at w' a =
        if existsb (parts_eqb a) (map (app q) (filter doomed rels))
        then KNone else kind_at w a.
Proof.
  induction 1 as [|rel rels Hnin Hnd IH]; intros acc w Hq Hpre.
  - exists w. simpl. unfold ret. rewrite app_nil_r. repeat split. exact Hq.
  - destruct (Hpre rel (or_introl eq_refl)) as (Hne & Hrel & Hfile).
    simpl map. rewrite fold_m_cons. simpl filter.
    assert (doomed rel = negb (kept (below db rel))) as Hdoom by reflexivity.
    destruct (kept (below db rel)) eqn:Ek; rewrite Hdoom; cbn [negb]; cbv iota.
    + rewrite delete_unless_kept_kept by exact Ek.
      apply IH; [exact Hq|]. intros r Hr. apply Hpre. now right.
    + rewrite delete_unless_kept_doomed by assumption.
      set (w1 := with_root w (set_at (q ++ rel) None (root w))).
      assert (forall a, kind_at w1 a =
                        if parts_eqb a (q ++ rel) then KNone
                        else kind_at w a) as Hk1.
      { intros a. unfold kind_at, w1. simpl.
        destruct (kind_file _ Hfile) as [d Hd].
        apply (remove_leaf_kinds (root w) (File d)); [|exact Hd|apply file_is_leaf].
        intros E. apply app_eq_nil in E as [_ E]. contradiction. }
      assert (locate w1 db = At q) as Hq1.
      { apply (locate_grows w w1 db q); [|exact Hq].
        split; [reflexivity|]. unfold w1. simpl.
        apply set_at_fresh_mono. unfold kind_at in Hfile. rewrite Hfile.
        discriminate. }
      destruct (IH (acc ++ [below db rel]) w1 Hq1) as (w' & Hrun & Hcwd & Hden & Hq' & Hk).
      { intros r Hr. destruct (Hpre r (or_intror Hr)) as (Hr0 & Hr1 & Hr2).
        split; [exact Hr0|]. split; [exact Hr1|]. rewrite Hk1.
        destruct (parts_eqb (q ++ r) (q ++ rel)) eqn:E; [|exact Hr2].
        apply parts_eqb_eq, app_inv_head in E. subst r. contradiction. }
      exists w'. split; [|split; [exact Hcwd|split; [exact Hden|split; [exact Hq'|]]]].
      * rewrite Hrun. simpl. now rewrite <- app_assoc.
      * intros a. rewrite Hk, Hk1. simpl.
        destruct (parts_eqb a (q ++ rel)); simpl; [|reflexivity].
        now destruct (existsb _ _).
Qed.

End Deletion.

(** One turn of the loop over the directories succeeds, and no regular
    file appears or disappears. *)
Lemma remove_if_empty_step (item : Path) (w : world) :
  denied w = [] ->
  exists w',
    remove_if_empty item w = (Ok tt, w') /\
    cwd w' = cwd w /\ denied w' = denied w /\
    forall a, kind_at w' a = kind_at w a
              \/ (kind_at w a = KDir /\ kind_at w' a = KNone).
Proof.
  intros Hden. unfold remove_if_empty, bind, gets.
  destruct (is_dir w item) eqn:Ed; [|exists w; repeat split; auto].
  unfold is_dir, stat in Ed. unfold Path_iterdir.
  destruct (locate w item) as [q| |] eqn:El; try discriminate Ed.
  destruct (lookup (root w) q) as [[d|ks]|] eqn:Eq; try discriminate Ed.
  unfold is_denied. rewrite Hden. simpl existsb. cbv iota.
  destruct ks as [|k ks]; cbn [map]; cbv beta iota;
    [|exists w; repeat split; auto].
  unfold swallow_os, Path_rmdir. rewrite El, Eq.
  destruct q as [|x q]; [exists w; repeat split; auto|].
  eexists. split; [reflexivity|]. split; [reflexivity|].
  split; [simpl; now rewrite Hden|].
  intros a. unfold kind_at. simpl.
  rewrite (remove_leaf_kinds (root w) (Dir []) (x :: q));
    [|discriminate|exact Eq|apply empty_dir_is_leaf].
  destruct (parts_eqb a (x :: q)) eqn:E; [|now left].
  apply parts_eqb_eq in E. subst a. rewrite Eq. right. now split.
Qed.

Lemma prune_loop (items : list Path) :
  forall w,
    denied w = [] ->
    exists w',
      for_each remove_if_empty items w = (Ok tt, w') /\
      cwd w' = cwd w /\ denied w' = denied w /\
      forall a, kind_at w' a = kind_at w a
                \/ (kind_at w a = KDir /\ kind_at w' a = KNone).
Proof.
  unfold for_each.
  induction items as [|item items IH]; intros w Hden.
  - exists w. repeat split; auto.
  - rewrite fold_m_cons.
    destruct (remove_if_empty_step item w Hden) as (w1 & -> & Hc1 & Hd1 & Hk1).
    destruct (IH w1) as (w' & Hrun & Hc & Hd & Hk); [congruence|].
    exists w'. split; [exact Hrun|]. split; [congruence|]. split; [congruence|].
    intros a. destruct (Hk a) as [H|[H1 H2]], (Hk1 a) as [H'|[H1' H2']].
    + left. congruence.
    + right. split; [exact H1'|congruence].
    + right. split; congruence.
    + congruence.
Qed.

Lemma filter_map_comm {A B} (f : A -> B) (g : B -> bool) (l : list A) :
  filter g (map f l) = map f (filter (fun x => g (f x)) l).
Proof.
  induction l as [|x l IH]; simpl; [reflexivity|].
  destruct (g (f x)); simpl; now rewrite IH.
Qed.


Section Cleanup.

Variable self : WSLSyncEngine.
Variable db : Path.
Variable keep_files : list Path.
Variable w : world.

Hypothesis Hdb : wsl2_base (config self) = Some db.
Hypothesis Hex : exists_ w db = true.
Hypothesis Hwf : wfb (root w) = true.
Hypothesis Hden : denied w = [].


End Cleanup.


Lemma cleanup_test_fixture_deleted :
  fst (cleanup_destination engine_cleanup keep_cleanup world_cleanup)
  = Ok [P "/dest/old_file.txt"; P "/dest/temp.log"; P "/dest/gone/x.txt"].
Proof. reflexivity. Qed.

End CleanupProps.

Module KeepProps.

Import TreeProps WfProps WalkProps RemoveProps GrowProps.

Lemma preserved_refl (w : world) : preserved w w.
Proof. split; [reflexivity|]. split; intros a; auto. Qed.

Lemma preserved_trans (a b c : world) :
  preserved a b -> preserved b c -> preserved a c.
Proof.
  intros (H1 & H2 & H3) (H4 & H5 & H6). split; [congruence|]. split.
  - intros x Hx. apply H5, H2, Hx.
  - intros x d Hx. apply H6, H3, Hx.
Qed.

Lemma preserved_grows (w w' : world) : preserved w w' -> grows w w'.
Proof. intros (H1 & H2 & _). now split. Qed.

(** A regular file above the place of a write is not on the way to it. *)
Lemma set_at_keeps_file (q : list string) (v : option node) :
  forall (t : node) (a : list string) (d : string),
    a <> q -> is_prefix q a = false ->
    lookup t a = Some (File d) ->
    lookup (set_at q v t) a = Some (File d).
Proof.
  induction q as [|x r IH]; intros t a d Hne Hpre Ha; [discriminate Hpre|].
  destruct t as [d0|ks]; [exact Ha|].
  destruct a as [|y a']; [discriminate Ha|].
  simpl in Hpre, Ha.
  destruct (String.eqb_spec x y) as [->|Hxy].
  - simpl in Hpre.
    destruct r as [|z r0]; [discriminate Hpre|].
    change (set_at (y :: z :: r0) v (Dir ks))
      with (match find_kid y ks with
            | Some c => Dir (put_kid y (set_at (z :: r0) v c) ks)
            | None => Dir ks
            end).
    destruct (find_kid y ks) as [c|] eqn:Ec; [|discriminate Ha].
    simpl. rewrite find_put_same. apply IH; [congruence|exact Hpre|exact Ha].
  - destruct r as [|z r0].
    + simpl. now rewrite find_upd_other.
    + change (set_at (x :: z :: r0) v (Dir ks))
        with (match find_kid x ks with
              | Some c => Dir (put_kid x (set_at (z :: r0) v c) ks)
              | None => Dir ks
              end).
      destruct (find_kid x ks) as [c|] eqn:Ec; [|exact Ha].
      simpl. now rewrite find_put_other.
Qed.

(** A write where nothing is. *)
Lemma set_at_fresh_keeps (t : node) (q : list string) (v : option node) :
  lookup t q = None -> files_kept t (set_at q v t).
Proof.
  intros Hq a d Ha. apply set_at_keeps_file; [congruence| |exact Ha].
  destruct (is_prefix q a) eqn:E; [|reflexivity].
  apply is_prefix_iff in E as [s ->]. rewrite lookup_app, Hq in Ha. discriminate Ha.
Qed.

Lemma stat_file_preserved (w w' : world) (p : Path) (d : string) :
  preserved w w' -> stat w p = Some (File d) -> stat w' p = Some (File d).
Proof.
  intros Hp H. pose proof (preserved_grows _ _ Hp) as Hg.
  destruct Hp as (_ & _ & Hf). unfold stat in *.
  destruct (locate w p) as [q| |] eqn:E; try discriminate H.
  rewrite (locate_grows w w' p q Hg E). now apply Hf.
Qed.

Lemma os_mkdir_preserved (p : Path) (w w' : world) (r : result unit) :
  os_mkdir p w = (r, w') -> preserved w w'.
Proof.
  intros H. pose proof (os_mkdir_grows p w w' r H) as [[Hc Hm] _].
  split; [exact Hc|]. split; [exact Hm|].
  unfold os_mkdir, walk_error, raise in H.
  destruct (locate w p) as [q| |].
  - destruct (lookup (root w) q) as [c|] eqn:Eq.
    + inversion H; subst. intros a d Ha; exact Ha.
    + destruct (can_create w q); apply (f_equal snd) in H; cbn [snd] in H; subst w'.
      * simpl. now apply set_at_fresh_keeps.
      * intros a d Ha; exact Ha.
  - destruct false; inversion H; subst; intros a d Ha; exact Ha.
  - inversion H; subst. intros a d Ha; exact Ha.
Qed.

Lemma mkdir_parents_preserved (abs : bool) (rparts : list string) :
  forall w w' r, mkdir_parents abs rparts w = (r, w') -> preserved w w'.
Proof.
  induction rparts as [|c up IH]; intros w w' r H; simpl in H.
  - destruct (os_mkdir _ w) as [[u|e] w1] eqn:E.
    + inversion H; subst. exact (os_mkdir_preserved _ _ _ _ E).
    + pose proof (os_mkdir_preserved _ _ _ _ E) as Hp.
      destruct e; try (destruct (_ && _)); inversion H; subst; exact Hp.
  - destruct (os_mkdir _ w) as [[u|e] w1] eqn:E.
    + inversion H; subst. exact (os_mkdir_preserved _ _ _ _ E).
    + pose proof (os_mkdir_preserved _ _ _ _ E) as Hp.
      destruct e;
        try (destruct (_ && _); inversion H; subst; exact Hp).
      unfold bind in H.
      destruct (mkdir_parents abs up w1) as [[u|e] w2] eqn:E2.
      * apply IH in E2.
        destruct (os_mkdir _ w2) as [[u'|e'] w3] eqn:E3.
        -- inversion H; subst.
           exact (preserved_trans _ _ _ Hp
                    (preserved_trans _ _ _ E2 (os_mkdir_preserved _ _ _ _ E3))).
        -- pose proof (os_mkdir_preserved _ _ _ _ E3) as Hp3.
           destruct e'; try (destruct (_ && _)); inversion H; subst;
             exact (preserved_trans _ _ _ Hp (preserved_trans _ _ _ E2 Hp3)).
      * inversion H; subst. apply IH in E2. exact (preserved_trans _ _ _ Hp E2).
Qed.

(** A directory made with its parents is there. *)
Lemma mkdir_parents_is_dir (abs : bool) (rparts : list string) :
  forall w w',
    mkdir_parents abs rparts w = (Ok tt, w') ->
    is_dir w' (mkPath abs (rev rparts)) = true.
Proof.
  assert (forall p w w', os_mkdir p w = (Ok tt, w') -> is_dir w' p = true) as Hmk.
  { intros p w w' H. apply os_mkdir_ok in H as (q & Hl & Hq).
    unfold is_dir, stat. now rewrite Hl, Hq. }
  destruct rparts as [|c up]; intros w w' H; simpl in H.
  - destruct (os_mkdir _ w) as [[[]|e] w1] eqn:E.
    + inversion H; subst. exact (Hmk _ _ _ E).
    + destruct e; try (destruct (_ && _) eqn:Ed; [|discriminate H];
        inversion H; subst; now apply andb_true_iff in Ed as [_ Ed]).
      discriminate H.
  - destruct (os_mkdir _ w) as [[[]|e] w1] eqn:E.
    + inversion H; subst. exact (Hmk _ _ _ E).
    + destruct e; try (destruct (_ && _) eqn:Ed; [|discriminate H];
        inversion H; subst; now apply andb_true_iff in Ed as [_ Ed]).
      unfold bind in H.
      destruct (mkdir_parents abs up w1) as [[u|e] w2]; [|discriminate H].
      destruct (os_mkdir _ w2) as [[[]|e'] w3] eqn:E3.
      * inversion H; subst. exact (Hmk _ _ _ E3).
      * destruct e'; try (destruct (_ && _) eqn:Ed; [|discriminate H];
          inversion H; subst; now apply andb_true_iff in Ed as [_ Ed]).
        discriminate H.
Qed.

Lemma Path_mkdir_parents_ok (p : Path) (w w' : world) :
  Path_mkdir_parents p w = (Ok tt, w') ->
  is_dir w' p = true /\ preserved w w'.
Proof.
  unfold Path_mkdir_parents. intros H. split.
  - apply mkdir_parents_is_dir in H. rewrite rev_involutive in H.
    now destruct p.
  - exact (mkdir_parents_preserved _ _ _ _ _ H).
Qed.

(** Making a directory that is there changes nothing. *)
Lemma Path_mkdir_parents_existing (p : Path) (w : world) :
  is_dir w p = true -> Path_mkdir_parents p w = (Ok tt, w).
Proof.
  intros Hd. unfold Path_mkdir_parents.
  assert (exists m, os_mkdir p w = (Raise (FileExistsError m), w)) as [m Hm].
  { unfold os_mkdir. unfold is_dir, stat in Hd.
    destruct (locate w p) as [q| |]; try discriminate Hd.
    destruct (lookup (root w) q); [eauto|discriminate Hd]. }
  assert (mkPath (absolute p) (rev (rev (parts p))) = p) as Hp
    by (rewrite rev_involutive; now destruct p).
  destruct (rev (parts p)) as [|c up]; simpl; simpl in Hp; rewrite Hp, Hm; simpl;
    now rewrite Hd.
Qed.

End KeepProps.

Module MkdirProps.

Import TreeProps WfProps WalkProps RemoveProps GrowProps KeepProps.

Lemma for_each_chmod_ok (base : Path) (l : list Path) (w : world) :
  for_each
    (fun par : Path =>
       ex <- gets (fun w => exists_ w par) ;;
       if ex && negb (Path_eqb par base) && Path_in base (parents par)
       then swallow_os (os_chmod par 493)
       else ret tt)
    l w = (Ok tt, logged w (parent_modes base w l)).
Proof.
  unfold for_each. revert w. induction l as [|x l IH]; intros w.
  - simpl. unfold ret. now rewrite logged_nil.
  - rewrite fold_m_cons. unfold bind at 1, gets at 1. cbn [parent_modes flat_map].
    destruct (exists_ w x) eqn:Ex; cbn [andb].
    + destruct (negb (Path_eqb x base) && Path_in base (parents x)).
      * destruct (os_chmod_run x 493 w Ex) as (q & Hq & Hrun).
        unfold swallow_os. rewrite Hrun, Hq, IH, logged_logged. reflexivity.
      * exact (IH w).
    + exact (IH w).
Qed.

(** What [create_directory_structure] does to the tree is what making the
    parent directory does; the permission pass then sets its modes and
    raises nothing. *)
Lemma create_directory_structure_run (self : WSLSyncEngine) (fp : Path)
  (w w' : world) :
  create_directory_structure self fp w = (Ok tt, w') <->
  exists w1, Path_mkdir_parents (parent fp) w = (Ok tt, w1) /\
             w' = logged w1 (structure_modes self fp w1).
Proof.
  unfold create_directory_structure, rewrap, structure_modes. unfold bind at 1.
  destruct (Path_mkdir_parents (parent fp) w) as [[[]|e] w1].
  - destruct (wsl2_base (config self)) as [base|].
    + rewrite for_each_chmod_ok. split.
      * intros H. inversion H. now exists w1.
      * intros (w2 & H & ->). now inversion H.
    + unfold ret. split.
      * intros H. inversion H. exists w1. now rewrite logged_nil.
      * intros (w2 & H & ->). inversion H. now rewrite logged_nil.
  - split; [|intros (w2 & H & _); discriminate H].
    destruct (is_PermissionError e); [discriminate|].
    destruct (is_OSError e); discriminate.
Qed.

(** X1. When [create_directory_structure] succeeds the parent of the file
    path is a directory; every path that was a directory still is one and
    every regular file still has its content; the call has made the parent
    directory and then set mode 0o755 on each ancestor of the path that
    exists, is not the destination root and has it among its own ancestors,
    those that were there before included.  When the parent is a directory
    already, the call succeeds, leaves the tree as it is and sets these
    modes. *)
Theorem create_directory_structure_makes_parent
  (self : WSLSyncEngine) (fp : Path) (w : world) :
  (forall w',
     create_directory_structure self fp w = (Ok tt, w') ->
     is_dir w' (parent fp) = true /\
     (forall p, is_dir w p = true -> is_dir w' p = true) /\
     (forall p d, stat w p = Some (File d) -> stat w' p = Some (File d)) /\
     exists w1,
       Path_mkdir_parents (parent fp) w = (Ok tt, w1) /\
       w' = logged w1 (structure_modes self fp w1)) /\
  (is_dir w (parent fp) = true ->
   create_directory_structure self fp w
   = (Ok tt, logged w (structure_modes self fp w))) /\
  (forall v q m,
     In (q, m) (structure_modes self fp v) <->
     m = 493%N /\
     exists base par,
       wsl2_base (config self) = Some base /\ In par (parents fp) /\
       exists_ v par = true /\ Path_eqb par base = false /\
       Path_in base (parents par) = true /\ locate v par = At q).
Proof.
  split; [|split].
  - intros w' H. apply create_directory_structure_run in H as (w1 & H & ->).
    pose proof H as H0.
    apply Path_mkdir_parents_ok in H as [Hd Hp]. split; [exact Hd|]. split.
    + intros p Hpd.
      exact (is_dir_grows _ _ p (preserved_grows _ _ Hp) Hpd).
    + split; [|now exists w1].
      intros p d Hs. exact (stat_file_preserved _ _ _ _ Hp Hs).
  - intros Hd. apply create_directory_structure_run. exists w.
    split; [now apply Path_mkdir_parents_existing|reflexivity].
  - intros v q m. unfold structure_modes.
    destruct (wsl2_base (config self)) as [base|].
    + unfold parent_modes. rewrite in_flat_map. split.
      * intros (par & Hin & H).
        destruct (exists_ v par) eqn:Ex; cbn [andb] in H; [|contradiction].
        destruct (Path_eqb par base) eqn:Eb; cbn [negb andb] in H;
          [contradiction|].
        destruct (Path_in base (parents par)) eqn:Ei; [|contradiction].
        destruct (locate v par) as [q'| |] eqn:El; try contradiction.
        destruct H as [H|[]]. inversion H; subst. split; [reflexivity|].
        now exists base, par.
      * intros (-> & base' & par & Hb & Hin & Hex & Hne & Hi & Hl).
        inversion Hb; subst base'. exists par. split; [exact Hin|].
        rewrite Hex, Hne, Hi, Hl. now left.
    + split; [contradiction|]. intros (_ & base & par & Hb & _). discriminate Hb.
Qed.

(** X2. [ensure_directory_exists]: on success the path is a directory and
    nothing that was there is lost; on a directory it succeeds and changes
    nothing (so a second call is a no-op); on a regular file it raises
    [OSError] and changes nothing. *)
Theorem ensure_directory_exists_outcome (d : Path) (w : world) :
  (forall w',
     ensure_directory_exists d w = (Ok tt, w') ->
     is_dir w' d = true /\
     (forall p, is_dir w p = true -> is_dir w' p = true) /\
     (forall p c, stat w p = Some (File c) -> stat w' p = Some (File c)) /\
     ensure_directory_exists d w' = (Ok tt, w')) /\
  (is_dir w d = true -> ensure_directory_exists d w = (Ok tt, w)) /\
  (is_file w d = true ->
   ensure_directory_exists d w
   = (Raise (OSError ("Path exists but is not a directory: " ++ str d)), w)).
Proof.
  assert (forall w0, is_dir w0 d = true ->
                     ensure_directory_exists d w0 = (Ok tt, w0)) as Hidem.
  { intros w0 Hd. unfold ensure_directory_exists, bind, gets. rewrite Hd.
    rewrite andb_false_r. unfold rewrap.
    now rewrite Path_mkdir_parents_existing. }
  split; [|split].
  - intros w' H. unfold ensure_directory_exists, bind, gets in H.
    destruct (exists_ w d && negb (is_dir w d)); [discriminate H|].
    apply rewrap_ok in H. apply Path_mkdir_parents_ok in H as [Hd Hp].
    split; [exact Hd|]. split; [|split].
    + intros p. apply is_dir_grows, preserved_grows, Hp.
    + intros p c. now apply stat_file_preserved.
    + now apply Hidem.
  - apply Hidem.
  - intros Hf. unfold ensure_directory_exists, bind, gets.
    unfold is_file, is_dir, exists_ in *.
    destruct (kind_of (stat w d)); try discriminate Hf. reflexivity.
Qed.

End MkdirProps.

Module FileUtilsProps.

Import TreeProps WfProps WalkProps RemoveProps GrowProps KeepProps.

(** What has been removed is no longer found by its path. *)
Lemma stat_after_remove (w : world) (p : Path) (q : list string) (c : node) :
  locate w p = At q -> q <> [] -> lookup (root w) q = Some c ->
  stat (with_root w (set_at q None (root w))) p = None.
Proof.
  intros El Hq Eq.
  assert (forall s, lookup (set_at q None (root w)) (q ++ s) = None) as Hgone.
  { intros s. rewrite set_at_under; [reflexivity|exact Hq|].
    exact (lookup_parent_dir _ _ q Hq Eq). }
  assert (forall a,
            kind_of (lookup (set_at q None (root w)) a)
            = kind_of (lookup (root w) a)
            \/ kind_of (lookup (set_at q None (root w)) a) = KNone) as Hk.
  { intros a. destruct (is_prefix q a) eqn:E1.
    + apply is_prefix_iff in E1 as [s ->]. right. now rewrite Hgone.
    + left. destruct (is_prefix a q) eqn:E2.
      * apply set_at_above; [exact E2|]. intros ->.
        now rewrite is_prefix_refl in E1.
      * now rewrite set_at_apart. }
  unfold stat, locate in *. cbn [root cwd with_root].
  destruct (walk_after_loss _ _ (parts p) Hk _ _ El) as [Hw|Hw]; rewrite Hw;
    [|reflexivity].
  specialize (Hgone []). now rewrite app_nil_r in Hgone.
Qed.

Lemma rooted_file_not_root (w : world) (q : list string) (d : string) :
  rooted w -> lookup (root w) q = Some (File d) -> q <> [].
Proof.
  unfold rooted, kind_at. intros Hr Hq ->. simpl in *.
  inversion Hq as [E]. rewrite E in Hr. discriminate Hr.
Qed.

(** X3. [safe_remove_file] on a file system whose root is a directory: a
    path that names nothing gives [False] and no change; a directory gives
    [OSError] and no change; a regular file is removed and [True] returned:
    the path names nothing afterwards, and every other regular file and
    every directory is as before. *)
Theorem safe_remove_file_outcome (p : Path) (w : world) :
  rooted w ->
  (exists_ w p = false -> safe_remove_file p w = (Ok false, w)) /\
  (is_dir w p = true ->
   safe_remove_file p w
   = (Raise (OSError ("Cannot remove directory with safe_remove_file: " ++ str p)),
      w)) /\
  (is_file w p = true ->
   exists w',
     safe_remove_file p w = (Ok true, w') /\
     exists_ w' p = false /\
     (forall p', is_dir w p' = true -> is_dir w' p' = true) /\
     (forall p' d, stat w p' = Some (File d) -> locate w p' <> locate w p ->
                   stat w' p' = Some (File d))).
Proof.
  intros Hroot. split; [|split].
  - intros H. unfold safe_remove_file, bind, gets. now rewrite H.
  - intros H. unfold safe_remove_file, bind, gets.
    assert (exists_ w p = true) as ->.
    { unfold exists_, is_dir in *. now destruct (kind_of (stat w p)). }
    cbn beta iota delta [negb]. now rewrite H.
  - intros H. unfold safe_remove_file, bind, gets.
    assert (exists_ w p = true) as ->.
    { unfold exists_, is_file in *. now destruct (kind_of (stat w p)). }
    cbn beta iota delta [negb].
    assert (is_dir w p = false) as ->.
    { unfold is_dir, is_file in *. now destruct (kind_of (stat w p)). }
    unfold is_file, stat in H.
    destruct (locate w p) as [q| |] eqn:El; try discriminate H.
    destruct (lookup (root w) q) as [[d|ks]|] eqn:Eq; try discriminate H.
    pose proof (rooted_file_not_root w q d Hroot Eq) as Hq.
    unfold rewrap, Path_unlink. rewrite El, Eq.
    eexists. split; [reflexivity|].
    assert (grows w (with_root w (set_at q None (root w)))) as Hg.
    { split; [reflexivity|]. simpl. apply set_at_fresh_mono. now rewrite Eq. }
    split; [|split].
    + unfold exists_. now rewrite (stat_after_remove w p q (File d) El Hq Eq).
    + intros p'. now apply is_dir_grows.
    + intros p' d' Hs Hne. unfold stat in *.
      destruct (locate w p') as [q'| |] eqn:El'; try discriminate Hs.
      rewrite (locate_grows _ _ p' q' Hg El'). simpl.
      apply set_at_keeps_file; [congruence| |exact Hs].
      destruct (is_prefix q q') eqn:E; [|reflexivity].
      apply is_prefix_iff in E as [s ->].
      destruct s as [|x s]; [rewrite app_nil_r in Hne; congruence|].
      rewrite lookup_app, Eq in Hs. discriminate Hs.
Qed.

Lemma safe_remove_file_spec_scenario :
  exists w',
    safe_remove_file (P "/dst/stale.txt") world_spec = (Ok true, w') /\
    exists_ w' (P "/dst/stale.txt") = false /\
    (forall p', is_dir world_spec p' = true -> is_dir w' p' = true) /\
    (forall p' d, stat world_spec p' = Some (File d) ->
                  locate world_spec p' <> locate world_spec (P "/dst/stale.txt") ->
                  stat w' p' = Some (File d)).
Proof.
  exact (proj2 (proj2 (safe_remove_file_outcome (P "/dst/stale.txt") world_spec
                         eq_refl)) eq_refl).
Defined.

End FileUtilsProps.

Module CopyFileProps.

Import TreeProps WfProps WalkProps RemoveProps GrowProps KeepProps.

(** What a successful [shutil.copy2] has done. *)
Lemma shutil_copy2_ok (src dst : Path) (w w' : world) :
  shutil_copy2 src dst w = (Ok tt, w') ->
  let target := if is_dir w dst then join dst (name src) else dst in
  exists data,
    stat w src = Some (File data) /\
    stat w' target = Some (File data) /\
    stat w' src = Some (File data) /\
    grows w w' /\
    (forall p d, stat w p = Some (File d) ->
                 stat w' p = Some (File d) \/ locate w p = locate w target).
Proof.
  intros H target. pose proof (shutil_copy2_grows _ _ _ _ H) as Hg.
  unfold shutil_copy2, walk_error, raise in H. fold target in H.
  destruct (samefile w src target) eqn:Esame; [discriminate H|].
  destruct (stat w src) as [[data|ks]|] eqn:Es; try discriminate H.
  destruct (locate w target) as [q| |] eqn:El; try discriminate H.
  exists data.
  assert (q <> [] /\ kind_of (lookup (root w) q) <> KDir /\
          w' = with_root w (set_at q (Some (File data)) (root w)))
    as (Hq & Hnd & ->).
  { destruct (lookup (root w) q) as [[d|ks]|] eqn:Eq; try discriminate H.
    - split; [|split; [discriminate|now inversion H]].
      intros ->. simpl in Eq. inversion Eq as [Er].
      unfold stat in Es. destruct (locate w src) as [qs| |] eqn:Els;
        try discriminate Es.
      destruct qs as [|x qs]; [|rewrite Er in Es; discriminate Es].
      unfold samefile in Esame. rewrite Els, El, Es in Esame.
      discriminate Esame.
    - destruct (can_create w q) eqn:Ec; [|discriminate H].
      split; [|split; [discriminate|now inversion H]].
      intros ->. discriminate Ec. }
  assert (kind_of (lookup (root w) (removelast q)) = KDir) as Hpar.
  { clear Hg. destruct (lookup (root w) q) as [c|] eqn:Eq.
    - exact (lookup_parent_dir _ _ q Hq Eq).
    - destruct (can_create w q) eqn:Ec; [|discriminate H].
      unfold can_create, kind_at in Ec. destruct q; [congruence|].
      now destruct (kind_of (lookup (root w) (removelast (s :: q)))). }
  assert (forall p d, stat w p = Some (File d) ->
            stat (with_root w (set_at q (Some (File data)) (root w))) p
            = Some (File d) \/ locate w p = At q) as Hkeep.
  { intros p d Hp. unfold stat in Hp |- *.
    destruct (locate w p) as [qp| |] eqn:Elp; try discriminate Hp.
    rewrite (locate_grows _ _ p qp Hg Elp). cbn [root with_root].
    destruct (list_eq_dec string_dec qp q) as [->|Hne]; [now right|left].
    apply set_at_keeps_file; [exact Hne| |exact Hp].
    destruct (is_prefix q qp) eqn:E; [|reflexivity].
    apply is_prefix_iff in E as [s ->].
    destruct s as [|x s]; [now rewrite app_nil_r in Hne|].
    exfalso. apply Hnd. apply (lookup_prefix_dir _ q s x). congruence. }
  split; [reflexivity|]. split; [|split; [|split; [exact Hg|exact Hkeep]]].
  - unfold stat. rewrite (locate_grows _ _ target q Hg El). cbn [root with_root].
    pose proof (set_at_under q (Some (File data)) (root w) [] Hq Hpar) as Hu.
    now rewrite app_nil_r in Hu.
  - destruct (Hkeep src data Es) as [Hs|Hs]; [exact Hs|].
    exfalso. unfold samefile in Esame. rewrite Hs, El in Esame.
    unfold stat in Es. rewrite Hs in Es. rewrite Es in Esame.
    assert (parts_eqb q q = true) as Hqq by now apply parts_eqb_eq.
    rewrite Hqq in Esame. discriminate Esame.
Qed.

Lemma get_file_size_file (p : Path) (w : world) (data : string) :
  stat w p = Some (File data) ->
  get_file_size p w = (Ok (Z.of_nat (String.length data)), w).
Proof.
  intros H. unfold get_file_size, bind, gets. cbv beta iota.
  unfold exists_, is_dir.
  rewrite H. cbn [kind_of kind_eqb negb]. cbv beta iota.
  rewrite H. cbn [kind_of kind_eqb negb]. cbv beta iota.
  unfold Path_stat_size. unfold stat in H.
  destruct (locate w p) as [q| |]; try discriminate H.
  cbv beta iota. now rewrite H.
Qed.

(** X4. [safe_copy_file]: a missing source gives [FileNotFoundError] and no
    change.  A call that returns has returned [True]; the source was a
    regular file and still is, with the same content; that content is now
    at the destination, or under the source's name inside the destination
    when that is a directory, and [get_file_size] reports its length there;
    the destination's parent is a directory; every directory is still one
    and every other regular file has its content. *)
Theorem safe_copy_file_outcome (s d : Path) (b : bool) (w : world) :
  (exists_ w s = false ->
   safe_copy_file s d b w
   = (Raise (FileNotFoundError ("Source file not found: " ++ str s)), w)) /\
  (forall r w', safe_copy_file s d b w = (Ok r, w') ->
     let target := if is_dir w' d then join d (name s) else d in
     r = true /\
     exists data,
       stat w s = Some (File data) /\
       stat w' s = Some (File data) /\
       stat w' target = Some (File data) /\
       is_dir w' (parent d) = true /\
       get_file_size target w' = (Ok (Z.of_nat (String.length data)), w') /\
       (forall p, is_dir w p = true -> is_dir w' p = true) /\
       (forall p c, stat w p = Some (File c) ->
                    stat w' p = Some (File c) \/ locate w' p = locate w' target)).
Proof.
  split.
  - intros H. unfold safe_copy_file, bind, gets. now rewrite H.
  - intros r w' H target.
    apply bind_ok in H as (ex & w0 & Hex & H). apply gets_ok in Hex as [-> ->].
    destruct (exists_ w s) eqn:Eex; [|discriminate H]. cbn [negb] in H.
    apply bind_ok in H as ([] & w1 & Hmk & H).
    apply Path_mkdir_parents_ok in Hmk as [Hpd Hpres].
    apply rewrap_ok in H. apply bind_ok in H as ([] & w2 & Hcp & H).
    apply ret_ok in H as [-> ->]. split; [reflexivity|].
    assert (shutil_copy2 s d w1 = (Ok tt, w2)) as Hc by now destruct b.
    clear Hcp. pose proof (shutil_copy2_ok _ _ _ _ Hc) as Hok.
    cbv zeta in Hok. destruct Hok as (data & Hs1 & Ht & Hs2 & Hg & Hkeep).
    pose proof (preserved_grows _ _ Hpres) as Hg1.
    assert (target = if is_dir w1 d then join d (name s) else d) as Etarget.
    { unfold target. destruct (is_dir w1 d) eqn:Ed.
      - now rewrite (is_dir_grows _ _ d Hg Ed).
      - unfold is_dir. now rewrite Ht. }
    rewrite <- Etarget in Ht, Hkeep.
    exists data. split; [|split; [exact Hs2|split; [exact Ht|split; [|split; [|split]]]]].
    + destruct (stat w s) as [[c|ks]|] eqn:Es.
      * rewrite (stat_file_preserved _ _ s c Hpres Es) in Hs1. exact Hs1.
      * assert (is_dir w1 s = true) as Hd.
        { apply (is_dir_grows w w1 s Hg1). unfold is_dir. now rewrite Es. }
        unfold is_dir in Hd. rewrite Hs1 in Hd. discriminate Hd.
      * unfold exists_ in Eex. rewrite Es in Eex. discriminate Eex.
    + exact (is_dir_grows _ _ _ Hg Hpd).
    + now apply get_file_size_file.
    + intros p Hp. apply (is_dir_grows _ _ p Hg), (is_dir_grows _ _ p Hg1), Hp.
    + intros p c Hp. pose proof (stat_file_preserved _ _ p c Hpres Hp) as Hp1.
      destruct (Hkeep p c Hp1) as [Hk|Hk]; [now left|right].
      unfold stat in Hp1.
      destruct (locate w1 p) as [q| |] eqn:El; try discriminate Hp1.
      rewrite (locate_grows _ _ p q Hg El).
      symmetry. apply (locate_grows _ _ target q Hg). now symmetry.
Qed.

(** The call does succeed: the specification's source file, copied next to
    the destination's stale file. *)
Example safe_copy_file_runs :
  exists w',
    safe_copy_file (P "/src/a.txt") (P "/dst/new/a.txt") true world_spec
    = (Ok true, w') /\
    stat w' (P "/dst/new/a.txt") = stat world_spec (P "/src/a.txt").
Proof. eexists. split; reflexivity. Qed.

End CopyFileProps.

Module RelativeProps.

Import PrefixProps PathSafety.

Lemma skipn_app_length {A} (a b : list A) : skipn (List.length a) (a ++ b) = b.
Proof. induction a as [|x a IH]; [reflexivity|exact IH]. Qed.

Lemma relative_to_joinpath (base rel : Path) :
  absolute rel = false -> relative_to (joinpath base rel) base = Some rel.
Proof.
  intros Hr. unfold relative_to, joinpath. rewrite Hr. cbn [absolute parts].
  rewrite Bool.eqb_reflx.
  assert (is_prefix (parts base) (parts base ++ parts rel) = true) as ->
    by (apply is_prefix_iff; now exists (parts rel)).
  cbn [andb]. rewrite skipn_app_length. destruct rel as [a ps].
  simpl in Hr. now subst a.
Qed.

Lemma relative_to_Some (p base rel : Path) :
  relative_to p base = Some rel ->
  absolute rel = false /\ joinpath base rel = p.
Proof.
  unfold relative_to.
  destruct (Bool.eqb (absolute p) (absolute base)) eqn:Ea; [|discriminate].
  destruct (is_prefix (parts base) (parts p)) eqn:Ep; [|discriminate].
  intros H. inversion H; subst rel. split; [reflexivity|].
  apply Bool.eqb_prop in Ea. apply is_prefix_iff in Ep as [s Hs].
  unfold joinpath. cbn [absolute parts]. rewrite Hs, skipn_app_length.
  destruct p as [a ps]. simpl in *. now subst.
Qed.

(** X5. [get_relative_path] and the [/] of paths undo each other: a result
    is a relative path that, joined to the base, gives the path back; for
    every relative path the join is taken apart again; and the [ValueError]
    is raised exactly when no relative path joined to the base gives the
    path. *)
Theorem get_relative_path_round_trip (base : Path) :
  (forall p rel, get_relative_path p base = Ok rel ->
     absolute rel = false /\ joinpath base rel = p) /\
  (forall rel, absolute rel = false ->
     get_relative_path (joinpath base rel) base = Ok rel) /\
  (forall p,
     get_relative_path p base
     = Raise (ValueError ("Path " ++ str p ++ " is not under base path "
                            ++ str base))
     <-> ~ exists rel, absolute rel = false /\ joinpath base rel = p).
Proof.
  split; [|split].
  - intros p rel H. unfold get_relative_path in H.
    destruct (relative_to p base) as [r|] eqn:E; [|discriminate H].
    inversion H; subst r. now apply relative_to_Some.
  - intros rel Hr. unfold get_relative_path.
    now rewrite (relative_to_joinpath base rel Hr).
  - intros p. unfold get_relative_path.
    destruct (relative_to p base) as [r|] eqn:E.
    + split; [discriminate|]. intros Hn. exfalso. apply Hn. exists r.
      now apply relative_to_Some.
    + split; [|reflexivity]. intros _ (rel & Hr & <-).
      rewrite (relative_to_joinpath base rel Hr) in E. discriminate E.
Qed.

(** Without [..] the resolved components are the given ones less the
    empty ones and [.]. *)
Lemma normalize_plain (cs acc : list string) :
  forallb not_dotdot cs = true ->
  exists rel, normalize acc cs = acc ++ rel.
Proof.
  revert acc. induction cs as [|c cs IH]; intros acc H; simpl in *.
  - exists []. now rewrite app_nil_r.
  - apply andb_true_iff in H as [Hc Hcs]. unfold not_dotdot in Hc.
    destruct (String.eqb c "..") eqn:E; [discriminate Hc|].
    destruct (String.eqb c "." || String.eqb c "").
    + now apply IH.
    + destruct (IH (acc ++ [c]) Hcs) as [rel ->]. exists (c :: rel).
      now rewrite <- app_assoc.
Qed.

(** X6. A path that [get_relative_path] places under a base, and that has
    no [..] among its components, is safe for that base; so is every
    relative path without [..], for every base. *)
Theorem is_path_safe_without_dotdot (w : world) (p base : Path) :
  plain p = true ->
  (absolute p = false \/ exists rel, get_relative_path p base = Ok rel) ->
  is_path_safe w p base = true.
Proof.
  intros Hp H. rewrite is_path_safe_prefix. apply is_prefix_iff.
  destruct (absolute p) eqn:Ea.
  - destruct H as [H|[rel H]]; [discriminate H|].
    unfold get_relative_path in H.
    destruct (relative_to p base) as [r|] eqn:E; [|discriminate H].
    unfold relative_to in E.
    destruct (Bool.eqb (absolute p) (absolute base)) eqn:Eb; [|discriminate E].
    destruct (is_prefix (parts base) (parts p)) eqn:Epre; [|discriminate E].
    apply Bool.eqb_prop in Eb. rewrite Ea in Eb.
    apply is_prefix_iff in Epre as [s Hs].
    unfold resolve. rewrite Ea, <- Eb. cbn [parts]. rewrite Hs, normalize_app.
    apply normalize_plain. unfold plain in Hp. rewrite Hs, forallb_app in Hp.
    now apply andb_true_iff in Hp as [_ Hp].
  - destruct p as [a ps]. simpl in Ea. subst a.
    rewrite resolve_join_relative. now apply normalize_plain.
Qed.

Lemma is_path_safe_nested_file :
  is_path_safe world_spec (P "/src/sub/b.txt") (P "/src") = true.
Proof.
  apply is_path_safe_without_dotdot; [reflexivity|].
  right. exists (P "sub/b.txt"). reflexivity.
Defined.

End RelativeProps.

Module ListingProps.

Import TreeProps WfProps WalkProps RemoveProps GrowProps.

Lemma files_below_NoDup (w : world) (p : Path) :
  wfb (root w) = true -> NoDup (files_below w p).
Proof.
  intros Hwf. unfold files_below. apply NoDup_filter. unfold Path_rglob.
  destruct (locate w p) as [q| |]; try constructor.
  destruct (lookup (root w) q) as [[d|ks]|] eqn:E; try constructor.
  apply NoDup_map_inj; [intros a b H; exact (below_inj p a b H)|].
  apply rglob_from_NoDup. exact (wfb_lookup _ _ _ Hwf E).
Qed.

Lemma Path_rglob_plain (w : world) (d p : Path) :
  wfb (root w) = true ->
  In p (Path_rglob w d) ->
  exists rel, rel <> [] /\ forallb not_dotdot rel = true /\ p = below d rel.
Proof.
  intros Hwf H.
  apply Path_rglob_In in H as (q & ks & rel & _ & E & Hrel & _ & ->).
  assert (wfb (Dir ks) = true) as Hks by exact (wfb_lookup _ _ _ Hwf E).
  apply (rglob_In (Dir ks) Hks) in Hrel as [Hne Hex].
  exists rel. split; [exact Hne|]. split; [|reflexivity].
  destruct (lookup (Dir ks) rel) as [c|] eqn:El; [|congruence].
  exact (lookup_not_dotdot rel _ _ Hks El).
Qed.

Lemma proper_prefixes_iff (l s : list string) :
  In s (proper_prefixes l) <-> is_prefix s l = true /\ s <> l.
Proof.
  revert s. induction l as [|x r IH]; intros s; simpl.
  - split; [contradiction|]. intros [Hs Hne].
    destruct s; [congruence|discriminate Hs].
  - split.
    + intros [<-|H]; [split; [reflexivity|discriminate]|].
      apply in_map_iff in H as (t & <- & Ht). apply IH in Ht as [Ht Hne].
      simpl. rewrite String.eqb_refl. split; [exact Ht|congruence].
    + intros [Hs Hne]. destruct s as [|y s]; [now left|]. simpl in Hs.
      apply andb_true_iff in Hs as [Hy Hs]. apply String.eqb_eq in Hy.
      subst y. right. apply in_map. apply IH. split; [exact Hs|congruence].
Qed.

(** The way is open when no directory on it is refused. *)
Lemma way_open_iff (w : world) (q rel : list string) :
  way_open (denied w) q rel = true <->
  forall s, is_prefix s rel = true -> s <> rel -> is_denied w (q ++ s) = false.
Proof.
  unfold way_open, is_denied. rewrite forallb_forall. split.
  - intros H s Hs Hne. apply negb_true_iff. apply H.
    apply proper_prefixes_iff. now split.
  - intros H s Hs. apply proper_prefixes_iff in Hs as [Hs Hne].
    apply negb_true_iff. now apply H.
Qed.

(** X7. [get_destination_files] never changes the file system.  Without a
    destination root it raises [ValueError], with a root that does not
    exist [FileNotFoundError]; otherwise it returns, each once, exactly the
    paths [root/rel], [rel] not empty, at which there is a regular file and
    to which no directory on the way down from the root, the root included,
    refuses its listing: what lies inside a directory that cannot be listed
    is not found. *)
Theorem get_destination_files_outcome (self : WSLSyncEngine) (w : world) :
  wfb (root w) = true ->
  snd (get_destination_files self w) = w /\
  match wsl2_base (config self) with
  | None =>
      fst (get_destination_files self w)
      = Raise (ValueError "WSL2 base path not configured")
  | Some db =>
      if exists_ w db then
        exists l q,
          fst (get_destination_files self w) = Ok l /\ NoDup l /\
          locate w db = At q /\
          forall p, In p l <->
                    is_file w p = true /\
                    exists rel, rel <> [] /\ forallb not_dotdot rel = true /\
                                p = below db rel /\
                                forall s, is_prefix s rel = true -> s <> rel ->
                                          is_denied w (q ++ s) = false
      else
        fst (get_destination_files self w)
        = Raise (FileNotFoundError
                   ("Destination directory not found: " ++ str db))
  end.
Proof.
  intros Hwf. destruct (wsl2_base (config self)) as [db|] eqn:Hdb.
  - destruct (exists_ w db) eqn:Hex.
    + rewrite (get_destination_files_run self db w Hdb Hex). split; [reflexivity|].
      assert (exists q, locate w db = At q) as [q Hq].
      { unfold exists_, stat in Hex.
        destruct (locate w db) as [q| |]; [now exists q|discriminate Hex..]. }
      exists (files_below w db), q. split; [reflexivity|].
      split; [now apply files_below_NoDup|]. split; [exact Hq|].
      intros p. split.
      * intros H. pose proof H as H0.
        unfold files_below in H. apply filter_In in H as [Hin Hf].
        split; [exact Hf|].
        destruct (Path_rglob_plain w db p Hwf Hin) as (rel & Hne & Hrel & ->).
        exists rel. split; [exact Hne|]. split; [exact Hrel|].
        split; [reflexivity|]. apply way_open_iff.
        exact (proj2 (proj1 (files_below_open w db q rel Hwf Hq Hne Hrel) H0)).
      * intros [Hf (rel & Hne & Hrel & -> & Hopen)].
        apply (files_below_open w db q rel Hwf Hq Hne Hrel).
        split; [exact Hf|]. now apply way_open_iff.
    + unfold get_destination_files. rewrite Hdb. unfold bind, gets.
      rewrite Hex. now split.
  - unfold get_destination_files. rewrite Hdb. now split.
Qed.

(** A destination with a directory that cannot be listed: the file inside
    it is not in the list. *)
Lemma get_destination_files_spec_scenario :
  snd (get_destination_files engine_spec world_secret) = world_secret /\
  exists l q,
    fst (get_destination_files engine_spec world_secret) = Ok l /\ NoDup l /\
    locate world_secret (P "/dst") = At q /\
    forall p, In p l <->
              is_file world_secret p = true /\
              exists rel, rel <> [] /\ forallb not_dotdot rel = true /\
                          p = below (P "/dst") rel /\
                          forall s, is_prefix s rel = true -> s <> rel ->
                                    is_denied world_secret (q ++ s) = false.
Proof.
  exact (get_destination_files_outcome engine_spec world_secret eq_refl).
Defined.

(** There the list is the one file that can be found, though the file
    inside the refused directory is a regular file. *)
Lemma get_destination_files_passes_over_refused :
  get_destination_files engine_spec world_secret
  = (Ok [P "/dst/visible.txt"], world_secret) /\
  is_file world_secret (P "/dst/secret/f.txt") = true /\
  is_denied world_secret ["dst"; "secret"] = true.
Proof. repeat split; reflexivity. Qed.

(** What one entry adds to the list of [get_source_files]. *)
(** What one entry adds to the list of [get_source_files]. *)
Lemma source_entry_run (wb : Path) (e : string) (acc : list Path) (w : world) :
  (let source_path := join wb e in
   sex <- gets (fun w => exists_ w source_path) ;;
   if sex then
     isf <- gets (fun w => is_file w source_path) ;;
     if isf then ret (acc ++ [source_path])
     else
       isd <- gets (fun w => is_dir w source_path) ;;
       if isd then
         found <- gets (fun w => Path_rglob w source_path) ;;
         collect_files found acc
       else ret acc
   else ret acc) w
  = (Ok (acc ++ (if is_file w (join wb e) then [join wb e]
                 else files_below w (join wb e))), w).
Proof.
  cbv zeta. unfold bind, gets, ret. cbv beta iota.
  pose proof (Path_rglob_not_dir w (join wb e)) as Hnone.
  unfold files_below. unfold exists_, is_file, is_dir in *.
  destruct (stat w (join wb e)) as [[d|ks]|] eqn:Es;
    cbn [kind_of kind_eqb negb] in *; cbv beta iota;
    repeat (rewrite Es; cbn [kind_of kind_eqb negb]; cbv beta iota).
  - reflexivity.
  - now rewrite collect_files_run.
  - rewrite (Hnone eq_refl). cbn [filter]. now rewrite app_nil_r.
Qed.

Lemma get_source_files_run (self : WSLSyncEngine) (wb : Path) (w : world) :
  windows_base (config self) = Some wb -> exists_ w wb = true ->
  get_source_files self w
  = (Ok (flat_map (fun e => if is_file w (join wb e) then [join wb e]
                            else files_below w (join wb e))
                  (files (config self))), w).
Proof.
  intros Hwb Hex. unfold get_source_files. rewrite Hwb.
  unfold bind at 1. unfold gets at 1. rewrite Hex. cbn [negb].
  match goal with
  | |- fold_m ?b _ _ _ = _ =>
      enough (forall es acc,
                fold_m b es acc w
                = (Ok (acc ++ flat_map
                                (fun e => if is_file w (join wb e)
                                          then [join wb e]
                                          else files_below w (join wb e)) es),
                   w)) as H by apply (H _ [])
  end.
  induction es as [|e es IH]; intros acc.
  - simpl. unfold ret. now rewrite app_nil_r.
  - rewrite fold_m_cons. cbv beta zeta.
    pose proof (source_entry_run wb e acc w) as Hb. cbv zeta in Hb.
    rewrite Hb, IH.
    cbn [flat_map]. now rewrite app_assoc.
Qed.

(** X8. [get_source_files] never changes the file system and raises only
    for a source root that is not configured or does not exist: an entry
    that is missing is passed over.  The list holds exactly the regular
    files that are an entry's own path or are found by [rglob] below it. *)
Theorem get_source_files_outcome (self : WSLSyncEngine) (w : world) :
  snd (get_source_files self w) = w /\
  match windows_base (config self) with
  | None =>
      fst (get_source_files self w)
      = Raise (ValueError "Windows base path not configured")
  | Some wb =>
      if exists_ w wb then
        exists l,
          fst (get_source_files self w) = Ok l /\
          forall p, In p l <->
                    is_file w p = true /\
                    exists e, In e (files (config self)) /\
                              (p = join wb e \/ In p (Path_rglob w (join wb e)))
      else
        fst (get_source_files self w)
        = Raise (FileNotFoundError ("Source directory not found: " ++ str wb))
  end.
Proof.
  destruct (windows_base (config self)) as [wb|] eqn:Hwb.
  - destruct (exists_ w wb) eqn:Hex.
    + rewrite (get_source_files_run self wb w Hwb Hex). split; [reflexivity|].
      eexists. split; [reflexivity|]. intros p. rewrite in_flat_map. split.
      * intros (e & He & Hp). destruct (is_file w (join wb e)) eqn:Ef.
        -- destruct Hp as [<-|[]]. split; [exact Ef|]. exists e. auto.
        -- unfold files_below in Hp. apply filter_In in Hp as [Hin Hf].
           split; [exact Hf|]. exists e. auto.
      * intros (Hf & e & He & Hp). exists e. split; [exact He|].
        destruct Hp as [->|Hp].
        -- rewrite Hf. now left.
        -- destruct (is_file w (join wb e)) eqn:Ef.
           ++ rewrite Path_rglob_not_dir in Hp; [contradiction|].
              unfold is_dir, is_file in *.
              now destruct (kind_of (stat w (join wb e))).
           ++ unfold files_below. apply filter_In. now split.
    + unfold get_source_files. rewrite Hwb. unfold bind, gets.
      rewrite Hex. now split.
  - unfold get_source_files. rewrite Hwb. now split.
Qed.

End ListingProps.

Module ConfineProps.

Import TreeProps WfProps WalkProps RemoveProps GrowProps KeepProps CopyProps.
Import MkdirProps ListingProps ValidateProps.

(* ===================================================================== *)
(** * Prefixes *)
(* ===================================================================== *)

Lemma is_prefix_trans (a b c : list string) :
  is_prefix a b = true -> is_prefix b c = true -> is_prefix a c = true.
Proof.
  rewrite !is_prefix_iff. intros [s ->] [t ->]. exists (s ++ t).
  now rewrite app_assoc.
Qed.

Lemma is_prefix_comparable (a : list string) :
  forall q s, is_prefix a (q ++ s) = true ->
              is_prefix q a = true \/ is_prefix a q = true.
Proof.
  induction a as [|x a IH]; intros q s H; [now right|].
  destruct q as [|y q]; [now left|]. simpl in H |- *.
  apply andb_true_iff in H as [Hxy H]. apply String.eqb_eq in Hxy. subst y.
  rewrite String.eqb_refl. simpl.
  destruct (IH q s H) as [E|E]; rewrite E; auto.
Qed.

Lemma is_prefix_antisym (a b : list string) :
  is_prefix a b = true -> is_prefix b a = true -> a = b.
Proof.
  rewrite !is_prefix_iff. intros [s ->] [t H].
  rewrite <- app_assoc in H. rewrite <- (app_nil_r a) in H at 1.
  apply app_inv_head in H. symmetry in H. apply app_eq_nil in H as [-> _].
  now rewrite app_nil_r.
Qed.

Lemma is_prefix_app_l (a s : list string) : is_prefix a (a ++ s) = true.
Proof. apply is_prefix_iff. now exists s. Qed.

(* ===================================================================== *)
(** * A write below a location leaves the rest alone *)
(* ===================================================================== *)

Lemma untouched_refl (q : list string) (w : world) : untouched_outside q w w.
Proof. split; [reflexivity|]. intros a _. now split. Qed.

Lemma untouched_trans (q : list string) (a b c : world) :
  untouched_outside q a b -> untouched_outside q b c ->
  untouched_outside q a c.
Proof.
  intros [H1 H2] [H3 H4]. split; [congruence|]. intros x Hx.
  destruct (H2 x Hx) as [K1 L1]. destruct (H4 x Hx) as [K2 L2]. split.
  - congruence.
  - intros Hxq. rewrite (L2 Hxq). exact (L1 Hxq).
Qed.

Lemma set_at_untouched (q r : list string) (v : option node) (t : node) :
  is_prefix q r = true ->
  forall a, is_prefix q a = false ->
    kind_of (lookup (set_at r v t) a) = kind_of (lookup t a) /\
    (is_prefix a q = false -> lookup (set_at r v t) a = lookup t a).
Proof.
  intros Hqr a Hqa.
  assert (is_prefix r a = false) as E1.
  { destruct (is_prefix r a) eqn:E; [|reflexivity].
    now rewrite (is_prefix_trans q r a Hqr E) in Hqa. }
  destruct (is_prefix a r) eqn:E2.
  - split.
    + apply set_at_above; [exact E2|]. intros ->.
      now rewrite is_prefix_refl in E1.
    + intros Haq. exfalso. apply is_prefix_iff in Hqr as [s ->].
      destruct (is_prefix_comparable a q s E2); congruence.
  - rewrite (set_at_apart r v t a E1 E2). now split.
Qed.

(* ===================================================================== *)
(** * A write keeps the tree well formed *)
(* ===================================================================== *)

Lemma put_kid_In (x : string) (v : node) ks (k : string * node) :
  In k (put_kid x v ks) -> k = (x, v) \/ In k ks.
Proof.
  induction ks as [|[y n] ks IH]; simpl.
  - intros [<-|[]]. now left.
  - destruct (String.eqb x y).
    + intros [<-|H]; [now left|right; now right].
    + intros [<-|H]; [right; now left|].
      destruct (IH H) as [->|H']; [now left|right; now right].
Qed.

Lemma put_kid_names (x : string) (v : node) ks (y : string) :
  In y (map fst (put_kid x v ks)) -> y = x \/ In y (map fst ks).
Proof.
  intros H. apply in_map_iff in H as [k [<- Hk]].
  destruct (put_kid_In x v ks k Hk) as [->|H]; [now left|right].
  now apply in_map.
Qed.

Lemma put_kid_NoDup (x : string) (v : node) ks :
  NoDup (map fst ks) -> NoDup (map fst (put_kid x v ks)).
Proof.
  induction ks as [|[y n] ks IH]; simpl; intros H.
  - constructor; [intros []|constructor].
  - inversion H as [|? ? Hnin Hnd]; subst.
    destruct (String.eqb_spec x y) as [->|Hxy]; simpl.
    + now constructor.
    + constructor; [|now apply IH]. intros Hin.
      destruct (put_kid_names x v ks y Hin) as [E|E]; [congruence|contradiction].
Qed.

Lemma wfb_put_kid (x : string) (v : node) ks :
  wfb (Dir ks) = true -> wfb v = true -> x <> ".." ->
  wfb (Dir (put_kid x v ks)) = true.
Proof.
  rewrite !wfb_Dir. intros (Hnd & Hnames & Hall) Hv Hx. split; [|split].
  - now apply put_kid_NoDup.
  - apply forallb_forall. intros y Hy.
    destruct (put_kid_names x v ks y Hy) as [->|Hin].
    + unfold not_dotdot. apply negb_true_iff. now apply String.eqb_neq.
    + rewrite forallb_forall in Hnames. now apply Hnames.
  - apply Forall_forall. intros k Hk.
    destruct (put_kid_In x v ks k Hk) as [->|Hin]; [exact Hv|].
    rewrite Forall_forall in Hall. now apply Hall.
Qed.

Lemma wfb_del_kid (x : string) ks :
  wfb (Dir ks) = true -> wfb (Dir (del_kid x ks)) = true.
Proof.
  rewrite !wfb_Dir. intros (Hnd & Hnames & Hall). unfold del_kid.
  induction ks as [|[y n] ks IH]; simpl; [repeat split; constructor|].
  simpl in Hnd, Hnames. inversion Hnd as [|? ? Hnin Hnd']; subst.
  apply andb_true_iff in Hnames as [Hy Hnames].
  inversion Hall as [|? ? Hn Hall']; subst.
  destruct (IH Hnd' Hnames Hall') as (I1 & I2 & I3).
  destruct (negb (String.eqb x y)); simpl; [|now repeat split].
  split; [|split].
  - constructor; [|exact I1]. intros Hin. apply Hnin.
    apply in_map_iff in Hin as [k [<- Hk]]. apply filter_In in Hk as [Hk _].
    now apply in_map.
  - now rewrite Hy, I2.
  - now constructor.
Qed.

Lemma last_forallb (f : string -> bool) (l : list string) (d : string) :
  forallb f l = true -> f d = true -> f (last l d) = true.
Proof.
  intros Hl Hd. induction l as [|x l IH]; [exact Hd|].
  simpl in Hl. apply andb_true_iff in Hl as [Hx Hl].
  destruct l as [|y l]; [exact Hx|]. now apply IH.
Qed.

Lemma wfb_set_at (q : list string) :
  forall (t : node) (v : option node),
    wfb t = true ->
    (forall n, v = Some n -> wfb n = true /\ last q "" <> "..") ->
    wfb (set_at q v t) = true.
Proof.
  induction q as [|x r IH]; intros t v Ht Hv; [exact Ht|].
  destruct t as [d|ks]; [exact Ht|].
  destruct r as [|z r0].
  - change (set_at [x] v (Dir ks)) with (Dir (upd_kid x v ks)).
    destruct v as [n|]; simpl upd_kid.
    + destruct (Hv n eq_refl) as [Hn Hx]. now apply wfb_put_kid.
    + now apply wfb_del_kid.
  - change (set_at (x :: z :: r0) v (Dir ks))
      with (match find_kid x ks with
            | Some c => Dir (put_kid x (set_at (z :: r0) v c) ks)
            | None => Dir ks
            end).
    destruct (find_kid x ks) as [c|] eqn:Ec; [|exact Ht].
    destruct (wfb_kid _ _ _ Ht Ec) as [Hc Hx].
    apply wfb_put_kid; [exact Ht| |exact Hx].
    apply IH; [exact Hc|]. intros n Hn. exact (Hv n Hn).
Qed.

(* ===================================================================== *)
(** * Operations confined to the destination *)
(* ===================================================================== *)

Section Confine.

Variable db : Path.
Variable c0 : list string.

(** The location of the destination root. *)
Let q : list string := (if absolute db then [] else c0) ++ parts db.

Hypothesis Hdb : plain db = true.
Hypothesis Hq : forallb not_dotdot q = true.

(** What holds of the world all along: the working directory, a well-formed
    tree, and directories all the way to the destination root. *)
Let Inv (w : world) : Prop :=
  cwd w = c0 /\ wfb (root w) = true /\
  forall a, is_prefix a q = true -> a <> q -> kind_at w a = KDir.

(** An operation that keeps this and writes at or below the root only. *)
Let conf {X : Type} (m : M X) : Prop :=
  forall w r w', Inv w -> m w = (r, w') -> Inv w' /\ untouched_outside q w w'.

(** A path that spells the destination root and goes on from there, and a
    path that does so or stops on the way. *)
Let inside (p : Path) : Prop :=
  absolute p = absolute db /\ plain p = true /\
  is_prefix (parts db) (parts p) = true.

Let near (p : Path) : Prop :=
  absolute p = absolute db /\ plain p = true /\
  (is_prefix (parts db) (parts p) = true \/
   is_prefix (parts p) (parts db) = true).

Lemma inside_near (p : Path) : inside p -> near p.
Proof. intros (H1 & H2 & H3). split; [exact H1|]. split; [exact H2|now left]. Qed.

Lemma inside_below (p : Path) (rel : list string) :
  inside p -> forallb not_dotdot rel = true -> inside (below p rel).
Proof.
  intros (H1 & H2 & H3) Hrel. split; [exact H1|]. split.
  - unfold plain, below in *. cbn [parts]. now rewrite forallb_app, H2, Hrel.
  - unfold below. cbn [parts].
    exact (is_prefix_trans _ _ _ H3 (is_prefix_app_l (parts p) rel)).
Qed.

Lemma inside_db : inside db.
Proof. split; [reflexivity|]. split; [exact Hdb|apply is_prefix_refl]. Qed.

Lemma near_parent (abs : bool) (up : list string) (c : string) :
  near (mkPath abs (rev (c :: up))) -> near (mkPath abs (rev up)).
Proof.
  unfold near, plain. cbn [absolute parts rev].
  intros (H1 & H2 & H3). split; [exact H1|].
  rewrite forallb_app in H2. apply andb_true_iff in H2 as [H2 _].
  split; [exact H2|]. destruct H3 as [H3|H3].
  - destruct (is_prefix_comparable (parts db) (rev up) [c] H3); auto.
  - right. exact (is_prefix_trans _ _ _ (is_prefix_app_l (rev up) [c]) H3).
Qed.

Lemma plain_locate (w : world) (p : Path) (r : list string) :
  Inv w -> absolute p = absolute db -> plain p = true ->
  locate w p = At r ->
  r = (if absolute db then [] else c0) ++ parts p.
Proof.
  intros (Hc & _ & _) Ha Hp H. unfold locate in H. rewrite Ha, Hc in H.
  pose proof (walk_plain_lookup (root w) (parts p) Hp
                (if absolute db then [] else c0)) as Hw.
  now rewrite H in Hw.
Qed.

Lemma inside_locate (w : world) (p : Path) (r : list string) :
  Inv w -> inside p -> locate w p = At r ->
  is_prefix q r = true /\ forallb not_dotdot r = true.
Proof.
  intros HI (Ha & Hp & Hpre) H.
  rewrite (plain_locate w p r HI Ha Hp H).
  apply is_prefix_iff in Hpre as [s Hs]. rewrite Hs, app_assoc. fold q.
  split; [apply is_prefix_app_l|].
  rewrite forallb_app, Hq. unfold plain in Hp. rewrite Hs, forallb_app in Hp.
  now apply andb_true_iff in Hp as [_ ->].
Qed.

Lemma near_locate (w : world) (p : Path) (r : list string) :
  Inv w -> near p -> locate w p = At r ->
  (is_prefix q r = true /\ forallb not_dotdot r = true) \/ kind_at w r = KDir.
Proof.
  intros HI (Ha & Hp & [Hpre|Hpre]) H.
  - left. apply (inside_locate w p r HI); [|exact H]. now split.
  - rewrite (plain_locate w p r HI Ha Hp H).
    set (r0 := (if absolute db then [] else c0) ++ parts p).
    assert (is_prefix r0 q = true) as Hr0.
    { apply is_prefix_iff in Hpre as [s Hs]. apply is_prefix_iff. exists s.
      unfold r0, q. now rewrite Hs, app_assoc. }
    destruct (list_eq_dec string_dec r0 q) as [E|E].
    + left. rewrite E. split; [apply is_prefix_refl|exact Hq].
    + right. destruct HI as (_ & _ & HA). now apply HA.
Qed.

Lemma same_conf (w : world) : Inv w -> Inv w /\ untouched_outside q w w.
Proof. intros H. split; [exact H|apply untouched_refl]. Qed.

Lemma write_conf (w : world) (r : list string) (v : option node) :
  Inv w -> is_prefix q r = true -> forallb not_dotdot r = true ->
  (forall n, v = Some n -> wfb n = true) ->
  Inv (with_root w (set_at r v (root w))) /\
  untouched_outside q w (with_root w (set_at r v (root w))).
Proof.
  intros (Hc & Hwf & HA) Hqr Hr Hv.
  assert (untouched_outside q w (with_root w (set_at r v (root w)))) as Hu.
  { split; [reflexivity|]. intros a Ha. cbn [root with_root].
    now apply set_at_untouched. }
  split; [|exact Hu]. split; [exact Hc|]. split.
  - cbn [root with_root]. apply wfb_set_at; [exact Hwf|].
    intros n Hn. split; [exact (Hv n Hn)|].
    assert (not_dotdot (last r "") = true) as Hl
      by (apply last_forallb; [exact Hr|reflexivity]).
    unfold not_dotdot in Hl. apply negb_true_iff in Hl.
    now apply String.eqb_neq.
  - intros a Haq Hne. destruct Hu as [_ Hu].
    assert (is_prefix q a = false) as Hqa.
    { destruct (is_prefix q a) eqn:E; [|reflexivity].
      now rewrite (is_prefix_antisym a q Haq E) in Hne. }
    unfold kind_at. rewrite (proj1 (Hu a Hqa)). now apply HA.
Qed.

(** ** The monad *)

Lemma conf_ret {X} (x : X) : conf (ret x).
Proof. intros w r w' HI H. unfold ret in H. inversion H; subst. now apply same_conf. Qed.

Lemma conf_raise {X} (e : exn) : conf (@raise X e).
Proof. intros w r w' HI H. unfold raise in H. inversion H; subst. now apply same_conf. Qed.

Lemma conf_same {X} (m : M X) :
  (forall w r w', m w = (r, w') -> w' = w) -> conf m.
Proof. intros Hm w r w' HI H. apply Hm in H. subst. now apply same_conf. Qed.

Lemma conf_quiet {X} (m : M X) : quiet m -> conf m.
Proof.
  intros Hm w r w' HI H. destruct (Hm _ _ _ H) as [cs ->].
  exact (same_conf w HI).
Qed.

Lemma conf_bind {X Y} (m : M X) (k : X -> M Y) :
  conf m -> (forall a, conf (k a)) -> conf (bind m k).
Proof.
  intros Hm Hk w r w' HI H. unfold bind in H.
  destruct (m w) as [[a|e] w1] eqn:E.
  - destruct (Hm w _ w1 HI E) as [HI1 Hu1].
    destruct (Hk a w1 r w' HI1 H) as [HI2 Hu2].
    split; [exact HI2|exact (untouched_trans _ _ _ _ Hu1 Hu2)].
  - inversion H; subst. exact (Hm w _ w' HI E).
Qed.

Lemma conf_gets {X Y} (f : world -> X) (k : X -> M Y) :
  (forall w, Inv w -> forall r w', k (f w) w = (r, w') ->
                                   Inv w' /\ untouched_outside q w w') ->
  conf (bind (gets f) k).
Proof. intros Hk w r w' HI H. unfold bind, gets in H. exact (Hk w HI r w' H). Qed.

Lemma conf_rewrap {X} (m : M X) (mp mo : string) : conf m -> conf (rewrap m mp mo).
Proof.
  intros Hm w r w' HI H. unfold rewrap in H.
  destruct (m w) as [[a|e] w1] eqn:E.
  - inversion H; subst. exact (Hm w _ w' HI E).
  - assert (w' = w1) as ->.
    { destruct (is_PermissionError e); [now inversion H|].
      destruct (is_OSError e); now inversion H. }
    exact (Hm w _ w1 HI E).
Qed.

Lemma conf_swallow (m : M unit) : conf m -> conf (swallow_os m).
Proof.
  intros Hm w r w' HI H. unfold swallow_os in H.
  destruct (m w) as [[a|e] w1] eqn:E.
  - inversion H; subst. exact (Hm w _ w' HI E).
  - assert (w' = w1) as -> by (destruct (is_OSError e); now inversion H).
    exact (Hm w _ w1 HI E).
Qed.

Lemma conf_fold_m {X S} (body : X -> S -> M S) (l : list X) :
  (forall x, In x l -> forall s, conf (body x s)) ->
  forall s, conf (fold_m body l s).
Proof.
  induction l as [|x l IH]; intros Hb s.
  - apply conf_ret.
  - simpl. apply conf_bind; [apply Hb; now left|].
    intros s'. apply IH. intros y Hy. apply Hb. now right.
Qed.

(** ** The library calls *)

Lemma os_mkdir_conf (p : Path) : near p -> conf (os_mkdir p).
Proof.
  intros Hp w r w' HI H. unfold os_mkdir, walk_error, raise in H.
  destruct (locate w p) as [a| |] eqn:El;
    try (inversion H; subst; now apply same_conf).
  destruct (lookup (root w) a) as [c|] eqn:Ea;
    [inversion H; subst; now apply same_conf|].
  destruct (can_create w a); [|inversion H; subst; now apply same_conf].
  inversion H; subst.
  destruct (near_locate w p a HI Hp El) as [[H1 H2]|Hk].
  - apply write_conf; try assumption. intros n [= <-]. reflexivity.
  - unfold kind_at in Hk. rewrite Ea in Hk. discriminate Hk.
Qed.

Ltac end_of_call H :=
  match type of H with
  | context [if ?b then _ else _] => destruct b; inversion H; subst
  | _ => inversion H; subst
  end.

Lemma mkdir_parents_conf (abs : bool) (rparts : list string) :
  near (mkPath abs (rev rparts)) -> conf (mkdir_parents abs rparts).
Proof.
  induction rparts as [|c up IH]; intros Hp w r w' HI H.
  - simpl in H. destruct (os_mkdir _ w) as [r0 w1] eqn:E.
    pose proof (os_mkdir_conf _ Hp w r0 w1 HI E) as H1.
    destruct r0 as [u|e]; [end_of_call H; exact H1|].
    destruct e; end_of_call H; exact H1.
  - simpl in H.
    destruct (os_mkdir (mkPath abs (rev up ++ [c])) w) as [r0 w1] eqn:E.
    pose proof (os_mkdir_conf _ Hp w r0 w1 HI E) as H1.
    destruct r0 as [u|e]; [end_of_call H; exact H1|].
    destruct e; try (end_of_call H; exact H1).
    destruct H1 as [HI1 Hu1]. unfold bind in H.
    destruct (mkdir_parents abs up w1) as [[u|e] w2] eqn:E2.
    + destruct (IH (near_parent abs up c Hp) w1 _ w2 HI1 E2) as [HI2 Hu2].
      destruct (os_mkdir (mkPath abs (rev up ++ [c])) w2) as [r3 w3] eqn:E3.
      destruct (os_mkdir_conf _ Hp w2 r3 w3 HI2 E3) as [HI3 Hu3].
      assert (Inv w3 /\ untouched_outside q w w3) as H3.
      { split; [exact HI3|].
        exact (untouched_trans _ _ _ _ Hu1 (untouched_trans _ _ _ _ Hu2 Hu3)). }
      destruct r3 as [u3|e3]; [end_of_call H; exact H3|].
      destruct e3; end_of_call H; exact H3.
    + inversion H; subst.
      destruct (IH (near_parent abs up c Hp) w1 _ w' HI1 E2) as [HI2 Hu2].
      split; [exact HI2|exact (untouched_trans _ _ _ _ Hu1 Hu2)].
Qed.

Lemma near_rev (p : Path) : near p -> near (mkPath (absolute p) (rev (rev (parts p)))).
Proof. rewrite rev_involutive. now destruct p. Qed.

Lemma Path_mkdir_parents_conf (p : Path) : near p -> conf (Path_mkdir_parents p).
Proof. intros Hp. apply mkdir_parents_conf. now apply near_rev. Qed.

Lemma os_makedirs_conf (p : Path) : near p -> conf (os_makedirs p).
Proof.
  intros Hp. unfold os_makedirs.
  destruct (rev (parts p)) as [|c up] eqn:E; [now apply os_mkdir_conf|].
  apply conf_bind; [|intros _; now apply os_mkdir_conf].
  apply mkdir_parents_conf. apply (near_parent _ up c). rewrite <- E.
  now apply near_rev.
Qed.

Lemma os_chmod_conf (p : Path) (m : N) : conf (os_chmod p m).
Proof. apply conf_quiet, os_chmod_same. Qed.

Lemma shutil_rmtree_conf (p : Path) : inside p -> conf (shutil_rmtree p).
Proof.
  intros Hp w r w' HI H. unfold shutil_rmtree, walk_error, raise in H.
  destruct (locate w p) as [a| |] eqn:El;
    try (inversion H; subst; now apply same_conf).
  destruct (lookup (root w) a) as [[d|ks]|];
    try (inversion H; subst; now apply same_conf).
  destruct a as [|x a]; [inversion H; subst; now apply same_conf|].
  apply (f_equal snd) in H. cbn [snd] in H. subst w'.
  destruct (inside_locate w p _ HI Hp El) as [H1 H2].
  apply write_conf; try assumption. discriminate.
Qed.

Lemma Path_unlink_conf (p : Path) : inside p -> conf (Path_unlink p).
Proof.
  intros Hp w r w' HI H. unfold Path_unlink, walk_error, raise in H.
  destruct (locate w p) as [a| |] eqn:El;
    try (inversion H; subst; now apply same_conf).
  destruct (lookup (root w) a) as [[d|ks]|];
    try (inversion H; subst; now apply same_conf).
  inversion H; subst.
  destruct (inside_locate w p _ HI Hp El) as [H1 H2].
  apply write_conf; try assumption. discriminate.
Qed.

Lemma Path_rmdir_conf (p : Path) : inside p -> conf (Path_rmdir p).
Proof.
  intros Hp w r w' HI H. unfold Path_rmdir, walk_error, raise in H.
  destruct (locate w p) as [a| |] eqn:El;
    try (inversion H; subst; now apply same_conf).
  destruct (lookup (root w) a) as [[d|[|k ks]]|];
    try (inversion H; subst; now apply same_conf).
  destruct a as [|x a]; [inversion H; subst; now apply same_conf|].
  apply (f_equal snd) in H. cbn [snd] in H. subst w'.
  destruct (inside_locate w p _ HI Hp El) as [H1 H2].
  apply write_conf; try assumption. discriminate.
Qed.

Lemma Path_iterdir_conf (p : Path) : conf (Path_iterdir p).
Proof.
  apply conf_same. intros w r w' H.
  pose proof (iterdir_keeps_world p w) as Hk. rewrite H in Hk. exact Hk.
Qed.

Lemma shutil_copy2_conf (src dst : Path) :
  inside dst ->
  (forall w d, stat w src = Some (File d) -> inside (join dst (name src))) ->
  conf (shutil_copy2 src dst).
Proof.
  intros Hd Hj w r w' HI H. unfold shutil_copy2, walk_error, raise in H.
  destruct (samefile w src _); [inversion H; subst; now apply same_conf|].
  destruct (stat w src) as [[data|ks]|] eqn:Es;
    try (inversion H; subst; now apply same_conf).
  assert (inside (if is_dir w dst then join dst (name src) else dst)) as Ht.
  { destruct (is_dir w dst); [exact (Hj w data Es)|exact Hd]. }
  destruct (locate w _) as [a| |] eqn:El;
    try (inversion H; subst; now apply same_conf).
  destruct (inside_locate w _ a HI Ht El) as [H1 H2].
  destruct (lookup (root w) a) as [[d|ks]|];
    try (inversion H; subst; now apply same_conf).
  - inversion H; subst. apply write_conf; try assumption.
    intros n [= <-]. reflexivity.
  - destruct (can_create w a); [|inversion H; subst; now apply same_conf].
    inversion H; subst. apply write_conf; try assumption.
    intros n [= <-]. reflexivity.
Qed.

Lemma shutil_copytree_conf (src dst : Path) :
  inside dst -> conf (shutil_copytree src dst).
Proof.
  intros Hd w r w' HI H. unfold shutil_copytree, walk_error, raise in H.
  destruct (stat w src) as [[d|ks]|] eqn:Es;
    destruct (locate w src) as [qs| |] eqn:Els;
    try (inversion H; subst; now apply same_conf).
  assert (wfb (Dir ks) = true) as Hks.
  { unfold stat in Es. rewrite Els in Es.
    destruct HI as (_ & Hwf & _). exact (wfb_lookup _ _ _ Hwf Es). }
  destruct (os_makedirs dst w) as [[u|e] w1] eqn:Em.
  - destruct (os_makedirs_conf dst (inside_near dst Hd) w _ w1 HI Em)
      as [HI1 Hu1].
    destruct (locate w1 dst) as [qd| |] eqn:El;
      try (inversion H; subst; now split).
    destruct (_ && _); [inversion H; subst; now split|].
    apply (f_equal snd) in H. cbn [snd] in H. subst w'.
    destruct (inside_locate w1 dst qd HI1 Hd El) as [H1 H2].
    destruct (write_conf w1 qd (Some (Dir ks)) HI1 H1 H2) as [HI2 Hu2].
    { intros n [= <-]. exact Hks. }
    split; [exact HI2|exact (untouched_trans _ _ _ _ Hu1 Hu2)].
  - inversion H; subst.
    exact (os_makedirs_conf dst (inside_near dst Hd) w _ w' HI Em).
Qed.

(** ** The components of a path read from a string *)

Lemma split_slash_component (s c : string) :
  In c (split_slash s) ->
  split_slash c = [c] /\ starts_with_slash c = false.
Proof.
  revert c. induction s as [|ch s IH]; intros c H; simpl in H.
  - destruct H as [<-|[]]. now split.
  - destruct (Ascii.eqb ch slash) eqn:E.
    + destruct H as [<-|H]; [now split|now apply IH].
    + destruct (split_slash s) as [|x xs] eqn:Es.
      * destruct H as [<-|[]]. simpl. rewrite E. now split.
      * destruct H as [<-|H]; [|apply IH; now right].
        destruct (IH x (or_introl eq_refl)) as [Hx _].
        simpl. rewrite E, Hx. now split.
Qed.

Lemma Path_of_component (s c : string) :
  In c (parts (Path_of_string s)) -> Path_of_string c = mkPath false [c].
Proof.
  unfold Path_of_string. cbn [parts]. intros H.
  apply filter_In in H as [Hin Hk].
  destruct (split_slash_component s c Hin) as [-> ->].
  cbn [filter]. now rewrite Hk.
Qed.

Lemma last_In (l : list string) (d : string) : l <> [] -> In (last l d) l.
Proof.
  induction l as [|x l IH]; [congruence|]. intros _.
  destruct l as [|y l]; [now left|]. right. apply IH. discriminate.
Qed.

(** A path that ends in [..] names a directory, if anything. *)
Lemma file_name_plain (w : world) (p : Path) (d : string) :
  stat w p = Some (File d) -> name p <> "..".
Proof.
  unfold name. destruct (parts p) as [|x l] eqn:Ep; [discriminate|].
  intros Hs Hn.
  assert (x :: l <> []) as Hne by discriminate.
  rewrite (app_removelast_last "" Hne), Hn in Ep.
  unfold stat, locate in Hs. rewrite Ep, walk_app in Hs.
  destruct (walk (root w) _ (removelast (x :: l))) as [r0| |];
    try discriminate Hs.
  simpl in Hs. destruct (lookup (root w) r0) as [[d0|ks]|] eqn:E0;
    try discriminate Hs.
  destruct r0 as [|y r0] using rev_ind.
  - simpl in Hs, E0. congruence.
  - rewrite removelast_last in Hs.
    assert (kind_of (lookup (root w) r0) = KDir) as Hk.
    { apply (lookup_prefix_dir (root w) r0 [] y). congruence. }
    rewrite Hs in Hk. discriminate Hk.
Qed.

Lemma forallb_removelast (f : string -> bool) (l : list string) :
  forallb f l = true -> forallb f (removelast l) = true.
Proof.
  induction l as [|x l IH]; [reflexivity|]. intros H.
  simpl in H. apply andb_true_iff in H as [Hx Hl].
  destruct l as [|y l]; [reflexivity|].
  change (removelast (x :: y :: l)) with (x :: removelast (y :: l)).
  simpl forallb at 1. rewrite Hx. now apply IH.
Qed.

Lemma is_prefix_removelast (l : list string) : is_prefix (removelast l) l = true.
Proof.
  destruct l as [|x l] using rev_ind; [reflexivity|].
  rewrite removelast_last. apply is_prefix_app_l.
Qed.

(** ** The paths of one entry *)

Section Entry.

Variable swb e : string.
Hypothesis Hrel : absolute (Path_of_string e) = false.
Hypothesis Hplain : plain (Path_of_string e) = true.

Lemma dest_inside : inside (join db e).
Proof.
  rewrite (join_relative db e Hrel). apply inside_below; [apply inside_db|].
  exact Hplain.
Qed.

Lemma dest_parent_near : near (parent (join db e)).
Proof.
  rewrite (join_relative db e Hrel). unfold parent, below. cbn [absolute parts].
  split; [reflexivity|]. split.
  - unfold plain. cbn [parts]. apply forallb_removelast.
    rewrite forallb_app. unfold plain in Hdb, Hplain. now rewrite Hdb, Hplain.
  - cbn [parts]. destruct (parts (Path_of_string e)) as [|x l] eqn:E.
    + right. rewrite app_nil_r. apply is_prefix_removelast.
    + left. rewrite removelast_app by discriminate. apply is_prefix_app_l.
Qed.

Lemma dest_name_inside (w : world) (d : string) :
  stat w (join (Path_of_string swb) e) = Some (File d) ->
  inside (join (join db e) (name (join (Path_of_string swb) e))).
Proof.
  intros Hs. pose proof (file_name_plain _ _ _ Hs) as Hn.
  set (nm := name (join (Path_of_string swb) e)) in *.
  assert (Path_of_string nm = mkPath false []
          \/ Path_of_string nm = mkPath false [nm]) as Hnm.
  { unfold nm, name. rewrite (join_relative _ e Hrel). unfold below.
    cbn [parts].
    destruct (parts (Path_of_string swb) ++ parts (Path_of_string e))
      as [|x l] eqn:El; [now left|right].
    assert (In (last (x :: l) "") (x :: l)) as Hin
      by (apply last_In; discriminate).
    rewrite <- El in Hin at 2. apply in_app_iff in Hin as [Hin|Hin];
      exact (Path_of_component _ _ Hin). }
  unfold join at 1, joinpath.
  destruct Hnm as [-> | ->]; cbn [absolute parts].
  - apply (inside_below (join db e) []); [exact dest_inside|reflexivity].
  - apply (inside_below (join db e) [nm]); [exact dest_inside|].
    simpl. unfold not_dotdot. rewrite andb_true_r. apply negb_true_iff.
    now apply String.eqb_neq.
Qed.

End Entry.

(** ** The methods *)

Lemma conf_g {X} (f : world -> X) : conf (gets f).
Proof. apply conf_same. intros w r w' H. unfold gets in H. now inversion H. Qed.

Lemma create_directory_structure_conf (self : WSLSyncEngine) (fp : Path) :
  near (parent fp) -> conf (create_directory_structure self fp).
Proof.
  intros Hp. unfold create_directory_structure. apply conf_rewrap.
  apply conf_bind; [now apply Path_mkdir_parents_conf|]. intros _.
  destruct (wsl2_base (config self)) as [base|]; [|apply conf_ret].
  apply conf_quiet, chmod_parents_quiet.
Qed.

Lemma copy_entry_conf (self : WSLSyncEngine) (swb e : string) (acc : list Path) :
  absolute (Path_of_string e) = false -> plain (Path_of_string e) = true ->
  conf (copy_entry self (Path_of_string swb) db e acc).
Proof.
  intros Hrel Hplain. unfold copy_entry. cbv zeta.
  apply conf_bind; [apply conf_g|]. intros ex.
  destruct ex; cbn [negb]; [|apply conf_raise].
  apply conf_bind; [apply conf_g|]. intros isf. destruct isf.
  - apply conf_bind.
    { apply create_directory_structure_conf. now apply dest_parent_near. }
    intros _. apply conf_rewrap. apply conf_bind; [|intros _; apply conf_ret].
    apply shutil_copy2_conf; [now apply dest_inside|].
    intros w d Hs. exact (dest_name_inside swb e Hrel Hplain w d Hs).
  - apply conf_bind; [apply conf_g|]. intros isd.
    destruct isd; [|apply conf_ret]. apply conf_rewrap.
    apply conf_bind; [apply conf_g|]. intros dex. apply conf_bind.
    { destruct dex; [|apply conf_ret].
      apply shutil_rmtree_conf. now apply dest_inside. }
    intros _. apply conf_bind.
    { apply shutil_copytree_conf. now apply dest_inside. }
    intros _. apply conf_bind; [apply os_chmod_conf|]. intros _.
    apply conf_bind; [apply conf_g|]. intros found. apply conf_bind.
    { apply conf_quiet, chmod_dirs_same. }
    intros _. apply conf_bind; [apply conf_g|]. intros found'.
    apply conf_same. intros w r w' H. rewrite collect_files_run in H.
    now inversion H.
Qed.

Lemma copy_files_conf (self : WSLSyncEngine) (swb : string) :
  windows_base (config self) = Some (Path_of_string swb) ->
  wsl2_base (config self) = Some db ->
  (forall e, In e (files (config self)) ->
     absolute (Path_of_string e) = false /\ plain (Path_of_string e) = true) ->
  conf (copy_files self).
Proof.
  intros Hwb Hb He. unfold copy_files. rewrite Hwb, Hb.
  apply conf_fold_m. intros e Hin acc.
  destruct (He e Hin) as [H1 H2]. now apply copy_entry_conf.
Qed.

Lemma delete_unless_kept_conf (self : WSLSyncEngine) (keep : list Path)
  (fp : Path) (acc : list Path) :
  inside fp -> conf (delete_unless_kept self db keep fp acc).
Proof.
  intros Hp. unfold delete_unless_kept.
  destruct (Path_in fp keep); [apply conf_ret|].
  destruct (relative_to fp db); [|apply conf_raise].
  destruct (existsb _ _); [apply conf_ret|].
  apply conf_rewrap. apply conf_bind; [now apply Path_unlink_conf|].
  intros _. apply conf_ret.
Qed.

Lemma remove_if_empty_conf (item : Path) :
  inside item -> conf (remove_if_empty item).
Proof.
  intros Hp. unfold remove_if_empty.
  apply conf_bind; [apply conf_g|]. intros d. destruct d; [|apply conf_ret].
  apply conf_bind; [apply Path_iterdir_conf|]. intros l.
  destruct l; [|apply conf_ret]. apply conf_swallow. now apply Path_rmdir_conf.
Qed.

Lemma rglob_inside (w : world) (p : Path) :
  Inv w -> In p (Path_rglob w db) -> inside p.
Proof.
  intros (_ & Hwf & _) H.
  destruct (Path_rglob_plain w db p Hwf H) as (rel & _ & Hrel & ->).
  apply inside_below; [apply inside_db|exact Hrel].
Qed.

Lemma cleanup_destination_conf (self : WSLSyncEngine) (keep : list Path) :
  wsl2_base (config self) = Some db -> conf (cleanup_destination self keep).
Proof.
  intros Hb w r w' HI H. unfold cleanup_destination in H. rewrite Hb in H.
  unfold bind at 1 in H. destruct (exists_ w db) eqn:Hex.
  - rewrite (get_destination_files_run self db w Hb Hex) in H.
    revert H. apply (conf_bind _ _); [| |exact HI].
    + apply conf_fold_m. intros fp Hin acc. apply delete_unless_kept_conf.
      unfold files_below in Hin. apply filter_In in Hin as [Hin _].
      exact (rglob_inside w fp HI Hin).
    + intros deleted. apply conf_gets. intros w2 HI2 r2 w2'.
      apply (conf_bind _ _); [| |exact HI2].
      * unfold for_each. apply conf_fold_m. intros item Hin [].
        apply remove_if_empty_conf. exact (rglob_inside w2 item HI2 Hin).
      * intros _. apply conf_ret.
  - unfold get_destination_files in H. rewrite Hb in H.
    unfold bind, gets in H. rewrite Hex in H. cbn [negb] in H.
    unfold raise in H. inversion H; subst. now apply same_conf.
Qed.

Lemma sync_conf (self : WSLSyncEngine) (swb : string) :
  windows_base (config self) = Some (Path_of_string swb) ->
  wsl2_base (config self) = Some db ->
  (forall e, In e (files (config self)) ->
     absolute (Path_of_string e) = false /\ plain (Path_of_string e) = true) ->
  conf (sync self).
Proof.
  intros Hwb Hb He. unfold sync. apply conf_bind.
  { apply conf_same. intros w r w' H.
    pose proof (validate_paths_keeps_world self w) as Hk.
    rewrite H in Hk. exact Hk. }
  intros _. apply conf_bind; [now apply (copy_files_conf self swb)|].
  intros copied. cbv zeta. apply conf_bind.
  { now apply cleanup_destination_conf. }
  intros _. apply conf_ret.
Qed.

End Confine.

(** X9. [sync] writes at and below the destination root only.  When the
    source root was read from a string, the destination root has no [..],
    and no entry is absolute or has a [..], then whatever [sync] returns or
    raises, the working directory is the same, every location that is
    neither below the destination root nor on the way to it holds what it
    held, and every location on the way holds the same kind of node; so a
    regular file outside the destination keeps its content. *)
Theorem sync_confined_to_destination
  (self : WSLSyncEngine) (swb : string) (db : Path) (w : world) :
  windows_base (config self) = Some (Path_of_string swb) ->
  wsl2_base (config self) = Some db ->
  plain db = true ->
  (forall e, In e (files (config self)) ->
     absolute (Path_of_string e) = false /\ plain (Path_of_string e) = true) ->
  wfb (root w) = true ->
  forall r w', sync self w = (r, w') ->
    untouched_outside (loc w db) w w' /\
    (forall p d, plain p = true -> is_prefix (loc w db) (loc w p) = false ->
       stat w p = Some (File d) -> stat w' p = Some (File d)).
Proof.
  intros Hwb Hb Hdb He Hwf r w' H.
  destruct (exists_ w db) eqn:Hex.
  - assert (exists c, lookup (root w) (loc w db) = Some c) as [c Eq].
    { rewrite <- (stat_plain w db Hdb). unfold exists_ in Hex.
      destruct (stat w db) as [c|]; [now exists c|discriminate Hex]. }
    assert (forall a, is_prefix a (loc w db) = true -> a <> loc w db ->
                      kind_at w a = KDir) as HA.
    { intros a Ha Hne. apply is_prefix_iff in Ha as [s Hs].
      destruct s as [|x s]; [rewrite app_nil_r in Hs; congruence|].
      unfold kind_at. apply (lookup_prefix_dir (root w) a s x). congruence. }
    destruct (sync_conf db (cwd w) Hdb (lookup_not_dotdot _ _ _ Hwf Eq)
                self swb Hwb Hb He w r w') as [_ Hu].
    { split; [reflexivity|]. split; [exact Hwf|exact HA]. }
    { exact H. }
    split; [exact Hu|]. intros p d Hp Hout Hs.
    rewrite (stat_plain w p Hp) in Hs. rewrite (stat_plain w' p Hp).
    destruct Hu as [Hc Hu].
    assert (loc w' p = loc w p) as -> by (unfold loc; now rewrite Hc).
    destruct (Hu _ Hout) as [_ Hsame].
    destruct (is_prefix (loc w p) (loc w db)) eqn:E.
    + exfalso. apply is_prefix_iff in E as [s Es].
      destruct s as [|x s].
      * rewrite app_nil_r in Es. rewrite Es, is_prefix_refl in Hout.
        discriminate Hout.
      * assert (kind_of (lookup (root w) (loc w p)) = KDir) as Hk
          by (apply (lookup_prefix_dir (root w) _ s x); congruence).
        rewrite Hs in Hk. discriminate Hk.
    + rewrite (Hsame E). exact Hs.
  - assert (w' = w) as ->.
    { unfold sync, validate_paths in H. rewrite Hwb, Hb in H.
      unfold bind, gets, raise in H.
      destruct (exists_ w (Path_of_string swb)); cbn [negb] in H;
        [|now inversion H].
      rewrite Hex in H. cbn [negb] in H. now inversion H. }
    split; [apply untouched_refl|]. intros p d _ _ Hs. exact Hs.
Qed.

Lemma sync_spec_scenario_confined :
  untouched_outside ["dst"] world_spec (snd (sync engine_spec world_spec)) /\
  (forall p d, plain p = true ->
     is_prefix ["dst"] (loc world_spec p) = false ->
     stat world_spec p = Some (File d) ->
     stat (snd (sync engine_spec world_spec)) p = Some (File d)).
Proof.
  refine (sync_confined_to_destination engine_spec "/src" (P "/dst") world_spec
            eq_refl eq_refl eq_refl _ eq_refl
            (fst (sync engine_spec world_spec)) _ _).
  - intros e [<-|[<-|[]]]; split; reflexivity.
  - now destruct (sync engine_spec world_spec).
Defined.

End ConfineProps.

Module KeepSetProps.

Import PrefixProps PathSafety TreeProps WfProps WalkProps RemoveProps GrowProps.
Import CopyProps ListingProps ConfineProps.

(* ===================================================================== *)
(** * A followed path leads to a location without [..] *)
(* ===================================================================== *)

Lemma walk_keeps_plain (t : node) (cs : list string) :
  forall acc r,
    forallb not_dotdot acc = true -> walk t acc cs = At r ->
    forallb not_dotdot r = true.
Proof.
  induction cs as [|c cs IH]; intros acc r Ha H; simpl in H.
  - now inversion H; subst.
  - destruct (lookup t acc) as [[d|ks]|]; try discriminate H.
    destruct (String.eqb c "..") eqn:E.
    + apply (IH (removelast acc)); [now apply forallb_removelast|exact H].
    + apply (IH (acc ++ [c])); [|exact H]. rewrite forallb_app, Ha. simpl.
      unfold not_dotdot. now rewrite E.
Qed.

Lemma locate_keeps_plain (w : world) (p : Path) (r : list string) :
  forallb not_dotdot (cwd w) = true -> locate w p = At r ->
  forallb not_dotdot r = true.
Proof.
  intros Hc H. unfold locate in H.
  apply (walk_keeps_plain _ _ _ _) in H; [exact H|].
  destruct (absolute p); [reflexivity|exact Hc].
Qed.

(* ===================================================================== *)
(** * The calls keep the tree well formed *)
(* ===================================================================== *)

Section Sound.

(** A file system as it can be: no name is [..], in the tree or in the
    working directory. *)
Let ok (w : world) : Prop :=
  wfb (root w) = true /\ forallb not_dotdot (cwd w) = true.

Let sound {X : Type} (m : M X) : Prop :=
  forall w r w', ok w -> m w = (r, w') -> ok w'.

Lemma sound_same {X} (m : M X) :
  (forall w r w', m w = (r, w') -> w' = w) -> sound m.
Proof. intros Hm w r w' Hok H. apply Hm in H. now subst. Qed.

Lemma sound_quiet {X} (m : M X) : quiet m -> sound m.
Proof. intros Hm w r w' Hok H. now destruct (Hm _ _ _ H) as [cs ->]. Qed.

Lemma sound_ret {X} (x : X) : sound (ret x).
Proof. apply sound_same. intros w r w' H. unfold ret in H. now inversion H. Qed.

Lemma sound_raise {X} (e : exn) : sound (@raise X e).
Proof. apply sound_same. intros w r w' H. unfold raise in H. now inversion H. Qed.

Lemma sound_gets {X} (f : world -> X) : sound (gets f).
Proof. apply sound_same. intros w r w' H. unfold gets in H. now inversion H. Qed.

Lemma sound_bind {X Y} (m : M X) (k : X -> M Y) :
  sound m -> (forall a, sound (k a)) -> sound (bind m k).
Proof.
  intros Hm Hk w r w' Hok H. unfold bind in H.
  destruct (m w) as [[a|e] w1] eqn:E.
  - exact (Hk a w1 r w' (Hm w _ w1 Hok E) H).
  - inversion H; subst. exact (Hm w _ w' Hok E).
Qed.

Lemma sound_rewrap {X} (m : M X) (mp mo : string) :
  sound m -> sound (rewrap m mp mo).
Proof.
  intros Hm w r w' Hok H. unfold rewrap in H.
  destruct (m w) as [[a|e] w1] eqn:E.
  - inversion H; subst. exact (Hm w _ w' Hok E).
  - assert (w' = w1) as ->.
    { destruct (is_PermissionError e); [now inversion H|].
      destruct (is_OSError e); now inversion H. }
    exact (Hm w _ w1 Hok E).
Qed.

Lemma sound_fold_m {X S} (body : X -> S -> M S) (l : list X) :
  (forall x s, sound (body x s)) -> forall s, sound (fold_m body l s).
Proof.
  intros Hb. induction l as [|x l IH]; intros s; simpl.
  - apply sound_ret.
  - apply sound_bind; [apply Hb|exact IH].
Qed.

(** A write at a location that a path leads to. *)
Lemma write_sound (w : world) (p : Path) (r : list string) (v : option node) :
  ok w -> locate w p = At r -> (forall n, v = Some n -> wfb n = true) ->
  ok (with_root w (set_at r v (root w))).
Proof.
  intros [Hwf Hc] Hr Hv. split; [|exact Hc]. cbn [root with_root].
  apply wfb_set_at; [exact Hwf|]. intros n Hn. split; [exact (Hv n Hn)|].
  pose proof (locate_keeps_plain w p r Hc Hr) as Hpl.
  assert (not_dotdot (last r "") = true) as Hl
    by (apply last_forallb; [exact Hpl|reflexivity]).
  unfold not_dotdot in Hl. apply negb_true_iff in Hl.
  now apply String.eqb_neq.
Qed.

Lemma os_mkdir_sound (p : Path) : sound (os_mkdir p).
Proof.
  intros w r w' Hok H. unfold os_mkdir, walk_error, raise in H.
  destruct (locate w p) as [a| |] eqn:El; try (now inversion H; subst).
  destruct (lookup (root w) a) as [c|]; [now inversion H; subst|].
  destruct (can_create w a); [|now inversion H; subst].
  inversion H; subst. apply (write_sound w p a _ Hok El).
  intros n [= <-]. reflexivity.
Qed.

Ltac close_call H :=
  match type of H with
  | context [if ?b then _ else _] => destruct b; inversion H; subst
  | _ => inversion H; subst
  end.

Lemma mkdir_parents_sound (abs : bool) (rparts : list string) :
  sound (mkdir_parents abs rparts).
Proof.
  induction rparts as [|c up IH]; intros w r w' Hok H.
  - simpl in H. destruct (os_mkdir _ w) as [r0 w1] eqn:E.
    pose proof (os_mkdir_sound _ w r0 w1 Hok E) as H1.
    destruct r0 as [u|e]; [close_call H; exact H1|].
    destruct e; close_call H; exact H1.
  - simpl in H.
    destruct (os_mkdir (mkPath abs (rev up ++ [c])) w) as [r0 w1] eqn:E.
    pose proof (os_mkdir_sound _ w r0 w1 Hok E) as H1.
    destruct r0 as [u|e]; [close_call H; exact H1|].
    destruct e; try (close_call H; exact H1).
    unfold bind in H.
    destruct (mkdir_parents abs up w1) as [[u|e] w2] eqn:E2.
    + pose proof (IH w1 _ w2 H1 E2) as H2.
      destruct (os_mkdir (mkPath abs (rev up ++ [c])) w2) as [r3 w3] eqn:E3.
      pose proof (os_mkdir_sound _ w2 r3 w3 H2 E3) as H3.
      destruct r3 as [u3|e3]; [close_call H; exact H3|].
      destruct e3; close_call H; exact H3.
    + inversion H; subst. exact (IH w1 _ w' H1 E2).
Qed.

Lemma os_makedirs_sound (p : Path) : sound (os_makedirs p).
Proof.
  unfold os_makedirs. destruct (rev (parts p)) as [|c up];
    [apply os_mkdir_sound|].
  apply sound_bind; [apply mkdir_parents_sound|intros _; apply os_mkdir_sound].
Qed.

Lemma shutil_copy2_sound (src dst : Path) : sound (shutil_copy2 src dst).
Proof.
  intros w r w' Hok H. unfold shutil_copy2, walk_error, raise in H.
  destruct (samefile w src _); [now inversion H; subst|].
  destruct (stat w src) as [[data|ks]|]; try (now inversion H; subst).
  destruct (locate w _) as [a| |] eqn:El; try (now inversion H; subst).
  destruct (lookup (root w) a) as [[d|ks]|]; try (now inversion H; subst).
  - inversion H; subst. apply (write_sound w _ a _ Hok El).
    intros n [= <-]. reflexivity.
  - destruct (can_create w a); [|now inversion H; subst].
    inversion H; subst. apply (write_sound w _ a _ Hok El).
    intros n [= <-]. reflexivity.
Qed.

Lemma shutil_rmtree_sound (p : Path) : sound (shutil_rmtree p).
Proof.
  intros w r w' Hok H. unfold shutil_rmtree, walk_error, raise in H.
  destruct (locate w p) as [a| |] eqn:El; try (now inversion H; subst).
  destruct (lookup (root w) a) as [[d|ks]|]; try (now inversion H; subst).
  destruct a as [|x a]; [now inversion H; subst|].
  apply (f_equal snd) in H. cbn [snd] in H. subst w'.
  apply (write_sound w p _ None Hok El). discriminate.
Qed.

Lemma shutil_copytree_sound (src dst : Path) : sound (shutil_copytree src dst).
Proof.
  intros w r w' Hok H. unfold shutil_copytree, walk_error, raise in H.
  destruct (stat w src) as [[d|ks]|] eqn:Es;
    destruct (locate w src) as [qs| |] eqn:Els;
    try (now inversion H; subst).
  assert (wfb (Dir ks) = true) as Hks.
  { unfold stat in Es. rewrite Els in Es.
    exact (wfb_lookup _ _ _ (proj1 Hok) Es). }
  destruct (os_makedirs dst w) as [[u|e] w1] eqn:Em.
  - pose proof (os_makedirs_sound dst w _ w1 Hok Em) as H1.
    destruct (locate w1 dst) as [qd| |] eqn:El; try (now inversion H; subst).
    destruct (_ && _); [now inversion H; subst|].
    inversion H; subst. apply (write_sound w1 dst qd _ H1 El).
    intros n [= <-]. exact Hks.
  - inversion H; subst. exact (os_makedirs_sound dst w _ w' Hok Em).
Qed.

Lemma create_directory_structure_sound (self : WSLSyncEngine) (fp : Path) :
  sound (create_directory_structure self fp).
Proof.
  unfold create_directory_structure. apply sound_rewrap.
  apply sound_bind; [apply mkdir_parents_sound|]. intros _.
  destruct (wsl2_base (config self)) as [base|]; [|apply sound_ret].
  apply sound_quiet, chmod_parents_quiet.
Qed.

Lemma copy_entry_sound (self : WSLSyncEngine) (wb db : Path) (e : string)
  (acc : list Path) :
  sound (copy_entry self wb db e acc).
Proof.
  unfold copy_entry. cbv zeta.
  apply sound_bind; [apply sound_gets|]. intros ex.
  destruct ex; cbn [negb]; [|apply sound_raise].
  apply sound_bind; [apply sound_gets|]. intros isf. destruct isf.
  - apply sound_bind; [apply create_directory_structure_sound|].
    intros _. apply sound_rewrap.
    apply sound_bind; [apply shutil_copy2_sound|intros _; apply sound_ret].
  - apply sound_bind; [apply sound_gets|]. intros isd.
    destruct isd; [|apply sound_ret]. apply sound_rewrap.
    apply sound_bind; [apply sound_gets|]. intros dex. apply sound_bind.
    { destruct dex; [apply shutil_rmtree_sound|apply sound_ret]. }
    intros _. apply sound_bind; [apply shutil_copytree_sound|].
    intros _. apply sound_bind; [apply sound_quiet, os_chmod_same|]. intros _.
    apply sound_bind; [apply sound_gets|]. intros found. apply sound_bind.
    { apply sound_quiet, chmod_dirs_same. }
    intros _. apply sound_bind; [apply sound_gets|]. intros found'.
    apply sound_same. intros w r w' H. rewrite collect_files_run in H.
    now inversion H.
Qed.

End Sound.

(* ===================================================================== *)
(** * What each entry adds to the list *)
(* ===================================================================== *)

Section Adds.

Variable self : WSLSyncEngine.
Variables wb db : Path.

Let ok (w : world) : Prop :=
  wfb (root w) = true /\ forallb not_dotdot (cwd w) = true.

(** The root followed by components: a path of the destination. *)
Let rooted_at (p : Path) (rel : list string) : Prop :=
  rel <> [] /\ forallb not_dotdot rel = true /\ p = below db rel.

(** What the turn of the entry [e], from the world [w1] to the world [w2],
    adds to the list: for a regular file of the source, the mapped path;
    for a directory, the regular files that [rglob] finds below the mapped
    path once the directory is copied. *)
Let adds (e : string) (acc : list Path) (w1 : world) (l2 : list Path)
  (w2 : world) (p : Path) : Prop :=
  (is_file w1 (join wb e) = true /\ l2 = acc ++ [join db e] /\ p = join db e)
  \/
  (is_dir w1 (join wb e) = true /\ l2 = acc ++ files_below w2 (join db e) /\
   In p (files_below w2 (join db e)) /\ is_file w2 p = true /\
   strictly_under (join db e) p).

Lemma below_twice (p : Path) (a b : list string) :
  below (below p a) b = below p (a ++ b).
Proof. unfold below. cbn [absolute parts]. now rewrite app_assoc. Qed.

Lemma copy_entry_adds (e : string) (acc l : list Path) (w w' : world) :
  is_dir w wb = true -> ok w -> plain (Path_of_string e) = true ->
  copy_entry self wb db e acc w = (Ok l, w') ->
  exists new,
    l = acc ++ new /\
    forall p, In p new ->
      adds e acc w l w' p /\ exists rel, rooted_at p rel.
Proof.
  intros Hroot Hok Hpl H.
  pose proof (copy_entry_sound self wb db e acc w _ w' Hok H) as [Hwf' _].
  unfold copy_entry in H.
  apply bind_ok in H as (ex & w1 & Hex & H).
  apply gets_ok in Hex as [-> ->].
  destruct (exists_ w (join wb e)) eqn:Eex; [|discriminate H]. cbn [negb] in H.
  apply bind_ok in H as (isf & w1 & Hisf & H).
  apply gets_ok in Hisf as [-> ->].
  destruct (is_file w (join wb e)) eqn:Efile.
  - (* a file *)
    apply bind_ok in H as (u & w2 & Hmk & H). destruct u.
    apply rewrap_ok in H. apply bind_ok in H as (u & w3 & Hcp & H).
    destruct u. apply ret_ok in H as [-> ->].
    exists [join db e]. split; [reflexivity|].
    intros p [<-|[]]. split; [left; now repeat split|].
    destruct (absolute (Path_of_string e)) eqn:Eabs.
    + exfalso. rewrite (join_absolute wb e Eabs), (join_absolute db e Eabs) in Hcp.
      exact (shutil_copy2_same _ _ _ Hcp).
    + exists (parts (Path_of_string e)). split; [|split].
      * intros Enil. rewrite (join_relative wb e Eabs), Enil, below_nil in Efile.
        exact (file_not_dir w wb Efile Hroot).
      * exact Hpl.
      * exact (join_relative db e Eabs).
  - apply bind_ok in H as (isd & w1 & Hisd & H).
    apply gets_ok in Hisd as [-> ->].
    destruct (is_dir w (join wb e)) eqn:Edir.
    + (* a directory *)
      apply rewrap_ok in H.
      apply bind_ok in H as (dex & w1 & Hdex & H).
      apply gets_ok in Hdex as [-> ->].
      apply bind_ok in H as (u & w2 & Hrm & H). destruct u.
      apply bind_ok in H as (u & w3 & Hct & H). destruct u.
      apply shutil_copytree_ok in Hct as [Hsrc Hg].
      apply bind_ok in H as (u & w4 & Hch & H). destruct u.
      apply os_chmod_same in Hch as [cs1 ->].
      apply bind_ok in H as (found & w4 & Hf & H).
      apply gets_ok in Hf as [-> ->].
      apply bind_ok in H as (u & w4 & Hch & H). destruct u.
      apply chmod_dirs_same in Hch as [cs2 ->].
      apply bind_ok in H as (found & w4 & Hf & H).
      apply gets_ok in Hf as [-> ->].
      rewrite collect_files_run in H. inversion H; subst l w'. clear H.
      destruct (absolute (Path_of_string e)) eqn:Eabs.
      * exfalso. rewrite (join_absolute wb e Eabs) in *.
        rewrite (join_absolute db e Eabs) in *. rewrite Eex in Hrm.
        apply shutil_rmtree_gone in Hrm.
        unfold is_dir in Hsrc. now rewrite Hrm in Hsrc.
      * eexists. split; [reflexivity|].
        intros p Hp. pose proof Hp as Hp0.
        apply filter_In in Hp as [Hp Hfile].
        apply (Path_rglob_plain _ _ _ Hwf') in Hp as (s & Hs & Hspl & ->).
        split.
        -- right. split; [exact Edir|]. split; [reflexivity|].
           split; [exact Hp0|]. split; [exact Hfile|].
           now apply strictly_under_below.
        -- exists (parts (Path_of_string e) ++ s). split; [|split].
           ++ intros E. apply app_eq_nil in E as [_ E]. contradiction.
           ++ rewrite forallb_app. unfold plain in Hpl. now rewrite Hpl, Hspl.
           ++ now rewrite (join_relative db e Eabs), below_twice.
    + exfalso. unfold exists_, is_file, is_dir in *.
      destruct (kind_of (stat w (join wb e))); discriminate.
Qed.

(** The loop of [copy_files]: every path of the list was there before or
    is added by the turn of one entry. *)
Lemma copy_loop_adds (es : list string) :
  forall (acc l : list Path) (w w' : world),
    is_dir w wb = true -> ok w ->
    (forall e, In e es -> plain (Path_of_string e) = true) ->
    fold_m (copy_entry self wb db) es acc w = (Ok l, w') ->
    forall p, In p l ->
      In p acc \/
      ((exists rel, rooted_at p rel) /\
       exists pre e post acc1 w1 l2 w2,
         es = pre ++ e :: post /\
         fold_m (copy_entry self wb db) pre acc w = (Ok acc1, w1) /\
         copy_entry self wb db e acc1 w1 = (Ok l2, w2) /\
         adds e acc1 w1 l2 w2 p).
Proof.
  induction es as [|e es IH]; intros acc l w w' Hroot Hok Hpl H p Hp.
  - apply ret_ok in H as [-> ->]. now left.
  - rewrite fold_m_cons in H.
    destruct (copy_entry self wb db e acc w) as [[l1|x] w1] eqn:E;
      [|discriminate H].
    destruct (copy_entry_step self wb db e acc l1 w w1 Hroot E) as [Hroot1 _].
    pose proof (copy_entry_sound self wb db e acc w _ w1 Hok E) as Hok1.
    destruct (copy_entry_adds e acc l1 w w1 Hroot Hok
                (Hpl e (or_introl eq_refl)) E) as (new & -> & Hnew).
    destruct (IH (acc ++ new) l w1 w' Hroot1 Hok1
                (fun e' He' => Hpl e' (or_intror He')) H p Hp)
      as [Hin|(Hrel & pre & e' & post & acc1 & w2 & l2 & w3 & -> & Hpre & He' & Ha)].
    + apply in_app_iff in Hin as [Hin|Hin]; [now left|]. right.
      destruct (Hnew p Hin) as [Ha Hrel]. split; [exact Hrel|].
      exists [], e, es, acc, w, (acc ++ new), w1.
      split; [reflexivity|]. split; [reflexivity|]. split; [exact E|exact Ha].
    + right. split; [exact Hrel|].
      exists (e :: pre), e', post, acc1, w2, l2, w3.
      split; [reflexivity|]. split; [|split; [exact He'|exact Ha]].
      rewrite fold_m_cons, E. exact Hpre.
Qed.

End Adds.

(** C9, as it holds.  When the source root is a directory, as it is in
    [sync] once [validate_paths] has succeeded, and no entry has a
    component [..], every path in the list that [copy_files] returns (the
    keep set of the cleanup) is the destination root followed by at least
    one component, none of them [..]: it lies strictly below the
    destination root, and in any state of the file system it leads to what
    is at these components below the place of the root.  Each path is added
    by the turn of one entry: a regular file of the source adds its mapped
    path; a directory adds the paths that [rglob] finds below its mapped
    path once the directory is copied and that are regular files then. *)
Theorem copy_files_under_destination
  (self : WSLSyncEngine) (wb db : Path) (w w' : world) (l : list Path) :
  windows_base (config self) = Some wb ->
  wsl2_base (config self) = Some db ->
  is_dir w wb = true \/ fst (validate_paths self w) = Ok true ->
  (forall e, In e (files (config self)) -> plain (Path_of_string e) = true) ->
  wfb (root w) = true -> forallb not_dotdot (cwd w) = true ->
  copy_files self w = (Ok l, w') ->
  forall p, In p l ->
    strictly_under db p /\
    (exists rel,
       rel <> [] /\ forallb not_dotdot rel = true /\ p = below db rel /\
       forall v q, locate v db = At q -> stat v p = lookup (root v) (q ++ rel)) /\
    exists pre e post acc w1 l2 w2,
      files (config self) = pre ++ e :: post /\
      fold_m (copy_entry self wb db) pre [] w = (Ok acc, w1) /\
      copy_entry self wb db e acc w1 = (Ok l2, w2) /\
      ((is_file w1 (join wb e) = true /\ l2 = acc ++ [join db e] /\
        p = join db e)
       \/
       (is_dir w1 (join wb e) = true /\
        l2 = acc ++ files_below w2 (join db e) /\
        In p (files_below w2 (join db e)) /\ is_file w2 p = true /\
        strictly_under (join db e) p)).
Proof.
  intros Hwb Hdb Hroot Hpl Hwf Hcwd H p Hp.
  assert (is_dir w wb = true) as Hdir.
  { destruct Hroot as [Hd|Hv]; [exact Hd|].
    exact (validate_paths_source_is_dir self wb w Hwb Hv). }
  unfold copy_files in H. rewrite Hwb, Hdb in H.
  destruct (copy_loop_adds self wb db (files (config self)) [] l w w' Hdir
              (conj Hwf Hcwd) Hpl H p Hp)
    as [[]|((rel & Hne & Hrel & ->) & Hadds)].
  split; [now apply strictly_under_below|]. split; [|exact Hadds].
  exists rel. split; [exact Hne|]. split; [exact Hrel|].
  split; [reflexivity|]. intros v q Hq. exact (stat_below v db q rel Hq Hrel).
Qed.

(** The claim as the specification words it fails in two ways.  When the
    source root is a regular file and an entry names the root itself, the
    list holds the destination root.  When an entry climbs with [..], the
    path of the list spells the destination root and leads out of it: the
    file is written beside the root. *)
Lemma copy_files_leaves_the_root :
  (fst (copy_files engine_root_is_file world_root_is_file) = Ok [P "/dst"] /\
   ~ strictly_under (P "/dst") (P "/dst")) /\
  (fst (copy_files engine_dotdot world_dotdot)
   = Ok [join (P "/b/dst") "../secret.txt"] /\
   strictly_under (P "/b/dst") (join (P "/b/dst") "../secret.txt") /\
   locate (snd (copy_files engine_dotdot world_dotdot))
          (join (P "/b/dst") "../secret.txt") = At ["b"; "secret.txt"] /\
   locate (snd (copy_files engine_dotdot world_dotdot)) (P "/b/dst")
   = At ["b"; "dst"] /\
   stat world_dotdot (join (P "/b/dst") "../secret.txt") = None /\
   stat (snd (copy_files engine_dotdot world_dotdot))
        (join (P "/b/dst") "../secret.txt") = Some (File "S") /\
   is_prefix ["b"; "dst"] ["b"; "secret.txt"] = false).
Proof.
  split.
  - split; [reflexivity|].
    intros [_ (rel & Hne & H)]. simpl in H.
    destruct rel; [congruence|discriminate H].
  - split; [reflexivity|]. split.
    + split; [reflexivity|]. exists [".."; "secret.txt"].
      split; [discriminate|reflexivity].
    + repeat split; reflexivity.
Qed.

Lemma copy_files_spec_scenario :
  strictly_under (P "/dst") (P "/dst/sub/b.txt") /\
  (exists rel,
     rel <> [] /\ forallb not_dotdot rel = true /\
     P "/dst/sub/b.txt" = below (P "/dst") rel /\
     forall v q, locate v (P "/dst") = At q ->
                 stat v (P "/dst/sub/b.txt") = lookup (root v) (q ++ rel)) /\
  exists pre e post acc w1 l2 w2,
    files (config engine_spec) = pre ++ e :: post /\
    fold_m (copy_entry engine_spec (P "/src") (P "/dst")) pre [] world_spec
    = (Ok acc, w1) /\
    copy_entry engine_spec (P "/src") (P "/dst") e acc w1 = (Ok l2, w2) /\
    ((is_file w1 (join (P "/src") e) = true /\
      l2 = acc ++ [join (P "/dst") e] /\
      P "/dst/sub/b.txt" = join (P "/dst") e)
     \/
     (is_dir w1 (join (P "/src") e) = true /\
      l2 = acc ++ files_below w2 (join (P "/dst") e) /\
      In (P "/dst/sub/b.txt") (files_below w2 (join (P "/dst") e)) /\
      is_file w2 (P "/dst/sub/b.txt") = true /\
      strictly_under (join (P "/dst") e) (P "/dst/sub/b.txt"))).
Proof.
  refine (copy_files_under_destination engine_spec (P "/src") (P "/dst")
            world_spec (snd (copy_files engine_spec world_spec))
            [P "/dst/a.txt"; P "/dst/sub/b.txt"; P "/dst/sub/c.txt"]
            eq_refl eq_refl (or_introl eq_refl) _ eq_refl eq_refl eq_refl
            (P "/dst/sub/b.txt") (or_intror (or_introl eq_refl))).
  intros e [<-|[<-|[]]]; reflexivity.
Defined.

End KeepSetProps.

Module ShrinkProps.

Import TreeProps WfProps WalkProps RemoveProps GrowProps KeepProps CopyProps.
Import MkdirProps ListingProps ValidateProps ConfineProps.

Lemma only_removes_refl (w : world) : only_removes w w.
Proof.
  split; [reflexivity|]. intros a [d|ks] H; [exact H|]. now rewrite H.
Qed.

Lemma only_removes_same (w w' : world) :
  cwd w' = cwd w -> root w' = root w -> only_removes w w'.
Proof.
  intros Hc Hr. split; [exact Hc|]. rewrite Hr.
  intros a [d|ks] H; [exact H|]. now rewrite H.
Qed.

Lemma only_removes_trans (a b c : world) :
  only_removes a b -> only_removes b c -> only_removes a c.
Proof.
  intros [H1 H2] [H3 H4]. split; [congruence|]. intros x n Hn.
  specialize (H4 x n Hn). destruct n as [d|ks].
  - exact (H2 x (File d) H4).
  - apply kind_dir in H4 as [ks' H4]. exact (H2 x (Dir ks') H4).
Qed.

Lemma remove_only_removes (w : world) (q : list string) (c : node) :
  q <> [] -> lookup (root w) q = Some c ->
  only_removes w (with_root w (set_at q None (root w))).
Proof.
  intros Hq Hc. split; [reflexivity|]. cbn [root with_root]. intros a n Hn.
  pose proof (lookup_parent_dir _ _ q Hq Hc) as Hpar.
  destruct (is_prefix q a) eqn:E1.
  { apply is_prefix_iff in E1 as [s ->].
    rewrite (set_at_under q None (root w) s Hq Hpar) in Hn. discriminate Hn. }
  destruct (is_prefix a q) eqn:E2.
  - assert (a <> q) as Hne by (intros ->; now rewrite is_prefix_refl in E1).
    pose proof (set_at_above q None (root w) a E2 Hne) as Hk.
    rewrite Hn in Hk.
    assert (kind_of (lookup (root w) a) = KDir) as Hd.
    { apply is_prefix_iff in E2 as [s Hs].
      destruct s as [|x s]; [rewrite app_nil_r in Hs; congruence|].
      apply (lookup_prefix_dir (root w) a s x). congruence. }
    destruct n as [d|ks]; [|exact Hd]. rewrite Hd in Hk. discriminate Hk.
  - rewrite (set_at_apart q None (root w) a E1 E2) in Hn.
    destruct n as [d|ks]; [exact Hn|]. now rewrite Hn.
Qed.

(** ** Operations that make and alter nothing *)

Section Shrink.

Let shr {X : Type} (m : M X) : Prop :=
  forall w r w', m w = (r, w') -> only_removes w w'.

Lemma shr_same {X} (m : M X) :
  (forall w r w', m w = (r, w') -> w' = w) -> shr m.
Proof. intros Hm w r w' H. apply Hm in H. subst. apply only_removes_refl. Qed.

Lemma shr_ret {X} (x : X) : shr (ret x).
Proof. apply shr_same. intros w r w' H. unfold ret in H. now inversion H. Qed.

Lemma shr_raise {X} (e : exn) : shr (@raise X e).
Proof. apply shr_same. intros w r w' H. unfold raise in H. now inversion H. Qed.

Lemma shr_gets {X} (f : world -> X) : shr (gets f).
Proof. apply shr_same. intros w r w' H. unfold gets in H. now inversion H. Qed.

Lemma shr_bind {X Y} (m : M X) (k : X -> M Y) :
  shr m -> (forall a, shr (k a)) -> shr (bind m k).
Proof.
  intros Hm Hk w r w' H. unfold bind in H.
  destruct (m w) as [[a|e] w1] eqn:E.
  - exact (only_removes_trans _ _ _ (Hm w _ w1 E) (Hk a w1 r w' H)).
  - inversion H; subst. exact (Hm w _ w' E).
Qed.

Lemma shr_rewrap {X} (m : M X) (mp mo : string) : shr m -> shr (rewrap m mp mo).
Proof.
  intros Hm w r w' H. unfold rewrap in H.
  destruct (m w) as [[a|e] w1] eqn:E.
  - inversion H; subst. exact (Hm w _ w' E).
  - assert (w' = w1) as ->.
    { destruct (is_PermissionError e); [now inversion H|].
      destruct (is_OSError e); now inversion H. }
    exact (Hm w _ w1 E).
Qed.

Lemma shr_swallow (m : M unit) : shr m -> shr (swallow_os m).
Proof.
  intros Hm w r w' H. unfold swallow_os in H.
  destruct (m w) as [[a|e] w1] eqn:E.
  - inversion H; subst. exact (Hm w _ w' E).
  - assert (w' = w1) as -> by (destruct (is_OSError e); now inversion H).
    exact (Hm w _ w1 E).
Qed.

Lemma shr_fold_m {X S} (body : X -> S -> M S) (l : list X) :
  (forall x s, shr (body x s)) -> forall s, shr (fold_m body l s).
Proof.
  intros Hb. induction l as [|x l IH]; intros s; [apply shr_ret|].
  simpl. apply shr_bind; [apply Hb|exact IH].
Qed.

Lemma Path_unlink_shr (p : Path) : shr (Path_unlink p).
Proof.
  intros w r w' H. unfold Path_unlink, walk_error, raise in H.
  destruct (locate w p) as [a| |] eqn:El;
    try (inversion H; subst; apply only_removes_refl).
  destruct (lookup (root w) a) as [[d|ks]|] eqn:Ea;
    try (inversion H; subst; apply only_removes_refl).
  apply (f_equal snd) in H. cbn [snd] in H. subst w'.
  destruct a as [|x a]; [now apply only_removes_same|].
  apply (remove_only_removes w (x :: a) (File d)); [discriminate|exact Ea].
Qed.

Lemma Path_rmdir_shr (p : Path) : shr (Path_rmdir p).
Proof.
  intros w r w' H. unfold Path_rmdir, walk_error, raise in H.
  destruct (locate w p) as [a| |] eqn:El;
    try (inversion H; subst; apply only_removes_refl).
  destruct (lookup (root w) a) as [[d|[|k ks]]|] eqn:Ea;
    try (inversion H; subst; apply only_removes_refl).
  destruct a as [|x a]; [inversion H; subst; apply only_removes_refl|].
  apply (f_equal snd) in H. cbn [snd] in H. subst w'.
  apply (remove_only_removes w (x :: a) (Dir [])); [discriminate|exact Ea].
Qed.

Lemma cleanup_destination_shr (self : WSLSyncEngine) (keep : list Path) :
  shr (cleanup_destination self keep).
Proof.
  unfold cleanup_destination.
  destruct (wsl2_base (config self)) as [db|] eqn:Hb; [|apply shr_raise].
  apply shr_bind.
  { apply shr_same. intros w r w' H.
    unfold get_destination_files in H. rewrite Hb in H.
    unfold bind, gets, raise in H. destruct (exists_ w db); cbn [negb] in H.
    - rewrite collect_files_run in H. now inversion H.
    - now inversion H. }
  intros all_dest_files. apply shr_bind.
  { apply shr_fold_m. intros fp acc. unfold delete_unless_kept.
    destruct (Path_in fp keep); [apply shr_ret|].
    destruct (relative_to fp db); [|apply shr_raise].
    destruct (existsb _ _); [apply shr_ret|].
    apply shr_rewrap. apply shr_bind; [apply Path_unlink_shr|].
    intros _. apply shr_ret. }
  intros deleted. apply shr_bind; [apply shr_gets|]. intros items.
  apply shr_bind; [|intros _; apply shr_ret].
  unfold for_each. apply shr_fold_m. intros item []. unfold remove_if_empty.
  apply shr_bind; [apply shr_gets|]. intros d. destruct d; [|apply shr_ret].
  apply shr_bind.
  { apply shr_same. intros w r w' H.
    pose proof (iterdir_keeps_world item w) as Hk. rewrite H in Hk. exact Hk. }
  intros l. destruct l; [|apply shr_ret]. apply shr_swallow, Path_rmdir_shr.
Qed.

End Shrink.

(** X10. [cleanup_destination] makes and alters nothing, and works at and
    below the destination root only: whatever it returns or raises, a
    regular file that is there afterwards was there before with the same
    content, a directory that is there afterwards was a directory before,
    and, when the destination root has no [..], every location outside the
    destination root holds what it held. *)
Theorem cleanup_destination_only_removes
  (self : WSLSyncEngine) (db : Path) (keep : list Path) (w : world) :
  wsl2_base (config self) = Some db ->
  plain db = true ->
  wfb (root w) = true ->
  forall r w', cleanup_destination self keep w = (r, w') ->
    only_removes w w' /\ untouched_outside (loc w db) w w'.
Proof.
  intros Hb Hdb Hwf r w' H. split; [exact (cleanup_destination_shr _ _ _ _ _ H)|].
  destruct (exists_ w db) eqn:Hex.
  - assert (exists c, lookup (root w) (loc w db) = Some c) as [c Eq].
    { rewrite <- (stat_plain w db Hdb). unfold exists_ in Hex.
      destruct (stat w db) as [c|]; [now exists c|discriminate Hex]. }
    refine (proj2 (cleanup_destination_conf db (cwd w) Hdb
                     (lookup_not_dotdot _ _ _ Hwf Eq) self keep Hb
                     w r w' _ H)).
    split; [reflexivity|]. split; [exact Hwf|].
    intros a Ha Hne. apply is_prefix_iff in Ha as [s Hs].
    destruct s as [|x s]; [rewrite app_nil_r in Hs; congruence|].
    unfold kind_at. apply (lookup_prefix_dir (root w) a s x).
    fold (loc w db) in Hs. congruence.
  - assert (w' = w) as ->; [|apply untouched_refl].
    unfold cleanup_destination, get_destination_files in H. rewrite Hb in H.
    unfold bind, gets, raise in H. rewrite Hex in H. cbn [negb] in H.
    now inversion H.
Qed.

Lemma cleanup_fixture_only_removes :
  only_removes world_cleanup
    (snd (cleanup_destination engine_cleanup keep_cleanup world_cleanup)) /\
  untouched_outside ["dest"] world_cleanup
    (snd (cleanup_destination engine_cleanup keep_cleanup world_cleanup)).
Proof.
  refine (cleanup_destination_only_removes engine_cleanup (P "/dest")
            keep_cleanup world_cleanup eq_refl eq_refl eq_refl
            (fst (cleanup_destination engine_cleanup keep_cleanup world_cleanup))
            _ _).
  now destruct (cleanup_destination engine_cleanup keep_cleanup world_cleanup).
Defined.

End ShrinkProps.

Module TextProps.

Local Open Scope string_scope.

(* ===================================================================== *)
(** * Strings *)
(* ===================================================================== *)

Lemma sapp_assoc (a b c : string) : (a ++ b) ++ c = a ++ (b ++ c).
Proof. induction a as [|x a IH]; simpl; [reflexivity|now rewrite IH]. Qed.

Lemma sapp_nil_r (a : string) : a ++ "" = a.
Proof. induction a as [|x a IH]; simpl; [reflexivity|now rewrite IH]. Qed.

Lemma slength_app (a b : string) :
  String.length (a ++ b) = (String.length a + String.length b)%nat.
Proof. induction a as [|x a IH]; simpl; [reflexivity|now rewrite IH]. Qed.

Lemma string_rev_app (a b : string) :
  string_rev (a ++ b) = string_rev b ++ string_rev a.
Proof.
  induction a as [|x a IH]; simpl; [now rewrite sapp_nil_r|].
  now rewrite IH, sapp_assoc.
Qed.

Lemma string_rev_involutive (a : string) : string_rev (string_rev a) = a.
Proof.
  induction a as [|x a IH]; simpl; [reflexivity|].
  now rewrite string_rev_app, IH.
Qed.

Lemma string_rev_length (a : string) :
  String.length (string_rev a) = String.length a.
Proof.
  induction a as [|x a IH]; simpl; [reflexivity|].
  rewrite slength_app, IH. simpl. lia.
Qed.

Lemma has_char_app (c : ascii) (a b : string) :
  has_char c (a ++ b) = has_char c a || has_char c b.
Proof.
  induction a as [|x a IH]; simpl; [reflexivity|].
  now rewrite IH, orb_assoc.
Qed.

Lemma has_char_rev (c : ascii) (a : string) :
  has_char c (string_rev a) = has_char c a.
Proof.
  induction a as [|x a IH]; simpl; [reflexivity|].
  rewrite has_char_app, IH. simpl. rewrite orb_false_r. apply orb_comm.
Qed.

(* ===================================================================== *)
(** * Stripping *)
(* ===================================================================== *)

Lemma lstrip_length (s : string) :
  (String.length (lstrip s) <= String.length s)%nat.
Proof.
  induction s as [|c s IH]; simpl; [lia|].
  destruct (isspace c); simpl; lia.
Qed.

Lemma lstrip_same_length (s : string) :
  String.length (lstrip s) = String.length s -> lstrip s = s.
Proof.
  destruct s as [|c s]; simpl; [reflexivity|].
  destruct (isspace c); [|reflexivity].
  intros H. pose proof (lstrip_length s). lia.
Qed.

(** A string that [strip] leaves as it is has no blank at either end. *)
Lemma strip_fixed (v : string) :
  strip v = v -> lstrip v = v /\ lstrip (string_rev v) = string_rev v.
Proof.
  intros H.
  assert (String.length (lstrip v) = String.length v) as H1.
  { apply (f_equal String.length) in H. unfold strip in H.
    rewrite string_rev_length in H.
    pose proof (lstrip_length (string_rev (lstrip v))) as L1.
    rewrite string_rev_length in L1. pose proof (lstrip_length v). lia. }
  apply lstrip_same_length in H1. split; [exact H1|].
  unfold strip in H. rewrite H1 in H.
  apply (f_equal string_rev) in H. now rewrite string_rev_involutive in H.
Qed.

Lemma strip_id (v : string) :
  lstrip v = v -> lstrip (string_rev v) = string_rev v -> strip v = v.
Proof.
  intros H1 H2. unfold strip. now rewrite H1, H2, string_rev_involutive.
Qed.

Lemma lstrip_app_id (a b : string) :
  lstrip a = a -> a <> "" -> lstrip (a ++ b) = a ++ b.
Proof.
  destruct a as [|c a]; [congruence|]. simpl.
  destruct (isspace c) eqn:E; [|reflexivity].
  intros H _. exfalso. pose proof (lstrip_length a) as L.
  rewrite H in L. simpl in L. lia.
Qed.

Lemma string_rev_nonempty (a : string) : a <> "" -> string_rev a <> "".
Proof.
  intros H E. apply H. apply (f_equal string_rev) in E.
  now rewrite string_rev_involutive in E.
Qed.

(** A text between two strings that are stripped is stripped. *)
Lemma strip_between (a m b : string) :
  strip a = a -> a <> "" -> strip b = b -> b <> "" ->
  strip (a ++ m ++ b) = a ++ m ++ b.
Proof.
  intros Ha Hane Hb Hbne.
  destruct (strip_fixed a Ha) as [Ha1 _]. destruct (strip_fixed b Hb) as [_ Hb2].
  apply strip_id.
  - now apply lstrip_app_id.
  - rewrite !string_rev_app, sapp_assoc.
    apply lstrip_app_id; [exact Hb2|now apply string_rev_nonempty].
Qed.

(* ===================================================================== *)
(** * Splitting and searching *)
(* ===================================================================== *)

Lemma split_char_none (c : ascii) (a : string) :
  has_char c a = false -> split_char c a = [a].
Proof.
  induction a as [|x a IH]; simpl; [reflexivity|].
  intros H. apply orb_false_iff in H as [Hx Ha]. rewrite Hx.
  now rewrite (IH Ha).
Qed.

Lemma split_char_app (c : ascii) (a b : string) :
  has_char c a = false ->
  split_char c (a ++ String c b) = a :: split_char c b.
Proof.
  induction a as [|x a IH]; simpl.
  - intros _. now rewrite Ascii.eqb_refl.
  - intros H. apply orb_false_iff in H as [Hx Ha]. rewrite Hx.
    now rewrite (IH Ha).
Qed.

Lemma take_until_app (c : ascii) (a b : string) :
  has_char c a = false -> take_until c (a ++ String c b) = a.
Proof.
  induction a as [|x a IH]; simpl.
  - intros _. now rewrite Ascii.eqb_refl.
  - intros H. apply orb_false_iff in H as [Hx Ha]. rewrite Hx.
    now rewrite (IH Ha).
Qed.

Lemma drop_prefix_app (k s : string) : drop_prefix k (k ++ s) = Some s.
Proof.
  induction k as [|a k IH]; simpl; [reflexivity|].
  now rewrite Ascii.eqb_refl.
Qed.

Lemma re_search_here {A} (m : string -> option A) (s : string) (g : A) :
  m s = Some g -> re_search m s = Some g.
Proof. intros H. destruct s; simpl; now rewrite H. Qed.

Lemma re_search_cons {A} (m : string -> option A) (c : ascii) (s : string) :
  m (String c s) = None -> re_search m (String c s) = re_search m s.
Proof. intros H. simpl. now rewrite H. Qed.

(** No match starts in [a]: the search goes on after it. *)
Lemma re_search_skip {A} (m : string -> option A) (a b : string) :
  (forall u c v, a = u ++ String c v -> m (String c v ++ b) = None) ->
  re_search m (a ++ b) = re_search m b.
Proof.
  induction a as [|c a IH]; intros H; [reflexivity|].
  change (String c a ++ b) with (String c (a ++ b)).
  rewrite re_search_cons; [|exact (H "" c a eq_refl)].
  apply IH. intros u d v E. apply (H (String c u) d v). now rewrite E.
Qed.

(** ** A key is not found inside a value *)

Lemma drop_prefix_value (key : string) :
  forall u T r,
    has_char LF key = false ->
    drop_prefix key (u ++ String LF T) = Some r ->
    exists u', (has_char "=" u = false -> has_char "=" u' = false) /\
               r = u' ++ String LF T.
Proof.
  induction key as [|a k IH]; intros u T r Hk H; simpl in H.
  - inversion H. now exists u.
  - simpl in Hk. apply orb_false_iff in Hk as [Ha Hk].
    destruct u as [|b u]; simpl in H.
    + rewrite Ha in H. discriminate H.
    + destruct (Ascii.eqb a b); [|discriminate H].
      destruct (IH u T r Hk H) as (u' & Hu' & ->). exists u'. split; [|reflexivity].
      intros Hb. simpl in Hb. apply orb_false_iff in Hb as [_ Hb]. now apply Hu'.
Qed.

Lemma lstrip_value (u : string) (c : ascii) (T : string) :
  has_char "=" u = false -> isspace c = false -> c <> "="%char ->
  exists d rest, lstrip (u ++ String LF (String c T)) = String d rest /\
                 d <> "="%char.
Proof.
  intros Hu Hc Hne. induction u as [|b u IH]; simpl.
  - rewrite Hc. now exists c, T.
  - simpl in Hu. apply orb_false_iff in Hu as [Hb Hu].
    destruct (isspace b); [now apply IH|].
    exists b, (u ++ String LF (String c T)). split; [reflexivity|].
    now apply Ascii.eqb_neq.
Qed.

Lemma after_key_value (key u : string) (c : ascii) (T : string) :
  has_char LF key = false -> has_char "=" u = false ->
  isspace c = false -> c <> "="%char ->
  after_key key (u ++ String LF (String c T)) = None.
Proof.
  intros Hk Hu Hc Hne. unfold after_key.
  destruct (drop_prefix key _) as [r|] eqn:E; [|reflexivity].
  destruct (drop_prefix_value key u _ r Hk E) as (u' & Hu' & ->).
  destruct (lstrip_value u' c T (Hu' Hu) Hc Hne) as (d & rest & -> & Hd).
  apply Ascii.eqb_neq in Hd. now rewrite Hd.
Qed.

Lemma has_char_suffix (c : ascii) (a u v : string) :
  a = u ++ v -> has_char c a = false -> has_char c v = false.
Proof.
  intros -> H. rewrite has_char_app in H. now apply orb_false_iff in H.
Qed.

End TextProps.

Module ParserProps.

Import TextProps.

Local Open Scope string_scope.

Lemma free_of_In (cs : list ascii) (s : string) (c : ascii) :
  free_of cs s = true -> In c cs -> has_char c s = false.
Proof.
  unfold free_of. rewrite forallb_forall. intros H Hc.
  apply negb_true_iff. now apply H.
Qed.

Lemma universal_newlines_id (s : string) :
  has_char CR s = false -> universal_newlines s = s.
Proof.
  induction s as [|c s IH]; simpl; [reflexivity|].
  intros H. apply orb_false_iff in H as [Hc Hs]. rewrite Hc.
  now rewrite (IH Hs).
Qed.

(** ** One line of the form [key = value] *)

Lemma match_assignment_here (key v T : string) :
  lstrip v = v -> v <> "" -> has_char LF v = false ->
  match_assignment key (key ++ " = " ++ v ++ String LF T) = Some v.
Proof.
  intros Hv Hne Hlf. unfold match_assignment, after_key.
  rewrite drop_prefix_app.
  change (lstrip (" = " ++ v ++ String LF T))
    with (String "="%char (String " "%char (v ++ String LF T))).
  cbv beta iota. rewrite Ascii.eqb_refl.
  change (lstrip (String " "%char (v ++ String LF T)))
    with (lstrip (v ++ String LF T)).
  rewrite (lstrip_app_id v _ Hv Hne).
  destruct v as [|d v]; [congruence|].
  change (String d v ++ String LF T) with (String d (v ++ String LF T)).
  cbv beta iota. f_equal.
  change (String d (v ++ String LF T)) with (String d v ++ String LF T).
  now apply take_until_app.
Qed.

Lemma match_files_here (body : string) :
  has_char "]" body = false ->
  match_files ("files = [" ++ body ++ "]") = Some body.
Proof.
  intros Hb. unfold match_files, after_key.
  change ("files = [" ++ body ++ "]") with ("files" ++ " = [" ++ body ++ "]").
  rewrite drop_prefix_app.
  change (lstrip (" = [" ++ body ++ "]"))
    with (String "="%char (String " "%char (String "["%char (body ++ "]")))).
  cbv beta iota. rewrite Ascii.eqb_refl.
  change (lstrip (String " "%char (String "["%char (body ++ "]"))))
    with (String "["%char (body ++ "]")).
  cbv beta iota. rewrite Ascii.eqb_refl, has_char_app. simpl has_char at 2.
  rewrite orb_true_r. cbn [andb]. f_equal. now apply take_until_app.
Qed.

(** ** The list of entries *)

Lemma quoted_open (e rest acc : string) :
  has_char DQUOTE e = false ->
  quoted (e ++ String DQUOTE rest) (Some acc) = (acc ++ e) :: quoted rest None.
Proof.
  revert acc. induction e as [|c e IH]; intros acc H; simpl.
  - now rewrite sapp_nil_r.
  - simpl in H. apply orb_false_iff in H as [Hc He]. rewrite Hc.
    rewrite (IH _ He), sapp_assoc. reflexivity.
Qed.

Lemma quoted_quote (e rest : string) :
  has_char DQUOTE e = false ->
  quoted (quote e ++ rest) None = e :: quoted rest None.
Proof.
  intros H. unfold quote.
  change (String DQUOTE (e ++ String DQUOTE "") ++ rest)
    with (String DQUOTE ((e ++ String DQUOTE "") ++ rest)).
  rewrite sapp_assoc. simpl. now rewrite (quoted_open e rest "" H).
Qed.

Lemma findall_rendered (entries : list string) :
  (forall e, In e entries -> has_char DQUOTE e = false) ->
  findall_quoted (String.concat ", " (map quote entries)) = entries.
Proof.
  unfold findall_quoted. induction entries as [|e es IH]; intros H; [reflexivity|].
  destruct es as [|e2 es].
  - change (String.concat ", " (map quote [e])) with (quote e).
    rewrite <- (sapp_nil_r (quote e)).
    now rewrite quoted_quote by (apply H; now left).
  - change (String.concat ", " (map quote (e :: e2 :: es)))
      with (quote e ++ ", " ++ String.concat ", " (map quote (e2 :: es))).
    rewrite quoted_quote by (apply H; now left).
    f_equal. apply IH. intros x Hx. apply H. now right.
Qed.

Lemma rendered_free (c : ascii) (entries : list string) :
  c <> DQUOTE -> has_char c ", " = false ->
  (forall e, In e entries -> has_char c e = false) ->
  has_char c (String.concat ", " (map quote entries)) = false.
Proof.
  intros Hq Hsep. apply Ascii.eqb_neq in Hq. rewrite Ascii.eqb_sym in Hq.
  assert (forall e, has_char c e = false -> has_char c (quote e) = false) as Hquote.
  { intros e He. unfold quote. cbn [has_char].
    rewrite has_char_app, He, Hq. cbn [has_char orb]. now rewrite Hq. }
  induction entries as [|e es IH]; intros H; [reflexivity|].
  destruct es as [|e2 es].
  - change (String.concat ", " (map quote [e])) with (quote e).
    apply Hquote, H. now left.
  - change (String.concat ", " (map quote (e :: e2 :: es)))
      with (quote e ++ ", " ++ String.concat ", " (map quote (e2 :: es))).
    rewrite !has_char_app, Hsep, (Hquote e (H e (or_introl eq_refl))).
    simpl orb. apply IH. intros x Hx. apply H. now right.
Qed.

Lemma rendered_ends (e : string) (es : list string) :
  exists X, String.concat ", " (map quote (e :: es)) = String DQUOTE X
            /\ exists Y, String.concat ", " (map quote (e :: es))
                         = Y ++ String DQUOTE "".
Proof.
  revert e. induction es as [|e2 es IH]; intros e.
  - exists (e ++ String DQUOTE ""). split; [reflexivity|].
    exists (String DQUOTE e). reflexivity.
  - destruct (IH e2) as (_ & _ & Y & HY).
    change (String.concat ", " (map quote (e :: e2 :: es)))
      with (quote e ++ ", " ++ String.concat ", " (map quote (e2 :: es))).
    exists ((e ++ String DQUOTE "") ++ ", "
              ++ String.concat ", " (map quote (e2 :: es))).
    split; [reflexivity|].
    exists (quote e ++ ", " ++ Y). rewrite HY. now rewrite !sapp_assoc.
Qed.

Lemma strip_rendered (entries : list string) :
  strip (String.concat ", " (map quote entries))
  = String.concat ", " (map quote entries).
Proof.
  destruct entries as [|e es]; [reflexivity|].
  destruct (rendered_ends e es) as (X & HX & Y & HY).
  apply strip_id.
  - now rewrite HX.
  - rewrite HY, string_rev_app. reflexivity.
Qed.

(** ** The three searches in a rendered configuration *)

Section Rendered.

Variables wb db : string.
Variable entries : list string.

Hypothesis Hwb : strip wb = wb.
Hypothesis Hwb_ne : wb <> "".
Hypothesis Hwb_free : free_of [LF; CR; "#"%char; "="%char] wb = true.
Hypothesis Hdb : strip db = db.
Hypothesis Hdb_ne : db <> "".
Hypothesis Hdb_free : free_of [LF; CR; "#"%char; "="%char] db = true.
Hypothesis Hentries :
  forall e, In e entries ->
            free_of [LF; CR; "#"%char; DQUOTE; "]"%char] e = true.

Let body : string := String.concat ", " (map quote entries).
Let L3 : string := "files = [" ++ body ++ "]".
Let L2 : string := "wsl2_base = " ++ db.
Let L1 : string := "windows_base = " ++ wb.

Lemma render_lines :
  render wb db entries = L1 ++ String LF (L2 ++ String LF L3).
Proof. unfold render, L1, L2, L3, body. now rewrite !sapp_assoc. Qed.

Lemma body_free (c : ascii) :
  In c [LF; CR; "#"%char; "]"%char] -> has_char c body = false.
Proof.
  intros Hc. unfold body. apply rendered_free.
  - destruct Hc as [<-|[<-|[<-|[<-|[]]]]]; discriminate.
  - destruct Hc as [<-|[<-|[<-|[<-|[]]]]]; reflexivity.
  - intros e He. apply (free_of_In _ _ _ (Hentries e He)).
    destruct Hc as [<-|[<-|[<-|[<-|[]]]]]; simpl; auto 6.
Qed.

Lemma line1_free (c : ascii) :
  In c [LF; CR; "#"%char] -> has_char c L1 = false.
Proof.
  intros Hc. unfold L1. rewrite has_char_app.
  rewrite (free_of_In _ wb c Hwb_free)
    by (destruct Hc as [<-|[<-|[<-|[]]]]; simpl; auto).
  destruct Hc as [<-|[<-|[<-|[]]]]; reflexivity.
Qed.

Lemma line2_free (c : ascii) :
  In c [LF; CR; "#"%char] -> has_char c L2 = false.
Proof.
  intros Hc. unfold L2. rewrite has_char_app.
  rewrite (free_of_In _ db c Hdb_free)
    by (destruct Hc as [<-|[<-|[<-|[]]]]; simpl; auto).
  destruct Hc as [<-|[<-|[<-|[]]]]; reflexivity.
Qed.

Lemma line3_free (c : ascii) :
  In c [LF; CR; "#"%char] -> has_char c L3 = false.
Proof.
  intros Hc. unfold L3. rewrite !has_char_app.
  rewrite (body_free c) by (destruct Hc as [<-|[<-|[<-|[]]]]; simpl; auto).
  destruct Hc as [<-|[<-|[<-|[]]]]; reflexivity.
Qed.

Lemma strip_line1 : strip L1 = L1.
Proof.
  destruct (strip_fixed wb Hwb) as [_ H2]. apply strip_id; [reflexivity|].
  unfold L1. rewrite string_rev_app.
  apply lstrip_app_id; [exact H2|now apply string_rev_nonempty].
Qed.

Lemma strip_line2 : strip L2 = L2.
Proof.
  destruct (strip_fixed db Hdb) as [_ H2]. apply strip_id; [reflexivity|].
  unfold L2. rewrite string_rev_app.
  apply lstrip_app_id; [exact H2|now apply string_rev_nonempty].
Qed.

Lemma strip_line3 : strip L3 = L3.
Proof.
  apply strip_id; [reflexivity|].
  unfold L3. rewrite <- sapp_assoc, string_rev_app. reflexivity.
Qed.

Lemma render_end :
  render wb db entries
  = (L1 ++ String LF (L2 ++ String LF ("files = [" ++ body))) ++ "]".
Proof.
  rewrite render_lines. unfold L3. rewrite !sapp_assoc. cbn [append].
  rewrite !sapp_assoc. cbn [append]. reflexivity.
Qed.

Lemma strip_render : strip (render wb db entries) = render wb db entries.
Proof.
  apply strip_id; [reflexivity|].
  rewrite render_end, string_rev_app. reflexivity.
Qed.

Lemma clean_line (L : string) :
  has_char "#" L = false -> strip L = L -> L <> "" ->
  negb (String.eqb (strip (hd "" (split_char "#" L))) "") = true /\
  strip (hd "" (split_char "#" L)) = L.
Proof.
  intros H1 H2 H3. rewrite (split_char_none _ _ H1). cbn [hd]. rewrite H2.
  split; [|reflexivity]. apply negb_true_iff. now apply String.eqb_neq.
Qed.

Lemma clean_render :
  String.concat (String LF "") (clean_lines (render wb db entries))
  = render wb db entries.
Proof.
  rewrite render_lines at 1. unfold clean_lines.
  rewrite (split_char_app LF L1 _ (line1_free LF ltac:(simpl; auto))).
  rewrite (split_char_app LF L2 _ (line2_free LF ltac:(simpl; auto))).
  rewrite (split_char_none LF L3 (line3_free LF ltac:(simpl; auto))).
  cbn [map filter].
  destruct (clean_line L1 (line1_free "#" ltac:(simpl; auto)) strip_line1
              ltac:(discriminate)) as [-> ->].
  destruct (clean_line L2 (line2_free "#" ltac:(simpl; auto)) strip_line2
              ltac:(discriminate)) as [-> ->].
  destruct (clean_line L3 (line3_free "#" ltac:(simpl; auto)) strip_line3
              ltac:(discriminate)) as [-> ->].
  now rewrite render_lines.
Qed.

Lemma value_no_eq (v : string) (u : string) (c : ascii) (t : string) :
  free_of [LF; CR; "#"%char; "="%char] v = true ->
  v = u ++ String c t -> has_char "=" (String c t) = false.
Proof.
  intros Hv E. apply (has_char_suffix "=" v u _ E).
  apply (free_of_In _ _ _ Hv). simpl. auto.
Qed.

Lemma search_windows_base :
  re_search (match_assignment "windows_base") (render wb db entries) = Some wb.
Proof.
  apply re_search_here. unfold render.
  apply (match_assignment_here "windows_base" wb).
  - exact (proj1 (strip_fixed wb Hwb)).
  - exact Hwb_ne.
  - apply (free_of_In _ _ _ Hwb_free). simpl. auto.
Qed.

Lemma search_wsl2_base :
  re_search (match_assignment "wsl2_base") (render wb db entries) = Some db.
Proof.
  unfold render. cbn [append].
  repeat (rewrite re_search_cons by reflexivity).
  rewrite re_search_skip.
  - rewrite re_search_cons by reflexivity. apply re_search_here.
    apply (match_assignment_here "wsl2_base" db).
    + exact (proj1 (strip_fixed db Hdb)).
    + exact Hdb_ne.
    + apply (free_of_In _ _ _ Hdb_free). simpl. auto.
  - intros u c v E. unfold match_assignment.
    rewrite (after_key_value "wsl2_base" (String c v) "w");
      [reflexivity|reflexivity| |reflexivity|discriminate].
    exact (value_no_eq wb u c v Hwb_free E).
Qed.

Lemma search_files :
  re_search match_files (render wb db entries) = Some body.
Proof.
  unfold render. cbn [append].
  repeat (rewrite re_search_cons by reflexivity).
  rewrite re_search_skip.
  - rewrite re_search_cons by reflexivity.
    repeat (rewrite re_search_cons by reflexivity).
    rewrite re_search_skip.
    + rewrite re_search_cons by reflexivity. apply re_search_here.
      apply match_files_here. apply body_free. simpl. auto.
    + intros u c v E. unfold match_files.
      rewrite (after_key_value "files" (String c v) "f");
        [reflexivity|reflexivity| |reflexivity|discriminate].
      exact (value_no_eq db u c v Hdb_free E).
  - intros u c v E. unfold match_files.
    rewrite (after_key_value "files" (String c v) "w");
      [reflexivity|reflexivity| |reflexivity|discriminate].
    exact (value_no_eq wb u c v Hwb_free E).
Qed.

Lemma parse_content_render :
  parse_content (render wb db entries)
  = Ok (mkConfig (Some (Path_of_string wb)) (Some (Path_of_string db)) entries).
Proof.
  unfold parse_content. cbv zeta. rewrite strip_render.
  assert (String.eqb (render wb db entries) "" = false) as -> by reflexivity.
  rewrite clean_render, search_windows_base, search_wsl2_base, search_files.
  rewrite Hwb, Hdb. unfold body. rewrite strip_rendered.
  destruct entries as [|e es] eqn:E; [reflexivity|].
  destruct (rendered_ends e es) as (X & HX & _).
  rewrite HX at 1. cbn [String.eqb]. rewrite findall_rendered; [reflexivity|].
  intros x Hx. apply (free_of_In _ _ _ (Hentries x Hx)). simpl. auto 6.
Qed.

Lemma render_no_CR : has_char CR (render wb db entries) = false.
Proof.
  rewrite render_lines, has_char_app. cbn [has_char].
  rewrite has_char_app. cbn [has_char].
  rewrite (line1_free CR), (line2_free CR), (line3_free CR); simpl; auto.
Qed.

End Rendered.

(** X11. A configuration written out as [windows_base = ...],
    [wsl2_base = ...] and [files = [...]] on three lines is read back as it
    is: when the two roots are not empty, have no blank at either end and no
    line end, [#] or [=], and the entries have no line end, [#], double
    quote or closing bracket, [parse_config] returns the two roots as paths
    and the entries in their order, and leaves the file system as it is. *)
Theorem parse_config_reads_back
  (decode : string -> result string) (p : Path) (w : world)
  (data wb db : string) (entries : list string) :
  stat w p = Some (File data) ->
  decode data = Ok (render wb db entries) ->
  strip wb = wb -> wb <> "" ->
  free_of [LF; CR; "#"%char; "="%char] wb = true ->
  strip db = db -> db <> "" ->
  free_of [LF; CR; "#"%char; "="%char] db = true ->
  (forall e, In e entries ->
             free_of [LF; CR; "#"%char; DQUOTE; "]"%char] e = true) ->
  parse_config decode p w
  = (Ok (mkConfig (Some (Path_of_string wb)) (Some (Path_of_string db)) entries),
     w).
Proof.
  intros Hs Hd Hwb Hwbne Hwbf Hdb Hdbne Hdbf He.
  unfold parse_config, bind, gets, exists_. rewrite Hs. cbn [kind_of kind_eqb negb].
  unfold Path_read_text. unfold stat in Hs.
  destruct (locate w p) as [q| |]; try discriminate Hs.
  rewrite Hs, Hd.
  rewrite (universal_newlines_id _
             (render_no_CR wb db entries Hwbf Hdbf He)).
  now rewrite (parse_content_render wb db entries Hwb Hwbne Hwbf Hdb Hdbne Hdbf He).
Qed.

Lemma parse_config_sample :
  parse_config ascii_codec (Path_of_string "/home/.wslsync") world_config
  = (Ok (mkConfig (Some (Path_of_string "/mnt/c/source"))
                  (Some (Path_of_string "/home/user/dest"))
                  ["docs/a.txt"; "notes"]),
     world_config).
Proof.
  apply (parse_config_reads_back ascii_codec _ world_config
           (render "/mnt/c/source" "/home/user/dest" ["docs/a.txt"; "notes"]));
    try reflexivity; try discriminate.
  intros e [<-|[<-|[]]]; reflexivity.
Defined.

Lemma quoted_no_quote (s : string) :
  forall cur e,
    (forall x, cur = Some x -> has_char DQUOTE x = false) ->
    In e (quoted s cur) -> has_char DQUOTE e = false.
Proof.
  induction s as [|c s IH]; intros cur e Hcur H; simpl in H; [contradiction|].
  destruct cur as [x|].
  - destruct (Ascii.eqb c DQUOTE) eqn:Ec.
    + destruct H as [<-|H]; [now apply Hcur|].
      apply (IH None e); [discriminate|exact H].
    + apply (IH _ e) in H; [exact H|]. intros y [= <-].
      rewrite has_char_app, (Hcur x eq_refl). cbn [has_char orb].
      now rewrite Ec.
  - destruct (Ascii.eqb c DQUOTE).
    + apply (IH _ e) in H; [exact H|]. now intros y [= <-].
    + apply (IH None e); [discriminate|exact H].
Qed.

Lemma parse_content_shape (text : string) (c : WSLSyncConfig) :
  parse_content text = Ok c ->
  windows_base c <> None /\ wsl2_base c <> None /\
  (forall e, In e (files c) -> has_char DQUOTE e = false).
Proof.
  unfold parse_content. cbv zeta.
  destruct (String.eqb (strip text) ""); [discriminate|].
  destruct (re_search (match_assignment "windows_base") _); [|discriminate].
  destruct (re_search (match_assignment "wsl2_base") _); [|discriminate].
  destruct (re_search match_files _) as [g|]; [|discriminate].
  intros [= <-]. cbn [windows_base wsl2_base files].
  split; [discriminate|]. split; [discriminate|].
  destruct (String.eqb (strip g) ""); [contradiction|].
  intros e He. apply (quoted_no_quote (strip g) None e); [discriminate|exact He].
Qed.

Lemma parse_config_run
  (decode : string -> result string) (p : Path) (w : world) :
  parse_config decode p w
  = (match stat w p with
     | None => Raise (FileNotFoundError ("Config file not found: " ++ str p))
     | Some (Dir _) => Raise (IsADirectoryError (str p))
     | Some (File data) =>
         match decode data with
         | Ok text => parse_content (universal_newlines text)
         | Raise e => Raise e
         end
     end, w).
Proof.
  unfold parse_config, bind, gets, exists_, stat.
  destruct (locate w p) as [q| |] eqn:El; [|reflexivity..].
  destruct (lookup (root w) q) as [[data|ks]|] eqn:Eq;
    cbn [kind_of kind_eqb negb]; cbv beta iota;
    unfold Path_read_text; rewrite ?El, ?Eq; [|reflexivity..].
  destruct (decode data) as [text|e]; [|reflexivity].
  now destruct (parse_content (universal_newlines text)).
Qed.

(** X12. What [parse_config] does apart from reading a good file.  It
    never changes the file system.  A path that names nothing gives
    [FileNotFoundError], a directory [IsADirectoryError]; an error of the
    codec is passed on; a text of blanks only gives the [ValueError] of the
    empty file.  A configuration that is returned has both roots set, so
    that [validate_config] never reports one missing, and none of its
    entries contains a double quote. *)
Theorem parse_config_outcome
  (decode : string -> result string) (p : Path) (w : world) :
  snd (parse_config decode p w) = w /\
  (exists_ w p = false ->
   fst (parse_config decode p w)
   = Raise (FileNotFoundError ("Config file not found: " ++ str p))) /\
  (is_dir w p = true ->
   fst (parse_config decode p w) = Raise (IsADirectoryError (str p))) /\
  (forall data, stat w p = Some (File data) ->
     match decode data with
     | Raise e => fst (parse_config decode p w) = Raise e
     | Ok text =>
         fst (parse_config decode p w) = parse_content (universal_newlines text)
         /\ (strip (universal_newlines text) = "" ->
             fst (parse_config decode p w)
             = Raise (ValueError "Config file is empty"))
     end) /\
  (forall c, fst (parse_config decode p w) = Ok c ->
     windows_base c <> None /\ wsl2_base c <> None /\
     (forall e, In e (files c) -> has_char DQUOTE e = false) /\
     validate_config c <> Raise (ValueError "windows_base is required") /\
     validate_config c <> Raise (ValueError "wsl2_base is required")).
Proof.
  rewrite parse_config_run. cbn [fst snd]. unfold exists_, is_dir.
  split; [reflexivity|]. split; [|split; [|split]].
  - destruct (stat w p) as [[d|ks]|]; cbn [kind_of kind_eqb negb];
      [discriminate|discriminate|reflexivity].
  - destruct (stat w p) as [[d|ks]|]; cbn [kind_of kind_eqb negb];
      [discriminate|reflexivity|discriminate].
  - intros data ->. destruct (decode data) as [text|e]; [|reflexivity].
    split; [reflexivity|]. intros Hb. unfold parse_content. cbv zeta.
    now rewrite Hb.
  - intros c Hc.
    assert (exists text, parse_content text = Ok c) as [text Ht].
    { destruct (stat w p) as [[d|ks]|]; try discriminate Hc.
      destruct (decode d) as [text|e]; [|discriminate Hc]. now exists (universal_newlines text). }
    destruct (parse_content_shape _ c Ht) as (H1 & H2 & H3).
    split; [exact H1|]. split; [exact H2|]. split; [exact H3|].
    unfold validate_config.
    destruct (windows_base c); [|congruence].
    destruct (wsl2_base c); [|congruence].
    destruct (files c); [split; discriminate|].
    destruct (_ || _); [split; discriminate|].
    destruct (_ || _); [split; discriminate|].
    destruct (negb _); split; discriminate.
Qed.

End ParserProps.

Module LayoutProps.

Import TextProps ParserProps.

Local Open Scope string_scope.

Local Abbreviation before_hash l := (hd "" (split_char "#"%char l)).
Local Abbreviation clean_one l := (strip (before_hash l)).

(* ===================================================================== *)
(** * Lines *)
(* ===================================================================== *)






(* ===================================================================== *)
(** * Comments and blanks in one line *)
(* ===================================================================== *)










(* ===================================================================== *)
(** * Blanks around the text *)
(* ===================================================================== *)







(* ===================================================================== *)
(** * Blank texts *)
(* ===================================================================== *)





End LayoutProps.

Module UnitProps.

Local Open Scope Z_scope.

Lemma float_of_int_exact (n : Z) :
  0 < n < 2 ^ 53 -> float_of_int n = Ok (mkFloat n 0).
Proof.
  intros [H0 H1]. unfold float_of_int.
  assert (Z.log2 n < 53) as Hl by (apply Z.log2_lt_pow2; lia).
  destruct (Z.log2 n + 1 <=? 53) eqn:E; [reflexivity|].
  apply Z.leb_gt in E. lia.
Qed.

(** One turn of the loop, for a value [n / 2^s]. *)
Lemma scale_turn (fuel : nat) (n s : Z) (i : nat) :
  0 <= s ->
  scale (S fuel) (mkFloat n s) i
  = if (2 ^ (s + 10) <=? n) && (i <? 4)%nat
    then scale fuel (mkFloat n (s + 10)) (i + 1)
    else (mkFloat n s, i).
Proof.
  intros Hs. cbn [scale]. unfold ge_1024, div_1024. cbn [mant shift].
  replace (1024 * 2 ^ s) with (2 ^ (s + 10))
    by (rewrite Z.pow_add_r by lia; change (2 ^ 10) with 1024; lia).
  reflexivity.
Qed.

Lemma format_exact (n : Z) :
  1024 <= n < 2 ^ 53 ->
  format_file_size n
  = let '(size, unit_index) := scale 5 (mkFloat n 0) 0 in
    if (unit_index =? 0)%nat
    then Ok (str_int (int_of_float size) ++ " " ++ nth unit_index units "")%string
    else Ok (format_1f size ++ " " ++ nth unit_index units "")%string.
Proof.
  intros [H0 H1]. unfold format_file_size.
  destruct (n <? 0) eqn:E1; [apply Z.ltb_lt in E1; lia|].
  destruct (n =? 0) eqn:E2; [apply Z.eqb_eq in E2; lia|].
  rewrite float_of_int_exact by lia. reflexivity.
Qed.

Ltac turn :=
  rewrite scale_turn by lia;
  match goal with
  | |- context [?a <=? ?b] =>
      let E := fresh "E" in
      destruct (a <=? b) eqn:E;
      [apply Z.leb_le in E|apply Z.leb_gt in E];
      cbn [andb Nat.ltb Nat.leb Nat.add]
  end.

(** X14. The unit [format_file_size] picks, for sizes that a double holds
    exactly: kilobytes from 1024, megabytes from 1024^2, gigabytes from
    1024^3 and terabytes from 1024^4 on, with no unit beyond; the number
    printed is the size divided by the unit, to one decimal. *)
Theorem format_file_size_units (n : Z) :
  (1024 <= n < 1024 ^ 2 ->
   format_file_size n = Ok (format_1f (mkFloat n 10) ++ " KB")%string) /\
  (1024 ^ 2 <= n < 1024 ^ 3 ->
   format_file_size n = Ok (format_1f (mkFloat n 20) ++ " MB")%string) /\
  (1024 ^ 3 <= n < 1024 ^ 4 ->
   format_file_size n = Ok (format_1f (mkFloat n 30) ++ " GB")%string) /\
  (1024 ^ 4 <= n < 2 ^ 53 ->
   format_file_size n = Ok (format_1f (mkFloat n 40) ++ " TB")%string).
Proof.
  assert (1024 ^ 2 = 2 ^ 20) as P2 by reflexivity.
  assert (1024 ^ 3 = 2 ^ 30) as P3 by reflexivity.
  assert (1024 ^ 4 = 2 ^ 40) as P4 by reflexivity.
  assert (1024 = 2 ^ 10) as P1 by reflexivity.
  assert (2 ^ 10 < 2 ^ 20 < 2 ^ 30) as [Q1 Q2] by (split; reflexivity).
  assert (2 ^ 30 < 2 ^ 40 < 2 ^ 53) as [Q3 Q4] by (split; reflexivity).
  rewrite P2, P3, P4. 
  split; [|split; [|split]]; intros Hn; rewrite format_exact by lia.
  - turn; [|lia]. change (0 + 10 + 10) with 20 in *.
    turn; [lia|]. reflexivity.
  - turn; [|lia]. turn; [|lia]. turn; [lia|]. reflexivity.
  - turn; [|lia]. turn; [|lia]. turn; [|lia]. turn; [lia|]. reflexivity.
  - turn; [|lia]. turn; [|lia]. turn; [|lia]. turn; [|lia].
    rewrite scale_turn by lia. rewrite andb_false_r. reflexivity.
Qed.

End UnitProps.

Module OverflowProps.

Local Open Scope Z_scope.

Lemma rounded_bounds (n s : Z) :
  0 < s -> 2 ^ (52 + s) <= n < 2 ^ (53 + s) ->
  let P := 2 ^ s in
  0 < P /\ 2 ^ 52 <= n / P < 2 ^ 53 /\ n = P * (n / P) + n mod P /\
  0 <= n mod P < P /\ 2 ^ 52 * P <= n < 2 ^ 53 * P.
Proof.
  intros Hs [Hlo Hhi] P.
  assert (0 < P) as HP by (apply Z.pow_pos_nonneg; lia).
  rewrite Z.pow_add_r in Hlo, Hhi by lia. fold P in Hlo, Hhi.
  split; [exact HP|]. split; [|split; [|split]].
  - split.
    + apply Z.div_le_lower_bound; lia.
    + apply Z.div_lt_upper_bound; lia.
  - apply Z.div_mod. lia.
  - apply Z.mod_pos_bound. exact HP.
  - lia.
Qed.

Lemma float_of_int_overflow (n : Z) :
  0 < n ->
  (float_of_int n = Raise (OverflowError "int too large to convert to float")
   <-> 2 ^ 1024 - 2 ^ 970 <= n) /\
  (n < 2 ^ 1024 - 2 ^ 970 -> exists f, float_of_int n = Ok f).
Proof.
  intros Hn. unfold float_of_int.
  destruct (Z.log2_spec n Hn) as [Hlo Hhi].
  set (b := Z.log2 n + 1) in *.
  replace (Z.succ (Z.log2 n)) with b in Hhi by (unfold b; lia).
  replace (Z.log2 n) with (b - 1) in Hlo by (unfold b; lia).
  assert (0 < b) as Hb by (unfold b; pose proof (Z.log2_nonneg n); lia).
  clearbody b.
  destruct (b <=? 53) eqn:Eb.
  - apply Z.leb_le in Eb.
    assert (n < 2 ^ 53) as H53.
    { eapply Z.lt_le_trans; [exact Hhi|]. apply Z.pow_le_mono_r; lia. }
    assert (2 ^ 53 < 2 ^ 1024 - 2 ^ 970) as Hc by reflexivity.
    split; [split; [discriminate|lia]|]. intros _. now eexists.
  - apply Z.leb_gt in Eb. cbv zeta.
    set (s := b - 53) in *.
    assert (0 < s) as Hs by (unfold s; lia).
    rewrite Z.shiftr_div_pow2, Z.land_ones, !Z.shiftl_mul_pow2 by lia.
    destruct (rounded_bounds n s Hs) as (HP & Hq & Hdm & Hr & Hn2).
    { replace (52 + s) with (b - 1) by (unfold s; lia).
      replace (53 + s) with b by (unfold s; lia). now split. }
    cbv zeta in HP, Hq, Hdm, Hr, Hn2.
    assert (2 ^ s = 2 * 2 ^ (s - 1)) as Hhalf.
    { replace s with (Z.succ (s - 1)) at 1 by lia. apply Z.pow_succ_r. lia. }
    set (P := 2 ^ s) in *. set (q := n / P) in *. set (r := n mod P) in *.
    set (h := 2 ^ (s - 1)) in *. rewrite Z.mul_1_l.
    set (q' := if (h <? r) || (r =? h) && Z.odd q then q + 1 else q).
    assert (q <= q' <= q + 1) as Hq'.
    { unfold q'. destruct ((h <? r) || (r =? h) && Z.odd q); lia. }
    assert (2 ^ 1024 <= q' * P <-> 2 ^ 1024 - 2 ^ 970 <= n) as Hiff.
    { assert (2 ^ 1024 = 18014398509481984 * 2 ^ 970) as -> by reflexivity.
      assert (0 < 2 ^ 970) as HT by reflexivity.
      change (2 ^ 52) with 4503599627370496 in Hq, Hn2.
      change (2 ^ 53) with 9007199254740992 in Hq, Hn2.
      assert (q * P <= q' * P <= 9007199254740992 * P) as Hq'P.
      { split; apply Z.mul_le_mono_nonneg_r; lia. }
      assert (4503599627370496 * P <= q * P) as HqP
        by (apply Z.mul_le_mono_nonneg_r; lia).
      destruct (Z.lt_trichotomy s 971) as [Hlt|[Heq|Hgt]].
      - assert (P <= 2 ^ 970) as HPT by (apply Z.pow_le_mono_r; lia).
        clearbody q' P q r h. split; intros H; lia.
      - assert (h = 2 ^ 970) as Hh by (unfold h; now rewrite Heq).
        assert (Z.odd 9007199254740991 = true) as Hodd by reflexivity.
        assert (q = 9007199254740991 \/ q * P <= 9007199254740990 * P) as Hcase.
        { destruct (Z.eq_dec q 9007199254740991) as [E|E]; [now left|right].
          apply Z.mul_le_mono_nonneg_r; lia. }
        unfold q' in *. clearbody P q r h.
        destruct (Z.ltb_spec h r) as [Hhr|Hhr]; cbn [orb] in *.
        + destruct Hcase as [-> |Hcase]; split; intros H; lia.
        + destruct (Z.eqb_spec r h) as [Erh|Erh]; cbn [andb] in *.
          * destruct Hcase as [-> |Hcase].
            -- rewrite Hodd in *. split; intros H; lia.
            -- destruct (Z.odd q); split; intros H; lia.
          * destruct Hcase as [-> |Hcase]; split; intros H; lia.
      - assert (2 ^ 972 <= P) as HPT by (apply Z.pow_le_mono_r; lia).
        assert (2 ^ 972 = 4 * 2 ^ 970) as E4 by reflexivity.
        rewrite E4 in HPT.
        clearbody q' P q r h. split; intros H; lia. }
    split.
    + rewrite <- Hiff. destruct (Z.leb_spec (2 ^ 1024) (q' * P)) as [H|H].
      * split; [intros _; exact H|reflexivity].
      * split; [discriminate|lia].
    + intros Hlt. destruct (Z.leb_spec (2 ^ 1024) (q' * P)) as [H|H].
      * apply Hiff in H. lia.
      * now eexists.
Qed.

(** X15. [format_file_size] is not defined on every integer: from
    [2^1024 - 2^970] on, the size does not fit a double and the call
    raises [OverflowError]; for every smaller size, negative ones too, it
    returns a string. *)
Theorem format_file_size_overflow (n : Z) :
  (2 ^ 1024 - 2 ^ 970 <= n ->
   format_file_size n
   = Raise (OverflowError "int too large to convert to float")) /\
  (n < 2 ^ 1024 - 2 ^ 970 -> exists s, format_file_size n = Ok s).
Proof.
  assert (0 < 2 ^ 1024 - 2 ^ 970) as Hpos by reflexivity.
  unfold format_file_size.
  destruct (Z.ltb_spec n 0) as [Hneg|Hnn].
  { split; [lia|]. intros _. now eexists. }
  destruct (Z.eqb_spec n 0) as [Hz|Hnz].
  { split; [lia|]. intros _. now eexists. }
  destruct (float_of_int_overflow n ltac:(lia)) as [Hiff Hok]. split.
  - intros H. apply Hiff in H. now rewrite H.
  - intros H. destruct (Hok H) as [f ->].
    destruct (scale _ f 0) as [size i]. destruct (Nat.eqb i 0); now eexists.
Qed.

End OverflowProps.

Module CliProps.

Import TreeProps WfProps WalkProps RemoveProps GrowProps CleanupProps.
Import ListingProps ParserProps.

Lemma parse_config_same (decode : string -> result string) (p : Path) (w : world) :
  snd (parse_config decode p w) = w.
Proof. now rewrite parse_config_run. Qed.

Lemma get_source_files_same (self : WSLSyncEngine) (w : world) :
  snd (get_source_files self w) = w.
Proof.
  destruct (windows_base (config self)) as [wb|] eqn:Hwb.
  - destruct (exists_ w wb) eqn:Hex.
    + now rewrite (get_source_files_run self wb w Hwb Hex).
    + unfold get_source_files. rewrite Hwb. unfold bind, gets. now rewrite Hex.
  - unfold get_source_files. now rewrite Hwb.
Qed.

Lemma get_destination_files_same (self : WSLSyncEngine) (w : world) :
  snd (get_destination_files self w) = w.
Proof.
  unfold get_destination_files.
  destruct (wsl2_base (config self)) as [db|]; [|reflexivity].
  unfold bind, gets. destruct (exists_ w db); cbn [negb]; [|reflexivity].
  now rewrite collect_files_run.
Qed.

(** What [cleanup_destination] returns. *)
Lemma cleanup_destination_returns (self : WSLSyncEngine) (db : Path)
  (keep_files : list Path) (w : world) :
  wsl2_base (config self) = Some db -> exists_ w db = true ->
  wfb (root w) = true -> denied w = [] ->
  exists w',
    cleanup_destination self keep_files w
    = (Ok (filter (fun f => negb (should_keep self db keep_files f))
                  (files_below w db)), w').
Proof.
  intros Hdb Hex Hwf Hden.
  unfold cleanup_destination. rewrite Hdb. unfold bind at 1.
  rewrite (get_destination_files_run self db w Hdb Hex).
  destruct (is_dir w db) eqn:Edir.
  2:{ assert (files_below w db = []) as Hnone
        by (unfold files_below; now rewrite Path_rglob_not_dir).
      rewrite Hnone. simpl. unfold bind, gets, ret.
      rewrite Path_rglob_not_dir by exact Edir. simpl. now exists w. }
  unfold is_dir, stat in Edir.
  destruct (locate w db) as [q| |] eqn:Hq; try discriminate Edir.
  destruct (lookup (root w) q) as [[d|ks]|] eqn:Eq; try discriminate Edir.
  assert (stat w db = Some (Dir ks)) as Hstat by (unfold stat; now rewrite Hq).
  assert (wfb (Dir ks) = true) as Hwfd by exact (wfb_lookup _ _ _ Hwf Eq).
  set (R := filter (fun rel => is_file w (below db rel)) (rglob_node (Dir ks))).
  assert (files_below w db = map (below db) R) as Hfiles.
  { unfold files_below. rewrite (Path_rglob_dir w db ks Hstat Hden).
    apply filter_map_comm. }
  assert (forall rel, In rel R ->
            rel <> [] /\ forallb not_dotdot rel = true /\
            kind_at w (q ++ rel) = KFile) as HR.
  { intros rel Hin. apply filter_In in Hin as [Hin Hf].
    pose proof (proj1 (rglob_In (Dir ks) Hwfd rel) Hin) as [Hne Hlk].
    destruct (lookup (Dir ks) rel) as [c|] eqn:Ec; [|congruence].
    pose proof (lookup_not_dotdot rel (Dir ks) c Hwfd Ec) as Hpl.
    split; [exact Hne|]. split; [exact Hpl|].
    rewrite (is_file_below w db q rel Hq Hpl) in Hf.
    destruct (kind_at w (q ++ rel)); now simpl in Hf. }
  assert (NoDup R) as HndR by (apply NoDup_filter, rglob_NoDup, Hwfd).
  destruct (delete_loop self db keep_files q R HndR [] w Hq HR)
    as (w1 & Hrun & Hc1 & Hd1 & Hq1 & Hk1).
  rewrite Hfiles. unfold bind at 1. rewrite Hrun.
  unfold bind at 1. unfold gets at 1.
  destruct (prune_loop (Path_rglob w1 db) w1) as (w' & Hprune & _);
    [congruence|].
  unfold bind. rewrite Hprune. unfold ret. exists w'.
  simpl. now rewrite filter_map_comm.
Qed.

(** The lines of the dry run over files that lie below the root. *)
Lemma would_delete_below (c : WSLSyncConfig) (db : Path) (l : list Path) :
  wsl2_base c = Some db ->
  (forall f, In f l -> exists rel, relative_to f db = Some rel) ->
  would_delete c l
  = (map (fun f => Info ("  Would delete: " ++ str f))
         (filter (fun f => negb (should_keep (mkEngine c) db [] f)) l),
     None).
Proof.
  intros Hdb. induction l as [|f l IH]; intros Hl; [reflexivity|].
  cbn [would_delete]. rewrite Hdb.
  destruct (Hl f (or_introl eq_refl)) as [rel Hrel].
  rewrite IH by (intros x Hx; apply Hl; now right).
  cbn [filter]. unfold should_keep at 2. rewrite Hrel. cbn [Path_in existsb orb config].
  destruct (existsb (matches_entry rel) (files c)); reflexivity.
Qed.

(** X16. What a dry run reports, for a configuration that is read and
    valid and roots that exist: the exit code is 0, nothing is changed,
    the files listed as to copy are those of [get_source_files], and the
    files listed as to delete are, in order, those that
    [cleanup_destination] called with an empty keep set deletes. *)
Theorem run_sync_dry_run
  (decode : string -> result string) (p : Path) (verbose : bool) (w : world)
  (c : WSLSyncConfig) (wb db : Path) :
  parse_config decode p w = (Ok c, w) ->
  validate_config c = Ok true ->
  windows_base c = Some wb -> wsl2_base c = Some db ->
  exists_ w wb = true -> exists_ w db = true ->
  wfb (root w) = true -> denied w = [] ->
  exists copies deletes w',
    get_source_files (mkEngine c) w = (Ok copies, w) /\
    cleanup_destination (mkEngine c) [] w = (Ok deletes, w') /\
    run_sync decode p true verbose w
    = ((0%Z,
        [Info ("Loading configuration from: " ++ str p);
         Info "DRY RUN MODE - No changes will be made";
         Info ("Would copy " ++ str_len copies ++ " files")]
          ++ map (fun f => Info ("  Would copy: " ++ str f)) copies
          ++ [Info "Would clean up files not in sync list"]
          ++ map (fun f => Info ("  Would delete: " ++ str f)) deletes),
       w).
Proof.
  intros Hparse Hvalid Hwb Hdb Hexw Hexd Hwf Hden.
  destruct (cleanup_destination_returns (mkEngine c) db [] w Hdb Hexd Hwf Hden)
    as [w' Hclean].
  eexists. eexists. exists w'.
  split; [exact (get_source_files_run (mkEngine c) wb w Hwb Hexw)|].
  split; [exact Hclean|].
  unfold run_sync. rewrite Hparse, Hvalid. cbn [WSLSyncEngine_init].
  rewrite (get_source_files_run (mkEngine c) wb w Hwb Hexw).
  rewrite (get_destination_files_run (mkEngine c) db w Hdb Hexd).
  rewrite (would_delete_below c db (files_below w db) Hdb).
  - rewrite <- !app_assoc. reflexivity.
  - intros f Hf. unfold files_below in Hf. apply filter_In in Hf as [Hf _].
    apply Path_rglob_below in Hf as (rel & _ & ->).
    exists (mkPath false rel). apply relative_to_below.
Qed.

Lemma run_sync_dry_run_sample :
  exists copies deletes w',
    get_source_files
      (mkEngine (mkConfig (Some (Path_of_string "/src"))
                          (Some (Path_of_string "/dst")) ["a.txt"; "sub"]))
      world_cli
    = (Ok copies, world_cli) /\
    cleanup_destination
      (mkEngine (mkConfig (Some (Path_of_string "/src"))
                          (Some (Path_of_string "/dst")) ["a.txt"; "sub"]))
      [] world_cli
    = (Ok deletes, w') /\
    run_sync ascii_codec (Path_of_string "/cfg") true false world_cli
    = ((0%Z,
        [Info ("Loading configuration from: " ++ str (Path_of_string "/cfg"));
         Info "DRY RUN MODE - No changes will be made";
         Info ("Would copy " ++ str_len copies ++ " files")]
          ++ map (fun f => Info ("  Would copy: " ++ str f)) copies
          ++ [Info "Would clean up files not in sync list"]
          ++ map (fun f => Info ("  Would delete: " ++ str f)) deletes),
       world_cli).
Proof.
  apply (run_sync_dry_run ascii_codec (Path_of_string "/cfg") false world_cli
           (mkConfig (Some (Path_of_string "/src"))
                     (Some (Path_of_string "/dst")) ["a.txt"; "sub"])
           (Path_of_string "/src") (Path_of_string "/dst"));
    reflexivity.
Defined.

(** Printing ends without an exception exactly when every line can be
    encoded. *)
Lemma print_lines_ok (encode : string -> result string) (msgs : list string) :
  forall out,
    (snd (print_lines encode out msgs) = None <->
     forall msg, In msg msgs -> exists b, encode msg = Ok b).
Proof.
  induction msgs as [|m msgs IH]; intros out; simpl.
  - split; [intros _ msg []|reflexivity].
  - destruct (encode m) as [b|e] eqn:E.
    + rewrite IH. split.
      * intros H msg [<-|Hin]; [now exists b|now apply H].
      * intros H msg Hin. apply H. now right.
    + simpl. split; [discriminate|]. intros H.
      destruct (H m (or_introl eq_refl)) as [b Hb]. congruence.
Qed.

(** X17. The two commands and the configuration.  Neither
    [validate_config_command] nor a dry run ever changes the file system.
    [validate_config_command] returns 0 or 1, and 0 exactly when its first
    line can be encoded for the standard output, the file is read, the
    configuration is valid and every line of the report can be encoded: in
    a locale that cannot encode the check mark of the report it returns 1
    on a valid configuration.  When the file is not read or the
    configuration is not valid, both commands return 1 and [run_sync]
    changes nothing.  With a configuration that is read and valid, a run
    that is not dry leaves what [sync] leaves, and returns 0 exactly when
    [sync] returns. *)
Theorem commands_outcome
  (decode encode : string -> result string) (p : Path) (w : world) :
  snd (validate_config_command decode encode p w) = w /\
  (fst (fst (validate_config_command decode encode p w)) = 0%Z \/
   fst (fst (validate_config_command decode encode p w)) = 1%Z) /\
  (fst (fst (validate_config_command decode encode p w)) = 0%Z <->
   (exists b, encode (first_line p) = Ok b) /\
   exists c, fst (parse_config decode p w) = Ok c /\
             validate_config c = Ok true /\
             forall msg, In msg (report c) -> exists b, encode msg = Ok b) /\
  ((forall c, fst (parse_config decode p w) = Ok c ->
              validate_config c <> Ok true) ->
   fst (fst (validate_config_command decode encode p w)) = 1%Z /\
   forall dry verbose,
     fst (fst (run_sync decode p dry verbose w)) = 1%Z /\
     snd (run_sync decode p dry verbose w) = w) /\
  (forall verbose, snd (run_sync decode p true verbose w) = w) /\
  (forall c, fst (parse_config decode p w) = Ok c ->
             validate_config c = Ok true ->
     forall verbose,
       snd (run_sync decode p false verbose w) = snd (sync (mkEngine c) w) /\
       (fst (fst (run_sync decode p false verbose w)) = 0%Z <->
        exists w', sync (mkEngine c) w = (Ok tt, w'))).
Proof.
  pose proof (parse_config_same decode p w) as Hw.
  assert (forall c, validate_config c = Ok true \/
                    exists e, validate_config c = Raise e) as Hv.
  { intros c. unfold validate_config.
    destruct (windows_base c); [|eauto]. destruct (wsl2_base c); [|eauto].
    destruct (files c); [eauto|]. destruct (_ || _); [eauto|].
    destruct (_ || _); [eauto|]. destruct (negb _); eauto. }
  unfold validate_config_command, run_sync. cbn [print_lines].
  destruct (parse_config decode p w) as [[c|e] w1]; cbn [fst snd] in *; subst w1.
  - destruct (Hv c) as [Hc|[e Hc]]; rewrite Hc; cbn [fst snd WSLSyncEngine_init].
    + pose proof (print_lines_ok encode (report c)) as Hrep.
      split; [|split; [|split; [|split; [|split]]]].
      * destruct (encode (first_line p)); [|reflexivity].
        now destruct (print_lines encode _ (report c)) as [out [e|]].
      * destruct (encode (first_line p)); [|now right].
        destruct (print_lines encode _ (report c)) as [out [e|]];
          [now right|now left].
      * destruct (encode (first_line p)) as [b|e] eqn:E1.
        -- specialize (Hrep ([] ++ [Out (first_line p)])).
           destruct (print_lines encode _ (report c)) as [out [e|]];
             cbn [fst snd] in *.
           ++ split; [discriminate|]. intros (_ & c' & [= <-] & _ & H).
              apply Hrep in H. discriminate H.
           ++ split; [|reflexivity]. intros _. split; [now exists b|].
              exists c. split; [reflexivity|]. split; [exact Hc|].
              now apply Hrep.
        -- cbn [fst]. split; [discriminate|]. intros [[b Hb] _]. discriminate Hb.
      * intros H. now elim (H c eq_refl).
      * intros verbose.
        pose proof (get_source_files_same (mkEngine c) w) as H1.
        destruct (get_source_files (mkEngine c) w) as [[l1|e1] w2];
          cbn [snd] in H1; subst w2; [|reflexivity].
        pose proof (get_destination_files_same (mkEngine c) w) as H2.
        destruct (get_destination_files (mkEngine c) w) as [[l2|e2] w3];
          cbn [snd] in H2; subst w3; [|reflexivity].
        destruct (would_delete c l2) as [lines [e3|]]; reflexivity.
      * intros c' [= <-] _ verbose.
        destruct (sync (mkEngine c) w) as [[[]|e] w2]; cbn [fst snd].
        -- split; [reflexivity|]. split; [intros _; now exists w2|reflexivity].
        -- split; [reflexivity|]. split; [discriminate|].
           intros [w' H]. discriminate H.
    + split; [now destruct (encode (first_line p))|].
      split; [right; now destruct (encode (first_line p))|]. split.
      { split.
        - destruct (encode (first_line p)); discriminate.
        - intros (_ & c' & [= <-] & H & _). congruence. }
      split.
      { intros _. split; [now destruct (encode (first_line p))|].
        intros dry verbose. now split. }
      split; [reflexivity|]. intros c' [= <-] H. congruence.
  - split; [now destruct (encode (first_line p))|].
    split; [right; now destruct (encode (first_line p))|]. split.
    { split.
      - destruct (encode (first_line p)); discriminate.
      - intros (_ & c' & H & _). discriminate H. }
    split.
    { intros _. split; [now destruct (encode (first_line p))|].
      intros dry verbose. now split. }
    split; [reflexivity|]. intros c' H. discriminate H.
Qed.

(** In an ASCII locale the command returns 1 on a configuration that is
    read and valid: the check mark of the report cannot be encoded, and the
    exception is reported as a configuration error. *)
Lemma validate_config_command_ascii_locale :
  (exists c, fst (parse_config ascii_codec (Path_of_string "/cfg") world_cli) = Ok c /\
             validate_config c = Ok true) /\
  validate_config_command ascii_codec ascii_encoder (Path_of_string "/cfg")
                          world_cli
  = ((1%Z,
      [Out "Validating configuration file: /cfg";
       Err "Configuration error: "
           (ValueError "'ascii' codec can't encode character")]),
     world_cli) /\
  fst (fst (validate_config_command ascii_codec (fun s => Ok s)
                                    (Path_of_string "/cfg") world_cli)) = 0%Z.
Proof.
  split; [|split; vm_compute; reflexivity].
  eexists. split; vm_compute; reflexivity.
Qed.

End CliProps.

Module FileEntryProps.

Import PrefixProps PathSafety TreeProps WfProps WalkProps RemoveProps GrowProps.
Import CopyProps CleanupProps ValidateProps KeepProps MkdirProps ListingProps.
Import ConfineProps ShrinkProps.

(* ===================================================================== *)
(** * Prefixes of a location below another *)
(* ===================================================================== *)

Lemma is_prefix_length (a b : list string) :
  is_prefix a b = true -> List.length a <= List.length b.
Proof.
  intros H. destruct (proj1 (is_prefix_iff a b) H) as [t ->].
  rewrite length_app. lia.
Qed.

Lemma is_prefix_app_cases (q : list string) :
  forall a u, is_prefix a (q ++ u) = true ->
    (is_prefix a q = true /\ a <> q) \/
    exists s, a = q ++ s /\ is_prefix s u = true.
Proof.
  induction q as [|x q IH]; intros a u H.
  - right. now exists a.
  - destruct a as [|y a].
    + left. split; [reflexivity|discriminate].
    + simpl in H. apply andb_true_iff in H as [Hx H].
      pose proof Hx as Hx'. apply String.eqb_eq in Hx'. subst y.
      destruct (IH a u H) as [[Hp Hne]|[s [-> Hs]]].
      * left. simpl. rewrite Hx, Hp. split; [reflexivity|congruence].
      * right. now exists s.
Qed.

(** What lies on the way to an existing location is a directory. *)
Lemma prefix_of_existing_is_dir (t : node) (a q : list string) :
  is_prefix a q = true -> a <> q -> lookup t q <> None ->
  kind_of (lookup t a) = KDir.
Proof.
  intros Hp Hne Hq. destruct (proj1 (is_prefix_iff a q) Hp) as [s ->].
  destruct s as [|x s]; [now rewrite app_nil_r in Hne|].
  exact (lookup_prefix_dir t a s x Hq).
Qed.

(** A plain path leads to its lexical location or nowhere. *)
Lemma locate_plain_At (w : world) (p : Path) (r : list string) :
  plain p = true -> locate w p = At r -> r = loc w p.
Proof.
  unfold plain, locate, loc. intros Hp H.
  pose proof (walk_plain_lookup (root w) (parts p) Hp
                (if absolute p then [] else cwd w)) as Hw.
  rewrite H in Hw. exact Hw.
Qed.

(** Writing a regular file makes no directory. *)
Lemma set_file_no_new_dir (t : node) (r : list string) (d : string) (a : list string) :
  r <> [] -> kind_of (lookup t (removelast r)) = KDir ->
  kind_of (lookup (set_at r (Some (File d)) t) a) = KDir ->
  kind_of (lookup t a) = KDir.
Proof.
  intros Hne Hpar H.
  destruct (is_prefix r a) eqn:Era.
  - destruct (proj1 (is_prefix_iff r a) Era) as [s ->].
    rewrite (set_at_under r (Some (File d)) t s Hne Hpar) in H.
    destruct s; discriminate H.
  - destruct (is_prefix a r) eqn:Ear.
    + rewrite set_at_above in H; [exact H|exact Ear|].
      intros ->. now rewrite is_prefix_refl in Era.
    + now rewrite set_at_apart in H.
Qed.

(* ===================================================================== *)
(** * What making directories and copying a file write *)
(* ===================================================================== *)

(** [os.mkdir] changes nothing, or makes one empty directory where the
    path leads. *)
Lemma os_mkdir_at (p : Path) (w w' : world) (r : result unit) :
  os_mkdir p w = (r, w') ->
  w' = w \/
  exists q, locate w p = At q /\ lookup (root w) q = None /\ q <> [] /\
            kind_at w (removelast q) = KDir /\
            w' = with_root w (set_at q (Some (Dir [])) (root w)).
Proof.
  unfold os_mkdir, walk_error, raise. intros H.
  destruct (locate w p) as [q| |].
  - destruct (lookup (root w) q) as [c|] eqn:Eq.
    + left. now inversion H.
    + destruct (can_create w q) eqn:Ec.
      * right. exists q. apply (f_equal snd) in H. cbn [snd] in H.
        unfold can_create in Ec. destruct q as [|x q]; [discriminate Ec|].
        repeat split; try congruence.
        destruct (kind_at w (removelast (x :: q))); now try discriminate Ec.
      * left. now inversion H.
  - left. now inversion H.
  - left. now inversion H.
Qed.

(** A property of every [os.mkdir] on the way holds of [mkdir(parents=True)]
    as a whole. *)
Lemma mkdir_parents_rel (R : world -> world -> Prop) (abs : bool) :
  (forall w, R w w) -> (forall a b c, R a b -> R b c -> R a c) ->
  forall rparts,
    (forall pre up w w' r,
       rparts = pre ++ up ->
       os_mkdir (mkPath abs (rev up)) w = (r, w') -> R w w') ->
    forall w w' r, mkdir_parents abs rparts w = (r, w') -> R w w'.
Proof.
  intros Hrefl Htrans.
  induction rparts as [|c up IH]; intros Hstep w w' r H; simpl in H.
  - pose proof (Hstep [] [] w) as Hs. simpl in Hs.
    destruct (os_mkdir _ w) as [[u|e] w1] eqn:E.
    + inversion H; subst. exact (Hs _ _ eq_refl eq_refl).
    + pose proof (Hs _ _ eq_refl eq_refl) as Hp.
      destruct e; try (destruct (_ && _)); inversion H; subst; exact Hp.
  - pose proof (fun w w' r => Hstep [] (c :: up) w w' r eq_refl) as Hs.
    simpl in Hs.
    assert (forall w w' r, mkdir_parents abs up w = (r, w') -> R w w') as IH'.
    { apply IH. intros pre up' v v' r' -> Hm.
      exact (Hstep (c :: pre) up' v v' r' eq_refl Hm). }
    destruct (os_mkdir _ w) as [[u|e] w1] eqn:E.
    + inversion H; subst. exact (Hs _ _ _ E).
    + pose proof (Hs _ _ _ E) as Hp.
      destruct e;
        try (destruct (_ && _); inversion H; subst; exact Hp).
      unfold bind in H.
      destruct (mkdir_parents abs up w1) as [[u|e] w2] eqn:E2.
      * apply IH' in E2.
        destruct (os_mkdir _ w2) as [[u'|e'] w3] eqn:E3.
        -- inversion H; subst.
           exact (Htrans _ _ _ Hp (Htrans _ _ _ E2 (Hs _ _ _ E3))).
        -- pose proof (Hs _ _ _ E3) as Hp3.
           destruct e'; try (destruct (_ && _)); inversion H; subst;
             exact (Htrans _ _ _ Hp (Htrans _ _ _ E2 Hp3)).
      * inversion H; subst. apply IH' in E2. exact (Htrans _ _ _ Hp E2).
Qed.

Lemma is_prefix_app_r (a b s : list string) :
  is_prefix a b = true -> is_prefix a (b ++ s) = true.
Proof.
  intros H. destruct (proj1 (is_prefix_iff a b) H) as [t ->].
  rewrite <- app_assoc. apply is_prefix_app_l.
Qed.

(** [mkdir(parents=True)] on a path without [..]: the tree stays well
    formed, the refused directories are the same, and a directory that was
    not there before lies on the way to the target or is the target. *)
Lemma mkdir_parents_made (abs : bool) (c0 : list string) (rparts : list string) :
  forallb not_dotdot ((if abs then [] else c0) ++ rev rparts) = true ->
  forall w w' r,
    mkdir_parents abs rparts w = (r, w') ->
    cwd w = c0 -> wfb (root w) = true ->
    wfb (root w') = true /\ denied w' = denied w /\
    forall a, kind_at w' a = KDir ->
      kind_at w a = KDir \/
      is_prefix a ((if abs then [] else c0) ++ rev rparts) = true.
Proof.
  intros Hpl.
  set (T := (if abs then [] else c0) ++ rev rparts) in *.
  enough (forall w w' r,
            mkdir_parents abs rparts w = (r, w') ->
            cwd w = c0 -> wfb (root w) = true ->
            cwd w' = c0 /\ wfb (root w') = true /\ denied w' = denied w /\
            forall a, kind_at w' a = KDir ->
                      kind_at w a = KDir \/ is_prefix a T = true) as Hen.
  { intros w w' r H Hc Hwf.
    destruct (Hen w w' r H Hc Hwf) as (_ & H1 & H2 & H3). now repeat split. }
  apply (mkdir_parents_rel
           (fun w w' =>
              cwd w = c0 -> wfb (root w) = true ->
              cwd w' = c0 /\ wfb (root w') = true /\ denied w' = denied w /\
              forall a, kind_at w' a = KDir ->
                        kind_at w a = KDir \/ is_prefix a T = true)
           abs).
  - intros w Hc Hwf. repeat split; auto.
  - intros a b c Hab Hbc Hc Hwf.
    destruct (Hab Hc Hwf) as (Hc1 & Hwf1 & Hd1 & Hk1).
    destruct (Hbc Hc1 Hwf1) as (Hc2 & Hwf2 & Hd2 & Hk2).
    repeat split; try congruence.
    intros x Hx. destruct (Hk2 x Hx) as [Hx1|Hx1]; [|now right].
    exact (Hk1 x Hx1).
  - intros pre up w w' r Hparts H Hc Hwf.
    assert (T = ((if abs then [] else c0) ++ rev up) ++ rev pre) as HT.
    { unfold T. rewrite Hparts, rev_app_distr. apply app_assoc. }
    destruct (os_mkdir_at _ _ _ _ H) as [->|(q & Hq & Hnone & Hne & Hpar & ->)].
    + repeat split; auto.
    + assert (q = (if abs then [] else c0) ++ rev up) as Eq.
      { apply locate_plain_At in Hq.
        - rewrite Hq. unfold loc. cbn [absolute parts]. now rewrite Hc.
        - unfold plain. cbn [parts]. rewrite HT in Hpl.
          rewrite !forallb_app in Hpl.
          apply andb_true_iff in Hpl as [Hpl _].
          now apply andb_true_iff in Hpl as [_ Hpl]. }
      assert (forallb not_dotdot q = true) as Hqpl.
      { rewrite Eq. rewrite HT, forallb_app in Hpl.
        now apply andb_true_iff in Hpl as [Hpl _]. }
      cbn [cwd root denied with_root]. repeat split; auto.
      * apply wfb_set_at; [exact Hwf|].
        intros n Hn. inversion Hn; subst n. split; [reflexivity|].
        pose proof (last_forallb not_dotdot q "" Hqpl eq_refl) as Hl.
        unfold not_dotdot in Hl. intros E. rewrite E in Hl. discriminate Hl.
      * intros a Ha. unfold kind_at in *. cbn [root with_root] in Ha.
        destruct (is_prefix q a) eqn:Eqa.
        -- destruct (proj1 (is_prefix_iff q a) Eqa) as [s ->].
           rewrite (set_at_under q (Some (Dir [])) (root w) s Hne Hpar) in Ha.
           destruct s as [|x s].
           ++ right. rewrite app_nil_r, HT, <- Eq. apply is_prefix_app_l.
           ++ simpl in Ha. discriminate Ha.
        -- destruct (is_prefix a q) eqn:Eaq.
           ++ left. rewrite set_at_above in Ha; [exact Ha|exact Eaq|].
              intros ->. now rewrite is_prefix_refl in Eqa.
           ++ left. now rewrite set_at_apart in Ha.
Qed.

(** [shutil.copy2] onto a path that is no directory writes the content of
    the source where that path leads, and nothing else. *)
Lemma shutil_copy2_at (src dst : Path) (w w' : world) :
  shutil_copy2 src dst w = (Ok tt, w') -> is_dir w dst = false ->
  exists r data,
    locate w dst = At r /\ stat w src = Some (File data) /\
    kind_at w r <> KDir /\
    (r <> [] -> kind_at w (removelast r) = KDir) /\
    w' = with_root w (set_at r (Some (File data)) (root w)).
Proof.
  unfold shutil_copy2, walk_error, raise. intros H Hd. rewrite Hd in H.
  destruct (samefile w src dst); [discriminate H|].
  destruct (stat w src) as [[data|ks]|]; try discriminate H.
  destruct (locate w dst) as [r| |] eqn:El; try discriminate H.
  exists r, data. unfold kind_at.
  destruct (lookup (root w) r) as [[d|ks]|] eqn:Er; try discriminate H.
  - apply (f_equal snd) in H. cbn [snd] in H.
    repeat split; try congruence; try discriminate.
    intros Hne. exact (lookup_parent_dir _ _ _ Hne Er).
  - destruct (can_create w r) eqn:Ec; [|discriminate H].
    apply (f_equal snd) in H. cbn [snd] in H.
    repeat split; try congruence; try discriminate.
    intros _. unfold can_create in Ec. destruct r as [|x r]; [discriminate Ec|].
    unfold kind_at in Ec.
    destruct (kind_of (lookup (root w) (removelast (x :: r)))); now try discriminate Ec.
Qed.

Lemma length_removelast (l : list string) :
  l <> [] -> S (List.length (removelast l)) = List.length l.
Proof.
  induction l as [|x l IH]; [congruence|]. intros _.
  destruct l as [|y l]; [reflexivity|].
  change (removelast (x :: y :: l)) with (x :: removelast (y :: l)).
  simpl List.length. f_equal. apply IH. discriminate.
Qed.

(* ===================================================================== *)
(** * When making the directories succeeds *)
(* ===================================================================== *)

(** A walk downwards stops at a regular file only if there is one on the
    way. *)
Lemma walk_NotDir (t : node) (cs : list string) :
  forallb not_dotdot cs = true ->
  forall acc, walk t acc cs = NotDir ->
    exists a, is_prefix a (acc ++ removelast cs) = true /\
              kind_of (lookup t a) = KFile.
Proof.
  induction cs as [|c r IH]; intros Hpl acc H; [discriminate H|].
  simpl in Hpl. apply andb_true_iff in Hpl as [Hc Hpl].
  cbn [walk] in H. destruct (lookup t acc) as [[d|ks]|] eqn:El.
  - exists acc. split; [apply is_prefix_app_l|now rewrite El].
  - unfold not_dotdot in Hc. destruct (String.eqb c ".."); [discriminate Hc|].
    destruct r as [|c' r]; [discriminate H|].
    destruct (IH Hpl _ H) as (a & Ha & Hk). exists a. split; [|exact Hk].
    change (removelast (c :: c' :: r)) with (c :: removelast (c' :: r)).
    now rewrite <- app_assoc in Ha.
  - discriminate H.
Qed.

(** A walk downwards arrives when the parent of the last component is a
    directory. *)
Lemma walk_parent_dir (t : node) (cs : list string) :
  forallb not_dotdot cs = true -> cs <> [] ->
  forall acc, kind_of (lookup t (acc ++ removelast cs)) = KDir ->
              walk t acc cs = At (acc ++ cs).
Proof.
  induction cs as [|c r IH]; intros Hpl Hne acc Hk; [congruence|].
  simpl in Hpl. apply andb_true_iff in Hpl as [Hc Hpl].
  unfold not_dotdot in Hc. cbn [walk].
  destruct r as [|c' r].
  - simpl in Hk. rewrite app_nil_r in Hk.
    destruct (lookup t acc) as [[d|ks]|]; try discriminate Hk.
    destruct (String.eqb c ".."); [discriminate Hc|reflexivity].
  - change (removelast (c :: c' :: r)) with (c :: removelast (c' :: r)) in Hk.
    assert (kind_of (lookup t acc) = KDir) as Ha.
    { apply (lookup_prefix_dir t acc (removelast (c' :: r)) c).
      destruct (lookup t (acc ++ c :: removelast (c' :: r)));
        [discriminate|discriminate Hk]. }
    destruct (lookup t acc) as [[d|ks]|]; try discriminate Ha.
    destruct (String.eqb c ".."); [discriminate Hc|].
    rewrite (IH Hpl ltac:(discriminate) (acc ++ [c])).
    + now rewrite <- app_assoc.
    + now rewrite <- app_assoc.
Qed.

(** Making an empty directory makes no regular file. *)
Lemma set_dir_no_new_file (t : node) (r a : list string) :
  r <> [] -> kind_of (lookup t (removelast r)) = KDir ->
  kind_of (lookup (set_at r (Some (Dir [])) t) a) = KFile ->
  kind_of (lookup t a) = KFile.
Proof.
  intros Hne Hpar H.
  destruct (is_prefix r a) eqn:Era.
  - destruct (proj1 (is_prefix_iff r a) Era) as [s ->].
    rewrite (set_at_under r (Some (Dir [])) t s Hne Hpar) in H.
    destruct s; discriminate H.
  - destruct (is_prefix a r) eqn:Ear.
    + rewrite set_at_above in H; [exact H|exact Ear|].
      intros ->. now rewrite is_prefix_refl in Era.
    + now rewrite set_at_apart in H.
Qed.

Lemma mkdir_parents_no_new_file (abs : bool) (rparts : list string) :
  forall w w' r, mkdir_parents abs rparts w = (r, w') ->
    forall a, kind_at w' a = KFile -> kind_at w a = KFile.
Proof.
  apply (mkdir_parents_rel
           (fun w w' => forall a, kind_at w' a = KFile -> kind_at w a = KFile)
           abs); [auto|auto|].
  intros pre up w w' r _ H a Ha.
  destruct (os_mkdir_at _ _ _ _ H) as [->|(q & _ & _ & Hne & Hpar & ->)];
    [exact Ha|].
  exact (set_dir_no_new_file _ _ _ Hne Hpar Ha).
Qed.

(** [os.mkdir] below a directory, at a place not taken by a regular file:
    the directory is made, or it is there already. *)
Lemma os_mkdir_parent_dir (p : Path) (w : world) :
  plain p = true -> parts p <> [] ->
  kind_at w (removelast (loc w p)) = KDir ->
  kind_at w (loc w p) <> KFile ->
  (exists w', os_mkdir p w = (Ok tt, w')) \/
  (exists m, os_mkdir p w = (Raise (FileExistsError m), w) /\ is_dir w p = true).
Proof.
  intros Hpl Hne Hpar Hnf.
  assert (loc w p <> []) as Hlne.
  { unfold loc. intros E. apply app_eq_nil in E as [_ E]. now apply Hne. }
  assert (locate w p = At (loc w p)) as Hloc.
  { unfold locate, loc. apply walk_parent_dir; [exact Hpl|exact Hne|].
    unfold loc in Hpar. rewrite removelast_app in Hpar by exact Hne.
    exact Hpar. }
  unfold os_mkdir, is_dir, stat. rewrite Hloc. unfold kind_at in Hnf.
  destruct (lookup (root w) (loc w p)) as [[d|ks]|] eqn:El.
  - now elim Hnf.
  - right. eexists. split; reflexivity.
  - left. unfold can_create. destruct (loc w p) as [|x l]; [congruence|].
    rewrite Hpar. eexists. reflexivity.
Qed.

(** [os.mkdir] where the parent is missing, with no regular file on the
    way: [FileNotFoundError], and nothing is written. *)
Lemma os_mkdir_no_parent (p : Path) (w : world) :
  plain p = true -> parts p <> [] ->
  kind_at w (removelast (loc w p)) <> KDir ->
  (forall a, is_prefix a (removelast (loc w p)) = true -> kind_at w a <> KFile) ->
  exists m, os_mkdir p w = (Raise (FileNotFoundError m), w).
Proof.
  intros Hpl Hne Hpar Hnf.
  assert (loc w p <> []) as Hlne.
  { unfold loc. intros E. apply app_eq_nil in E as [_ E]. now apply Hne. }
  unfold os_mkdir, walk_error, raise.
  destruct (locate w p) as [r| |] eqn:Hloc.
  - apply (locate_plain_At w p r Hpl) in Hloc. subst r.
    destruct (lookup (root w) (loc w p)) as [c|] eqn:El.
    + elim Hpar. exact (lookup_parent_dir _ _ _ Hlne El).
    + unfold can_create. destruct (loc w p) as [|x l]; [congruence|].
      destruct (kind_at w (removelast (x :: l))) eqn:Ek.
      * now exists (str p).
      * now exists (str p).
      * now elim Hpar.
  - now eexists.
  - exfalso. unfold locate in Hloc.
    apply (walk_NotDir _ _ Hpl) in Hloc as (a & Ha & Hk).
    apply (Hnf a); [|exact Hk].
    unfold loc. now rewrite removelast_app by exact Hne.
Qed.

Lemma forallb_rev (f : string -> bool) (l : list string) :
  forallb f (rev l) = forallb f l.
Proof.
  induction l as [|x l IH]; [reflexivity|].
  simpl. rewrite forallb_app, IH. simpl. rewrite andb_true_r. apply andb_comm.
Qed.

(** [mkdir(parents=True, exist_ok=True)] succeeds when it starts from a
    directory and no regular file is on the way or in its place. *)
Lemma mkdir_parents_succeeds (abs : bool) (rparts : list string) :
  forallb not_dotdot rparts = true ->
  forall w,
    kind_at w (if abs then [] else cwd w) = KDir ->
    (forall a, is_prefix a ((if abs then [] else cwd w) ++ rev rparts) = true ->
               kind_at w a <> KFile) ->
    exists w', mkdir_parents abs rparts w = (Ok tt, w').
Proof.
  induction rparts as [|c up IH]; intros Hpl w Hstart Hnf.
  - simpl. unfold os_mkdir, locate. cbn [absolute parts walk].
    unfold kind_at in Hstart.
    destruct (lookup (root w) (if abs then [] else cwd w)) as [[d|ks]|] eqn:El;
      try discriminate Hstart.
    cbn [is_OSError andb]. unfold is_dir, stat, locate.
    cbn [absolute parts walk]. rewrite El. cbn. now eexists.
  - simpl in Hpl. apply andb_true_iff in Hpl as [Hc Hpl].
    set (p := mkPath abs (rev up ++ [c])).
    assert (plain p = true) as Hppl.
    { unfold plain, p. cbn [parts]. rewrite forallb_app, forallb_rev, Hpl.
      simpl. now rewrite Hc. }
    assert (parts p <> []) as Hpne by (unfold p; cbn [parts]; now destruct (rev up)).
    assert (forall v, cwd v = cwd w ->
              loc v p = ((if abs then [] else cwd w) ++ rev up) ++ [c]) as Hlp.
    { intros v Hv. unfold loc, p. cbn [absolute parts]. rewrite Hv.
      now rewrite app_assoc. }
    assert (forall v, cwd v = cwd w ->
              removelast (loc v p) = (if abs then [] else cwd w) ++ rev up) as Hrl.
    { intros v Hv. rewrite (Hlp v Hv). apply removelast_last. }
    assert (forall v, cwd v = cwd w ->
              kind_at v ((if abs then [] else cwd w) ++ rev up) = KDir ->
              kind_at v (loc v p) <> KFile ->
              exists v', (fun w0 =>
                match os_mkdir p w0 with
                | (Raise (FileNotFoundError m), w') => (Raise (FileNotFoundError m), w')
                | (Raise e, w') =>
                    if is_OSError e && is_dir w' p then (Ok tt, w') else (Raise e, w')
                | r => r
                end) v = (Ok tt, v')) as Htol.
    { intros v Hv Hpar Hfile. cbv beta.
      destruct (os_mkdir_parent_dir p v Hppl Hpne) as [[v' E]|[m [E Hd]]];
        [now rewrite (Hrl v Hv)|exact Hfile| |].
      - rewrite E. now exists v'.
      - rewrite E. cbn [is_OSError andb]. rewrite Hd. now exists v. }
    assert (kind_at w ((if abs then [] else cwd w) ++ rev up) = KDir \/
            kind_at w ((if abs then [] else cwd w) ++ rev up) <> KDir) as [Hpar|Epar].
    { destruct (kind_at w ((if abs then [] else cwd w) ++ rev up));
        [right|right|left]; congruence. }
    + destruct (os_mkdir_parent_dir p w Hppl Hpne) as [[v' E]|[m [E Hd]]].
      * now rewrite (Hrl w eq_refl).
      * apply Hnf. rewrite (Hlp w eq_refl). simpl rev. rewrite app_assoc.
        apply is_prefix_refl.
      * simpl. fold p. rewrite E. now exists v'.
      * simpl. fold p. rewrite E. cbn [is_OSError andb]. rewrite Hd. now exists w.
    + destruct (os_mkdir_no_parent p w Hppl Hpne) as [m E].
      * now rewrite (Hrl w eq_refl).
      * intros a Ha. apply Hnf. rewrite (Hrl w eq_refl) in Ha. simpl rev.
        rewrite app_assoc. now apply is_prefix_app_r.
      * simpl. fold p. rewrite E. unfold bind.
        destruct (IH Hpl w Hstart) as [w1 E1].
        { intros a Ha. apply Hnf. simpl rev. rewrite app_assoc.
          now apply is_prefix_app_r. }
        rewrite E1.
        pose proof (mkdir_parents_preserved _ _ _ _ _ E1) as (Hc1 & _ & _).
        apply Htol; [exact Hc1| |].
        -- pose proof (mkdir_parents_is_dir _ _ _ _ E1) as Hd.
           unfold is_dir in Hd. rewrite stat_plain in Hd
             by (unfold plain; cbn [parts]; now rewrite forallb_rev).
           unfold loc in Hd. cbn [absolute parts] in Hd. rewrite Hc1 in Hd.
           unfold kind_at.
           destruct (kind_of (lookup (root w1) _)); now try discriminate Hd.
        -- intros Hk. apply (mkdir_parents_no_new_file _ _ _ _ _ E1) in Hk.
           revert Hk. apply Hnf. rewrite (Hlp w1 Hc1). simpl rev.
           rewrite app_assoc. apply is_prefix_refl.
Qed.

(** [shutil.copy2] of a regular file onto a path below a directory that
    is neither the source itself nor a directory. *)
Lemma shutil_copy2_runs (src dst : Path) (w : world) (qs r : list string)
  (d : string) :
  is_dir w dst = false ->
  locate w src = At qs -> lookup (root w) qs = Some (File d) ->
  locate w dst = At r -> qs <> r ->
  r <> [] -> kind_at w (removelast r) = KDir ->
  shutil_copy2 src dst w
  = (Ok tt, with_root w (set_at r (Some (File d)) (root w))).
Proof.
  intros Hd Hs Hsl Hr Hne Hrne Hpar. unfold shutil_copy2. rewrite Hd.
  unfold samefile, stat. rewrite Hs, Hr, Hsl.
  destruct (parts_eqb qs r) eqn:E; [apply parts_eqb_eq in E; contradiction|].
  cbn [andb].
  destruct (lookup (root w) r) as [[c|ks]|] eqn:El.
  - reflexivity.
  - unfold is_dir, stat in Hd. rewrite Hr, El in Hd. discriminate Hd.
  - unfold can_create. destruct r as [|x r]; [congruence|].
    now rewrite Hpar.
Qed.

(* ===================================================================== *)
(** * Entries that are regular files *)
(* ===================================================================== *)

Section Entries.

Variable self : WSLSyncEngine.
Variables wb db : Path.
Variable w0 : world.
Variable qb : list string.

Let q : list string := loc w0 db.
Local Abbreviation rel e := (parts (Path_of_string e)).

Hypothesis Hdb : plain db = true.
Hypothesis Hwb : locate w0 wb = At qb.
Hypothesis Hq : kind_at w0 q = KDir.
Hypothesis Hwf0 : wfb (root w0) = true.

(** An entry that names a regular file of the source outside the
    destination, whose place in the destination is not taken by a
    directory. *)
Let good (e : string) : Prop :=
  absolute (Path_of_string e) = false /\
  forallb not_dotdot (rel e) = true /\
  kind_at w0 (qb ++ rel e) = KFile /\
  kind_at w0 (q ++ rel e) <> KDir /\
  is_prefix q (qb ++ rel e) = false.

(** What holds between two turns of the loop of [copy_files]. *)
Let Inv1 (w : world) : Prop :=
  cwd w = cwd w0 /\ denied w = denied w0 /\ wfb (root w) = true /\
  dir_mono (root w0) (root w) /\
  (forall a d, is_prefix q a = false ->
     lookup (root w0) a = Some (File d) -> lookup (root w) a = Some (File d)) /\
  (forall a, kind_at w a = KDir ->
     kind_at w0 a = KDir \/
     exists s, a = q ++ s /\ kind_at w0 (qb ++ s) = KDir) /\
  (forall a, kind_at w a = KFile ->
     kind_at w0 a = KFile \/
     exists s, a = q ++ s /\ kind_at w0 (qb ++ s) = KFile).

(** The entry has been copied. *)
Let Done (e : string) (w : world) : Prop :=
  lookup (root w) (q ++ rel e) = lookup (root w0) (qb ++ rel e).

Lemma q_plain : forallb not_dotdot q = true.
Proof.
  apply kind_dir in Hq as [ks Hks].
  exact (lookup_not_dotdot q (root w0) (Dir ks) Hwf0 Hks).
Qed.

Lemma good_nonempty (e : string) : good e -> rel e <> [].
Proof.
  intros (_ & _ & _ & Hdst & _) E. rewrite E, app_nil_r in Hdst. now apply Hdst.
Qed.

Lemma dest_loc (e : string) (w : world) :
  absolute (Path_of_string e) = false -> cwd w = cwd w0 ->
  loc w (join db e) = q ++ rel e.
Proof.
  intros Habs Hc. rewrite (join_relative db e Habs).
  unfold loc, below, q, loc. cbn [absolute parts]. rewrite Hc.
  now rewrite app_assoc.
Qed.

Lemma dest_parent_loc (e : string) :
  absolute (Path_of_string e) = false -> rel e <> [] ->
  (if absolute (parent (join db e)) then [] else cwd w0)
    ++ parts (parent (join db e))
  = q ++ removelast (rel e).
Proof.
  intros Habs Hne. rewrite (join_relative db e Habs).
  unfold parent, below, q, loc. cbn [absolute parts].
  rewrite removelast_app by exact Hne. now rewrite app_assoc.
Qed.

Lemma dest_plain (e : string) :
  absolute (Path_of_string e) = false -> forallb not_dotdot (rel e) = true ->
  plain (join db e) = true.
Proof.
  intros Habs Hpl. rewrite (join_relative db e Habs).
  now apply plain_below.
Qed.

Lemma Inv1_start : Inv1 w0.
Proof.
  repeat split; auto. intros a Ha; exact Ha.
Qed.

(** The source file of such an entry is read through its path. *)
Lemma source_file (e : string) (w : world) :
  good e -> Inv1 w ->
  exists d, lookup (root w0) (qb ++ rel e) = Some (File d) /\
            locate w wb = At qb /\
            stat w (join wb e) = Some (File d).
Proof.
  intros (Habs & Hpl & Hsrc & Hdst & Hout) (Hc & Hd & Hwf & Hmono & Hkeep & _).
  apply kind_file in Hsrc as [d Hd0]. exists d.
  assert (locate w wb = At qb) as Hwb'.
  { apply (locate_grows w0 w); [now split|exact Hwb]. }
  split; [exact Hd0|]. split; [exact Hwb'|].
  rewrite (join_relative wb e Habs), (stat_below w wb qb _ Hwb' Hpl).
  now apply Hkeep.
Qed.

(** Once the directories on the way to the mapped path are made: what was
    there is kept, nothing but directories on that way is new, the parent
    of the mapped path is a directory and the mapped path is none. *)
Lemma after_mkdir (e : string) (w w2 : world) :
  good e -> Inv1 w ->
  Path_mkdir_parents (parent (join db e)) w = (Ok tt, w2) ->
  preserved w w2 /\ wfb (root w2) = true /\ denied w2 = denied w /\
  (forall a, kind_at w2 a = KDir ->
     kind_at w a = KDir \/ is_prefix a (q ++ removelast (rel e)) = true) /\
  (forall a, kind_at w2 a = KFile -> kind_at w a = KFile) /\
  is_dir w2 (join db e) = false /\
  kind_at w2 (q ++ removelast (rel e)) = KDir.
Proof.
  intros Hgood (Hc & Hd & Hwf & Hmono & Hkeep & Hnew & Hfil) Hmk.
  pose proof (good_nonempty e Hgood) as Hne.
  destruct Hgood as (Habs & Hpl & Hsrc & Hdst & Hout).
  apply kind_file in Hsrc as [d Hd0].
  pose proof (Path_mkdir_parents_ok _ _ _ Hmk) as [Hpd (Hc2 & Hmono2 & Hkeep2)].
  assert (forallb not_dotdot (q ++ removelast (rel e)) = true) as Hppl.
  { rewrite forallb_app, q_plain. now apply forallb_removelast. }
  unfold Path_mkdir_parents in Hmk. pose proof Hmk as Hmk0.
  apply (mkdir_parents_made _ (cwd w0)) in Hmk; [| |exact Hc|exact Hwf].
  2:{ now rewrite rev_involutive, (dest_parent_loc e Habs Hne). }
  rewrite rev_involutive, (dest_parent_loc e Habs Hne) in Hmk.
  destruct Hmk as (Hwf2 & Hd2 & Hmade).
  assert (cwd w2 = cwd w0) as Hc2' by congruence.
  pose proof (dest_plain e Habs Hpl) as Hdpl.
  assert (kind_at w2 (q ++ rel e) <> KDir) as Hnd.
  { intros Ek. destruct (Hmade _ Ek) as [Hk|Hk].
    - destruct (Hnew _ Hk) as [Hk0|(s & Es & Hk0)]; [now apply Hdst|].
      apply app_inv_head in Es. subst s. unfold kind_at in Hk0.
      rewrite Hd0 in Hk0. discriminate Hk0.
    - apply is_prefix_length in Hk. rewrite !length_app in Hk.
      pose proof (length_removelast (rel e) Hne). lia. }
  split; [now repeat split|]. split; [exact Hwf2|]. split; [exact Hd2|].
  split; [exact Hmade|].
  split; [exact (mkdir_parents_no_new_file _ _ _ _ _ Hmk0)|]. split.
  - unfold is_dir. rewrite (stat_plain w2 _ Hdpl), (dest_loc e w2 Habs Hc2').
    unfold kind_at in Hnd.
    destruct (kind_of (lookup (root w2) (q ++ rel e))); try reflexivity.
    now elim Hnd.
  - unfold is_dir in Hpd. rewrite stat_plain in Hpd.
    + unfold loc in Hpd. rewrite Hc2' in Hpd.
      rewrite (dest_parent_loc e Habs Hne) in Hpd. unfold kind_at.
      destruct (kind_of (lookup (root w2) (q ++ removelast (rel e))));
        now try discriminate Hpd.
    + unfold plain. rewrite (join_relative db e Habs).
      unfold parent, below. cbn [parts]. rewrite removelast_app by exact Hne.
      rewrite forallb_app. unfold plain in Hdb. rewrite Hdb.
      now apply forallb_removelast.
Qed.

(** One turn of the loop on such an entry: the content of the source file
    is at the mapped path, and the entries copied before are as they
    were. *)
Lemma copy_entry_file (e : string) (acc l : list Path) (w w' : world) :
  good e -> Inv1 w ->
  copy_entry self wb db e acc w = (Ok l, w') ->
  Inv1 w' /\ l = acc ++ [join db e] /\ Done e w' /\
  forall e', good e' -> Done e' w -> Done e' w'.
Proof.
  intros Hgood Hinv H.
  pose proof Hinv as (Hc & Hd & Hwf & Hmono & Hkeep & Hnew & Hfil).
  pose proof (good_nonempty e Hgood) as Hne.
  pose proof Hgood as (Habs & Hpl & Hsrc & Hdst & Hout).
  destruct (source_file e w Hgood Hinv) as (d & Hd0 & Hwb' & Hs).
  unfold copy_entry in H.
  apply bind_ok in H as (ex & w1 & Hex & H).
  apply gets_ok in Hex as [-> ->].
  destruct (exists_ w (join wb e)) eqn:Eex;
    [|unfold exists_ in Eex; rewrite Hs in Eex; discriminate Eex].
  cbn [negb] in H.
  apply bind_ok in H as (isf & w1 & Hisf & H).
  apply gets_ok in Hisf as [-> ->].
  destruct (is_file w (join wb e)) eqn:Efile;
    [|unfold is_file in Efile; rewrite Hs in Efile; discriminate Efile].
  apply bind_ok in H as (u & w2 & Hmk & H). destruct u.
  apply rewrap_ok in H. apply bind_ok in H as (u & w3 & Hcp & H). destruct u.
  apply ret_ok in H as [-> ->].
  apply (proj1 (create_directory_structure_run self _ w w2)) in Hmk.
  destruct Hmk as (w1 & Hmk & ->).
  apply shutil_copy2_after_modes in Hcp as (w3' & Hcp & ->).
  forget_modes w3'. rename w1 into w2, w3' into w3.
  destruct (after_mkdir e w w2 Hgood Hinv Hmk)
    as ((Hc2 & Hmono2 & Hkeep2) & Hwf2 & Hd2 & Hmade & Hnofile & Hnd' & Hpar2).
  assert (cwd w2 = cwd w0) as Hc2' by congruence.
  pose proof (dest_plain e Habs Hpl) as Hdpl.
  destruct (shutil_copy2_at _ _ _ _ Hcp Hnd') as (r & data & Hr & Hsd & Hrk & Hrp & ->).
  apply (locate_plain_At w2 _ r Hdpl) in Hr.
  rewrite (dest_loc e w2 Habs Hc2') in Hr. subst r.
  assert (stat w2 (join wb e) = Some (File d)) as Hs2.
  { apply (stat_file_preserved w w2); [now repeat split|exact Hs]. }
  rewrite Hs2 in Hsd. inversion Hsd; subst data. clear Hsd.
  assert (q ++ rel e <> []) as Hrne.
  { intros E. apply app_eq_nil in E as [_ E]. now apply Hne. }
  specialize (Hrp Hrne).
  assert (forallb not_dotdot (q ++ rel e) = true) as Hrpl
    by (now rewrite forallb_app, q_plain).
  assert (forall a c, is_prefix (q ++ rel e) a = false -> a <> q ++ rel e ->
            lookup (root w2) a = Some (File c) ->
            lookup (set_at (q ++ rel e) (Some (File d)) (root w2)) a
            = Some (File c)) as Hother.
  { intros a c Hp Ha Hl. now apply set_at_keeps_file. }
  split; [|split; [reflexivity|split]].
  - (* the invariant *)
    unfold Inv1. cbn [cwd root denied with_root]. split; [exact Hc2'|].
    split; [congruence|]. split; [|split; [|split; [|split]]].
    + apply wfb_set_at; [exact Hwf2|].
      intros n Hn. inversion Hn; subst n. split; [reflexivity|].
      pose proof (last_forallb not_dotdot (q ++ rel e) "" Hrpl eq_refl) as Hl.
      unfold not_dotdot in Hl. intros E. rewrite E in Hl. discriminate Hl.
    + intros a Ha. apply set_at_fresh_mono; [exact Hrk|].
      apply Hmono2, Hmono, Ha.
    + intros a c Hqa Ha. apply Hother.
      * destruct (is_prefix (q ++ rel e) a) eqn:E; [|reflexivity].
        rewrite (is_prefix_trans q (q ++ rel e) a (is_prefix_app_l q _) E) in Hqa.
        discriminate Hqa.
      * intros ->. now rewrite is_prefix_app_l in Hqa.
      * apply Hkeep2, Hkeep; assumption.
    + intros a Ha. unfold kind_at in Ha. cbn [root with_root] in Ha.
      apply (set_file_no_new_dir _ _ _ _ Hrne Hrp) in Ha.
      destruct (Hmade _ Ha) as [Hk|Hk]; [exact (Hnew _ Hk)|].
      apply is_prefix_app_cases in Hk as [[Hk Hak]|(s & -> & Hs')].
      * left. apply (prefix_of_existing_is_dir _ a q Hk Hak).
        unfold kind_at in Hq. destruct (lookup (root w0) q); [discriminate|discriminate Hq].
      * right. exists s. split; [reflexivity|].
        destruct (proj1 (is_prefix_iff _ _) Hs') as [t Ht].
        apply (prefix_of_existing_is_dir _ (qb ++ s) (qb ++ rel e)).
        -- destruct (proj1 (is_prefix_iff _ _) (is_prefix_removelast (rel e))) as [t' Ht'].
           rewrite Ht', Ht, <- app_assoc, app_assoc. apply is_prefix_app_l.
        -- intros E. apply app_inv_head in E. subst s.
           apply is_prefix_length in Hs'.
           pose proof (length_removelast (rel e) Hne). lia.
        -- now rewrite Hd0.
    + intros a Ha. unfold kind_at in Ha. cbn [root with_root] in Ha.
      destruct (list_eq_dec String.string_dec a (q ++ rel e)) as [->|Hne'].
      * right. exists (rel e). split; [reflexivity|].
        unfold kind_at. now rewrite Hd0.
      * apply Hfil. apply Hnofile.
        unfold kind_at.
        destruct (is_prefix (q ++ rel e) a) eqn:Era.
        -- destruct (proj1 (is_prefix_iff _ _) Era) as [s ->].
           rewrite (set_at_under _ (Some (File d)) (root w2) s Hrne Hrp) in Ha.
           destruct s as [|x s]; [now rewrite app_nil_r in Hne'|discriminate Ha].
        -- destruct (is_prefix a (q ++ rel e)) eqn:Ear.
           ++ now rewrite set_at_above in Ha.
           ++ now rewrite set_at_apart in Ha.
  - (* the entry *)
    unfold Done. cbn [root with_root]. rewrite Hd0.
    rewrite <- (app_nil_r (q ++ rel e)) at 2.
    now rewrite (set_at_under _ (Some (File d)) (root w2) [] Hrne Hrp).
  - (* the entries before *)
    intros e' Hgood' Hdone. pose proof (good_nonempty e' Hgood') as Hne'.
    destruct Hgood' as (Habs' & Hpl' & Hsrc' & Hdst' & Hout').
    apply kind_file in Hsrc' as [d' Hd0']. unfold Done in *.
    cbn [root with_root]. rewrite Hd0' in *.
    destruct (list_eq_dec String.string_dec (rel e') (rel e)) as [E|E].
    + rewrite E in *. rewrite Hd0 in Hd0'. inversion Hd0'; subst d'.
      rewrite <- (app_nil_r (q ++ rel e)) at 2.
      now rewrite (set_at_under _ (Some (File d)) (root w2) [] Hrne Hrp).
    + apply Hother; [| |now apply Hkeep2].
      * destruct (is_prefix (q ++ rel e) (q ++ rel e')) eqn:Ep; [|reflexivity].
        exfalso. destruct (proj1 (is_prefix_iff _ _) Ep) as [t Ht].
        rewrite <- app_assoc in Ht. apply app_inv_head in Ht.
        destruct t as [|x t]; [rewrite app_nil_r in Ht; now apply E|].
        assert (kind_of (lookup (root w0) (qb ++ rel e)) = KDir) as Hk.
        { apply (lookup_prefix_dir _ _ t x). rewrite <- app_assoc, <- Ht.
          now rewrite Hd0'. }
        rewrite Hd0 in Hk. discriminate Hk.
      * intros E'. apply app_inv_head in E'. now apply E.
Qed.

(** The loop of [copy_files] over such entries. *)
Lemma copy_loop_files (es : list string) :
  (forall e, In e es -> good e) ->
  forall (acc l : list Path) (w w' : world),
    Inv1 w ->
    fold_m (copy_entry self wb db) es acc w = (Ok l, w') ->
    Inv1 w' /\ l = acc ++ map (join db) es /\
    (forall e, In e es -> Done e w') /\
    (forall e, good e -> Done e w -> Done e w').
Proof.
  induction es as [|e es IH]; intros Hgood acc l w w' Hinv H; simpl in H.
  - apply ret_ok in H as [-> ->]. split; [exact Hinv|].
    split; [now rewrite app_nil_r|]. split; [contradiction|auto].
  - apply bind_ok in H as (l1 & w1 & H1 & H).
    destruct (copy_entry_file e acc l1 w w1 (Hgood e (or_introl eq_refl)) Hinv H1)
      as (Hinv1 & -> & Hdone & Hprev).
    destruct (IH (fun x Hx => Hgood x (or_intror Hx)) _ _ _ _ Hinv1 H)
      as (Hinv' & -> & Hall & Hprev').
    split; [exact Hinv'|]. split; [now rewrite <- app_assoc|]. split.
    + intros x [<-|Hx]; [|now apply Hall].
      apply Hprev'; [apply Hgood; now left|exact Hdone].
    + intros x Hx Hd. apply Hprev'; [exact Hx|]. now apply Hprev.
Qed.

(** No regular file lies on the way to the mapped path of the entry. *)
Let free (e : string) : Prop :=
  forall a, is_prefix a (q ++ removelast (rel e)) = true -> kind_at w0 a <> KFile.

(** One turn of the loop on such an entry returns normally. *)
Lemma copy_entry_file_runs (e : string) (acc : list Path) (w : world) :
  good e -> free e -> Inv1 w ->
  exists l w', copy_entry self wb db e acc w = (Ok l, w').
Proof.
  intros Hgood Hfree Hinv.
  pose proof Hinv as (Hc & Hd & Hwf & Hmono & Hkeep & Hnew & Hfil).
  pose proof (good_nonempty e Hgood) as Hne.
  pose proof Hgood as (Habs & Hpl & Hsrc & Hdst & Hout).
  destruct (source_file e w Hgood Hinv) as (d & Hd0 & Hwb' & Hs).
  assert (parts (parent (join db e)) = parts db ++ removelast (rel e)) as Hpp.
  { rewrite (join_relative db e Habs). unfold parent, below. cbn [parts].
    now rewrite removelast_app by exact Hne. }
  assert (absolute (parent (join db e)) = absolute db) as Hpa
    by now rewrite (join_relative db e Habs).
  destruct (mkdir_parents_succeeds (absolute (parent (join db e)))
              (rev (parts (parent (join db e)))))  with (w := w) as [w2 Hmk].
  { rewrite forallb_rev, Hpp, forallb_app. unfold plain in Hdb. rewrite Hdb.
    now apply forallb_removelast. }
  { rewrite Hpa, Hc. apply Hmono. fold (kind_at w0 (if absolute db then [] else cwd w0)).
    destruct (parts db) as [|x l] eqn:Ep.
    - unfold q, loc in Hq. now rewrite Ep, app_nil_r in Hq.
    - apply (lookup_prefix_dir (root w0) _ l x). unfold q, loc in Hq.
      rewrite Ep in Hq. unfold kind_at in Hq.
      destruct (lookup (root w0) _); [discriminate|discriminate Hq]. }
  { rewrite rev_involutive, Hc, (dest_parent_loc e Habs Hne).
    intros a Ha Hk. destruct (Hfil a Hk) as [H0|(s & -> & H0)].
    - exact (Hfree a Ha H0).
    - rewrite is_prefix_app in Ha.
      destruct (proj1 (is_prefix_iff _ _) Ha) as [t Ht].
      assert (kind_at w0 (qb ++ s) = KDir) as Hk0.
      { apply (prefix_of_existing_is_dir _ (qb ++ s) (qb ++ rel e)).
        - destruct (proj1 (is_prefix_iff _ _) (is_prefix_removelast (rel e)))
            as [t' Ht'].
          rewrite Ht', Ht, <- app_assoc, app_assoc. apply is_prefix_app_l.
        - intros E. apply app_inv_head in E. subst s.
          apply is_prefix_length in Ha.
          pose proof (length_removelast (rel e) Hne). lia.
        - now rewrite Hd0. }
      congruence. }
  fold (Path_mkdir_parents (parent (join db e))) in Hmk.
  destruct (after_mkdir e w w2 Hgood Hinv Hmk)
    as ((Hc2 & Hmono2 & Hkeep2) & Hwf2 & Hd2 & Hmade & Hnofile & Hnd' & Hpar2).
  assert (cwd w2 = cwd w0) as Hc2' by congruence.
  pose proof (dest_plain e Habs Hpl) as Hdpl.
  assert (q ++ rel e <> []) as Hrne.
  { intros E. apply app_eq_nil in E as [_ E]. now apply Hne. }
  assert (removelast (q ++ rel e) = q ++ removelast (rel e)) as Hrl
    by now apply removelast_app.
  assert (locate w2 (join db e) = At (q ++ rel e)) as Hld.
  { rewrite <- (dest_loc e w2 Habs Hc2'). unfold locate, loc.
    apply walk_parent_dir; [exact Hdpl| |].
    - rewrite (join_relative db e Habs). unfold below. cbn [parts].
      intros E. apply app_eq_nil in E as [_ E]. now apply Hne.
    - rewrite <- removelast_app.
      + fold (loc w2 (join db e)). rewrite (dest_loc e w2 Habs Hc2'), Hrl.
        exact Hpar2.
      + rewrite (join_relative db e Habs). unfold below. cbn [parts].
        intros E. apply app_eq_nil in E as [_ E]. now apply Hne. }
  assert (locate w2 wb = At qb) as Hwb2.
  { apply (locate_grows w w2); [now split|exact Hwb']. }
  assert (lookup (root w2) (qb ++ rel e) = Some (File d)) as Hsl.
  { apply Hkeep2. now apply Hkeep. }
  assert (locate w2 (join wb e) = At (qb ++ rel e)) as Hls.
  { rewrite (join_relative wb e Habs).
    apply (locate_below w2 wb qb _ Hwb2 Hpl). now rewrite Hsl. }
  pose proof (shutil_copy2_runs (join wb e) (join db e) w2 _ _ d
                Hnd' Hls Hsl Hld) as Hcp.
  unfold copy_entry, bind, gets, ret.
  assert (exists_ w (join wb e) = true) as -> by (unfold exists_; now rewrite Hs).
  cbn [negb].
  assert (is_file w (join wb e) = true) as -> by (unfold is_file; now rewrite Hs).
  rewrite (proj2 (create_directory_structure_run self (join db e) w _)
             (ex_intro _ w2 (conj Hmk eq_refl))).
  unfold rewrap. rewrite shutil_copy2_logged, Hcp.
  - cbn [fst snd]. now eexists; eexists.
  - intros E. rewrite E, is_prefix_app_l in Hout. discriminate Hout.
  - exact Hrne.
  - now rewrite Hrl.
Qed.

(** The loop of [copy_files] over such entries returns normally. *)
Lemma copy_loop_runs (es : list string) :
  (forall e, In e es -> good e /\ free e) ->
  forall (acc : list Path) (w : world),
    Inv1 w ->
    exists l w', fold_m (copy_entry self wb db) es acc w = (Ok l, w').
Proof.
  induction es as [|e es IH]; intros Hes acc w Hinv; simpl.
  - unfold ret. now eexists; eexists.
  - destruct (Hes e (or_introl eq_refl)) as [Hgood Hfree].
    destruct (copy_entry_file_runs e acc w Hgood Hfree Hinv) as (l1 & w1 & H1).
    destruct (copy_entry_file e acc l1 w w1 Hgood Hinv H1) as (Hinv1 & _).
    destruct (IH (fun x Hx => Hes x (or_intror Hx)) l1 w1 Hinv1) as (l & w' & H).
    exists l, w'. unfold bind. now rewrite H1.
Qed.

End Entries.

(* ===================================================================== *)
(** * What the cleanup leaves in place *)
(* ===================================================================== *)

(** A regular file that is not one of the destination files, or is one that
    the cleanup keeps, is there afterwards with its content. *)
Lemma cleanup_destination_keeps (self : WSLSyncEngine) (db : Path)
  (keep_files : list Path) (w : world) :
  wsl2_base (config self) = Some db -> exists_ w db = true ->
  wfb (root w) = true -> denied w = [] ->
  exists w',
    cleanup_destination self keep_files w
    = (Ok (filter (fun f => negb (should_keep self db keep_files f))
                  (files_below w db)), w') /\
    cwd w' = cwd w /\
    forall a d,
      lookup (root w) a = Some (File d) ->
      (forall f, In f (files_below w db) -> locate w f = At a ->
                 should_keep self db keep_files f = true) ->
      lookup (root w') a = Some (File d).
Proof.
  intros Hdb Hex Hwf Hden.
  enough (exists w',
    cleanup_destination self keep_files w
    = (Ok (filter (fun f => negb (should_keep self db keep_files f))
                  (files_below w db)), w') /\
    forall a,
      kind_at w a = KFile ->
      (forall f, In f (files_below w db) -> locate w f = At a ->
                 should_keep self db keep_files f = true) ->
      kind_at w' a = KFile) as (w' & Hrun & Hk).
  { exists w'. split; [exact Hrun|].
    destruct (cleanup_destination_shr self keep_files w _ w' Hrun) as [Hc Hrm].
    split; [exact Hc|]. intros a d Ha Hkept.
    assert (kind_at w' a = KFile) as Hka.
    { apply Hk; [|exact Hkept]. unfold kind_at. now rewrite Ha. }
    apply kind_file in Hka as [d' Hd'].
    pose proof (Hrm a (File d') Hd') as Hd0. cbv beta iota in Hd0.
    congruence. }
  unfold cleanup_destination. rewrite Hdb. unfold bind at 1.
  rewrite (get_destination_files_run self db w Hdb Hex).
  destruct (is_dir w db) eqn:Edir.
  2:{ assert (files_below w db = []) as Hnone
        by (unfold files_below; now rewrite Path_rglob_not_dir).
      rewrite Hnone. simpl. unfold bind, gets, ret.
      rewrite Path_rglob_not_dir by exact Edir. simpl.
      exists w. split; [reflexivity|]. intros a Ha _. exact Ha. }
  unfold is_dir, stat in Edir.
  destruct (locate w db) as [q| |] eqn:Hq; try discriminate Edir.
  destruct (lookup (root w) q) as [[d|ks]|] eqn:Eq; try discriminate Edir.
  assert (stat w db = Some (Dir ks)) as Hstat by (unfold stat; now rewrite Hq).
  assert (wfb (Dir ks) = true) as Hwfd by exact (wfb_lookup _ _ _ Hwf Eq).
  set (R := filter (fun rel => is_file w (below db rel)) (rglob_node (Dir ks))).
  assert (files_below w db = map (below db) R) as Hfiles.
  { unfold files_below. rewrite (Path_rglob_dir w db ks Hstat Hden).
    apply filter_map_comm. }
  assert (forall rel, In rel R ->
            rel <> [] /\ forallb not_dotdot rel = true /\
            kind_at w (q ++ rel) = KFile) as HR.
  { intros rel Hin. apply filter_In in Hin as [Hin Hf].
    pose proof (proj1 (rglob_In (Dir ks) Hwfd rel) Hin) as [Hne Hlk].
    destruct (lookup (Dir ks) rel) as [c|] eqn:Ec; [|congruence].
    pose proof (lookup_not_dotdot rel (Dir ks) c Hwfd Ec) as Hpl.
    split; [exact Hne|]. split; [exact Hpl|].
    rewrite (is_file_below w db q rel Hq Hpl) in Hf.
    destruct (kind_at w (q ++ rel)); now simpl in Hf. }
  assert (NoDup R) as HndR by (apply NoDup_filter, rglob_NoDup, Hwfd).
  destruct (delete_loop self db keep_files q R HndR [] w Hq HR)
    as (w1 & Hrun & Hc1 & Hd1 & Hq1 & Hk1).
  rewrite Hfiles. unfold bind at 1. rewrite Hrun.
  unfold bind at 1. unfold gets at 1.
  destruct (prune_loop (Path_rglob w1 db) w1) as (w' & Hprune & Hc & Hd & Hk);
    [congruence|].
  unfold bind. rewrite Hprune. unfold ret. exists w'. split.
  - simpl. now rewrite filter_map_comm.
  - intros a Ha Hkept.
    assert (kind_at w1 a = KFile) as H1.
    { rewrite Hk1. destruct (existsb _ _) eqn:E; [|exact Ha].
      apply existsb_exists in E as [a' [Ha' E]]. apply parts_eqb_eq in E. subst a'.
      apply in_map_iff in Ha' as [r [<- Hr]].
      apply filter_In in Hr as [Hr Hdoomed].
      destruct (HR r Hr) as (Hne & Hpl & Hfile).
      rewrite (Hkept (below db r)) in Hdoomed; [discriminate Hdoomed| |].
      - apply in_map. exact Hr.
      - apply (locate_below w db q r Hq Hpl). unfold kind_at in Hfile.
        destruct (lookup (root w) (q ++ r)); [discriminate|discriminate Hfile]. }
    destruct (Hk a) as [H|[H _]]; congruence.
Qed.




(* ===================================================================== *)
(** * When the run succeeds *)
(* ===================================================================== *)

Lemma proper_prefixes_In (l : list string) :
  forall s, is_prefix s l = true -> s <> l -> In s (proper_prefixes l).
Proof.
  induction l as [|x r IH]; intros s Hs Hne.
  - destruct s; [congruence|discriminate Hs].
  - destruct s as [|y s]; [now left|]. simpl in Hs.
    apply andb_true_iff in Hs as [Hy Hs]. apply String.eqb_eq in Hy. subst y.
    right. apply in_map. apply IH; [exact Hs|congruence].
Qed.

(** A directory that is not refused can be listed. *)
Lemma listing_dir (w : world) (p : Path) :
  is_dir w p = true -> denied w = [] -> exists l, listing w p = Ok l.
Proof.
  intros Hd Hden. unfold listing, Path_iterdir, is_denied.
  unfold is_dir, stat in Hd. rewrite Hden.
  destruct (locate w p) as [r| |]; try discriminate Hd.
  destruct (lookup (root w) r) as [[d|ks]|]; try discriminate Hd.
  simpl. now eexists.
Qed.

(** X19. With both roots present as directories and nothing refused, over
    entries as in X18 and with no regular file among the ancestors of their
    paths below the destination root, [sync] returns normally. *)
Theorem sync_file_entries_succeeds
  (self : WSLSyncEngine) (wb db : Path) (w : world) :
  windows_base (config self) = Some wb ->
  wsl2_base (config self) = Some db ->
  plain db = true ->
  is_dir w wb = true -> is_dir w db = true ->
  (forall e, In e (files (config self)) ->
     absolute (Path_of_string e) = false /\ plain (Path_of_string e) = true /\
     is_file w (join wb e) = true /\ is_dir w (join db e) = false /\
     (forall a, locate w (join wb e) = At a -> is_prefix (loc w db) a = false) /\
     (forall p, In p (parents (join db e)) -> is_file w p = false)) ->
  wfb (root w) = true -> denied w = [] ->
  exists w', sync self w = (Ok tt, w').
Proof.
  intros Hwb Hb Hdb Hdw Hdd He Hwf Hden.
  assert (kind_at w (loc w db) = KDir) as Hq.
  { unfold is_dir in Hdd. rewrite (stat_plain w db Hdb) in Hdd. unfold kind_at.
    destruct (kind_of (lookup (root w) (loc w db))); now try discriminate Hdd. }
  assert (exists qb, locate w wb = At qb) as [qb Hqb].
  { unfold is_dir, stat in Hdw.
    destruct (locate w wb) as [r| |]; [now exists r|discriminate Hdw..]. }
  assert (forall e, In e (files (config self)) ->
            (absolute (Path_of_string e) = false /\
             forallb not_dotdot (parts (Path_of_string e)) = true /\
             kind_at w (qb ++ parts (Path_of_string e)) = KFile /\
             kind_at w (loc w db ++ parts (Path_of_string e)) <> KDir /\
             is_prefix (loc w db) (qb ++ parts (Path_of_string e)) = false) /\
            (forall a,
               is_prefix a (loc w db ++ removelast (parts (Path_of_string e)))
               = true -> kind_at w a <> KFile))
    as Hgood.
  { intros e Hin. destruct (He e Hin) as (Habs & Hpl & Hf & Hd & Hout & Hanc).
    rewrite (join_relative wb e Habs) in Hf, Hout.
    rewrite (is_file_below w wb qb _ Hqb Hpl) in Hf.
    assert (kind_at w (qb ++ parts (Path_of_string e)) = KFile) as Hk
      by (destruct (kind_at w (qb ++ parts (Path_of_string e)));
          now try discriminate Hf).
    assert (parts (Path_of_string e) <> []) as Hrne.
    { intros E. rewrite (join_relative db e Habs), E, below_nil in Hd.
      congruence. }
    split.
    - split; [exact Habs|]. split; [exact Hpl|]. split; [exact Hk|]. split.
      + intros Hkd. unfold is_dir in Hd.
        rewrite (stat_plain w _ (dest_plain db Hdb e Habs Hpl)) in Hd.
        rewrite (dest_loc db w e w Habs eq_refl) in Hd.
        unfold kind_at in Hkd. rewrite Hkd in Hd. discriminate Hd.
      + apply Hout. apply (locate_below w wb qb _ Hqb Hpl).
        unfold kind_at in Hk.
        destruct (lookup (root w) (qb ++ parts (Path_of_string e)));
          [discriminate|discriminate Hk].
    - intros a Ha Hka.
      apply is_prefix_app_cases in Ha as [[Ha Hne]|(s & -> & Hs)].
      + assert (kind_at w a = KDir) as Hkd.
        { apply (prefix_of_existing_is_dir _ a (loc w db) Ha Hne).
          unfold kind_at in Hq.
          destruct (lookup (root w) (loc w db)); [discriminate|discriminate Hq]. }
        congruence.
      + assert (is_file w (below db s) = false) as Hnf.
        { apply Hanc. rewrite (join_relative db e Habs). unfold parents, below.
          cbn [absolute parts]. apply in_rev. rewrite rev_involutive.
          apply (in_map (mkPath (absolute db))). apply proper_prefixes_In.
          - rewrite is_prefix_app.
            exact (is_prefix_trans _ _ _ Hs (is_prefix_removelast _)).
          - intros E. apply app_inv_head in E. subst s.
            apply is_prefix_length in Hs.
            pose proof (length_removelast _ Hrne). lia. }
        rewrite is_file_plain in Hnf.
        * unfold loc, below in Hnf. cbn [absolute parts] in Hnf.
          rewrite app_assoc in Hnf. fold (loc w db) in Hnf.
          unfold kind_at in Hka. rewrite Hka in Hnf. discriminate Hnf.
        * apply plain_below; [exact Hdb|].
          apply forallb_removelast in Hpl.
          destruct (proj1 (is_prefix_iff _ _) Hs) as [t Ht]. rewrite Ht in Hpl.
          rewrite forallb_app in Hpl. now apply andb_true_iff in Hpl as [Hpl _]. }
  unfold sync. unfold bind at 1. rewrite validate_paths_run, Hwb, Hb.
  assert (exists_ w wb = true) as ->
    by (unfold exists_; unfold is_dir in Hdw;
        destruct (kind_of (stat w wb)); now try discriminate Hdw).
  assert (exists_ w db = true) as ->
    by (unfold exists_; unfold is_dir in Hdd;
        destruct (kind_of (stat w db)); now try discriminate Hdd).
  cbn [negb].
  destruct (listing_dir w wb Hdw Hden) as [lw ->].
  destruct (listing_dir w db Hdd Hden) as [ld ->].
  unfold copy_files. rewrite Hwb, Hb.
  destruct (copy_loop_runs self wb db w qb Hdb Hqb Hq Hwf _ Hgood [] w
              (Inv1_start db w qb Hwf)) as (l & w2 & Hcp).
  destruct (copy_loop_files self wb db w qb Hdb Hqb Hq Hwf _
              (fun e Hin => proj1 (Hgood e Hin)) [] l w w2
              (Inv1_start db w qb Hwf) Hcp)
    as ((Hc2 & Hd2 & Hwf2 & Hmono2 & _) & _).
  unfold bind. rewrite Hcp.
  assert (exists_ w2 db = true) as Exd2.
  { assert (is_dir w2 db = true) as Hd
      by (apply (is_dir_grows w w2); [now split|exact Hdd]).
    unfold is_dir in Hd. unfold exists_.
    destruct (kind_of (stat w2 db)); now try discriminate Hd. }
  destruct (cleanup_destination_keeps self db l w2 Hb Exd2 Hwf2)
    as (w3 & Hrun & _); [congruence|].
  rewrite Hrun. unfold ret. now exists w3.
Qed.

(** The scenario of the specification with two file entries. *)
Lemma sync_two_file_entries_run :
  exists w',
    sync (mkEngine (mkConfig (Some (P "/src")) (Some (P "/dst"))
                             ["a.txt"; "sub/b.txt"])) world_spec
    = (Ok tt, w').
Proof.
  refine (sync_file_entries_succeeds
            (mkEngine (mkConfig (Some (P "/src")) (Some (P "/dst"))
                                ["a.txt"; "sub/b.txt"]))
            (P "/src") (P "/dst") world_spec
            eq_refl eq_refl eq_refl eq_refl eq_refl _ eq_refl eq_refl).
  intros e [<-|[<-|[]]]; repeat split; try reflexivity;
    try (intros a Ha; vm_compute in Ha; inversion Ha; reflexivity);
    intros p Hp; vm_compute in Hp; repeat destruct Hp as [<-|Hp];
      try reflexivity; contradiction.
Defined.

End FileEntryProps.

Module DirEntryProps.

Import PrefixProps PathSafety TreeProps WfProps WalkProps RemoveProps GrowProps.
Import CopyProps KeepProps ConfineProps FileEntryProps.

(* ===================================================================== *)
(** * What removing and copying a tree write *)
(* ===================================================================== *)

(** [shutil.rmtree] removes the directory where the path leads. *)
Lemma shutil_rmtree_at (p : Path) (w w' : world) :
  shutil_rmtree p w = (Ok tt, w') ->
  exists q ks,
    locate w p = At q /\ lookup (root w) q = Some (Dir ks) /\ q <> [] /\
    w' = with_root w (set_at q None (root w)).
Proof.
  unfold shutil_rmtree, walk_error, raise. intros H.
  destruct (locate w p) as [q| |]; [|destruct false; discriminate H|discriminate H].
  destruct (lookup (root w) q) as [[d|ks]|] eqn:Eq; try discriminate H.
  destruct q as [|x q]; [discriminate H|].
  exists (x :: q), ks. apply (f_equal snd) in H. cbn [snd] in H.
  repeat split; congruence.
Qed.

(** After a removal every location holds what it held or nothing. *)
Lemma remove_kinds (t : node) (q : list string) (c : node) :
  q <> [] -> lookup t q = Some c ->
  forall a, kind_of (lookup (set_at q None t) a) = kind_of (lookup t a)
            \/ kind_of (lookup (set_at q None t) a) = KNone.
Proof.
  intros Hne Hq a. destruct (is_prefix q a) eqn:E1.
  - apply is_prefix_iff in E1 as [s ->]. right.
    rewrite set_at_under; [reflexivity|exact Hne|].
    exact (lookup_parent_dir _ _ q Hne Hq).
  - left. destruct (is_prefix a q) eqn:E2.
    + apply set_at_above; [exact E2|]. intros ->.
      now rewrite is_prefix_refl in E1.
    + now rewrite set_at_apart.
Qed.

(** [os.mkdir] that returns has made an empty directory where the path
    leads. *)
Lemma os_mkdir_ok_at (p : Path) (w w' : world) :
  os_mkdir p w = (Ok tt, w') ->
  exists q, locate w p = At q /\ lookup (root w) q = None /\ q <> [] /\
            kind_at w (removelast q) = KDir /\
            w' = with_root w (set_at q (Some (Dir [])) (root w)).
Proof.
  unfold os_mkdir, walk_error, raise. intros H.
  destruct (locate w p) as [q| |]; [|discriminate H..].
  destruct (lookup (root w) q) as [c|] eqn:Eq; [discriminate H|].
  destruct (can_create w q) eqn:Ec; [|discriminate H].
  exists q. apply (f_equal snd) in H. cbn [snd] in H.
  unfold can_create in Ec. destruct q as [|x q]; [discriminate Ec|].
  repeat split; try congruence.
  destruct (kind_at w (removelast (x :: q))); now try discriminate Ec.
Qed.

(** Making an empty directory where nothing was changes nothing off the
    way to it. *)
Lemma set_new_dir_frame (t : node) (q a : list string) :
  q <> [] -> kind_of (lookup t (removelast q)) = KDir -> lookup t q = None ->
  is_prefix a q = false ->
  lookup (set_at q (Some (Dir [])) t) a = lookup t a.
Proof.
  intros Hne Hpar Hnone Ha. destruct (is_prefix q a) eqn:E.
  - apply is_prefix_iff in E as [s ->].
    rewrite (set_at_under q (Some (Dir [])) t s Hne Hpar), lookup_app, Hnone.
    destruct s as [|x s]; [|reflexivity].
    rewrite app_nil_r, is_prefix_refl in Ha. discriminate Ha.
  - now apply set_at_apart.
Qed.

(** [mkdir(parents=True)] on a path without [..] changes nothing off the
    way to the target. *)
Lemma mkdir_parents_frame (abs : bool) (c0 : list string) (rparts : list string) :
  forallb not_dotdot rparts = true ->
  forall w w' r,
    mkdir_parents abs rparts w = (r, w') -> cwd w = c0 ->
    forall a, is_prefix a ((if abs then [] else c0) ++ rev rparts) = false ->
              lookup (root w') a = lookup (root w) a.
Proof.
  intros Hpl.
  set (T := (if abs then [] else c0) ++ rev rparts).
  enough (forall w w' r,
            mkdir_parents abs rparts w = (r, w') -> cwd w = c0 ->
            cwd w' = c0 /\
            forall a, is_prefix a T = false ->
                      lookup (root w') a = lookup (root w) a) as Hen.
  { intros w w' r H Hc. exact (proj2 (Hen w w' r H Hc)). }
  apply (mkdir_parents_rel
           (fun w w' =>
              cwd w = c0 ->
              cwd w' = c0 /\
              forall a, is_prefix a T = false ->
                        lookup (root w') a = lookup (root w) a)
           abs).
  - intros w Hc. now split.
  - intros a b c Hab Hbc Hc.
    destruct (Hab Hc) as (Hc1 & H1). destruct (Hbc Hc1) as (Hc2 & H2).
    split; [exact Hc2|]. intros x Hx. rewrite H2 by exact Hx. now apply H1.
  - intros pre up w w' r Hparts H Hc.
    destruct (os_mkdir_at _ _ _ _ H) as [->|(q & Hq & Hnone & Hne & Hpar & ->)];
      [now split|].
    split; [exact Hc|]. intros a Ha. cbn [root with_root].
    assert (q = (if abs then [] else c0) ++ rev up) as Eq.
    { apply locate_plain_At in Hq.
      - rewrite Hq. unfold loc. cbn [absolute parts]. now rewrite Hc.
      - unfold plain. cbn [parts]. rewrite Hparts, forallb_app in Hpl.
        apply andb_true_iff in Hpl as [_ Hpl]. now rewrite forallb_rev. }
    assert (is_prefix q T = true) as HqT.
    { unfold T. rewrite Eq, Hparts, rev_app_distr, app_assoc.
      apply is_prefix_app_l. }
    apply (set_new_dir_frame _ _ _ Hne Hpar Hnone).
    destruct (is_prefix a q) eqn:E; [|reflexivity].
    rewrite (is_prefix_trans _ _ _ E HqT) in Ha. discriminate Ha.
Qed.

(** [os.makedirs] that returns, on a path without [..]: the target is a new
    empty directory, nothing has changed off the way to it, and the tree is
    still well formed. *)
Lemma os_makedirs_made (p : Path) (w w' : world) :
  plain p = true ->
  os_makedirs p w = (Ok tt, w') ->
  cwd w' = cwd w /\ denied w' = denied w /\ loc w p <> [] /\
  lookup (root w') (loc w p) = Some (Dir []) /\
  (forall a, is_prefix a (loc w p) = false ->
             lookup (root w') a = lookup (root w) a) /\
  (forallb not_dotdot (loc w p) = true -> wfb (root w) = true ->
   wfb (root w') = true).
Proof.
  intros Hpl H.
  assert (forall v v',
            cwd v = cwd w -> os_mkdir p v = (Ok tt, v') ->
            cwd v' = cwd w /\ denied v' = denied v /\ loc w p <> [] /\
            lookup (root v') (loc w p) = Some (Dir []) /\
            (forall a, is_prefix a (loc w p) = false ->
                       lookup (root v') a = lookup (root v) a) /\
            (forallb not_dotdot (loc w p) = true -> wfb (root v) = true ->
             wfb (root v') = true)) as Hlast.
  { intros v v' Hc Hm.
    apply os_mkdir_ok_at in Hm as (q & Hq & Hnone & Hne & Hpar & ->).
    apply (locate_plain_At v p q Hpl) in Hq.
    assert (q = loc w p) as -> by (rewrite Hq; unfold loc; now rewrite Hc).
    cbn [cwd root denied with_root]. split; [exact Hc|]. split; [reflexivity|].
    split; [exact Hne|]. split; [|split].
    - rewrite <- (app_nil_r (loc w p)) at 2.
      now rewrite (set_at_under _ (Some (Dir [])) (root v) [] Hne Hpar).
    - intros a Ha. exact (set_new_dir_frame _ _ _ Hne Hpar Hnone Ha).
    - intros Hlpl Hwf. apply wfb_set_at; [exact Hwf|].
      intros n Hn. inversion Hn; subst n. split; [reflexivity|].
      pose proof (last_forallb not_dotdot (loc w p) "" Hlpl eq_refl) as Hl.
      unfold not_dotdot in Hl. intros E. rewrite E in Hl. discriminate Hl. }
  unfold os_makedirs in H. destruct (rev (parts p)) as [|c up] eqn:Er.
  - exact (Hlast w w' eq_refl H).
  - apply bind_ok in H as (u & w1 & Hm & H).
    pose proof (mkdir_parents_preserved _ _ _ _ _ Hm) as (Hc1 & _ & _).
    destruct (Hlast w1 w' Hc1 H) as (Hc' & Hd' & Hne & Hnew & Hframe & Hwfl).
    assert (parts p = rev up ++ [c]) as Hparts.
    { rewrite <- (rev_involutive (parts p)), Er. reflexivity. }
    assert (forallb not_dotdot up = true) as Hup.
    { unfold plain in Hpl. rewrite Hparts, forallb_app in Hpl.
      apply andb_true_iff in Hpl as [Hpl _]. now rewrite forallb_rev in Hpl. }
    split; [exact Hc'|]. split.
    { rewrite Hd'.
      apply (mkdir_parents_rel (fun v v' => denied v' = denied v) (absolute p))
        with (rparts := up) (r := Ok u); [reflexivity|congruence| |exact Hm].
      intros pre up' v v' r' _ Hv.
      destruct (os_mkdir_at _ _ _ _ Hv) as [->|(q & _ & _ & _ & _ & ->)];
        reflexivity. }
    split; [exact Hne|]. split; [exact Hnew|]. split.
    + intros a Ha. rewrite Hframe by exact Ha.
      apply (mkdir_parents_frame (absolute p) (cwd w) up Hup w w1 (Ok u) Hm eq_refl).
      destruct (is_prefix a ((if absolute p then [] else cwd w) ++ rev up))
        eqn:E; [|reflexivity].
      unfold loc in Ha. rewrite Hparts, app_assoc in Ha.
      now rewrite (is_prefix_app_r _ _ [c] E) in Ha.
    + intros Hlpl Hwf. apply (Hwfl Hlpl).
      apply (mkdir_parents_made (absolute p) (cwd w) up) with (w := w) (r := Ok u);
        [|exact Hm|reflexivity|exact Hwf].
      unfold loc in Hlpl. rewrite Hparts, app_assoc, forallb_app in Hlpl.
      now apply andb_true_iff in Hlpl as [Hlpl _].
Qed.

(** [shutil.copytree] that returns has made the destination and put there
    the entries the source had. *)
Lemma shutil_copytree_at (src dst : Path) (w w' : world) :
  shutil_copytree src dst w = (Ok tt, w') ->
  exists ks qs w1 qd,
    stat w src = Some (Dir ks) /\ locate w src = At qs /\
    os_makedirs dst w = (Ok tt, w1) /\ locate w1 dst = At qd /\
    w' = with_root w1 (set_at qd (Some (Dir ks)) (root w1)).
Proof.
  unfold shutil_copytree, walk_error, raise. intros H.
  destruct (stat w src) as [[d|ks]|]; try discriminate H.
  destruct (locate w src) as [qs| |]; try discriminate H.
  destruct (os_makedirs dst w) as [[[]|e] w1] eqn:Em; [|discriminate H].
  destruct (locate w1 dst) as [qd| |] eqn:El; try discriminate H.
  destruct (_ && _); [discriminate H|].
  apply (f_equal snd) in H. cbn [snd] in H.
  exists ks, qs, w1, qd. subst w'. now repeat split.
Qed.

(* ===================================================================== *)
(** * An entry that is a directory *)
(* ===================================================================== *)

(** One turn of the loop of [copy_files] on a directory of the source
    that is neither inside its place in the destination nor around it: what
    the world is afterwards. *)
Lemma copy_entry_directory_run
  (self : WSLSyncEngine) (wb db : Path) (e : string) (acc l : list Path)
  (w w' : world) (qs : list string) (ks : list (string * node)) :
  plain db = true ->
  absolute (Path_of_string e) = false -> plain (Path_of_string e) = true ->
  locate w (join wb e) = At qs -> lookup (root w) qs = Some (Dir ks) ->
  is_prefix qs (loc w (join db e)) = false ->
  is_prefix (loc w (join db e)) qs = false ->
  copy_entry self wb db e acc w = (Ok l, w') ->
  cwd w' = cwd w /\ denied w' = denied w /\ loc w (join db e) <> [] /\
  (forall s, lookup (root w') (loc w (join db e) ++ s) = lookup (Dir ks) s) /\
  (forall a, is_prefix (loc w (join db e)) a = false ->
             is_prefix a (loc w (join db e)) = false ->
             lookup (root w') a = lookup (root w) a) /\
  (forallb not_dotdot (loc w (join db e)) = true -> wfb (root w) = true ->
   wfb (root w') = true) /\
  locate w' (join wb e) = At qs /\
  l = acc ++ files_below w' (join db e).
Proof.
  intros Hdb Habs Hpl Hqs Hks Hsd Hds H.
  assert (plain (join db e) = true) as Hdpl.
  { rewrite (join_relative db e Habs). now apply plain_below. }
  set (qd := loc w (join db e)) in *.
  assert (stat w (join wb e) = Some (Dir ks)) as Hs
    by (unfold stat; now rewrite Hqs).
  unfold copy_entry in H.
  apply bind_ok in H as (ex & w1 & Hex & H).
  apply gets_ok in Hex as [-> ->].
  destruct (exists_ w (join wb e)) eqn:Eex;
    [|unfold exists_ in Eex; rewrite Hs in Eex; discriminate Eex].
  cbn [negb] in H.
  apply bind_ok in H as (isf & w1 & Hisf & H).
  apply gets_ok in Hisf as [-> ->].
  destruct (is_file w (join wb e)) eqn:Efile;
    [unfold is_file in Efile; rewrite Hs in Efile; discriminate Efile|].
  apply bind_ok in H as (isd & w1 & Hisd & H).
  apply gets_ok in Hisd as [-> ->].
  destruct (is_dir w (join wb e)) eqn:Edir;
    [|unfold is_dir in Edir; rewrite Hs in Edir; discriminate Edir].
  apply rewrap_ok in H.
  apply bind_ok in H as (dex & w1 & Hdex & H).
  apply gets_ok in Hdex as [-> ->].
  apply bind_ok in H as (u & w2 & Hrm & H). destruct u.
  apply bind_ok in H as (u & w3 & Hct & H). destruct u.
  apply bind_ok in H as (u & w4 & Hch & H). destruct u.
  apply os_chmod_same in Hch as [cs1 ->].
  apply bind_ok in H as (found & w4 & Hf & H).
  apply gets_ok in Hf as [-> ->].
  apply bind_ok in H as (u & w4 & Hch & H). destruct u.
  apply chmod_dirs_same in Hch as [cs2 ->].
  apply bind_ok in H as (found & w4 & Hf & H).
  apply gets_ok in Hf as [-> ->].
  rewrite collect_files_run in H. inversion H; subst l w'. clear H.
  rewrite logged_logged. forget_modes w3.
  (* after the removal *)
  assert (cwd w2 = cwd w /\ denied w2 = denied w /\
          (forall a, is_prefix qd a = false -> is_prefix a qd = false ->
                     lookup (root w2) a = lookup (root w) a) /\
          (forall a, kind_of (lookup (root w2) a) = kind_of (lookup (root w) a)
                     \/ kind_of (lookup (root w2) a) = KNone) /\
          (wfb (root w) = true -> wfb (root w2) = true))
    as (Hc2 & Hd2 & Hf2 & Hk2 & Hwf2).
  { destruct (exists_ w (join db e)).
    - apply shutil_rmtree_at in Hrm as (q & ks' & Hq & Hq' & Hne & ->).
      apply (locate_plain_At w _ q Hdpl) in Hq. fold qd in Hq. subst q.
      cbn [cwd root denied with_root]. split; [reflexivity|].
      split; [reflexivity|]. split; [|split].
      + intros a Ha1 Ha2. now apply set_at_apart.
      + exact (remove_kinds _ _ _ Hne Hq').
      + intros Hwf. apply wfb_set_at; [exact Hwf|discriminate].
    - apply ret_ok in Hrm as [_ ->]. repeat split; auto. }
  assert (lookup (root w2) qs = Some (Dir ks)) as Hks2
    by now rewrite Hf2.
  apply shutil_copytree_ok in Hct as Hg23. destruct Hg23 as [_ Hg23].
  apply shutil_copytree_at in Hct
    as (ks2 & qs2 & w1 & qd' & Hs2 & Hqs2 & Hmk & Hqd & ->).
  assert (qs2 = qs) as ->.
  { unfold locate in Hqs, Hqs2. rewrite Hc2 in Hqs2.
    destruct (walk_after_loss _ _ (parts (join wb e)) Hk2 _ _ Hqs) as [E|E];
      rewrite E in Hqs2; [now inversion Hqs2|discriminate Hqs2]. }
  assert (ks2 = ks) as ->.
  { unfold stat in Hs2. rewrite Hqs2, Hks2 in Hs2. now inversion Hs2. }
  destruct (os_makedirs_made _ _ _ Hdpl Hmk)
    as (Hc1 & Hd1 & Hne & Hnew & Hframe & Hwf1).
  assert (loc w2 (join db e) = qd) as Eqd by (unfold qd, loc; now rewrite Hc2).
  rewrite Eqd in Hne, Hnew, Hframe, Hwf1.
  apply (locate_plain_At w1 _ qd' Hdpl) in Hqd.
  assert (qd' = qd) as -> by (rewrite Hqd; unfold qd, loc; now rewrite Hc1, Hc2).
  set (w3 := with_root w1 (set_at qd (Some (Dir ks)) (root w1))) in *.
  assert (kind_of (lookup (root w1) (removelast qd)) = KDir) as Hpar
    by exact (lookup_parent_dir _ _ _ Hne Hnew).
  split; [unfold w3; cbn [cwd with_root]; congruence|].
  split; [unfold w3; cbn [denied with_root]; congruence|].
  split; [exact Hne|]. split; [|split; [|split; [|split]]].
  - intros s. unfold w3. cbn [root with_root].
    now rewrite (set_at_under _ (Some (Dir ks)) (root w1) s Hne Hpar).
  - intros a Ha1 Ha2. unfold w3. cbn [root with_root].
    rewrite set_at_apart by assumption. rewrite Hframe by exact Ha2.
    now apply Hf2.
  - intros Hqpl Hwf. unfold w3. cbn [root with_root].
    apply wfb_set_at; [exact (Hwf1 Hqpl (Hwf2 Hwf))|].
    intros n Hn. inversion Hn; subst n. split.
    + exact (wfb_lookup _ _ _ Hwf Hks).
    + pose proof (last_forallb not_dotdot qd "" Hqpl eq_refl) as Hl.
      unfold not_dotdot in Hl. intros E. rewrite E in Hl. discriminate Hl.
  - exact (locate_grows w2 w3 _ _ Hg23 Hqs2).
  - reflexivity.
Qed.



End DirEntryProps.

Module MirrorProps.

Import PrefixProps PathSafety TreeProps WfProps WalkProps RemoveProps GrowProps.
Import CopyProps CleanupProps ValidateProps KeepProps MkdirProps ListingProps.
Import ConfineProps ShrinkProps FileEntryProps DirEntryProps.

(* ===================================================================== *)
(** * Entries that do not lie inside one another *)
(* ===================================================================== *)

Lemma below_below (p : Path) (a b : list string) :
  below (below p a) b = below p (a ++ b).
Proof. unfold below. cbn [absolute parts]. now rewrite app_assoc. Qed.

Lemma Path_in_In (p : Path) (l : list Path) : In p l -> Path_in p l = true.
Proof.
  intros Hin. unfold Path_in. apply existsb_exists. exists p.
  split; [exact Hin|]. unfold Path_eqb, parts_eqb. rewrite Bool.eqb_reflx.
  now destruct (list_eq_dec string_dec (parts p) (parts p)).
Qed.

Lemma Path_in_app (p : Path) (a b : list Path) :
  Path_in p (a ++ b) = Path_in p a || Path_in p b.
Proof. unfold Path_in. apply existsb_app. Qed.

(* ===================================================================== *)
(** * When removing and copying a tree succeed *)
(* ===================================================================== *)

(** [os.mkdir] of a new entry below a directory. *)
Lemma os_mkdir_new (p : Path) (w : world) :
  plain p = true -> parts p <> [] ->
  kind_at w (removelast (loc w p)) = KDir ->
  lookup (root w) (loc w p) = None ->
  os_mkdir p w
  = (Ok tt, with_root w (set_at (loc w p) (Some (Dir [])) (root w))).
Proof.
  intros Hpl Hne Hpar Hnone.
  destruct (os_mkdir_parent_dir p w Hpl Hne Hpar) as [[w' E]|[m [E Hd]]].
  - unfold kind_at. now rewrite Hnone.
  - pose proof E as E'.
    apply os_mkdir_ok_at in E' as (q & Hq & _ & _ & _ & ->).
    apply (locate_plain_At w p q Hpl) in Hq. now subst q.
  - unfold is_dir in Hd. rewrite (stat_plain w p Hpl), Hnone in Hd.
    discriminate Hd.
Qed.

(** [os.makedirs] succeeds for a new path below a directory with no regular
    file on the way. *)
Lemma os_makedirs_succeeds (p : Path) (w : world) :
  plain p = true -> parts p <> [] ->
  kind_at w (if absolute p then [] else cwd w) = KDir ->
  (forall a, is_prefix a (removelast (loc w p)) = true -> kind_at w a <> KFile) ->
  lookup (root w) (loc w p) = None ->
  exists w', os_makedirs p w = (Ok tt, w').
Proof.
  intros Hpl Hne Hstart Hnf Hnone. unfold os_makedirs.
  destruct (rev (parts p)) as [|c up] eqn:Er.
  { apply (f_equal (@rev string)) in Er. rewrite rev_involutive in Er.
    now elim Hne. }
  assert (parts p = rev up ++ [c]) as Hparts.
  { rewrite <- (rev_involutive (parts p)), Er. reflexivity. }
  assert (forallb not_dotdot up = true) as Hup.
  { unfold plain in Hpl. rewrite Hparts, forallb_app in Hpl.
    apply andb_true_iff in Hpl as [Hpl _]. now rewrite forallb_rev in Hpl. }
  assert (removelast (loc w p) = (if absolute p then [] else cwd w) ++ rev up)
    as Hrl.
  { unfold loc. rewrite Hparts, app_assoc. apply removelast_last. }
  rewrite Hrl in Hnf.
  destruct (mkdir_parents_succeeds (absolute p) up Hup w Hstart Hnf) as [w1 E1].
  pose proof (mkdir_parents_preserved _ _ _ _ _ E1) as (Hc1 & _ & _).
  assert (loc w1 p = loc w p) as El by (unfold loc; now rewrite Hc1).
  unfold bind. rewrite E1. rewrite os_mkdir_new; [now eexists|exact Hpl|exact Hne| |].
  - rewrite El, Hrl.
    pose proof (mkdir_parents_is_dir _ _ _ _ E1) as Hd.
    unfold is_dir in Hd. rewrite stat_plain in Hd
      by (unfold plain; cbn [parts]; now rewrite forallb_rev).
    unfold loc in Hd. cbn [absolute parts] in Hd. rewrite Hc1 in Hd.
    unfold kind_at.
    destruct (kind_of (lookup (root w1) _)); now try discriminate Hd.
  - rewrite El.
    rewrite (mkdir_parents_frame (absolute p) (cwd w) up Hup w w1 (Ok tt) E1 eq_refl);
      [exact Hnone|].
    rewrite <- Hrl.
    destruct (is_prefix (loc w p) (removelast (loc w p))) eqn:E; [|reflexivity].
    apply is_prefix_length in E.
    assert (loc w p <> []) as Hlne.
    { unfold loc. intros E'. apply app_eq_nil in E' as [_ E']. now apply Hne. }
    pose proof (length_removelast _ Hlne). lia.
Qed.

(** [shutil.rmtree] of a directory that is not the root. *)
Lemma shutil_rmtree_runs (p : Path) (w : world) (q : list string)
  (ks : list (string * node)) :
  locate w p = At q -> lookup (root w) q = Some (Dir ks) -> q <> [] ->
  shutil_rmtree p w = (Ok tt, with_root w (set_at q None (root w))).
Proof.
  intros Hq Hks Hne. unfold shutil_rmtree. rewrite Hq, Hks.
  destruct q; [congruence|reflexivity].
Qed.

(** [shutil.copytree] of a directory to a path that can be made and does
    not lie inside it. *)
Lemma shutil_copytree_runs (src dst : Path) (w w1 : world)
  (qs qd : list string) (ks : list (string * node)) :
  locate w src = At qs -> lookup (root w) qs = Some (Dir ks) ->
  os_makedirs dst w = (Ok tt, w1) -> locate w1 dst = At qd ->
  is_prefix qs qd = false ->
  shutil_copytree src dst w
  = (Ok tt, with_root w1 (set_at qd (Some (Dir ks)) (root w1))).
Proof.
  intros Hqs Hks Hmk Hqd Hout. unfold shutil_copytree, stat.
  now rewrite Hqs, Hks, Hmk, Hqd, Hout.
Qed.

(** The loop of [copy_files] that sets the mode of the copied directories
    leaves the tree as it is and raises nothing. *)
Lemma chmod_dirs_ok (found : list Path) (w : world) :
  exists cs,
    for_each
      (fun copied_dir : Path =>
         d <- gets (fun w => is_dir w copied_dir) ;;
         if d then os_chmod copied_dir 493 else ret tt)
      found w = (Ok tt, logged w cs).
Proof.
  unfold for_each. revert w. induction found as [|p found IH]; intros w.
  - exists []. simpl. unfold ret. now rewrite logged_nil.
  - simpl. unfold bind at 1. unfold bind at 1. unfold gets at 1.
    destruct (is_dir w p) eqn:Ed.
    + assert (exists_ w p = true) as Hex.
      { unfold exists_. unfold is_dir in Ed.
        destruct (kind_of (stat w p)); now try discriminate Ed. }
      destruct (os_chmod_run p 493 w Hex) as (q & _ & ->).
      destruct (IH (logged w [(q, 493%N)])) as [cs ->].
      exists ([(q, 493%N)] ++ cs). now rewrite logged_logged.
    + unfold ret at 1. exact (IH w).
Qed.

Section Mirror.

Variable self : WSLSyncEngine.
Variables wb db : Path.
Variable w0 : world.

Let q : list string := loc w0 db.
Let qb : list string := loc w0 wb.
Local Abbreviation rel e := (parts (Path_of_string e)).

Hypothesis Hwbp : plain wb = true.
Hypothesis Hdb : plain db = true.
Hypothesis Hqa : is_prefix q qb = false.
Hypothesis Hbq : is_prefix qb q = false.
Hypothesis Hq : kind_at w0 q = KDir.
Hypothesis Hwf0 : wfb (root w0) = true.
Hypothesis Hden0 : denied w0 = [].

(** An entry that is relative and without [..]; when it names a regular
    file of the source, its place in the destination is not taken by a
    directory. *)
Let entry_ok (e : string) : Prop :=
  absolute (Path_of_string e) = false /\
  forallb not_dotdot (rel e) = true /\
  (kind_at w0 (qb ++ rel e) = KFile -> kind_at w0 (q ++ rel e) <> KDir).

(** Two entries are the same path or neither lies inside the other. *)
Let compat (e e' : string) : Prop :=
  rel e = rel e' \/
  (is_prefix (rel e) (rel e') = false /\ is_prefix (rel e') (rel e) = false).

(** A location off the places of the entries [P]: neither inside one nor on
    the way to one. *)
Let off (P : list string) (a : list string) : Prop :=
  forall e', In e' P ->
    is_prefix (q ++ rel e') a = false /\ is_prefix a (q ++ rel e') = false.

(** What holds between two turns of the loop of [copy_files], [P] being the
    entries copied so far: each has at its place what the source has, and
    nothing has changed off these places. *)
Let Inv (P : list string) (w : world) : Prop :=
  cwd w = cwd w0 /\ denied w = denied w0 /\ wfb (root w) = true /\
  kind_at w q = KDir /\
  (forall e', In e' P ->
     lookup (root w) (q ++ rel e') = lookup (root w0) (qb ++ rel e')) /\
  (forall a, off P a -> lookup (root w) a = lookup (root w0) a).

(** The regular files of the source below the entry are in the list. *)
Let keeps (e : string) (l : list Path) : Prop :=
  forall s d, lookup (root w0) (qb ++ rel e ++ s) = Some (File d) ->
              Path_in (below db (rel e ++ s)) l = true.

Lemma roots_apart (s t : list string) :
  is_prefix (qb ++ s) (q ++ t) = false /\ is_prefix (q ++ t) (qb ++ s) = false.
Proof.
  split.
  - destruct (is_prefix (qb ++ s) (q ++ t)) eqn:E; [|reflexivity].
    pose proof (is_prefix_trans _ _ _ (is_prefix_app_l qb s) E) as H.
    destruct (is_prefix_comparable qb q t H) as [H'|H']; congruence.
  - destruct (is_prefix (q ++ t) (qb ++ s)) eqn:E; [|reflexivity].
    pose proof (is_prefix_trans _ _ _ (is_prefix_app_l q t) E) as H.
    destruct (is_prefix_comparable q qb s H) as [H'|H']; congruence.
Qed.

Lemma source_same (P : list string) (w : world) (s : list string) :
  Inv P w -> lookup (root w) (qb ++ s) = lookup (root w0) (qb ++ s).
Proof.
  intros (_ & _ & _ & _ & _ & Hoff). apply Hoff. intros e' _.
  destruct (roots_apart s (rel e')) as [H1 H2]. now split.
Qed.

Lemma hit_or_off (P : list string) (a : list string) :
  off P a \/
  exists e', In e' P /\
             (is_prefix (q ++ rel e') a = true \/ is_prefix a (q ++ rel e') = true).
Proof.
  induction P as [|e P IH].
  - left. intros e' [].
  - destruct (is_prefix (q ++ rel e) a) eqn:E1;
      [right; exists e; split; [now left|now left]|].
    destruct (is_prefix a (q ++ rel e)) eqn:E2;
      [right; exists e; split; [now left|now right]|].
    destruct IH as [IH|(e' & Hin & He')].
    + left. intros e' [<-|Hin]; [now split|now apply IH].
    + right. exists e'. split; [now right|exact He'].
Qed.

(** The place of an entry holds what it held at the start, or what the
    source has there. *)
Lemma place_of_entry (P : list string) (w : world) (e : string) :
  Inv P w -> (forall e', In e' P -> compat e e') ->
  lookup (root w) (q ++ rel e) = lookup (root w0) (q ++ rel e) \/
  lookup (root w) (q ++ rel e) = lookup (root w0) (qb ++ rel e).
Proof.
  intros (_ & _ & _ & _ & Hdone & Hoff) Hcompat.
  destruct (hit_or_off P (q ++ rel e)) as [H|(e' & Hin & He')].
  - left. now apply Hoff.
  - right. destruct (Hcompat e' Hin) as [E|[E1 E2]].
    + rewrite E. now apply Hdone.
    + rewrite !is_prefix_app in He'. destruct He'; congruence.
Qed.

Lemma q_is_plain : forallb not_dotdot q = true.
Proof.
  apply kind_dir in Hq as [ks Hks].
  exact (lookup_not_dotdot q (root w0) (Dir ks) Hwf0 Hks).
Qed.

Lemma source_loc (e : string) (w : world) :
  absolute (Path_of_string e) = false -> cwd w = cwd w0 ->
  loc w (join wb e) = qb ++ rel e.
Proof.
  intros Habs Hc. rewrite (join_relative wb e Habs).
  unfold loc, below, qb, loc. cbn [absolute parts]. rewrite Hc.
  now rewrite app_assoc.
Qed.

Lemma Inv_start : Inv [] w0.
Proof.
  repeat split; auto. intros e' [].
Qed.

(** One turn of the loop on an entry that names a regular file. *)
Lemma file_turn (P : list string) (e : string) (acc l : list Path)
  (w w' : world) (d : string) :
  entry_ok e -> (forall e', In e' P -> compat e e') -> Inv P w ->
  lookup (root w0) (qb ++ rel e) = Some (File d) ->
  copy_entry self wb db e acc w = (Ok l, w') ->
  Inv (e :: P) w' /\ exists new, l = acc ++ new /\ keeps e new.
Proof.
  intros (Habs & Hpl & Hfree) Hcompat Hinv Hd0 H.
  pose proof Hinv as (Hc & Hd & Hwf & Hqw & Hdone & Hoff).
  assert (kind_at w (q ++ rel e) <> KDir) as Hnd.
  { unfold kind_at.
    destruct (place_of_entry P w e Hinv Hcompat) as [E|E]; rewrite E.
    - apply Hfree. unfold kind_at. now rewrite Hd0.
    - rewrite Hd0. discriminate. }
  assert (rel e <> []) as Hne.
  { intros E. rewrite E, app_nil_r in Hnd. now apply Hnd. }
  assert (plain (join wb e) = true) as Hspl.
  { rewrite (join_relative wb e Habs). now apply plain_below. }
  assert (stat w (join wb e) = Some (File d)) as Hs.
  { rewrite (stat_plain w _ Hspl), (source_loc e w Habs Hc).
    now rewrite (source_same P w (rel e) Hinv). }
  unfold copy_entry in H.
  apply bind_ok in H as (ex & w1 & Hex & H).
  apply gets_ok in Hex as [-> ->].
  destruct (exists_ w (join wb e)) eqn:Eex;
    [|unfold exists_ in Eex; rewrite Hs in Eex; discriminate Eex].
  cbn [negb] in H.
  apply bind_ok in H as (isf & w1 & Hisf & H).
  apply gets_ok in Hisf as [-> ->].
  destruct (is_file w (join wb e)) eqn:Efile;
    [|unfold is_file in Efile; rewrite Hs in Efile; discriminate Efile].
  apply bind_ok in H as (u & w2 & Hmk & H). destruct u.
  apply rewrap_ok in H. apply bind_ok in H as (u & w3 & Hcp & H). destruct u.
  apply ret_ok in H as [-> ->].
  apply (proj1 (create_directory_structure_run self _ w w2)) in Hmk.
  destruct Hmk as (w1 & Hmk & ->).
  apply shutil_copy2_after_modes in Hcp as (w3' & Hcp & ->).
  forget_modes w3'. rename w1 into w2, w3' into w3.
  pose proof (Path_mkdir_parents_ok _ _ _ Hmk) as [Hpd (Hc2 & Hmono2 & Hkeep2)].
  assert (cwd w2 = cwd w0) as Hc2' by congruence.
  assert (forallb not_dotdot (q ++ removelast (rel e)) = true) as Hppl.
  { rewrite forallb_app, q_is_plain. now apply forallb_removelast. }
  assert (forallb not_dotdot (q ++ rel e) = true) as Hrpl
    by (now rewrite forallb_app, q_is_plain).
  unfold Path_mkdir_parents in Hmk.
  assert (forallb not_dotdot (rev (parts (parent (join db e)))) = true) as Hpp.
  { rewrite forallb_rev, (join_relative db e Habs). unfold parent, below.
    cbn [parts]. rewrite removelast_app by exact Hne.
    rewrite forallb_app. unfold plain in Hdb. rewrite Hdb.
    now apply forallb_removelast. }
  pose proof (mkdir_parents_frame (absolute (parent (join db e))) (cwd w0)
                (rev (parts (parent (join db e)))) Hpp w w2 (Ok tt) Hmk Hc)
    as Hframe.
  rewrite rev_involutive, (dest_parent_loc db w0 e Habs Hne) in Hframe.
  fold q in Hframe.
  apply (mkdir_parents_made _ (cwd w0)) in Hmk; [| |exact Hc|exact Hwf].
  2:{ now rewrite rev_involutive, (dest_parent_loc db w0 e Habs Hne). }
  destruct Hmk as (Hwf2 & Hd2 & _).
  pose proof (dest_plain db Hdb e Habs Hpl) as Hdpl.
  assert (is_prefix (q ++ rel e) (q ++ removelast (rel e)) = false) as Hlong.
  { destruct (is_prefix (q ++ rel e) (q ++ removelast (rel e))) eqn:E;
      [|reflexivity].
    apply is_prefix_length in E. rewrite !length_app in E.
    pose proof (length_removelast (rel e) Hne). lia. }
  assert (is_dir w2 (join db e) = false) as Hnd2.
  { unfold is_dir.
    rewrite (stat_plain w2 _ Hdpl), (dest_loc db w0 e w2 Habs Hc2').
    fold q. rewrite (Hframe _ Hlong). unfold kind_at in Hnd.
    destruct (kind_of (lookup (root w) (q ++ rel e))); try reflexivity.
    now elim Hnd. }
  destruct (shutil_copy2_at _ _ _ _ Hcp Hnd2)
    as (r & data & Hr & Hsd & Hrk & Hrp & ->).
  apply (locate_plain_At w2 _ r Hdpl) in Hr.
  rewrite (dest_loc db w0 e w2 Habs Hc2') in Hr. fold q in Hr. subst r.
  assert (stat w2 (join wb e) = Some (File d)) as Hs2.
  { apply (stat_file_preserved w w2); [now repeat split|exact Hs]. }
  rewrite Hs2 in Hsd. inversion Hsd; subst data. clear Hsd.
  assert (q ++ rel e <> []) as Hrne.
  { intros E. apply app_eq_nil in E as [_ E]. now apply Hne. }
  specialize (Hrp Hrne).
  assert (lookup (set_at (q ++ rel e) (Some (File d)) (root w2)) (q ++ rel e)
          = Some (File d)) as Hnew.
  { rewrite <- (app_nil_r (q ++ rel e)) at 2.
    now rewrite (set_at_under _ (Some (File d)) (root w2) [] Hrne Hrp). }
  split.
  - unfold Inv. cbn [cwd root denied with_root].
    split; [exact Hc2'|]. split; [congruence|]. split; [|split; [|split]].
    + apply wfb_set_at; [exact Hwf2|].
      intros n Hn. inversion Hn; subst n. split; [reflexivity|].
      pose proof (last_forallb not_dotdot (q ++ rel e) "" Hrpl eq_refl) as Hl.
      unfold not_dotdot in Hl. intros E. rewrite E in Hl. discriminate Hl.
    + unfold kind_at. cbn [root with_root].
      apply (prefix_of_existing_is_dir _ q (q ++ rel e)).
      * apply is_prefix_app_l.
      * intros E. rewrite <- (app_nil_r q) in E at 1.
        apply app_inv_head in E. now apply Hne.
      * fold q. now rewrite Hnew.
    + intros e' [<-|Hin]; [now rewrite Hnew, Hd0|].
      destruct (Hcompat e' Hin) as [E|[E1 E2]].
      * rewrite <- E. now rewrite Hnew, Hd0.
      * rewrite set_at_apart by (now rewrite is_prefix_app).
        rewrite Hframe; [now apply Hdone|].
        rewrite is_prefix_app.
        destruct (is_prefix (rel e') (removelast (rel e))) eqn:E; [|reflexivity].
        now rewrite (is_prefix_trans _ _ _ E (is_prefix_removelast _)) in E2.
    + intros a Ha. destruct (Ha e (or_introl eq_refl)) as [Ha1 Ha2].
      rewrite set_at_apart by assumption.
      rewrite Hframe; [apply Hoff; intros e' Hin; apply Ha; now right|].
      destruct (is_prefix a (q ++ removelast (rel e))) eqn:E; [|reflexivity].
      assert (is_prefix (q ++ removelast (rel e)) (q ++ rel e) = true) as Hp
        by (rewrite is_prefix_app; apply is_prefix_removelast).
      now rewrite (is_prefix_trans _ _ _ E Hp) in Ha2.
  - exists [join db e]. split; [reflexivity|].
    intros s d' Hs'. rewrite app_assoc, lookup_app, Hd0 in Hs'.
    destruct s as [|x s]; [|discriminate Hs'].
    rewrite app_nil_r, (join_relative db e Habs). apply Path_in_In. now left.
Qed.

(** One turn of the loop on an entry that names a directory. *)
Lemma dir_turn (P : list string) (e : string) (acc l : list Path)
  (w w' : world) (ks : list (string * node)) :
  entry_ok e -> (forall e', In e' P -> compat e e') -> Inv P w ->
  lookup (root w0) (qb ++ rel e) = Some (Dir ks) ->
  copy_entry self wb db e acc w = (Ok l, w') ->
  Inv (e :: P) w' /\ exists new, l = acc ++ new /\ keeps e new.
Proof.
  intros (Habs & Hpl & _) Hcompat Hinv Hd0 H.
  pose proof Hinv as (Hc & Hd & Hwf & Hqw & Hdone & Hoff).
  assert (plain (join wb e) = true) as Hspl.
  { rewrite (join_relative wb e Habs). now apply plain_below. }
  pose proof (dest_plain db Hdb e Habs Hpl) as Hdpl.
  assert (lookup (root w) (qb ++ rel e) = Some (Dir ks)) as Hks
    by now rewrite (source_same P w (rel e) Hinv).
  assert (locate w (join wb e) = At (qb ++ rel e)) as Hqs.
  { rewrite <- (source_loc e w Habs Hc).
    apply (locate_plain w _ (Dir ks) Hspl). now rewrite (source_loc e w Habs Hc). }
  assert (loc w (join db e) = q ++ rel e) as Hdl
    by exact (dest_loc db w0 e w Habs Hc).
  destruct (roots_apart (rel e) (rel e)) as [Ha1 Ha2].
  destruct (copy_entry_directory_run self wb db e acc l w w' (qb ++ rel e) ks
              Hdb Habs Hpl Hqs Hks)
    as (Hc' & Hd' & Hne & Hcopy & Hframe & Hwf' & Hqs' & Hl);
    [now rewrite Hdl|now rewrite Hdl|exact H|].
  rewrite Hdl in Hne, Hcopy, Hframe, Hwf'.
  assert (forallb not_dotdot (q ++ rel e) = true) as Hrpl
    by (now rewrite forallb_app, q_is_plain).
  specialize (Hwf' Hrpl Hwf).
  assert (cwd w' = cwd w0) as Hc0 by congruence.
  assert (lookup (root w') (q ++ rel e) = Some (Dir ks)) as Hnew.
  { specialize (Hcopy []). now rewrite app_nil_r in Hcopy. }
  assert (wfb (Dir ks) = true) as Hwfk by exact (wfb_lookup _ _ _ Hwf0 Hd0).
  split.
  - unfold Inv. split; [exact Hc0|]. split; [congruence|].
    split; [exact Hwf'|]. split; [|split].
    + unfold kind_at.
      destruct (list_eq_dec String.string_dec q (q ++ rel e)) as [E|E].
      * rewrite E at 1. now rewrite Hnew.
      * apply (prefix_of_existing_is_dir _ q (q ++ rel e));
          [apply is_prefix_app_l|exact E|now rewrite Hnew].
    + intros e' [<-|Hin]; [now rewrite Hnew, Hd0|].
      destruct (Hcompat e' Hin) as [E|[E1 E2]].
      * rewrite <- E. now rewrite Hnew, Hd0.
      * rewrite Hframe by (now rewrite is_prefix_app). now apply Hdone.
    + intros a Ha. destruct (Ha e (or_introl eq_refl)) as [Ha1' Ha2'].
      rewrite Hframe by assumption.
      apply Hoff. intros e' Hin. apply Ha. now right.
  - exists (files_below w' (join db e)). split; [exact Hl|].
    intros s d' Hs'. rewrite app_assoc, lookup_app, Hd0 in Hs'.
    cbn [lookup_o] in Hs'.
    assert (s <> []) as Hsne by (intros ->; discriminate Hs').
    pose proof (lookup_not_dotdot s (Dir ks) (File d') Hwfk Hs') as Hsp.
    assert (locate w' (join db e) = At (q ++ rel e)) as Hloc.
    { unfold q. rewrite <- (dest_loc db w0 e w' Habs Hc0).
      apply (locate_plain w' _ (Dir ks) Hdpl).
      rewrite (dest_loc db w0 e w' Habs Hc0). exact Hnew. }
    rewrite <- below_below, <- (join_relative db e Habs). apply Path_in_In.
    assert (denied w' = []) as Hden' by congruence.
    apply (files_below_spec w' (join db e) s Hwf' Hden' Hsne Hsp).
    rewrite (is_file_below w' _ _ s Hloc Hsp). unfold kind_at.
    now rewrite Hcopy, Hs'.
Qed.

(** One turn of the loop, whatever the entry names. *)
Lemma entry_turn (P : list string) (e : string) (acc l : list Path)
  (w w' : world) :
  entry_ok e -> (forall e', In e' P -> compat e e') -> Inv P w ->
  copy_entry self wb db e acc w = (Ok l, w') ->
  Inv (e :: P) w' /\ exists new, l = acc ++ new /\ keeps e new.
Proof.
  intros Hok Hcompat Hinv H.
  destruct (lookup (root w0) (qb ++ rel e)) as [[d|ks]|] eqn:E.
  - exact (file_turn P e acc l w w' d Hok Hcompat Hinv E H).
  - exact (dir_turn P e acc l w w' ks Hok Hcompat Hinv E H).
  - exfalso. destruct Hok as (Habs & Hpl & _).
    pose proof Hinv as (Hc & _).
    assert (stat w (join wb e) = None) as Hs.
    { rewrite stat_plain, (source_loc e w Habs Hc).
      - now rewrite (source_same P w (rel e) Hinv).
      - rewrite (join_relative wb e Habs). now apply plain_below. }
    unfold copy_entry in H.
    apply bind_ok in H as (ex & w1 & Hex & H).
    apply gets_ok in Hex as [-> ->].
    unfold exists_ in H. rewrite Hs in H. discriminate H.
Qed.

Lemma keeps_app (e : string) (a b : list Path) :
  keeps e a \/ keeps e b -> keeps e (a ++ b).
Proof.
  intros [H|H] s d Hs; rewrite Path_in_app, (H s d Hs);
    [reflexivity|apply orb_true_r].
Qed.

(** The loop of [copy_files] over entries none of which lies inside
    another. *)
Lemma copy_loop_mirror (L : list string) :
  (forall e, In e L -> entry_ok e) ->
  (forall e e', In e L -> In e' L -> compat e e') ->
  forall (es P : list string) (acc l : list Path) (w w' : world),
    incl es L -> incl P L -> Inv P w ->
    fold_m (copy_entry self wb db) es acc w = (Ok l, w') ->
    exists new,
      l = acc ++ new /\ Inv (rev es ++ P) w' /\
      forall e, In e es -> keeps e new.
Proof.
  intros Hok Hcompat.
  induction es as [|e es IH]; intros P acc l w w' Hes HP Hinv H; simpl in H.
  - apply ret_ok in H as [-> ->]. exists []. split; [now rewrite app_nil_r|].
    split; [exact Hinv|contradiction].
  - apply bind_ok in H as (l1 & w1 & H1 & H).
    assert (In e L) as HeL by (apply Hes; now left).
    destruct (entry_turn P e acc l1 w w1 (Hok e HeL)
                (fun e' Hin => Hcompat e e' HeL (HP e' Hin)) Hinv H1)
      as (Hinv1 & new1 & -> & Hk1).
    destruct (IH (e :: P) (acc ++ new1) l w1 w') as (new2 & -> & Hinv2 & Hk2).
    + intros x Hx. apply Hes. now right.
    + intros x [<-|Hx]; [exact HeL|now apply HP].
    + exact Hinv1.
    + exact H.
    + exists (new1 ++ new2). split; [now rewrite app_assoc|]. split.
      * simpl. now rewrite <- app_assoc.
      * intros x [<-|Hx]; apply keeps_app; [now left|right; now apply Hk2].
Qed.

(** No regular file lies on the way to the place of the entry. *)
Let free (e : string) : Prop :=
  forall a, is_prefix a (q ++ removelast (rel e)) = true -> kind_at w0 a <> KFile.

(** An entry that can be copied: it has a component, the source has it, no
    regular file lies on the way to its place, and the place of a directory
    is not taken by a regular file. *)
Let ready (e : string) : Prop :=
  rel e <> [] /\ lookup (root w0) (qb ++ rel e) <> None /\ free e /\
  (kind_at w0 (qb ++ rel e) = KDir -> kind_at w0 (q ++ rel e) <> KFile).

(** The entries copied so far: none lies inside [e] or around it, and the
    source has each. *)
Let before (e : string) (P : list string) : Prop :=
  forall e', In e' P ->
    compat e e' /\ lookup (root w0) (qb ++ rel e') <> None.

Lemma way_is_free (P : list string) (e : string) (w : world) :
  Inv P w -> rel e <> [] -> free e -> before e P ->
  forall a, is_prefix a (q ++ removelast (rel e)) = true -> kind_at w a <> KFile.
Proof.
  intros Hinv Hne Hfree HP a Ha.
  pose proof Hinv as (_ & _ & _ & _ & Hdone & Hoff).
  assert (forall e', In e' P ->
            is_prefix (q ++ rel e') (q ++ removelast (rel e)) = true -> False)
    as Hno.
  { intros e' Hin Hp. rewrite is_prefix_app in Hp.
    destruct (HP e' Hin) as [[E|[E1 E2]] _].
    - rewrite <- E in Hp. apply is_prefix_length in Hp.
      pose proof (length_removelast _ Hne). lia.
    - rewrite (is_prefix_trans _ _ _ Hp (is_prefix_removelast _)) in E2.
      discriminate E2. }
  destruct (hit_or_off P a) as [H|(e' & Hin & [He'|He'])].
  - unfold kind_at. rewrite (Hoff a H). exact (Hfree a Ha).
  - exfalso. exact (Hno e' Hin (is_prefix_trans _ _ _ He' Ha)).
  - destruct (list_eq_dec String.string_dec a (q ++ rel e')) as [->|Hna].
    + exfalso. exact (Hno e' Hin Ha).
    + assert (kind_at w a = KDir) as Hk.
      { apply (prefix_of_existing_is_dir _ a (q ++ rel e') He' Hna).
        rewrite (Hdone e' Hin). exact (proj2 (HP e' Hin)). }
      rewrite Hk. discriminate.
Qed.

Lemma start_is_dir (P : list string) (w : world) :
  Inv P w -> kind_at w (if absolute db then [] else cwd w) = KDir.
Proof.
  intros (Hc & _ & _ & Hqw & _). rewrite Hc. unfold q, loc in Hqw.
  destruct (parts db) as [|x l] eqn:Ep.
  - now rewrite app_nil_r in Hqw.
  - unfold kind_at. apply (lookup_prefix_dir (root w) _ l x).
    unfold kind_at in Hqw.
    destruct (lookup (root w) _); [discriminate|discriminate Hqw].
Qed.

(** One turn of the loop on a regular file returns normally. *)
Lemma file_runs (P : list string) (e : string) (acc : list Path) (w : world)
  (d : string) :
  entry_ok e -> ready e -> before e P -> Inv P w ->
  lookup (root w0) (qb ++ rel e) = Some (File d) ->
  exists l w', copy_entry self wb db e acc w = (Ok l, w').
Proof.
  intros (Habs & Hpl & Hfree0) (Hne & _ & Hfree & _) HP Hinv Hd0.
  pose proof Hinv as (Hc & Hd & Hwf & Hqw & Hdone & Hoff).
  assert (kind_at w (q ++ rel e) <> KDir) as Hnd.
  { unfold kind_at.
    destruct (place_of_entry P w e Hinv (fun e' Hin => proj1 (HP e' Hin)))
      as [E|E]; rewrite E.
    - apply Hfree0. unfold kind_at. now rewrite Hd0.
    - rewrite Hd0. discriminate. }
  assert (plain (join wb e) = true) as Hspl.
  { rewrite (join_relative wb e Habs). now apply plain_below. }
  assert (lookup (root w) (qb ++ rel e) = Some (File d)) as Hsw
    by now rewrite (source_same P w (rel e) Hinv).
  assert (stat w (join wb e) = Some (File d)) as Hs.
  { now rewrite (stat_plain w _ Hspl), (source_loc e w Habs Hc). }
  pose proof (dest_plain db Hdb e Habs Hpl) as Hdpl.
  assert (forallb not_dotdot (rev (parts (parent (join db e)))) = true) as Hpp.
  { rewrite forallb_rev, (join_relative db e Habs). unfold parent, below.
    cbn [parts]. rewrite removelast_app by exact Hne.
    rewrite forallb_app. unfold plain in Hdb. rewrite Hdb.
    now apply forallb_removelast. }
  assert (absolute (parent (join db e)) = absolute db) as Hpa
    by now rewrite (join_relative db e Habs).
  destruct (mkdir_parents_succeeds (absolute (parent (join db e)))
              (rev (parts (parent (join db e)))) Hpp w) as [w2 Hmk].
  { rewrite Hpa. exact (start_is_dir P w Hinv). }
  { rewrite rev_involutive, Hc, (dest_parent_loc db w0 e Habs Hne).
    exact (way_is_free P e w Hinv Hne Hfree HP). }
  pose proof (mkdir_parents_frame (absolute (parent (join db e))) (cwd w0)
                (rev (parts (parent (join db e)))) Hpp w w2 (Ok tt) Hmk Hc)
    as Hframe.
  rewrite rev_involutive, (dest_parent_loc db w0 e Habs Hne) in Hframe.
  fold q in Hframe.
  fold (Path_mkdir_parents (parent (join db e))) in Hmk.
  pose proof (Path_mkdir_parents_ok _ _ _ Hmk) as [Hpd (Hc2 & Hmono2 & Hkeep2)].
  assert (cwd w2 = cwd w0) as Hc2' by congruence.
  assert (is_prefix (q ++ rel e) (q ++ removelast (rel e)) = false) as Hlong.
  { destruct (is_prefix (q ++ rel e) (q ++ removelast (rel e))) eqn:E;
      [|reflexivity].
    apply is_prefix_length in E. rewrite !length_app in E.
    pose proof (length_removelast (rel e) Hne). lia. }
  assert (is_dir w2 (join db e) = false) as Hnd2.
  { unfold is_dir.
    rewrite (stat_plain w2 _ Hdpl), (dest_loc db w0 e w2 Habs Hc2').
    fold q. rewrite (Hframe _ Hlong). unfold kind_at in Hnd.
    destruct (kind_of (lookup (root w) (q ++ rel e))); try reflexivity.
    now elim Hnd. }
  assert (q ++ rel e <> []) as Hrne.
  { intros E. apply app_eq_nil in E as [_ E]. now apply Hne. }
  assert (removelast (q ++ rel e) = q ++ removelast (rel e)) as Hrl
    by now apply removelast_app.
  assert (kind_at w2 (q ++ removelast (rel e)) = KDir) as Hpar2.
  { unfold is_dir in Hpd. rewrite stat_plain in Hpd.
    - unfold loc in Hpd. rewrite Hc2' in Hpd.
      rewrite (dest_parent_loc db w0 e Habs Hne) in Hpd. unfold kind_at.
      fold q in Hpd.
      destruct (kind_of (lookup (root w2) (q ++ removelast (rel e))));
        now try discriminate Hpd.
    - unfold plain. rewrite <- forallb_rev. exact Hpp. }
  assert (locate w2 (join db e) = At (q ++ rel e)) as Hld.
  { unfold q. rewrite <- (dest_loc db w0 e w2 Habs Hc2'). unfold locate, loc.
    apply walk_parent_dir; [exact Hdpl| |].
    - rewrite (join_relative db e Habs). unfold below. cbn [parts].
      intros E. apply app_eq_nil in E as [_ E]. now apply Hne.
    - rewrite <- removelast_app.
      + fold (loc w2 (join db e)). rewrite (dest_loc db w0 e w2 Habs Hc2').
        fold q. rewrite Hrl. exact Hpar2.
      + rewrite (join_relative db e Habs). unfold below. cbn [parts].
        intros E. apply app_eq_nil in E as [_ E]. now apply Hne. }
  assert (lookup (root w2) (qb ++ rel e) = Some (File d)) as Hsl
    by now apply Hkeep2.
  assert (locate w2 (join wb e) = At (qb ++ rel e)) as Hls.
  { rewrite <- (source_loc e w2 Habs Hc2').
    apply (locate_plain w2 _ (File d) Hspl).
    now rewrite (source_loc e w2 Habs Hc2'). }
  pose proof (shutil_copy2_runs (join wb e) (join db e) w2 _ _ d
                Hnd2 Hls Hsl Hld) as Hcp.
  unfold copy_entry, bind, gets, ret.
  assert (exists_ w (join wb e) = true) as -> by (unfold exists_; now rewrite Hs).
  cbn [negb].
  assert (is_file w (join wb e) = true) as -> by (unfold is_file; now rewrite Hs).
  rewrite (proj2 (create_directory_structure_run self (join db e) w _)
             (ex_intro _ w2 (conj Hmk eq_refl))).
  unfold rewrap. rewrite shutil_copy2_logged, Hcp.
  - cbn [fst snd]. now eexists; eexists.
  - intros E. destruct (roots_apart (rel e) (rel e)) as [_ H2].
    rewrite E, is_prefix_refl in H2. discriminate H2.
  - exact Hrne.
  - now rewrite Hrl.
Qed.

(** One turn of the loop on a directory returns normally. *)
Lemma dir_runs (P : list string) (e : string) (acc : list Path) (w : world)
  (ks : list (string * node)) :
  entry_ok e -> ready e -> before e P -> Inv P w ->
  lookup (root w0) (qb ++ rel e) = Some (Dir ks) ->
  exists l w', copy_entry self wb db e acc w = (Ok l, w').
Proof.
  intros (Habs & Hpl & _) (Hne & _ & Hfree & Hplace) HP Hinv Hd0.
  pose proof Hinv as (Hc & Hd & Hwf & Hqw & Hdone & Hoff).
  assert (plain (join wb e) = true) as Hspl.
  { rewrite (join_relative wb e Habs). now apply plain_below. }
  pose proof (dest_plain db Hdb e Habs Hpl) as Hdpl.
  assert (lookup (root w) (qb ++ rel e) = Some (Dir ks)) as Hks
    by now rewrite (source_same P w (rel e) Hinv).
  assert (stat w (join wb e) = Some (Dir ks)) as Hs.
  { now rewrite (stat_plain w _ Hspl), (source_loc e w Habs Hc). }
  assert (forall v, cwd v = cwd w0 -> loc v (join db e) = q ++ rel e) as Hdl
    by (intros v Hv; exact (dest_loc db w0 e v Habs Hv)).
  assert (forall v, cwd v = cwd w0 -> loc v (join wb e) = qb ++ rel e) as Hsl
    by (intros v Hv; exact (source_loc e v Habs Hv)).
  destruct (roots_apart (rel e) (rel e)) as [Ha1 Ha2].
  assert (q ++ rel e <> []) as Hrne.
  { intros E. apply app_eq_nil in E as [_ E]. now apply Hne. }
  assert (removelast (q ++ rel e) = q ++ removelast (rel e)) as Hrl
    by now apply removelast_app.
  assert (is_prefix (q ++ rel e) (q ++ removelast (rel e)) = false) as Hlong.
  { destruct (is_prefix (q ++ rel e) (q ++ removelast (rel e))) eqn:E;
      [|reflexivity].
    apply is_prefix_length in E. rewrite !length_app in E.
    pose proof (length_removelast (rel e) Hne). lia. }
  assert (parts (join db e) <> []) as Hpne.
  { rewrite (join_relative db e Habs). unfold below. cbn [parts].
    intros E. apply app_eq_nil in E as [_ E]. now apply Hne. }
  (* the removal *)
  assert (exists w2,
            (if exists_ w (join db e) then shutil_rmtree (join db e) else ret tt) w
            = (Ok tt, w2) /\
            cwd w2 = cwd w0 /\ lookup (root w2) (q ++ rel e) = None /\
            (forall a, is_prefix (q ++ rel e) a = false ->
                       kind_at w2 a = kind_at w a) /\
            (forall a, is_prefix (q ++ rel e) a = false ->
                       is_prefix a (q ++ rel e) = false ->
                       lookup (root w2) a = lookup (root w) a))
    as (w2 & Hrm & Hc2 & Hgone & Hk2 & Hf2).
  { assert (kind_at w (q ++ rel e) <> KFile) as Hnf.
    { unfold kind_at.
      destruct (place_of_entry P w e Hinv (fun e' Hin => proj1 (HP e' Hin)))
        as [E|E]; rewrite E.
      - apply Hplace. unfold kind_at. now rewrite Hd0.
      - rewrite Hd0. discriminate. }
    unfold exists_. rewrite (stat_plain w _ Hdpl), (Hdl w Hc).
    unfold kind_at in Hnf.
    destruct (lookup (root w) (q ++ rel e)) as [[d|ks']|] eqn:Eq;
      [now elim Hnf| |]; cbn [kind_of kind_eqb negb].
    - exists (with_root w (set_at (q ++ rel e) None (root w))). split.
      + apply (shutil_rmtree_runs _ w _ ks'); [|exact Eq|exact Hrne].
        rewrite <- (Hdl w Hc). apply (locate_plain w _ (Dir ks') Hdpl).
        now rewrite (Hdl w Hc).
      + cbn [cwd root with_root]. split; [exact Hc|].
        pose proof (lookup_parent_dir _ _ _ Hrne Eq) as Hpar. split; [|split].
        * rewrite <- (app_nil_r (q ++ rel e)) at 2.
          now rewrite (set_at_under _ None (root w) [] Hrne Hpar).
        * intros a Ha. unfold kind_at. cbn [root with_root].
          destruct (is_prefix a (q ++ rel e)) eqn:E.
          -- apply set_at_above; [exact E|]. intros ->.
             now rewrite is_prefix_refl in Ha.
          -- now rewrite set_at_apart.
        * intros a H1 H2. now apply set_at_apart.
    - exists w. unfold ret. repeat split; auto. }
  (* making the destination *)
  assert (forall a, is_prefix a (q ++ removelast (rel e)) = true ->
                    is_prefix (q ++ rel e) a = false) as Hway.
  { intros a Ha. destruct (is_prefix (q ++ rel e) a) eqn:E; [|reflexivity].
    now rewrite (is_prefix_trans _ _ _ E Ha) in Hlong. }
  destruct (os_makedirs_succeeds (join db e) w2 Hdpl Hpne) as [w1 Hmk].
  { assert (absolute (join db e) = absolute db) as ->
      by now rewrite (join_relative db e Habs).
    rewrite Hc2, <- Hc. rewrite Hk2; [exact (start_is_dir P w Hinv)|].
    rewrite Hc. apply Hway. unfold q, loc. rewrite <- app_assoc.
    apply is_prefix_app_l. }
  { rewrite (Hdl w2 Hc2), Hrl. intros a Ha. rewrite (Hk2 a (Hway a Ha)).
    exact (way_is_free P e w Hinv Hne Hfree HP a Ha). }
  { now rewrite (Hdl w2 Hc2). }
  destruct (os_makedirs_made _ _ _ Hdpl Hmk)
    as (Hc1 & _ & _ & Hnew & Hframe & _).
  rewrite (Hdl w2 Hc2) in Hnew, Hframe.
  assert (cwd w1 = cwd w0) as Hc1' by congruence.
  assert (locate w1 (join db e) = At (q ++ rel e)) as Hqd.
  { rewrite <- (Hdl w1 Hc1'). apply (locate_plain w1 _ (Dir []) Hdpl).
    now rewrite (Hdl w1 Hc1'). }
  assert (lookup (root w2) (qb ++ rel e) = Some (Dir ks)) as Hks2
    by now rewrite Hf2.
  assert (locate w2 (join wb e) = At (qb ++ rel e)) as Hqs2.
  { rewrite <- (Hsl w2 Hc2). apply (locate_plain w2 _ (Dir ks) Hspl).
    now rewrite (Hsl w2 Hc2). }
  pose proof (shutil_copytree_runs _ _ w2 w1 _ _ ks Hqs2 Hks2 Hmk Hqd Ha1) as Hct.
  set (w3 := with_root w1 (set_at (q ++ rel e) (Some (Dir ks)) (root w1))) in *.
  assert (exists_ w3 (join db e) = true) as Hex3.
  { unfold exists_. rewrite (stat_plain w3 _ Hdpl).
    assert (loc w3 (join db e) = q ++ rel e) as -> by (now apply Hdl).
    unfold w3. cbn [root with_root].
    rewrite <- (app_nil_r (q ++ rel e)) at 2.
    rewrite (set_at_under _ (Some (Dir ks)) (root w1) [] Hrne
               (lookup_parent_dir _ _ _ Hrne Hnew)).
    reflexivity. }
  (* the turn *)
  unfold copy_entry. unfold bind at 1. unfold gets at 1.
  assert (exists_ w (join wb e) = true) as -> by (unfold exists_; now rewrite Hs).
  cbn [negb]. unfold bind at 1. unfold gets at 1.
  assert (is_file w (join wb e) = false) as -> by (unfold is_file; now rewrite Hs).
  unfold bind at 1. unfold gets at 1.
  assert (is_dir w (join wb e) = true) as -> by (unfold is_dir; now rewrite Hs).
  unfold rewrap. unfold bind at 1. unfold gets at 1.
  unfold bind at 1. rewrite Hrm.
  unfold bind at 1. rewrite Hct.
  destruct (os_chmod_run (join db e) 493 w3 Hex3) as (q3 & _ & Hch).
  unfold bind at 1. rewrite Hch.
  unfold bind at 1. unfold gets at 1.
  destruct (chmod_dirs_ok (Path_rglob (logged w3 [(q3, 493%N)]) (join db e))
              (logged w3 [(q3, 493%N)])) as [cs Hcs].
  unfold bind at 1. rewrite Hcs.
  unfold bind at 1. unfold gets at 1.
  rewrite collect_files_run. now eexists; eexists.
Qed.

(** One turn of the loop returns normally. *)
Lemma entry_runs (P : list string) (e : string) (acc : list Path) (w : world) :
  entry_ok e -> ready e -> before e P -> Inv P w ->
  exists l w', copy_entry self wb db e acc w = (Ok l, w').
Proof.
  intros Hok Hready HP Hinv.
  destruct (lookup (root w0) (qb ++ rel e)) as [[d|ks]|] eqn:E.
  - exact (file_runs P e acc w d Hok Hready HP Hinv E).
  - exact (dir_runs P e acc w ks Hok Hready HP Hinv E).
  - destruct Hready as (_ & Hex & _). now elim Hex.
Qed.

(** The loop of [copy_files] returns normally. *)
Lemma copy_loop_runs_all (L : list string) :
  (forall e, In e L -> entry_ok e /\ ready e) ->
  (forall e e', In e L -> In e' L -> compat e e') ->
  forall (es P : list string) (acc : list Path) (w : world),
    incl es L -> incl P L -> Inv P w ->
    exists l w', fold_m (copy_entry self wb db) es acc w = (Ok l, w').
Proof.
  intros Hok Hcompat.
  induction es as [|e es IH]; intros P acc w Hes HP Hinv; simpl.
  - unfold ret. now eexists; eexists.
  - assert (In e L) as HeL by (apply Hes; now left).
    destruct (Hok e HeL) as [Hoke Hre].
    assert (before e P) as Hbef.
    { intros e' Hin. split; [exact (Hcompat e e' HeL (HP e' Hin))|].
      exact (proj1 (proj2 (proj2 (Hok e' (HP e' Hin))))). }
    destruct (entry_runs P e acc w Hoke Hre Hbef Hinv) as (l1 & w1 & H1).
    destruct (entry_turn P e acc l1 w w1 Hoke
                (fun e' Hin => Hcompat e e' HeL (HP e' Hin)) Hinv H1)
      as (Hinv1 & _).
    destruct (IH (e :: P) l1 w1) as (l & w' & H).
    + intros x Hx. apply Hes. now right.
    + intros x [<-|Hx]; [exact HeL|now apply HP].
    + exact Hinv1.
    + exists l, w'. unfold bind. now rewrite H1.
Qed.

End Mirror.

(* ===================================================================== *)
(** * The run as a whole *)
(* ===================================================================== *)

(** X21. The roots are given by paths without [..] and neither lies inside
    the other; the entries are relative, without [..], none lies inside
    another, and none that names a regular file has its place in the
    destination taken by a directory.  When [sync] returns normally, the
    regular files below the path of every entry in the destination are
    exactly those below the path of the entry in the source, with the same
    content. *)
Theorem sync_mirrors_entries
  (self : WSLSyncEngine) (wb db : Path) (w w' : world) :
  windows_base (config self) = Some wb ->
  wsl2_base (config self) = Some db ->
  plain wb = true -> plain db = true ->
  is_prefix (loc w db) (loc w wb) = false ->
  is_prefix (loc w wb) (loc w db) = false ->
  (forall e, In e (files (config self)) ->
     absolute (Path_of_string e) = false /\ plain (Path_of_string e) = true /\
     (is_file w (join wb e) = true -> is_dir w (join db e) = false)) ->
  (forall e e', In e (files (config self)) -> In e' (files (config self)) ->
     parts (Path_of_string e) = parts (Path_of_string e') \/
     (is_prefix (parts (Path_of_string e)) (parts (Path_of_string e')) = false /\
      is_prefix (parts (Path_of_string e')) (parts (Path_of_string e)) = false)) ->
  wfb (root w) = true -> denied w = [] ->
  sync self w = (Ok tt, w') ->
  forall e, In e (files (config self)) ->
  forall rel d, forallb not_dotdot rel = true ->
    (stat w' (below (join db e) rel) = Some (File d) <->
     stat w (below (join wb e) rel) = Some (File d)).
Proof.
  intros Hwb Hb Hwbp Hdb Hqa Hbq He Hcompat Hwf Hden H e0 He0 s d Hs.
  unfold sync in H. apply bind_ok in H as (b & w1 & Hv & H).
  pose proof (validate_paths_keeps_world self w) as Hvw.
  rewrite Hv in Hvw. cbn [snd] in Hvw. subst w1.
  rewrite validate_paths_run, Hwb, Hb in Hv.
  destruct (exists_ w wb) eqn:Exw; cbn [negb] in Hv; [|discriminate Hv].
  destruct (exists_ w db) eqn:Exd; cbn [negb] in Hv; [|discriminate Hv].
  destruct (listing w wb) as [lw|]; [|discriminate Hv].
  destruct (listing w db) as [ld|] eqn:Eld; [|discriminate Hv]. clear Hv.
  assert (kind_at w (loc w db) = KDir) as Hq.
  { unfold listing, Path_iterdir, walk_error, raise in Eld.
    destruct (locate w db) as [r| |] eqn:El;
      try (destruct false; discriminate Eld).
    apply (locate_plain_At w db r Hdb) in El. subst r. unfold kind_at.
    destruct (lookup (root w) (loc w db)) as [[d'|ks]|];
      [discriminate Eld|reflexivity|discriminate Eld]. }
  assert (forall e, In e (files (config self)) ->
            absolute (Path_of_string e) = false /\
            forallb not_dotdot (parts (Path_of_string e)) = true /\
            (kind_at w (loc w wb ++ parts (Path_of_string e)) = KFile ->
             kind_at w (loc w db ++ parts (Path_of_string e)) <> KDir)) as Hok.
  { intros e Hin. destruct (He e Hin) as (Habs & Hpl & Hfd).
    split; [exact Habs|]. split; [exact Hpl|]. intros Hk Hkd.
    assert (is_file w (join wb e) = true) as Hf.
    { rewrite is_file_plain
        by (rewrite (join_relative wb e Habs); now apply plain_below).
      rewrite (source_loc wb w e w Habs eq_refl). unfold kind_at in Hk.
      now rewrite Hk. }
    specialize (Hfd Hf). unfold is_dir in Hfd.
    rewrite (stat_plain w _ (dest_plain db Hdb e Habs Hpl)) in Hfd.
    rewrite (dest_loc db w e w Habs eq_refl) in Hfd.
    unfold kind_at in Hkd. rewrite Hkd in Hfd. discriminate Hfd. }
  apply bind_ok in H as (l & w2 & Hcp & H).
  apply bind_ok in H as (dl & w3 & Hcl & H).
  apply ret_ok in H as [_ ->].
  unfold copy_files in Hcp. rewrite Hwb, Hb in Hcp.
  destruct (copy_loop_mirror self wb db w Hwbp Hdb Hqa Hbq Hq Hwf Hden
              (files (config self)) Hok Hcompat
              (files (config self)) [] [] l w w2
              (incl_refl _) (incl_nil_l _) (Inv_start wb db w Hq Hwf) Hcp)
    as (new & -> & (Hc2 & Hd2 & Hwf2 & Hq2 & Hdone & _) & Hkeeps).
  simpl app in *.
  assert (exists_ w2 db = true) as Exd2.
  { unfold exists_. rewrite (stat_plain w2 db Hdb).
    assert (loc w2 db = loc w db) as -> by (unfold loc; now rewrite Hc2).
    unfold kind_at in Hq2. now rewrite Hq2. }
  destruct (cleanup_destination_keeps self db new w2 Hb Exd2 Hwf2)
    as (w3' & Hrun & Hc3 & Hk3); [congruence|].
  rewrite Hrun in Hcl. inversion Hcl; subst w3'. clear Hcl.
  destruct (cleanup_destination_shr self new w2 _ w3 Hrun) as [_ Hrm].
  destruct (Hok e0 He0) as (Habs & Hpl & _).
  assert (plain (below (join db e0) s) = true) as Hp1.
  { apply plain_below; [exact (dest_plain db Hdb e0 Habs Hpl)|exact Hs]. }
  assert (plain (below (join wb e0) s) = true) as Hp2.
  { apply plain_below; [|exact Hs].
    rewrite (join_relative wb e0 Habs). now apply plain_below. }
  assert (loc w3 (below (join db e0) s)
          = loc w db ++ parts (Path_of_string e0) ++ s) as El1.
  { rewrite (join_relative db e0 Habs), below_below. unfold loc, below.
    cbn [absolute parts]. rewrite Hc3, Hc2. now rewrite app_assoc. }
  assert (loc w (below (join wb e0) s)
          = loc w wb ++ parts (Path_of_string e0) ++ s) as El2.
  { rewrite (join_relative wb e0 Habs), below_below. unfold loc, below.
    cbn [absolute parts]. now rewrite app_assoc. }
  rewrite (stat_plain w3 _ Hp1), (stat_plain w _ Hp2), El1, El2.
  assert (lookup (root w2) (loc w db ++ parts (Path_of_string e0) ++ s)
          = lookup (root w) (loc w wb ++ parts (Path_of_string e0) ++ s)) as E2.
  { rewrite !app_assoc.
    rewrite (lookup_app (root w2) (loc w db ++ parts (Path_of_string e0)) s).
    rewrite (lookup_app (root w) (loc w wb ++ parts (Path_of_string e0)) s).
    f_equal. apply Hdone. apply in_or_app. left. now apply in_rev in He0. }
  split.
  - intros H3. rewrite <- E2. exact (Hrm _ (File d) H3).
  - intros Hsrc. apply Hk3; [now rewrite E2|].
    intros f Hf Hloc. unfold should_keep.
    apply filter_In in Hf as [Hf _].
    apply (Path_rglob_plain w2 db f Hwf2) in Hf as (r & Hne & Hrpl & ->).
    apply (locate_plain_At w2 _ _ (plain_below db r Hdb Hrpl)) in Hloc.
    assert (loc w2 (below db r) = loc w db ++ r) as Er.
    { unfold loc, below. cbn [absolute parts]. rewrite Hc2.
      now rewrite app_assoc. }
    rewrite Er in Hloc. apply app_inv_head in Hloc. subst r.
    assert (Path_in (below db (parts (Path_of_string e0) ++ s)) new = true)
      as -> by exact (Hkeeps e0 He0 s d Hsrc).
    reflexivity.
Qed.

(** The scenario of the specification: a file of the directory entry. *)
Lemma sync_spec_scenario_mirrors :
  stat (snd (sync engine_spec world_spec))
       (below (join (P "/dst") "sub") ["b.txt"]) = Some (File "B") <->
  stat world_spec (below (join (P "/src") "sub") ["b.txt"]) = Some (File "B").
Proof.
  refine (sync_mirrors_entries engine_spec (P "/src") (P "/dst") world_spec _
            eq_refl eq_refl eq_refl eq_refl eq_refl eq_refl _ _
            eq_refl eq_refl _ "sub" _ ["b.txt"] "B" eq_refl).
  - intros e [<-|[<-|[]]]; repeat split; try reflexivity; intros _; reflexivity.
  - intros e e' [<-|[<-|[]]] [<-|[<-|[]]];
      (left; reflexivity) || (right; split; reflexivity).
  - vm_compute. reflexivity.
  - simpl. auto.
Defined.

(** X23. Both roots are present as directories, given by paths without [..],
    and neither lies inside the other; nothing is refused.  The entries are
    relative, without [..], not empty, present in the source, and none lies
    inside another; no regular file is among the ancestors of their paths
    below the destination root, the place of a regular file is not taken by
    a directory and the place of a directory is not taken by a regular
    file.  Then [sync] returns normally. *)
Theorem sync_entries_succeed
  (self : WSLSyncEngine) (wb db : Path) (w : world) :
  windows_base (config self) = Some wb ->
  wsl2_base (config self) = Some db ->
  plain wb = true -> plain db = true ->
  is_prefix (loc w db) (loc w wb) = false ->
  is_prefix (loc w wb) (loc w db) = false ->
  is_dir w wb = true -> is_dir w db = true ->
  (forall e, In e (files (config self)) ->
     absolute (Path_of_string e) = false /\ plain (Path_of_string e) = true /\
     parts (Path_of_string e) <> [] /\
     exists_ w (join wb e) = true /\
     (is_file w (join wb e) = true -> is_dir w (join db e) = false) /\
     (is_dir w (join wb e) = true -> is_file w (join db e) = false) /\
     (forall p, In p (parents (join db e)) -> is_file w p = false)) ->
  (forall e e', In e (files (config self)) -> In e' (files (config self)) ->
     parts (Path_of_string e) = parts (Path_of_string e') \/
     (is_prefix (parts (Path_of_string e)) (parts (Path_of_string e')) = false /\
      is_prefix (parts (Path_of_string e')) (parts (Path_of_string e)) = false)) ->
  wfb (root w) = true -> denied w = [] ->
  exists w', sync self w = (Ok tt, w').
Proof.
  intros Hwb Hb Hwbp Hdb Hqa Hbq Hdw Hdd He Hcompat Hwf Hden.
  assert (kind_at w (loc w db) = KDir) as Hq.
  { unfold is_dir in Hdd. rewrite (stat_plain w db Hdb) in Hdd. unfold kind_at.
    destruct (kind_of (lookup (root w) (loc w db))); now try discriminate Hdd. }
  assert (forall e, In e (files (config self)) ->
            (absolute (Path_of_string e) = false /\
             forallb not_dotdot (parts (Path_of_string e)) = true /\
             (kind_at w (loc w wb ++ parts (Path_of_string e)) = KFile ->
              kind_at w (loc w db ++ parts (Path_of_string e)) <> KDir)) /\
            (parts (Path_of_string e) <> [] /\
             lookup (root w) (loc w wb ++ parts (Path_of_string e)) <> None /\
             (forall a,
                is_prefix a (loc w db ++ removelast (parts (Path_of_string e)))
                = true -> kind_at w a <> KFile) /\
             (kind_at w (loc w wb ++ parts (Path_of_string e)) = KDir ->
              kind_at w (loc w db ++ parts (Path_of_string e)) <> KFile)))
    as Hgood.
  { intros e Hin.
    destruct (He e Hin) as (Habs & Hpl & Hrne & Hex & Hfd & Hdf & Hanc).
    assert (plain (join wb e) = true) as Hspl
      by (rewrite (join_relative wb e Habs); now apply plain_below).
    pose proof (dest_plain db Hdb e Habs Hpl) as Hdpl.
    pose proof (source_loc wb w e w Habs eq_refl) as Esl.
    pose proof (dest_loc db w e w Habs eq_refl) as Edl.
    split; [split; [exact Habs|split; [exact Hpl|]]
           |split; [exact Hrne|split; [|split]]].
    - intros Hk Hkd.
      assert (is_file w (join wb e) = true) as Hf.
      { rewrite (is_file_plain w _ Hspl), Esl. unfold kind_at in Hk.
        now rewrite Hk. }
      specialize (Hfd Hf). unfold is_dir in Hfd.
      rewrite (stat_plain w _ Hdpl), Edl in Hfd.
      unfold kind_at in Hkd. rewrite Hkd in Hfd. discriminate Hfd.
    - unfold exists_ in Hex. rewrite (stat_plain w _ Hspl), Esl in Hex.
      intros E. rewrite E in Hex. discriminate Hex.
    - intros a Ha Hka.
      apply is_prefix_app_cases in Ha as [[Ha Hne]|(s & -> & Hs)].
      + assert (kind_at w a = KDir) as Hkd.
        { apply (prefix_of_existing_is_dir _ a (loc w db) Ha Hne).
          unfold kind_at in Hq.
          destruct (lookup (root w) (loc w db)); [discriminate|discriminate Hq]. }
        congruence.
      + assert (is_file w (below db s) = false) as Hnf.
        { apply Hanc. rewrite (join_relative db e Habs). unfold parents, below.
          cbn [absolute parts]. apply in_rev. rewrite rev_involutive.
          apply (in_map (mkPath (absolute db))). apply proper_prefixes_In.
          - rewrite is_prefix_app.
            exact (is_prefix_trans _ _ _ Hs (is_prefix_removelast _)).
          - intros E. apply app_inv_head in E. subst s.
            apply is_prefix_length in Hs.
            pose proof (length_removelast _ Hrne). lia. }
        rewrite is_file_plain in Hnf.
        * unfold loc, below in Hnf. cbn [absolute parts] in Hnf.
          rewrite app_assoc in Hnf. fold (loc w db) in Hnf.
          unfold kind_at in Hka. rewrite Hka in Hnf. discriminate Hnf.
        * apply plain_below; [exact Hdb|].
          apply forallb_removelast in Hpl.
          destruct (proj1 (is_prefix_iff _ _) Hs) as [t Ht]. rewrite Ht in Hpl.
          rewrite forallb_app in Hpl. now apply andb_true_iff in Hpl as [Hpl _].
    - intros Hk Hkf.
      assert (is_dir w (join wb e) = true) as Hd.
      { unfold is_dir. rewrite (stat_plain w _ Hspl), Esl. unfold kind_at in Hk.
        now rewrite Hk. }
      specialize (Hdf Hd). rewrite (is_file_plain w _ Hdpl), Edl in Hdf.
      unfold kind_at in Hkf. rewrite Hkf in Hdf. discriminate Hdf. }
  unfold sync. unfold bind at 1. rewrite validate_paths_run, Hwb, Hb.
  assert (exists_ w wb = true) as ->
    by (unfold exists_; unfold is_dir in Hdw;
        destruct (kind_of (stat w wb)); now try discriminate Hdw).
  assert (exists_ w db = true) as ->
    by (unfold exists_; unfold is_dir in Hdd;
        destruct (kind_of (stat w db)); now try discriminate Hdd).
  cbn [negb].
  destruct (listing_dir w wb Hdw Hden) as [lw ->].
  destruct (listing_dir w db Hdd Hden) as [ld ->].
  unfold copy_files. rewrite Hwb, Hb.
  destruct (copy_loop_runs_all self wb db w Hwbp Hdb Hqa Hbq Hq Hwf Hden
              (files (config self)) Hgood Hcompat
              (files (config self)) [] [] w
              (incl_refl _) (incl_nil_l _) (Inv_start wb db w Hq Hwf))
    as (l & w2 & Hcp).
  destruct (copy_loop_mirror self wb db w Hwbp Hdb Hqa Hbq Hq Hwf Hden
              (files (config self)) (fun e Hin => proj1 (Hgood e Hin)) Hcompat
              (files (config self)) [] [] l w w2
              (incl_refl _) (incl_nil_l _) (Inv_start wb db w Hq Hwf) Hcp)
    as (new & -> & (Hc2 & Hd2 & Hwf2 & Hq2 & _) & _).
  unfold bind. rewrite Hcp.
  assert (exists_ w2 db = true) as Exd2.
  { unfold exists_. rewrite (stat_plain w2 db Hdb).
    assert (loc w2 db = loc w db) as -> by (unfold loc; now rewrite Hc2).
    unfold kind_at in Hq2. now rewrite Hq2. }
  destruct (cleanup_destination_keeps self db ([] ++ new) w2 Hb Exd2 Hwf2)
    as (w3 & Hrun & _); [congruence|].
  rewrite Hrun. unfold ret. now exists w3.
Qed.

(** The scenario of the specification returns normally. *)
Lemma sync_spec_scenario_runs :
  exists w', sync engine_spec world_spec = (Ok tt, w').
Proof.
  refine (sync_entries_succeed engine_spec (P "/src") (P "/dst") world_spec
            eq_refl eq_refl eq_refl eq_refl eq_refl eq_refl eq_refl eq_refl
            _ _ eq_refl eq_refl).
  - intros e [<-|[<-|[]]]; repeat split; try reflexivity;
      try discriminate; try (intros _; reflexivity);
      intros p Hp; vm_compute in Hp; repeat destruct Hp as [<-|Hp];
      try reflexivity; contradiction.
  - intros e e' [<-|[<-|[]]] [<-|[<-|[]]];
      (left; reflexivity) || (right; split; reflexivity).
Defined.

End MirrorProps.

Module StaleProps.

Import PrefixProps PathSafety TreeProps WfProps WalkProps RemoveProps GrowProps.
Import CopyProps CleanupProps ValidateProps KeepProps MkdirProps ListingProps.
Import ConfineProps ShrinkProps FileEntryProps DirEntryProps MirrorProps.

(* ===================================================================== *)
(** * The refused directories stay the same *)
(* ===================================================================== *)

Section Refused.

Let den {X : Type} (m : M X) : Prop :=
  forall w r w', m w = (r, w') -> denied w' = denied w.

Lemma den_same {X} (m : M X) :
  (forall w r w', m w = (r, w') -> w' = w) -> den m.
Proof. intros Hm w r w' H. apply Hm in H. now subst. Qed.

Lemma den_quiet {X} (m : M X) : quiet m -> den m.
Proof. intros Hm w r w' H. now destruct (Hm _ _ _ H) as [cs ->]. Qed.

Lemma den_ret {X} (x : X) : den (ret x).
Proof. apply den_same. intros w r w' H. unfold ret in H. now inversion H. Qed.

Lemma den_raise {X} (e : exn) : den (@raise X e).
Proof. apply den_same. intros w r w' H. unfold raise in H. now inversion H. Qed.

Lemma den_gets {X} (f : world -> X) : den (gets f).
Proof. apply den_same. intros w r w' H. unfold gets in H. now inversion H. Qed.

Lemma den_bind {X Y} (m : M X) (k : X -> M Y) :
  den m -> (forall a, den (k a)) -> den (bind m k).
Proof.
  intros Hm Hk w r w' H. unfold bind in H.
  destruct (m w) as [[a|e] w1] eqn:E.
  - rewrite (Hk a w1 r w' H). exact (Hm w _ w1 E).
  - inversion H; subst. exact (Hm w _ w' E).
Qed.

Lemma den_rewrap {X} (m : M X) (mp mo : string) : den m -> den (rewrap m mp mo).
Proof.
  intros Hm w r w' H. unfold rewrap in H.
  destruct (m w) as [[a|e] w1] eqn:E.
  - inversion H; subst. exact (Hm w _ w' E).
  - assert (w' = w1) as ->.
    { destruct (is_PermissionError e); [now inversion H|].
      destruct (is_OSError e); now inversion H. }
    exact (Hm w _ w1 E).
Qed.

Lemma den_fold_m {X S} (body : X -> S -> M S) (l : list X) :
  (forall x s, den (body x s)) -> forall s, den (fold_m body l s).
Proof.
  intros Hb. induction l as [|x l IH]; intros s; [apply den_ret|].
  simpl. apply den_bind; [apply Hb|exact IH].
Qed.

Lemma os_mkdir_den (p : Path) : den (os_mkdir p).
Proof.
  intros w r w' H.
  destruct (os_mkdir_at _ _ _ _ H) as [->|(q & _ & _ & _ & _ & ->)];
    reflexivity.
Qed.

Lemma mkdir_parents_den (abs : bool) (rparts : list string) :
  den (mkdir_parents abs rparts).
Proof.
  intros w r w' H.
  apply (mkdir_parents_rel (fun v v' => denied v' = denied v) abs)
    with (rparts := rparts) (r := r); [reflexivity|congruence| |exact H].
  intros pre up v v' r' _ Hv. exact (os_mkdir_den _ _ _ _ Hv).
Qed.

Lemma os_makedirs_den (p : Path) : den (os_makedirs p).
Proof.
  unfold os_makedirs. destruct (rev (parts p)) as [|c up];
    [apply os_mkdir_den|].
  apply den_bind; [apply mkdir_parents_den|intros _; apply os_mkdir_den].
Qed.

Lemma shutil_copy2_den (src dst : Path) : den (shutil_copy2 src dst).
Proof.
  intros w r w' H. unfold shutil_copy2, walk_error, raise in H.
  destruct (samefile w src _); [now inversion H|].
  destruct (stat w src) as [[data|ks]|]; try (now inversion H).
  destruct (locate w _) as [a| |]; try (now inversion H).
  destruct (lookup (root w) a) as [[d|ks]|]; try (now inversion H).
  destruct (can_create w a); now inversion H.
Qed.

Lemma shutil_rmtree_den (p : Path) : den (shutil_rmtree p).
Proof.
  intros w r w' H. unfold shutil_rmtree, walk_error, raise in H.
  destruct (locate w p) as [a| |]; try (now inversion H).
  destruct (lookup (root w) a) as [[d|ks]|]; try (now inversion H).
  destruct a; now inversion H.
Qed.

Lemma shutil_copytree_den (src dst : Path) : den (shutil_copytree src dst).
Proof.
  intros w r w' H. unfold shutil_copytree, walk_error, raise in H.
  destruct (stat w src) as [[d|ks]|]; try (now inversion H);
    try (destruct (locate w src); now inversion H).
  destruct (locate w src) as [qs| |]; try (now inversion H).
  destruct (os_makedirs dst w) as [[u|e] w1] eqn:Em;
    pose proof (os_makedirs_den dst w _ w1 Em) as Hd;
    [|inversion H; now subst].
  destruct (locate w1 dst) as [qd| |]; try (inversion H; now subst).
  destruct (_ && _); inversion H; now subst.
Qed.

Lemma create_directory_structure_den (self : WSLSyncEngine) (fp : Path) :
  den (create_directory_structure self fp).
Proof.
  unfold create_directory_structure. apply den_rewrap.
  apply den_bind; [apply mkdir_parents_den|]. intros _.
  destruct (wsl2_base (config self)) as [base|]; [|apply den_ret].
  apply den_quiet, chmod_parents_quiet.
Qed.

Lemma copy_entry_den (self : WSLSyncEngine) (wb db : Path) (e : string)
  (acc : list Path) :
  den (copy_entry self wb db e acc).
Proof.
  unfold copy_entry. cbv zeta.
  apply den_bind; [apply den_gets|]. intros ex.
  destruct ex; cbn [negb]; [|apply den_raise].
  apply den_bind; [apply den_gets|]. intros isf. destruct isf.
  - apply den_bind; [apply create_directory_structure_den|].
    intros _. apply den_rewrap. apply den_bind; [|intros _; apply den_ret].
    apply shutil_copy2_den.
  - apply den_bind; [apply den_gets|]. intros isd.
    destruct isd; [|apply den_ret]. apply den_rewrap.
    apply den_bind; [apply den_gets|]. intros dex. apply den_bind.
    { destruct dex; [apply shutil_rmtree_den|apply den_ret]. }
    intros _. apply den_bind; [apply shutil_copytree_den|].
    intros _. apply den_bind.
    { apply den_quiet, os_chmod_same. }
    intros _. apply den_bind; [apply den_gets|]. intros found. apply den_bind.
    { apply den_quiet, chmod_dirs_same. }
    intros _. apply den_bind; [apply den_gets|]. intros found'.
    apply den_same. intros w r w' H. rewrite collect_files_run in H.
    now inversion H.
Qed.

Lemma copy_files_den (self : WSLSyncEngine) : den (copy_files self).
Proof.
  unfold copy_files.
  destruct (windows_base (config self)) as [wb|]; [|apply den_raise].
  destruct (wsl2_base (config self)) as [db|]; [|apply den_raise].
  apply den_fold_m. intros e acc. apply copy_entry_den.
Qed.

End Refused.

(* ===================================================================== *)
(** * What the cleanup takes away *)
(* ===================================================================== *)

Lemma Path_eqb_eq (p p' : Path) : Path_eqb p p' = true -> p = p'.
Proof.
  destruct p as [a ps], p' as [a' ps']. unfold Path_eqb. cbn [absolute parts].
  intros H. apply andb_true_iff in H as [Ha Hp].
  apply Bool.eqb_prop in Ha. apply parts_eqb_eq in Hp. now subst.
Qed.

(** A destination file that the cleanup does not keep is gone. *)
Lemma cleanup_destination_drops (self : WSLSyncEngine) (db : Path)
  (keep_files : list Path) (w : world) :
  wsl2_base (config self) = Some db -> exists_ w db = true ->
  wfb (root w) = true -> denied w = [] ->
  exists w',
    cleanup_destination self keep_files w
    = (Ok (filter (fun f => negb (should_keep self db keep_files f))
                  (files_below w db)), w') /\
    forall f a,
      In f (files_below w db) -> locate w f = At a ->
      should_keep self db keep_files f = false ->
      kind_at w' a = KNone.
Proof.
  intros Hdb Hex Hwf Hden.
  unfold cleanup_destination. rewrite Hdb. unfold bind at 1.
  rewrite (get_destination_files_run self db w Hdb Hex).
  destruct (is_dir w db) eqn:Edir.
  2:{ assert (files_below w db = []) as Hnone
        by (unfold files_below; now rewrite Path_rglob_not_dir).
      rewrite Hnone. simpl. unfold bind, gets, ret.
      rewrite Path_rglob_not_dir by exact Edir. simpl.
      exists w. split; [reflexivity|contradiction]. }
  unfold is_dir, stat in Edir.
  destruct (locate w db) as [q| |] eqn:Hq; try discriminate Edir.
  destruct (lookup (root w) q) as [[d|ks]|] eqn:Eq; try discriminate Edir.
  assert (stat w db = Some (Dir ks)) as Hstat by (unfold stat; now rewrite Hq).
  assert (wfb (Dir ks) = true) as Hwfd by exact (wfb_lookup _ _ _ Hwf Eq).
  set (R := filter (fun rel => is_file w (below db rel)) (rglob_node (Dir ks))).
  assert (files_below w db = map (below db) R) as Hfiles.
  { unfold files_below. rewrite (Path_rglob_dir w db ks Hstat Hden).
    apply filter_map_comm. }
  assert (forall rel, In rel R ->
            rel <> [] /\ forallb not_dotdot rel = true /\
            kind_at w (q ++ rel) = KFile) as HR.
  { intros rel Hin. apply filter_In in Hin as [Hin Hf].
    pose proof (proj1 (rglob_In (Dir ks) Hwfd rel) Hin) as [Hne Hlk].
    destruct (lookup (Dir ks) rel) as [c|] eqn:Ec; [|congruence].
    pose proof (lookup_not_dotdot rel (Dir ks) c Hwfd Ec) as Hpl.
    split; [exact Hne|]. split; [exact Hpl|].
    rewrite (is_file_below w db q rel Hq Hpl) in Hf.
    destruct (kind_at w (q ++ rel)); now simpl in Hf. }
  assert (NoDup R) as HndR by (apply NoDup_filter, rglob_NoDup, Hwfd).
  destruct (delete_loop self db keep_files q R HndR [] w Hq HR)
    as (w1 & Hrun & Hc1 & Hd1 & Hq1 & Hk1).
  rewrite Hfiles. unfold bind at 1. rewrite Hrun.
  unfold bind at 1. unfold gets at 1.
  destruct (prune_loop (Path_rglob w1 db) w1) as (w' & Hprune & Hc & Hd & Hk);
    [congruence|].
  unfold bind. rewrite Hprune. unfold ret. exists w'. split.
  - simpl. now rewrite filter_map_comm.
  - intros f a Hf Hloc Hkeep. apply in_map_iff in Hf as [rel [<- Hrel]].
    destruct (HR rel Hrel) as (Hne & Hpl & Hfile).
    assert (a = q ++ rel) as ->.
    { rewrite (locate_below w db q rel Hq Hpl) in Hloc; [now inversion Hloc|].
      unfold kind_at in Hfile.
      destruct (lookup (root w) (q ++ rel)); [discriminate|discriminate Hfile]. }
    assert (kind_at w1 (q ++ rel) = KNone) as H1.
    { rewrite Hk1.
      assert (existsb (parts_eqb (q ++ rel))
                (map (app q)
                   (filter (fun r => negb (should_keep self db keep_files (below db r))) R))
              = true) as ->; [|reflexivity].
      apply existsb_exists. exists (q ++ rel). split.
      - apply in_map. apply filter_In. split; [exact Hrel|now rewrite Hkeep].
      - now apply parts_eqb_eq. }
    destruct (Hk (q ++ rel)) as [H|[H _]]; congruence.
Qed.

(** X22. The source root is read from a string, the destination root has
    no [..], and the entries are relative and without [..].  When [sync]
    returns normally on a well-formed tree with nothing refused, a regular
    file below the destination root is the place of an entry, lies below
    the place of an entry, or has a relative path that an entry matches by
    the string test of the cleanup: nothing else is left. *)
Theorem sync_leaves_no_stale_file
  (self : WSLSyncEngine) (swb : string) (db : Path) (w w' : world) :
  windows_base (config self) = Some (Path_of_string swb) ->
  wsl2_base (config self) = Some db ->
  plain db = true ->
  (forall e, In e (files (config self)) ->
     absolute (Path_of_string e) = false /\ plain (Path_of_string e) = true) ->
  wfb (root w) = true -> denied w = [] ->
  sync self w = (Ok tt, w') ->
  forall rel, rel <> [] -> forallb not_dotdot rel = true ->
    is_file w' (below db rel) = true ->
    (exists e, In e (files (config self)) /\
               (below db rel = join db e \/
                strictly_under (join db e) (below db rel))) \/
    existsb (matches_entry (mkPath false rel)) (files (config self)) = true.
Proof.
  intros Hwb Hb Hdb He Hwf Hden H rel Hne Hrel Hfile.
  unfold sync in H. apply bind_ok in H as (b & w1 & Hv & H).
  pose proof (validate_paths_keeps_world self w) as Hvw.
  rewrite Hv in Hvw. cbn [snd] in Hvw. subst w1.
  assert (b = true) as ->.
  { rewrite validate_paths_run, Hwb, Hb in Hv.
    destruct (negb _); [discriminate Hv|].
    destruct (negb _); [discriminate Hv|].
    destruct (listing w _); [|discriminate Hv].
    destruct (listing w db); [now inversion Hv|discriminate Hv]. }
  assert (is_dir w (Path_of_string swb) = true) as Hdir.
  { apply (validate_paths_source_is_dir self _ w Hwb). now rewrite Hv. }
  assert (exists c, lookup (root w) (loc w db) = Some c) as [c Eq].
  { rewrite validate_paths_run, Hwb, Hb in Hv.
    destruct (negb _); [discriminate Hv|].
    destruct (exists_ w db) eqn:Ex; [|discriminate Hv].
    rewrite <- (stat_plain w db Hdb). unfold exists_ in Ex.
    destruct (stat w db) as [c|]; [now exists c|discriminate Ex]. }
  apply bind_ok in H as (l & w2 & Hcp & H).
  apply bind_ok in H as (dl & w3 & Hcl & H).
  apply ret_ok in H as [_ ->].
  (* after the copies *)
  destruct (copy_files_conf db (cwd w) Hdb (lookup_not_dotdot _ _ _ Hwf Eq)
              self swb Hwb Hb He w (Ok l) w2) as [(Hc2 & Hwf2 & _) _].
  { split; [reflexivity|]. split; [exact Hwf|].
    intros a Ha Hna. apply is_prefix_iff in Ha as [s Hs].
    destruct s as [|x s]; [rewrite app_nil_r in Hs; congruence|].
    unfold kind_at. apply (lookup_prefix_dir (root w) a s x).
    unfold loc in Eq. congruence. }
  { exact Hcp. }
  pose proof (copy_files_den self w (Ok l) w2 Hcp) as Hd2.
  assert (forall p, In p l ->
            exists e, In e (files (config self)) /\
                      (p = join db e \/ strictly_under (join db e) p)) as Hl.
  { unfold copy_files in Hcp. rewrite Hwb, Hb in Hcp.
    destruct (copy_loop self _ db _ _ _ _ _ Hdir Hcp) as (new & -> & Hnew).
    intros p Hp. exact (proj2 (Hnew p Hp)). }
  (* the cleanup *)
  assert (exists_ w2 db = true) as Exd2.
  { unfold cleanup_destination in Hcl. rewrite Hb in Hcl.
    apply bind_ok in Hcl as (all & w4 & Hg & _).
    unfold get_destination_files in Hg. rewrite Hb in Hg.
    apply bind_ok in Hg as (ex & w5 & Hex & Hg).
    apply gets_ok in Hex as [-> ->].
    destruct (exists_ w2 db); [reflexivity|discriminate Hg]. }
  assert (denied w2 = []) as Hden2 by congruence.
  destruct (cleanup_destination_drops self db l w2 Hb Exd2 Hwf2)
    as (w3' & Hrun & Hdrop); [exact Hden2|].
  rewrite Hrun in Hcl. inversion Hcl; subst w3'. clear Hcl.
  destruct (cleanup_destination_shr self l w2 _ w3 Hrun) as [Hc3 Hrm].
  pose proof (plain_below db rel Hdb Hrel) as Hpl.
  rewrite (is_file_plain w3 _ Hpl) in Hfile.
  assert (loc w3 (below db rel) = loc w2 (below db rel)) as El
    by (unfold loc; now rewrite Hc3).
  rewrite El in Hfile.
  destruct (lookup (root w3) (loc w2 (below db rel))) as [[d|ks]|] eqn:E3;
    try discriminate Hfile.
  pose proof (Hrm _ (File d) E3) as E2. cbv beta iota in E2.
  assert (In (below db rel) (files_below w2 db)) as Hin.
  { apply (files_below_spec w2 db rel Hwf2 Hden2 Hne Hrel).
    rewrite (is_file_plain w2 _ Hpl). now rewrite E2. }
  pose proof (locate_plain w2 _ (File d) Hpl E2) as Hloc.
  destruct (should_keep self db l (below db rel)) eqn:Ek.
  - unfold should_keep in Ek. apply orb_true_iff in Ek as [Ek|Ek].
    + left. apply existsb_exists in Ek as (p & Hp & Epp).
      apply Path_eqb_eq in Epp. subst p. exact (Hl _ Hp).
    + right. now rewrite relative_to_below in Ek.
  - exfalso. pose proof (Hdrop _ _ Hin Hloc Ek) as Hk.
    unfold kind_at in Hk. rewrite E3 in Hk. discriminate Hk.
Qed.

(** The scenario of the specification: what is left below [/dst]. *)
Lemma sync_spec_scenario_no_stale :
  (exists e, In e (files (config engine_spec)) /\
             (below (P "/dst") ["a.txt"] = join (P "/dst") e \/
              strictly_under (join (P "/dst") e) (below (P "/dst") ["a.txt"]))) \/
  existsb (matches_entry (mkPath false ["a.txt"])) (files (config engine_spec))
  = true.
Proof.
  refine (sync_leaves_no_stale_file engine_spec "/src" (P "/dst") world_spec
            (snd (sync engine_spec world_spec))
            eq_refl eq_refl eq_refl _ eq_refl eq_refl _ ["a.txt"] _
            eq_refl eq_refl).
  - intros e [<-|[<-|[]]]; split; reflexivity.
  - vm_compute. reflexivity.
  - discriminate.
Defined.

End StaleProps.
